(* ===== verification/_CoqProject ===== *)
-Q . S2P
Prelude.v
GoFsm.v
FsmPool.v
Requests.v
Payload.v
SignatureProposal.v
DkgProposal.v
SigningProposal.v
StateMachines.v
Protocol.v
Samples.v
Rounds.v
LevelState.v
ClientTypes.v
Codec.v
OperationRepo.v
SignatureRepo.v
FsmService.v
JsonText.v
Representable.v
Outcomes.v
OrderIndependence.v
IOLogic.v
Kyber.v
Dkg.v
DkgSpec.v
SigningTasks.v
TaskSpec.v
KeyStore.v
FileStorage.v
Services.v
NodeService.v
ProcessMessage.v
AdaptSpec.v
KafkaStorage.v
MachineStore.v
Airgapped.v
NodeSpec.v
NodeRounds.v
NodeFrame.v
NodePoll.v
NodeOperations.v
AirgappedSpec.v
MachineRecursion.v
MachineFrame.v
MachineSpec.v
HttpApi.v
HttpSpec.v
GoText.v
CliArgs.v
Shell.v
Statuses.v
Visualize.v
Utils.v
Cli.v
CliSpec.v
Operator.v
ReinitTool.v
PrysmCheck.v
ToolSpec.v
Prompt.v
PromptSpec.v
Provider.v
ProviderSpec.v
Wire.v
World.v
Toy.v
MachineWorld.v
PromptWorld.v
NodeWorld.v
HttpWorld.v
ProviderWorld.v
CliWorld.v
DeskWorld.v
OperatorWorld.v
