(* ===== verification/Prelude.v ===== *)
(** * dc4bc: a verification library for the distributed-custody node

    dc4bc runs a distributed key generation and threshold signatures among
    participants who exchange messages over an append-only bulletin board. A
    node (the [client] packages) reads the board, turns every message into an
    event of a state machine (the [fsm] packages), keeps the machine's dump in
    a key-value store, and hands operations to an air-gapped machine that does
    the cryptography (the [airgapped] and [dkg] packages). An operator
    drives the node through an HTTP API with a command-line client, carries files
    to the machine and types commands at its prompt. This library models the
    state machines of a round, the node around them with its stores, services,
    API and start-up, the air-gapped machine with its prompt, and the tools of
    the operator, and proves what they guarantee alone and together.

    ** Files and the code they model

    - [Prelude]: Go values used throughout: panics ([Go]), errors, maps that may
      be [nil], map iteration in an unspecified order ([MapOrder], [range]),
      time, [strings], [encoding/json] as a parameter ([JSON], [JSONSpec]); and
      the shared lemmas, among them the counting of quorums ([qcount]).
    - [GoFsm]: [fsm/fsm/fsm.go], the engine. [MustNewFSM] builds the transition
      tables from event descriptors, [Do] runs an event, its callback and the
      automatic event of the state reached. [spec_do] is the same run as a
      function of the descriptors; [Do_refines_spec] shows that the engine
      implements it. Callback bodies are written in the monad [Act] (state,
      early return, panic), one bind for one statement of the Go body.
    - [FsmPool]: [fsm/fsm_pool/fsm_pool.go], the index of machines by state and
      by event, over the class [MachineProvider] (the Go interface).
    - [Requests]: [fsm/config], [fsm/types/requests], [fsm/types/responses]: the
      typed arguments and answers of events, and the [Validate] methods.
    - [Payload]: [fsm/state_machines/internal]: the payload of a dump, the three
      quorums and their accessors.
    - [SignatureProposal], [DkgProposal], [SigningProposal]: the machines of
      [fsm/state_machines/*_proposal_fsm]: states, events, every action, the
      table and the callbacks, then the invariant of the stage ([sig_inv],
      [dkg_inv], [signing_inv], inductive, a constructor for each state) and the
      proof that every event keeps it and that no event panics.
    - [StateMachines]: [fsm/state_machines/provider.go]: [FSMInstance] and its
      dump, [Create], [FromDump], [Do], and the pool of the three machines.
    - [Protocol]: the life of an instance: created, sent events, dumped and
      reloaded by whichever machine its state belongs to; [reachable] and the
      invariant of reachable instances.
    - [Samples]: a complete round of two participants, with a concrete map order
      and encoder, on which the theorems are evaluated.
    - [Rounds]: what every reachable instance guarantees.
    - [LevelState]: [client/modules/state]: the node's key-value state. LevelDB
      is a class ([LevelDB]) with its documented laws ([LevelDBSpec]); the Go
      interface [State] is the class [NodeState], whose contract
      [NodeStateSpec] the repositories rely on and [LevelDBState] discharges.
      The monad [IO] is a state, an error result and panics.
    - [ClientTypes]: [storage/types.go], [client/types], [fsm/types]: messages,
      operations and their identifiers, the request of a message, the message
      that reinitialises a round.
    - [Codec]: a lossless encoder for the stored maps, to evaluate with.
    - [OperationRepo], [SignatureRepo]: [client/repositories]: the operation
      pool, refined to two maps, and the reconstructed signatures.
    - [FsmService]: [client/services/fsmservice]: the dumps of all rounds.
    - [Outcomes]: the exact result of the events that decide a stage, and what
      messages of the board can do.
    - [OrderIndependence]: the machines do the same whatever order Go iterates
      over maps in.
    - [IOLogic]: loops and error handling in [IO], and triples for it: [post] is
      a precondition with a postcondition for values and one for errors, [keeps]
      an invariant, proved by the tactic [keeps_tac] along the structure of a
      body.
    - [Kyber]: the cryptography the source calls, as classes: points,
      polynomials and BLS ([Kyber]), Pedersen's key generation ([PedersenDKG]),
      symmetric encryption ([SymmetricCrypto]), the clock and randomness
      ([Env]); with their laws.
    - [Dkg]: [dkg/]: the object of a round around the key generator, and the
      keyring. [DkgSpec]: which deals it accepts.
    - [SigningTasks]: [fsm/types/requests/signing_proposal.go],
      [pkg/wc_rotation]: the messages of a batch. [TaskSpec]: what they are.
    - [KeyStore]: [client/modules/keystore]. [FileStorage], [KafkaStorage]:
      [storage/file_storage], [storage/kafka_storage], two instances of the
      interface [Storage].
    - [Services]: [client/services/operation], [signature], the DTOs, and the
      messages to ignore.
    - [NodeService], [ProcessMessage]: [client/services/node]: the object with
      the operations of the operator, and what the board drives: [poll_tick],
      [ProcessMessage], the reinitialisation, [GetAdaptedReDKG]. Everything the
      node calls is behind the classes [NodeState], [Storage], [KeyStore] and
      [Env] on the type of [deps]; [call] runs a dependency on the node.
      [AdaptSpec] says what the adapted log is.
    - [MachineStore], [Airgapped]: [airgapped/]: encryption, keys, seed and
      mnemonic, keyrings and the log of operations; and the handlers,
      [GetOperationResult], [ProcessOperation], replaying. A handler runs on the
      machine, the world and the operation it changes.
    - [JsonText]: strings that are valid UTF-8 and times that [time.Time] takes,
      decided. [Representable]: the dumps and requests made of such values, the
      range of a deadline included; every event of the three machines keeps them
      ([kept]). [dumps_faithful] asks of [encoding/json] that it represents such
      dumps, and nothing of the others.
    - [NodeSpec]: the laws of the world the node lives in ([WorldSpec]).
      [NodeRounds]: its rounds stay reachable, on messages whose values JSON can
      represent. [NodeFrame]: an invariant of the
      calls is one of [ProcessMessage]. [NodePoll]: the loop.
      [NodeOperations]: signatures and results.
    - [AirgappedSpec]: the answers of the machine. [MachineRecursion]: nested
      reinitialisations. [MachineSpec]: what the machine stores.
    - [MachineFrame]: what each operation of the machine leaves alone.
    - [HttpApi]: [client/api/http_api]: the forms, the binding of requests, the
      handlers, the routes and the error handler, on the state of the node.
      [HttpSpec]: every request is answered; requests and messages interleaved.
    - [GoText]: what the tools use of [strings], [strconv], [hex] and [base64].
      [Shell]: the files, streams, flags and commands they run with ([Term],
      [Command], [Execute]).
    - [Statuses]: the texts of the statuses and the interface [Participant].
      [Visualize]: [fsm/fsm/utils.go], the drawing of a machine, and the program
      that prints it. [Utils]: [pkg/utils].
    - [CliArgs], [Cli]: [cmd/dc4bc_cli]: the messages to ignore, and every
      command. [CliSpec]: hashes of a proposal, the status of a round, and what
      the commands leave alone. [Operator]: the client in front of a node, its
      requests served by [HttpApi].
    - [ReinitTool]: [cmd/dkg_reinitializer]. [PrysmCheck]: [pkg/prysm] and
      [cmd/prysm_compatibility_checker]. [ToolSpec]: these tools and the client
      after one another.
    - [Prompt]: [cmd/airgapped]: the commands, and the two threads of the
      program as steps ([main_step] and [ticker_step] on [Sys]): the loop that
      asks for passwords and commands, and the goroutine that drops the sensitive
      data. [PromptSpec]: their invariant and their deadlock.
    - [Provider]: [client/services/provider.go], [client/config],
      [cmd/dc4bc_d]: configuration, assembly of the services, [gen_keys] and
      [start]. The type [Deps] is the world of the started node, with instances
      of every interface. [ProviderSpec]: what the started node is.
    - [Wire], [World], [Toy], [MachineWorld], [NodeWorld], [PromptWorld],
      [HttpWorld], [ProviderWorld], [CliWorld], [DeskWorld], [OperatorWorld]: a
      wire format for every type, worlds in memory and toy cryptography that
      satisfy the laws, and the theorems applied to a concrete node, machine,
      console, configuration and desk.

    ** What the theorems show

    - Safety of a round ([Rounds]): agreement on the master key, thresholds,
      complete phases, directories that match the quorum, dumps that load.
    - Behaviour of events ([Outcomes], [Rounds]): the state and the answer after
      replies, master keys and partial signatures; a proposal that everybody
      confirms completes; every event is answered, without a panic, and an error
      changes neither the state of the machine nor the payload, although a
      refused callback empties the state written in the dump at hand.
    - The engine and the pool ([StateMachines], [Protocol]): the three machines
      implement their tables and are found by their states.
    - The stores ([LevelState], [OperationRepo], [SignatureRepo], [FsmService]):
      round trips, refinement to abstract maps, and that the rounds a node keeps
      are rounds of the protocol; [FileStorage] refines a log, [KeyStore] keeps
      keys.
    - The node ([NodeRounds], [NodePoll], [NodeOperations]): whatever it polls,
      its rounds stay reachable, so that the first group holds of them; a tick
      takes every message that the storage hands out, in order, whatever becomes
      of it and whichever storage it is; what does not verify is refused without an effect;
      the result of an operation is sent once.
    - The machine ([AirgappedSpec], [MachineRecursion], [MachineSpec],
      [DkgSpec]): its results for the phases of a key generation and for a
      batch are answers that the node accepts and the state machines decode; it returns on every operation; keys, keyrings and the log
      survive; accepted deals agree with the broadcast commitments.
    - Both sides share the messages of a batch ([TaskSpec]), which the node and
      the machine compute from the same tasks.
    - The API ([HttpSpec]): every request is answered, what is refused or only
      reads changes nothing, and the rounds stay reachable whatever requests and
      messages come. The same holds of a day of the operator at the client
      ([Operator]), and of the node that the daemon starts ([ProviderSpec]).
    - The tools ([CliSpec], [CliArgs], [ToolSpec]): the client's hash of a
      proposal is that of the invitation; the status it prints of a reachable
      round, and the rounds for which it panics; the spans of messages to ignore;
      exported signatures are accepted exactly when they verify; the file of a
      reinitialisation and its hash.
    - The prompt ([PromptSpec]): when passwords and keys are in memory together,
      the race between the password and the command, and exactly when the two
      threads block each other.

    ** Choices

    - Integers of the requests are mathematical; the only arithmetic on them is
      the addition of a week to a time and the counting of participants. The
      board offset is a 64-bit word with its little-endian encoding.
    - Loops over slices and maps are structural recursion. Fuel is the length of
      the string in [TrimSpace], which is enough since every step drops a byte;
      and the length of the payload in [GetOperationResult], which is enough
      since the operations inside a payload have shorter payloads
      ([MachineRecursion]).
    - The dependencies of an object are the state of its computations: a pointer
      that two objects share is one component of the world.
    - The receptions of the [select] in [Poll] are a list: a tick or the end.
    - Where the source reads a random value, a clock or an identifier, the world
      supplies it.
    - Error messages are kept without their interpolated arguments.
    - The mutexes of the node are not modelled: an operation is one step. The
      prompt has two threads, and its lock and channel are in the step relation.
    - A call of [log.Fatal] and the error that ends a command are errors of the
      model; a [panic] is one.
    - The state behind the client is that of the whole scene: its standard
      streams and a world, which may hold the node that answers it.
    - Parameters: [encoding/json] and [encoding/gob], map iteration order,
      [sort.Sort] on equal keys, LevelDB and its transactions, MD5, SHA-1,
      SHA-256, Ed25519, the clock and randomness, kyber (group, DKG, BLS), AES,
      scrypt, ECIES, BIP-39, the SSZ hasher, the embedded list of validators, the
      Kafka client, the files of results; the web framework with its router,
      binding and validation of forms and their copying to DTOs, viper, the HTTP
      client, the terminal, the CSV reader, the BLS library of Prysm, the order of
      [sort.Sort] on equal user names, the conversion of a float that does not
      fit. Hypotheses on them are the classes
      named [...Spec], [JSONMap], [SignaturesJSON], [NestedJSON] and
      [AnswersJSON], and [dumps_faithful] with [clock_dated] (the clock is not in
      the last week of the year 9999) where the dumps of a node are concerned: no
      round trip is assumed of a string that is not UTF-8 or of a time that
      [time.Time] does not marshal; for operations and signatures it is assumed of
      the values at hand. Concrete instances are in [Samples], [Codec], [LevelState.MemDB], [Toy] and the files
      named [...World].

    ** Not modelled

    The logger and its lines; generated mocks; the lock file of the file
    storage and the mutexes of the node; the start and shutdown of the HTTP
    server and its access log ([http_api.go]); the handling of signals; the
    parsing of command lines, which is cobra's, and of durations; the colours of
    the terminal; the arithmetic of kyber, which is a parameter as it is to the
    source. *)

From stdpp Require Export base gmap strings list fin_maps sorting.
From Stdlib Require Export Ascii.

Declare Scope go_scope.
Delimit Scope go_scope with go.
#[global] Open Scope string_scope.
#[global] Open Scope list_scope.
#[global] Open Scope Z_scope.

(** ** Go values *)

(** [String.string] is a sequence of 8-bit characters, which is what both a Go
    [string] and a Go [[]byte] are; conversions between the two are the
    identity. *)
Abbreviation bytes := string (only parsing).

(** A Go map may be [nil]; reading a [nil] map behaves as reading an empty
    one, writing to it panics. *)
Abbreviation gomap K V := (option (gmap K V)) (only parsing).

(** An error value: its message, or a message wrapped around a cause
    ([fmt.Errorf] with [%w]). Arguments interpolated into a message are not
    kept. *)
Inductive error : Type :=
| Err (msg : string)
| Wrap (msg : string) (cause : error).

#[export] Instance error_eq_dec : EqDecision error.
Proof. solve_decision. Defined.

(** A computation returns or panics (explicit [panic], nil dereference, write
    to a nil map). *)
Inductive Go (A : Type) : Type :=
| Ret (a : A)
| Panic (why : string).
Arguments Ret {A} a.
Arguments Panic {A} why.

#[export] Instance Go_ret : MRet Go := fun A a => Ret a.
#[export] Instance Go_bind : MBind Go := fun A B k m =>
  match m with Ret a => k a | Panic w => Panic w end.

(** [for _, x := range l { ... }] with an accumulator and a body that may
    panic. *)
Fixpoint foldM {A B} (body : B → A → Go B) (acc : B) (l : list A) : Go B :=
  match l with
  | [] => Ret acc
  | x :: l => acc' ← body acc x; foldM body acc' l
  end.

(** Dereference of a pointer that may be [nil]. *)
Definition deref {A} (o : option A) : Go A :=
  match o with
  | Some a => Ret a
  | None => Panic "invalid memory address or nil pointer dereference"
  end.

(** [len(m)] and [m[k]] on a map that may be [nil]. *)
Definition gomap_lookup `{Countable K} {V} (m : gomap K V) (k : K) : option V :=
  m' ← m; m' !! k.
Definition gomap_len `{Countable K} {V} (m : gomap K V) : Z :=
  match m with Some m' => Z.of_nat (size m') | None => 0 end.

(** [m[k] = v], which panics on a [nil] map. *)
Definition gomap_insert `{Countable K} {V} (m : gomap K V) (k : K) (v : V) : Go (gomap K V) :=
  match m with
  | Some m' => Ret (Some (<[k := v]> m'))
  | None => Panic "assignment to entry in nil map"
  end.

(** Equality of strings as a boolean test. *)
Definition seqb (a b : string) : bool := bool_decide (a = b).
Infix "=s?" := seqb (at level 70, no associativity) : go_scope.
#[global] Open Scope go_scope.

(** The length of a string or byte slice. *)
Definition slen (s : string) : Z := Z.of_nat (String.length s).

(** ** [time]: an instant is the number of nanoseconds since January 1, year 1
    UTC, the zero [time.Time]. *)
Abbreviation Time := Z (only parsing).
Definition IsZero (t : Time) : bool := t =? 0.
Definition Before (t u : Time) : bool := t <? u.
Definition Add (t : Time) (d : Z) : Time := t + d.
Definition Hour : Z := 3600 * 1000000000.

(** ** [strings] *)

Definition HasPrefix (s prefix : string) : bool := String.prefix prefix s.

Fixpoint srev_app (s acc : string) : string :=
  match s with EmptyString => acc | String c s => srev_app s (String c acc) end.
Definition srev (s : string) : string := srev_app s EmptyString.

Definition HasSuffix (s suffix : string) : bool := String.prefix (srev suffix) (srev s).

(** The UTF-8 encodings of the white space of [unicode.IsSpace]. *)
Definition utf8 (l : list nat) : string :=
  foldr (fun n s => String (ascii_of_nat n) s) EmptyString l.
Definition spaces : list string :=
  utf8 <$> [[9]; [10]; [11]; [12]; [13]; [32]; [194; 133]; [194; 160]; [225; 154; 128];
   [226; 128; 128]; [226; 128; 129]; [226; 128; 130]; [226; 128; 131]; [226; 128; 132];
   [226; 128; 133]; [226; 128; 134]; [226; 128; 135]; [226; 128; 136]; [226; 128; 137];
   [226; 128; 138]; [226; 128; 168]; [226; 128; 169]; [226; 128; 175]; [226; 129; 159];
   [227; 128; 128]]%nat.

Fixpoint sdrop (n : nat) (s : string) : string :=
  match n, s with
  | S n, String _ s => sdrop n s
  | _, _ => s
  end.

(** One prefix of the list removed from [s], if [s] starts with one. *)
Definition strip_one (l : list string) (s : string) : option string :=
  match list_find (fun p => String.prefix p s = true) l with
  | Some (_, p) => Some (sdrop (String.length p) s)
  | None => None
  end.
Fixpoint strip_all (fuel : nat) (l : list string) (s : string) : string :=
  match fuel with
  | O => s
  | S fuel => match strip_one l s with Some s' => strip_all fuel l s' | None => s end
  end.

(** [strings.TrimSpace]: every element of [spaces] is non-empty, so the length
    of the string is enough fuel. *)
Definition TrimSpace (s : string) : string :=
  let l := strip_all (String.length s) spaces s in
  srev (strip_all (String.length l) (srev <$> spaces) (srev l)).

(** ** Map iteration *)

(** [for k, v := range m] visits a map in an order the language leaves
    unspecified: the model is a function of that order. *)
Class MapOrder : Type := {
  shuffle : ∀ {A : Type}, list A → list A;
  shuffle_perm : ∀ A (l : list A), shuffle l ≡ₚ l
}.

Definition range `{!MapOrder} `{Countable K} {V} (m : gmap K V) : list (K * V) :=
  shuffle (map_to_list m).

(** One order, to evaluate the model with. *)
Definition source_order : MapOrder := {| shuffle := fun A l => l; shuffle_perm := fun A l => reflexivity l |}.
Definition reverse_order : MapOrder := {| shuffle := fun A l => reverse l; shuffle_perm := fun A l => reverse_Permutation l |}.

(** [sort.Ints] *)
Definition sort_Ints (l : list Z) : list Z := merge_sort Z.le l.

(** ** [encoding/json]

    The two operations are parameters: [marshal] may fail, [unmarshal] decodes
    into a zero value. *)
Class JSON (A : Type) : Type := {
  marshal : A → option bytes;
  unmarshal : bytes → option A
}.

(** What the code relies on: the values that [encoding/json] represents without
    loss (valid UTF-8 strings, years between 0 and 9999) are encoded, as an
    object or array of at least two bytes, and decoded to themselves. *)
Class JSONSpec (A : Type) `{!JSON A} : Type := {
  encodable : A → Prop;
  marshal_roundtrip : ∀ a, encodable a → ∃ b, marshal a = Some b ∧ 2 ≤ slen b ∧ unmarshal b = Some a
}.

(** ** Lemmas and automation shared by the components *)

(** Facts that side conditions ask for. *)
Create HintDb go.

Lemma Go_bind_inv {A B} (m : Go A) (k : A → Go B) b :
  m ≫= k = Ret b → ∃ a, m = Ret a ∧ k a = Ret b.
Proof. destruct m; simpl; [eauto | done]. Qed.

(** Split a hypothesis [m ≫= k = Ret b], or a result built by [Ret]. *)
Ltac go_inv :=
  repeat match goal with
  | H : Ret _ = Ret _ |- _ => injection H as H; simplify_eq
  | H : Panic _ = Ret _ |- _ => discriminate H
  | H : Ret _ = Panic _ |- _ => discriminate H
  | H : _ ≫= _ = Ret _ |- _ =>
      let a := fresh "a" in let Ha := fresh "Ha" in
      apply Go_bind_inv in H as (a & Ha & H)
  end.

(** An invariant of a [range] loop, indexed by the elements already seen. *)
Lemma foldM_inv {A B} (I : list A → B → Prop) (body : B → A → Go B) b0 l b :
  (∀ pre x b1 b2, I pre b1 → body b1 x = Ret b2 → I (pre ++ [x]) b2) →
  I [] b0 → foldM body b0 l = Ret b → I l b.
Proof.
  intros Hstep. rewrite <-(app_nil_l l) at 2. generalize (@nil A) as pre.
  induction l as [|x l IH] in b0 |- *; intros pre H0 Hf; simpl in Hf; go_inv.
  - by rewrite app_nil_r.
  - rewrite cons_middle, app_assoc. eapply IH; eauto.
Qed.

(** A weaker form: an invariant that does not mention the elements seen. *)
Lemma foldM_preserves {A B} (I : B → Prop) (body : B → A → Go B) b0 l b :
  (∀ x b1 b2, x ∈ l → I b1 → body b1 x = Ret b2 → I b2) →
  I b0 → foldM body b0 l = Ret b → I b.
Proof.
  induction l as [|x l IH] in b0 |- *; intros Hstep H0 Hf; simpl in Hf; go_inv; [done|].
  eapply IH; [..|done]; [|eapply Hstep; eauto; set_solver].
  intros y b1 b2 Hy. apply Hstep. set_solver.
Qed.

Lemma seqb_true a b : (a =s? b) = true ↔ a = b.
Proof. apply bool_decide_eq_true. Qed.
Lemma seqb_false a b : (a =s? b) = false ↔ a ≠ b.
Proof. apply bool_decide_eq_false. Qed.
Lemma seqb_refl a : (a =s? a) = true.
Proof. by apply seqb_true. Qed.

#[export] Hint Resolve seqb_refl : go.
#[export] Hint Rewrite seqb_refl : go.

(** Booleans of the source as propositions. *)
Ltac boolify :=
  repeat match goal with
  | H : context [_ && _ = true] |- _ => rewrite andb_true_iff in H
  | H : _ && _ = true |- _ => apply andb_true_iff in H as [??]
  | H : negb _ = true |- _ => apply negb_true_iff in H
  | H : negb _ = false |- _ => apply negb_false_iff in H
  | H : (_ =s? _) = true |- _ => apply seqb_true in H
  | H : (_ =s? _) = false |- _ => apply seqb_false in H
  | H : (_ =? _)%Z = true |- _ => apply Z.eqb_eq in H
  | H : (_ =? _)%Z = false |- _ => apply Z.eqb_neq in H
  | H : (_ <? _)%Z = true |- _ => apply Z.ltb_lt in H
  | H : (_ <? _)%Z = false |- _ => apply Z.ltb_ge in H
  | H : (_ <=? _)%Z = true |- _ => apply Z.leb_le in H
  | H : (_ <=? _)%Z = false |- _ => apply Z.leb_gt in H
  | H : bool_decide _ = true |- _ => apply bool_decide_eq_true in H
  | H : bool_decide _ = false |- _ => apply bool_decide_eq_false in H
  end.

Section range_facts.
Context `{!MapOrder} `{Countable K} {V : Type}.
Implicit Types (m : gmap K V).

Lemma range_perm m : range m ≡ₚ map_to_list m.
Proof. apply shuffle_perm. Qed.

Lemma elem_of_range m k v : (k, v) ∈ range m ↔ m !! k = Some v.
Proof. by rewrite range_perm, elem_of_map_to_list. Qed.

Lemma length_range m : length (range m) = size m.
Proof. by rewrite range_perm, length_map_to_list. Qed.

Lemma NoDup_range_keys m : NoDup (range m).*1.
Proof. rewrite range_perm. apply NoDup_fst_map_to_list. Qed.
End range_facts.
#[export] Hint Resolve range_perm NoDup_range_keys : go.
#[export] Hint Rewrite @length_range : go.

(** The keys of a map in increasing order do not depend on the iteration
    order. *)
Definition sorted_keys {V} (m : gmap Z V) : list Z := sort_Ints (map_to_list m).*1.

Lemma sort_Ints_perm l l' : l ≡ₚ l' → sort_Ints l = sort_Ints l'.
Proof.
  intros Hp. apply (Sorted_unique Z.le); [apply Sorted_merge_sort; apply _..|].
  unfold sort_Ints. by rewrite !merge_sort_Permutation.
Qed.

Lemma sort_Ints_range `{!MapOrder} {V} (m : gmap Z V) :
  sort_Ints (range m).*1 = sorted_keys m.
Proof. apply sort_Ints_perm. by rewrite range_perm. Qed.

Lemma elem_of_sorted_keys {V} (m : gmap Z V) k : k ∈ sorted_keys m ↔ is_Some (m !! k).
Proof.
  unfold sorted_keys, sort_Ints. rewrite merge_sort_Permutation, list_elem_of_fmap.
  split.
  - intros ([k' v] & -> & Hv%elem_of_map_to_list); simpl; eauto.
  - intros [v Hv]. exists (k, v). by rewrite elem_of_map_to_list.
Qed.

Lemma NoDup_sorted_keys {V} (m : gmap Z V) : NoDup (sorted_keys m).
Proof. unfold sorted_keys, sort_Ints. rewrite merge_sort_Permutation. apply NoDup_fst_map_to_list. Qed.
#[export] Hint Resolve NoDup_sorted_keys : go.

(** ** Counting the entries of a quorum *)

Definition qcount {X} (f : X → bool) (q : gmap Z X) : Z :=
  Z.of_nat (length (filter (fun kx : Z * X => f kx.2 = true) (map_to_list q))).

Section qcount_facts.
Context {X : Type}.
Implicit Types (f g : X → bool) (q : gmap Z X).

Lemma qcount_perm f q l :
  l ≡ₚ map_to_list q → Z.of_nat (length (filter (fun kx : Z * X => f kx.2 = true) l)) = qcount f q.
Proof. intros Hp. unfold qcount. by rewrite Hp. Qed.

Lemma qcount_bounds f q : 0 ≤ qcount f q ≤ Z.of_nat (size q).
Proof. unfold qcount. rewrite <-length_map_to_list. pose proof (length_filter (fun kx : Z * X => f kx.2 = true) (map_to_list q)). lia. Qed.

Lemma qcount_all f q : qcount f q = Z.of_nat (size q) ↔ map_Forall (fun _ x => f x = true) q.
Proof.
  unfold qcount. rewrite map_Forall_to_list, <-length_map_to_list, Nat2Z.inj_iff.
  induction (map_to_list q) as [|[k x] l IH]; [by split|].
  rewrite Forall_cons, filter_cons. simpl. case_decide as Hx; simpl.
  - rewrite <-IH. split; [intros; split; [done|lia] | intros [_ ?]; lia].
  - pose proof (length_filter (fun kx : Z * X => f kx.2 = true) l). split; [lia | intros [? _]; done].
Qed.

Lemma qcount_zero f q : qcount f q = 0 ↔ map_Forall (fun _ x => f x = false) q.
Proof.
  unfold qcount. rewrite map_Forall_to_list.
  induction (map_to_list q) as [|[k x] l IH]; [by split|].
  rewrite Forall_cons, filter_cons. simpl. case_decide as Hx; simpl.
  - split; [lia | intros [? _]; congruence].
  - rewrite <-IH. apply not_true_is_false in Hx. tauto.
Qed.

Lemma qcount_insert_new f q k x :
  q !! k = None → qcount f (<[k := x]> q) = (if f x then 1 else 0) + qcount f q.
Proof.
  intros Hk. unfold qcount. rewrite map_to_list_insert by done. rewrite filter_cons. simpl.
  destruct (f x); case_decide; try done; simpl; lia.
Qed.

Lemma qcount_insert f q k x y :
  q !! k = Some y →
  qcount f (<[k := x]> q) = qcount f q + (if f x then 1 else 0) - (if f y then 1 else 0).
Proof.
  intros Hk. rewrite <-(insert_id q k y Hk) at 2.
  rewrite <-(insert_delete_eq q k x), <-(insert_delete_eq q k y).
  rewrite !qcount_insert_new by apply lookup_delete_eq. lia.
Qed.

Lemma qcount_le f g q :
  (∀ k x, q !! k = Some x → f x = true → g x = true) → qcount f q ≤ qcount g q.
Proof.
  intros Hfg. unfold qcount. apply inj_le, submseteq_length.
  assert (Forall (fun kx : Z * X => f kx.2 = true → g kx.2 = true) (map_to_list q)) as Hl.
  { apply Forall_forall. intros [k x] Hx%elem_of_map_to_list. by eapply Hfg. }
  induction Hl as [|[k x] l Hx _ IH]; [done|]. rewrite !filter_cons. simpl in *.
  repeat case_decide; try (by apply submseteq_skip) || (by apply submseteq_cons) || done.
  exfalso. auto.
Qed.

Lemma qcount_ext f g q : map_Forall (fun _ x => f x = g x) q → qcount f q = qcount g q.
Proof.
  intros Hfg. apply Z.le_antisymm; apply qcount_le; intros k x Hx; by rewrite (Hfg k x Hx).
Qed.

End qcount_facts.

Lemma qcount_imap {X Y} (h : Z → X → Y) (f : Y → bool) (g : X → bool) (q : gmap Z X) :
  (∀ k x, q !! k = Some x → f (h k x) = g x) →
  qcount f (map_imap (fun k x => Some (h k x)) q) = qcount g q.
Proof.
  induction q as [|k x q Hk IH] using map_ind; intros Hh.
  { by rewrite map_imap_empty. }
  rewrite map_imap_insert_Some with (y := h k x) by done.
  assert (map_imap (fun k x => Some (h k x)) q !! k = None) as Hk' by by rewrite map_lookup_imap, Hk.
  rewrite (qcount_insert_new g) by done.
  etrans; [apply (qcount_insert_new _ _ _ _ Hk')|].
  rewrite IH, (Hh k x); [done|by rewrite lookup_insert_eq|].
  intros k' x' Hx'. apply (Hh k'). rewrite lookup_insert_ne; congruence.
Qed.

Lemma qcount_fmap {X Y} (h : X → Y) (f : Y → bool) (g : X → bool) (q : gmap Z X) :
  (∀ k x, q !! k = Some x → f (h x) = g x) → qcount f (h <$> q) = qcount g q.
Proof.
  intros H. rewrite <-(qcount_imap (fun _ => h) f g q H). f_equal. apply map_eq. intros k.
  rewrite lookup_fmap, map_lookup_imap. by destruct (q !! k).
Qed.
