(* ===== verification/GoFsm.v ===== *)
(** * The finite-state-machine engine, [fsm/fsm/fsm.go]

    A machine is a table of transitions, a table of automatic transitions and
    a table of callbacks. The engine is generic in the payload [P] that the
    callbacks share with the machine's owner (in Go a pointer captured by the
    callback's method value, here a value threaded through), in the type [A] of
    the arguments of an event and in the type [D] of response data. *)

From S2P Require Import Prelude.

Abbreviation State := string (only parsing).
Abbreviation Event := string (only parsing).

Definition StateGlobalIdle : State := "__idle".
Definition StateGlobalDone : State := "__done".

Inductive EventRunMode : Type := EventRunDefault | EventRunBefore | EventRunAfter.

#[export] Instance EventRunMode_eq_dec : EqDecision EventRunMode.
Proof. solve_decision. Defined.
#[export] Instance EventRunMode_countable : Countable EventRunMode.
Proof.
  refine (inj_countable'
    (fun m => match m with EventRunDefault => 0 | EventRunBefore => 1 | EventRunAfter => 2 end)%nat
    (fun n => match n with 0 => EventRunDefault | 1 => EventRunBefore | _ => EventRunAfter end)%nat _).
  by intros [].
Defined.

Definition IsEmpty (e : Event) : bool := e =s? "".

(** Transition lightweight event description. The keys of the tables, [trKey]
    and [trAutoKeyEvent], are pairs. *)
Record trEvent : Type := mk_trEvent {
  tr_event : Event;
  tr_dstState : State;
  tr_isInternal : bool;
  tr_isAuto : bool;
  tr_runMode : EventRunMode
}.

Record EventDesc : Type := mk_EventDesc {
  Name : Event;
  SrcState : list State;
  DstState : State;
  IsInternal : bool;
  IsAuto : bool;
  AutoRunMode : EventRunMode
}.

(** The literal [{Name: n, SrcState: src, DstState: dst}] and the ones that
    also set [IsInternal], and [IsInternal] and [IsAuto]. *)
Definition event_desc n src dst : EventDesc := mk_EventDesc n src dst false false EventRunDefault.
Definition internal_desc n src dst : EventDesc := mk_EventDesc n src dst true false EventRunDefault.
Definition auto_desc n src dst : EventDesc := mk_EventDesc n src dst true true EventRunDefault.

Section engine.
Context {P A D : Type}.

(** What a callback returns beside its effect on the payload: the out event
    (empty for none), the response data and the error. *)
Definition CbRet : Type := Event * option D * option error.

Definition Callback : Type := Event → list A → P → Go (P * CbRet).

Record Response : Type := mk_Response { rs_State : State; rs_Data : option D }.

Record FSM : Type := mk_FSM {
  name : string;
  initialState : State;
  currentState : State;
  transitions : gmap (State * Event) trEvent;
  autoTransitions : gmap (State * EventRunMode) trEvent;
  callbacks : gmap Event Callback;
  initialEvent : Event;
  finStates : gset State
}.

(** ** Construction: [MustNewFSM] *)

(** The variables of [MustNewFSM] that its loop over the events updates. *)
Record builder : Type := mk_builder {
  b_transitions : gmap (State * Event) trEvent;
  b_autoTransitions : gmap (State * EventRunMode) trEvent;
  b_initialEvent : Event;
  b_allEvents : gset Event;
  b_allSources : gset State;
  b_allStates : gset State;
  b_trimmedSourcesCounter : Z
}.

(** [if event.IsAuto && event.AutoRunMode == EventRunDefault
    { event.AutoRunMode = EventRunAfter }] *)
Definition run_mode (event : EventDesc) : EventRunMode :=
  if IsAuto event && bool_decide (AutoRunMode event = EventRunDefault)
  then EventRunAfter else AutoRunMode event.

Definition tr_of (event : EventDesc) : trEvent :=
  mk_trEvent (Name event) (DstState event) (IsInternal event) (IsAuto event) (run_mode event).

(** The body of the loop over [event.SrcState]. *)
Definition add_source (init : State) (event : EventDesc) (b : builder) (sourceState : State)
  : Go builder :=
  if sourceState =s? "" then Ret b
  else
    let tKey := (sourceState, Name event) in
    if sourceState =s? StateGlobalDone then Panic "StateGlobalDone cannot set as source state"
    else if bool_decide (is_Some (b_transitions b !! tKey))
    then Panic "duplicate dst for pair `source + event`"
    else
      let tr := tr_of event in
      let ini := if (sourceState =s? init) && (b_initialEvent b =s? "")
                 then Name event else b_initialEvent b in
      autos ←
        (if IsAuto event then
           if negb (bool_decide (run_mode event = EventRunBefore))
              && negb (bool_decide (run_mode event = EventRunAfter))
           then Panic "{AutoRunMode} not set for auto event"
           else
             let trAutoKey := (sourceState, run_mode event) in
             if bool_decide (is_Some (b_autoTransitions b !! trAutoKey))
             then Panic "auto event already exists for state"
             else Ret (<[trAutoKey := tr]> (b_autoTransitions b))
         else Ret (b_autoTransitions b));
      Ret (mk_builder (<[tKey := tr]> (b_transitions b)) autos ini (b_allEvents b)
             ({[sourceState]} ∪ b_allSources b) (b_allStates b)
             (b_trimmedSourcesCounter b + 1)).

(** The body of the loop over [events]. *)
Definition add_event (init : State) (b : builder) (event : EventDesc) : Go builder :=
  if Name event =s? "" then Panic "cannot init empty event"
  else if DstState event =s? ""
  then Panic "event dest cannot be empty, use StateGlobalDone for finish or external state"
  else if bool_decide (Name event ∈ b_allEvents b) then Panic "duplicate event"
  else
    let b0 := mk_builder (b_transitions b) (b_autoTransitions b) (b_initialEvent b)
                ({[Name event]} ∪ b_allEvents b) (b_allSources b)
                ({[DstState event]} ∪ b_allStates b) 0 in
    b1 ← foldM (add_source init event) b0 (SrcState event);
    if b_trimmedSourcesCounter b1 =? 0
    then Panic "event must have minimum one source available state"
    else Ret b1.

(** The body of the loop over the callbacks, given as the pairs of the map
    literal in the order they are written. *)
Definition add_callback (allEvents : gset Event) (cbs : gmap Event Callback)
    (ec : Event * Callback) : Go (gmap Event Callback) :=
  let '(event, callback) := ec in
  if event =s? "" then Panic "callback machineName cannot be empty"
  else if negb (bool_decide (event ∈ allEvents)) then Panic "callback has unused event"
  else Ret (<[event := callback]> cbs).

(** Exit states: destinations that are not a source, and [StateGlobalDone]. *)
Definition fin_states (b : builder) : gset State :=
  filter (fun s => s ≠ StateGlobalIdle ∧ (s ∉ b_allSources b ∨ s = StateGlobalDone))
    (b_allStates b).

Definition empty_builder : builder := mk_builder ∅ ∅ "" ∅ ∅ ∅ 0.

Definition MustNewFSM (machineName : string) (init : State) (events : list EventDesc)
    (cbs : list (Event * Callback)) : Go FSM :=
  if machineName =s? "" then Panic "machine name cannot be empty"
  else if init =s? "" then Panic "initial state state cannot be empty"
  else if Z.of_nat (length events) =? 0 then Panic "cannot init fsm with empty events"
  else
    b ← foldM (add_event init) empty_builder events;
    if Z.of_nat (size (b_allStates b)) <? 2 then Panic "machine must contain at least two states"
    else
      callbacks ← foldM (add_callback (b_allEvents b)) ∅ cbs;
      Ret (mk_FSM machineName init init (b_transitions b) (b_autoTransitions b) callbacks
             (b_initialEvent b) (fin_states b)).

(** ** Queries *)

(** [EventsList]: the public events. The order of the slice is that of a map
    iteration. *)
Definition EventsList (f : FSM) : list Event :=
  elements (list_to_set
    (omap (fun '((_, e), tr) => if tr_isInternal tr then None else Some e)
       (map_to_list (transitions f))) : gset Event).

(** [StatesList]: the source states. *)
Definition StatesList (f : FSM) : list State :=
  elements (list_to_set ((map_to_list (transitions f)).*1.*1) : gset State).

Definition IsFinState (f : FSM) (state : State) : bool := bool_decide (state ∈ finStates f).

Definition isCallbackExists (f : FSM) (event : Event) : bool :=
  bool_decide (is_Some (callbacks f !! event)).

(** Check entry event for available emitting as global entry event *)
Definition GlobalInitialEvent (f : FSM) : Event :=
  match transitions f !! (StateGlobalIdle, initialEvent f) with
  | Some tr => if tr_isInternal tr then "" else initialEvent f
  | None => ""
  end.

Definition EntryEvent (f : FSM) : Event :=
  match transitions f !! (initialState f, initialEvent f) with
  | Some tr => if tr_isInternal tr then "" else initialEvent f
  | None => ""
  end.

(** ** Execution *)

Definition with_state (f : FSM) (s : State) : FSM :=
  mk_FSM (name f) (initialState f) s (transitions f) (autoTransitions f) (callbacks f)
    (initialEvent f) (finStates f).

(** [MustCopyWithState]: despite its name it updates the machine and returns
    it. *)
Definition MustCopyWithState (f : FSM) (state : State) : Go FSM :=
  if state =s? "" then Ret f
  else if bool_decide (state ∈ StatesList f) then Ret (with_state f state)
  else Panic "cannot set state, not exists".

(** [SetState] moves along the transition the event labels from the current
    state, and runs no callback. *)
Definition SetState (f : FSM) (event : Event) : FSM * option error :=
  match transitions f !! (currentState f, event) with
  | Some tr => (with_state f (tr_dstState tr), None)
  | None => (f, Some (Err "cannot set state by event for state"))
  end.

(** [outEvent.IsEmpty() || event == outEvent] selects the event to move by. *)
Definition move_event (event outEvent : Event) : Event :=
  if IsEmpty outEvent || (event =s? outEvent) then event else outEvent.

(** Check and execute auto event *)
Definition processAutoEvent (f : FSM) (mode : EventRunMode) (args : list A) (p : P)
  : Go (FSM * P * (bool * Event * option D * option error)) :=
  match autoTransitions f !! (currentState f, mode) with
  | None => Ret (f, p, (false, "", None, None))
  | Some autoEvent =>
      '(p1, (outEvent, response, err)) ←
        match callbacks f !! tr_event autoEvent with
        | Some callback => callback (tr_event autoEvent) args p
        | None => Ret (p, ("", None, None))
        end;
      match err with
      | Some e => Ret (f, p1, (true, "", response, Some e))
      | None =>
          let '(f1, err1) := SetState f (move_event (tr_event autoEvent) outEvent) in
          Ret (f1, p1, (true, outEvent, response, err1))
      end
  end.

Definition set_data (resp : Response) (data : option D) : Response :=
  match data with
  | Some _ => mk_Response (rs_State resp) data
  | None => resp
  end.

(** The private method [do]. *)
Definition do_event (f : FSM) (tr : trEvent) (args : list A) (p : P)
  : Go (FSM * P * (option Response * option error)) :=
  '(f1, p1, (isAuto, outEvent, data, err)) ← processAutoEvent f EventRunBefore args p;
  let resp := if isAuto : bool then set_data (mk_Response (currentState f1) None) data
              else mk_Response "" None in
  match (if isAuto then err else None) with
  | Some e => Ret (f1, p1, (Some resp, Some e))
  | None =>
      '(p2, (outEvent, data, err)) ←
        match callbacks f1 !! tr_event tr with
        | Some callback => callback (tr_event tr) args p1
        | None => Ret (p1, (outEvent, rs_Data resp, None))
        end;
      let resp := mk_Response (rs_State resp) data in
      match err with
      | Some e => Ret (f1, p2, (Some resp, Some e))
      | None =>
          let '(f2, err) := SetState f1 (move_event (tr_event tr) outEvent) in
          match err with
          | Some e => Ret (f2, p2, (Some resp, Some e))
          | None =>
              '(f3, p3, (isAuto, _, data, err)) ← processAutoEvent f2 EventRunAfter args p2;
              let resp := if isAuto : bool
                          then set_data (mk_Response (currentState f3) (rs_Data resp)) data
                          else resp in
              match (if isAuto then err else None) with
              | Some e => Ret (f3, p3, (Some resp, Some e))
              | None => Ret (f3, p3, (Some (mk_Response (currentState f3) (rs_Data resp)), None))
              end
          end
      end
  end.

(** [Do]: route errors give no response. *)
Definition Do (f : FSM) (event : Event) (args : list A) (p : P)
  : Go (FSM * P * (option Response * option error)) :=
  match transitions f !! (currentState f, event) with
  | None => Ret (f, p, (None, Some (Err "cannot execute event for state")))
  | Some tr =>
      if tr_isInternal tr then Ret (f, p, (None, Some (Err "event is internal")))
      else do_event f tr args p
  end.

(** ** A monad for callbacks

    A callback body reads and writes the payload, may panic, and may return
    early with what it has set of [(outEvent, response, err)]. *)

Definition Act (B : Type) : Type := P → Go (P * (B + CbRet)).

#[export] Instance Act_ret : MRet Act := fun B b p => Ret (p, inl b).
#[export] Instance Act_bind : MBind Act := fun B C k m p =>
  '(p1, r) ← m p;
  match r with
  | inl b => k b p1
  | inr early => Ret (p1, inr early)
  end.

Definition get : Act P := fun p => Ret (p, inl p).
Definition put (p : P) : Act unit := fun _ => Ret (p, inl ()).
Definition lift {B} (g : Go B) : Act B := fun p => b ← g; Ret (p, inl b).
Definition early {B} (r : CbRet) : Act B := fun p => Ret (p, inr r).
Definition fail {B} (e : error) : Act B := early ("", None, Some e).
Definition require (b : bool) (e : error) : Act unit := if b then mret () else fail e.
Definition check (o : option error) : Act unit :=
  match o with Some e => fail e | None => mret () end.

Definition run_action (m : Act CbRet) (p : P) : Go (P * CbRet) :=
  '(p1, r) ← m p;
  Ret (p1, match r with inl ret => ret | inr ret => ret end).

(** [if len(args) != 1 { ... }; request, ok := args[0].(T); if !ok { ... }] *)
Definition arg0 {B} (cast : A → option B) (required cannot_cast : string) (args : list A) : Act B :=
  match args with
  | [a] => match cast a with Some b => mret b | None => fail (Err cannot_cast) end
  | _ => fail (Err required)
  end.
End engine.

Arguments CbRet : clear implicits.
Arguments Callback : clear implicits.
Arguments Response : clear implicits.
Arguments FSM : clear implicits.
Arguments Act : clear implicits.

(** ** The tables of a constructed machine

    [listed events s tr]: the event descriptors put the transition [tr] at the
    source state [s]. *)
Definition listed (events : list EventDesc) (s : State) (tr : trEvent) : Prop :=
  ∃ d, d ∈ events ∧ s ∈ SrcState d ∧ s ≠ "" ∧ tr = tr_of d.

(** What the loop over the events has built when it has seen [events]. *)
Record built (events : list EventDesc) (b : builder) : Prop := {
  built_transitions s e tr :
    b_transitions b !! (s, e) = Some tr ↔ tr_event tr = e ∧ listed events s tr;
  built_auto s m tr :
    b_autoTransitions b !! (s, m) = Some tr ↔
      tr_isAuto tr = true ∧ tr_runMode tr = m ∧ listed events s tr;
  built_events e : e ∈ b_allEvents b ↔ ∃ d, d ∈ events ∧ Name d = e;
  built_sources s : s ∈ b_allSources b ↔ ∃ tr, listed events s tr;
  built_states s : s ∈ b_allStates b ↔ ∃ d, d ∈ events ∧ DstState d = s;
  built_not_done s tr : listed events s tr → s ≠ StateGlobalDone
}.

(** The same inside the loop over the sources of the event [d]: [b0] is the
    builder before [d] and [pre] the sources already seen. *)
Record built_in (d : EventDesc) (b0 : builder) (pre : list State) (b : builder) : Prop := {
  built_in_transitions s e tr :
    b_transitions b !! (s, e) = Some tr ↔
      b_transitions b0 !! (s, e) = Some tr ∨ (e = Name d ∧ s ∈ pre ∧ s ≠ "" ∧ tr = tr_of d);
  built_in_auto s m tr :
    b_autoTransitions b !! (s, m) = Some tr ↔
      b_autoTransitions b0 !! (s, m) = Some tr ∨
      (IsAuto d = true ∧ run_mode d = m ∧ s ∈ pre ∧ s ≠ "" ∧ tr = tr_of d);
  built_in_events : b_allEvents b = b_allEvents b0;
  built_in_sources s : s ∈ b_allSources b ↔ s ∈ b_allSources b0 ∨ (s ∈ pre ∧ s ≠ "");
  built_in_states : b_allStates b = b_allStates b0;
  built_in_not_done s : s ∈ pre → s ≠ StateGlobalDone
}.

Lemma add_source_built_in init d b0 pre s b1 b2 :
  built_in d b0 pre b1 → add_source init d b1 s = Ret b2 → built_in d b0 (pre ++ [s]) b2.
Proof.
  unfold add_source. intros [Htr Hau Hev Hsrc Hst Hnd] Hadd.
  destruct (s =s? "") eqn:Es; boolify.
  { go_inv. split; try done; intros *;
      rewrite ?Htr, ?Hau, ?Hsrc, ?elem_of_app, ?list_elem_of_singleton;
      clear Htr Hau Hsrc; naive_solver. }
  destruct (s =s? StateGlobalDone) eqn:Ed; [done|].
  destruct (bool_decide _) eqn:Edup; [done|]. boolify.
  apply eq_None_not_Some in Edup.
  go_inv. split; simpl; try done.
  - intros s' e tr. rewrite elem_of_app, list_elem_of_singleton, lookup_insert.
    destruct (decide ((s, Name d) = (s', e))) as [Hk|Hk]; simplify_eq.
    + split; [intros [= <-]; right; split_and!; by auto|].
      intros [H|(_ & _ & _ & ->)]; [|done].
      exfalso. rewrite (proj2 (Htr _ _ _) (or_introl H)) in Edup. done.
    + rewrite Htr. clear -Hk. naive_solver.
  - intros s' m tr. rewrite elem_of_app, list_elem_of_singleton. destruct (IsAuto d) eqn:Ea.
    + destruct (negb _ && _); [done|]. destruct (bool_decide _) eqn:Ed2; [done|].
      boolify. apply eq_None_not_Some in Ed2. go_inv.
      rewrite lookup_insert.
      destruct (decide ((s, run_mode d) = (s', m))) as [Hk|Hk]; simplify_eq.
      * split; [intros [= <-]; right; split_and!; by auto|].
        intros [H|(_ & _ & _ & _ & ->)]; [|done].
        exfalso. rewrite (proj2 (Hau _ _ _) (or_introl H)) in Ed2. done.
      * rewrite Hau. clear -Hk. naive_solver.
    + go_inv. rewrite Hau. clear. naive_solver.
  - intros s'. rewrite elem_of_union, elem_of_singleton, Hsrc, elem_of_app, list_elem_of_singleton.
    clear -Es. naive_solver.
  - intros s' [H|H%list_elem_of_singleton]%elem_of_app; subst; eauto.
Qed.

Lemma listed_app events d s tr :
  listed (events ++ [d]) s tr ↔
    listed events s tr ∨ (s ∈ SrcState d ∧ s ≠ "" ∧ tr = tr_of d).
Proof.
  unfold listed. split.
  - intros (d' & [H|H%list_elem_of_singleton]%elem_of_app & ?); subst; eauto.
  - intros [(d' & ? & ?)|?]; [exists d' | exists d]; set_solver.
Qed.

Lemma add_event_built init pre d b1 b2 :
  built pre b1 → add_event init b1 d = Ret b2 → built (pre ++ [d]) b2.
Proof.
  unfold add_event. intros [Htr Hau Hev Hsrc Hst Hnd] Hadd.
  destruct (Name d =s? ""); [done|]. destruct (DstState d =s? ""); [done|].
  destruct (bool_decide _) eqn:Edup; [done|]. go_inv.
  match goal with H : foldM _ ?b0 _ = Ret ?b |- _ =>
    assert (built_in d b0 (SrcState d) b) as Hin end.
  { eapply foldM_inv; [|..|done]; [intros ?????; by apply add_source_built_in|].
    clear. split; simpl; set_solver. }
  destruct (b_trimmedSourcesCounter a =? 0); [done|]. go_inv.
  destruct Hin as [Htr' Hau' Hev' Hsrc' Hst' Hnd']; simpl in *.
  split; intros *.
  - rewrite Htr', Htr, listed_app. clear. split; [|naive_solver].
    intros [?|(-> & ? & ? & ->)]; naive_solver.
  - rewrite Hau', Hau, listed_app. clear. split; [|naive_solver].
    intros [?|(? & <- & ? & ? & ->)]; naive_solver.
  - rewrite Hev', elem_of_union, elem_of_singleton, Hev. clear. set_solver.
  - rewrite Hsrc', Hsrc. setoid_rewrite listed_app. clear. naive_solver.
  - rewrite Hst', elem_of_union, elem_of_singleton, Hst. clear. set_solver.
  - rewrite listed_app. intros [?|(? & _ & _)]; eauto.
Qed.

Section construction.
Context {P A D : Type}.
Implicit Types (f : FSM P A D) (cbs : list (Event * Callback P A D)).

Lemma add_callbacks_lookup (evs : gset Event) cbs m0 m :
  foldM (add_callback evs) m0 cbs = Ret m →
  m = list_to_map (reverse cbs) ∪ m0 ∧ ∀ e cb, (e, cb) ∈ cbs → e ∈ evs ∧ e ≠ "".
Proof.
  induction cbs as [|[e cb] cbs IH] in m0 |- *; intros Hf; simpl in Hf; go_inv.
  - rewrite reverse_nil. simpl. split; [by rewrite (left_id_L ∅ (∪)) | set_solver].
  - destruct (e =s? "") eqn:He; [done|]. destruct (negb _) eqn:Hin; [done|]. go_inv. boolify.
    destruct (IH _ Hf) as [-> Hall]. split; [|set_solver].
    rewrite reverse_cons. rewrite list_to_map_app. simpl.
    rewrite insert_empty, <-(assoc_L (∪)), insert_union_singleton_l. done.
Qed.

(** The machine [MustNewFSM] returns has exactly the tables its event
    descriptors list. *)
Record constructed (machineName : string) (init : State) (events : list EventDesc) cbs f : Prop := {
  c_name : name f = machineName;
  c_initial : initialState f = init;
  c_current : currentState f = init;
  c_transitions s e tr :
    transitions f !! (s, e) = Some tr ↔ tr_event tr = e ∧ listed events s tr;
  c_auto s m tr :
    autoTransitions f !! (s, m) = Some tr ↔
      tr_isAuto tr = true ∧ tr_runMode tr = m ∧ listed events s tr;
  c_callbacks : callbacks f = list_to_map (reverse cbs);
  c_fin s : s ∈ finStates f ↔
    (∃ d, d ∈ events ∧ DstState d = s) ∧ s ≠ StateGlobalIdle ∧ ∀ tr, ¬ listed events s tr
}.

Lemma MustNewFSM_constructed machineName init events cbs f :
  MustNewFSM machineName init events cbs = Ret f → constructed machineName init events cbs f.
Proof.
  unfold MustNewFSM. intros Hf.
  destruct (machineName =s? ""); [done|]. destruct (init =s? ""); [done|].
  destruct (_ =? _); [done|]. go_inv. destruct (_ <? _); [done|]. go_inv.
  match goal with H : foldM (add_event _) _ _ = Ret ?b |- _ => assert (built events b) as Hb end.
  { eapply foldM_inv; [|..|done]; [intros ????; by apply add_event_built|].
    unfold listed. split; simpl; set_solver. }
  match goal with H : foldM (add_callback _) _ _ = Ret _ |- _ =>
    apply add_callbacks_lookup in H as [-> _] end.
  destruct Hb as [Htr Hau Hev Hsrc Hst Hnd].
  split; simpl; try done.
  - by rewrite (right_id_L ∅ (∪)).
  - intros s. unfold fin_states. rewrite elem_of_filter, Hst, Hsrc.
    split; [|naive_solver].
    intros ((? & Hor) & ?). split_and!; [done..|]. intros tr Htr'.
    destruct Hor as [Hor| ->]; [eauto | by eapply Hnd].
Qed.
End construction.

(** ** Execution facts *)
Section execution.
Context {P A D : Type}.
Implicit Types (f : FSM P A D) (p : P) (args : list A).

Lemma with_state_id f : with_state f (currentState f) = f.
Proof. by destruct f. Qed.

(** [moved f f']: [f'] is [f] in its own state, or in the destination of one of
    the transitions of [f]. *)
Definition moved f f' : Prop :=
  f' = with_state f (currentState f') ∧
  (currentState f' = currentState f ∨
   ∃ k tr, transitions f !! k = Some tr ∧ currentState f' = tr_dstState tr).

Lemma moved_refl f : moved f f.
Proof. split; [by rewrite with_state_id | by left]. Qed.

Lemma moved_trans f1 f2 f3 : moved f1 f2 → moved f2 f3 → moved f1 f3.
Proof.
  intros [-> H12] [-> H23]; simpl in *. split; [done|].
  destruct H23 as [->|(k & tr & ? & ->)]; [done | right; eauto].
Qed.

Lemma SetState_moved f e : moved f (SetState f e).1.
Proof.
  unfold SetState. destruct (transitions f !! _) as [tr|] eqn:Htr; [|apply moved_refl].
  split; [done|]. right. eauto.
Qed.

Lemma processAutoEvent_moved f mode args p f' p' r :
  processAutoEvent f mode args p = Ret (f', p', r) → moved f f'.
Proof.
  unfold processAutoEvent. intros H.
  destruct (autoTransitions f !! _) as [tr|]; [|go_inv; apply moved_refl].
  go_inv. destruct a as [p1 [[out data] [e|]]]; go_inv; [apply moved_refl|].
  destruct (SetState f _) as [f1 err1] eqn:Hs; go_inv.
  rewrite <-(f_equal fst Hs : _ = f'). apply SetState_moved.
Qed.

Lemma do_event_moved f tr args p f' p' r :
  do_event f tr args p = Ret (f', p', r) → moved f f'.
Proof.
  unfold do_event. intros H. go_inv. destruct a as [[f1 p1] [[[b out] data] err]].
  apply processAutoEvent_moved in Ha. destruct (if b then err else None); [by go_inv|].
  go_inv. destruct a as [p2 [[out2 data2] [e|]]]; [by go_inv|].
  destruct (SetState f1 _) as [f2 err2] eqn:Hs.
  assert (moved f f2) as Hf2.
  { eapply moved_trans; [done|]. rewrite <-(f_equal fst Hs : _ = f2). apply SetState_moved. }
  destruct err2; [by go_inv|]. go_inv. destruct a as [[f3 p3] [[[b3 out3] data3] err3]].
  apply processAutoEvent_moved in Ha1.
  destruct (if b3 then err3 else None); go_inv; by eapply moved_trans.
Qed.

Lemma Do_moved f e args p f' p' r : Do f e args p = Ret (f', p', r) → moved f f'.
Proof.
  unfold Do. destruct (transitions f !! _) as [tr|]; [|intros; go_inv; apply moved_refl].
  destruct (tr_isInternal tr); [intros; go_inv; apply moved_refl | apply do_event_moved].
Qed.

(** No machine of the system has an automatic event that runs before the
    requested one; on such a machine [do] is its second half. *)
Definition after_only f : Prop := ∀ s, autoTransitions f !! (s, EventRunBefore) = None.

Definition run_callback f (e : Event) args p : Go (P * CbRet D) :=
  match callbacks f !! e with
  | Some callback => callback e args p
  | None => Ret (p, ("", None, None))
  end.

Lemma do_event_after_only f tr args p :
  after_only f →
  do_event f tr args p =
    ('(p2, (out, data, err)) ← run_callback f (tr_event tr) args p;
     match err with
     | Some e => Ret (f, p2, (Some (mk_Response "" data), Some e))
     | None =>
         match SetState f (move_event (tr_event tr) out) with
         | (f2, Some e) => Ret (f2, p2, (Some (mk_Response "" data), Some e))
         | (f2, None) =>
             '(f3, p3, (b, _, data', err')) ← processAutoEvent f2 EventRunAfter args p2;
             Ret (f3, p3,
               (Some (mk_Response (currentState f3) (if data' is Some _ then data' else data)), err'))
         end
     end).
Proof.
  intros Haft.
  assert (processAutoEvent f EventRunBefore args p = Ret (f, p, (false, "", None, None))) as Hb
    by (unfold processAutoEvent; by rewrite Haft).
  unfold do_event. rewrite Hb. simpl.
  unfold run_callback. destruct (match callbacks f !! _ with Some _ => _ | None => _ end)
    as [[p2 [[out data] [e|]]]|]; simpl; try done.
  destruct (SetState f _) as [f2 [e|]]; [done|].
  unfold processAutoEvent. destruct (autoTransitions f2 !! _) as [tr'|]; [|done].
  destruct (match callbacks f2 !! _ with Some _ => _ | None => _ end)
    as [[p3 [[out3 data3] [e|]]]|]; simpl; try done; [by destruct data3|].
  destruct (SetState f2 _) as [f3 [e|]]; by destruct data3.
Qed.
End execution.

(** ** The engine as a function of the descriptors

    What the tables stand for: an event is taken from a state when a descriptor
    with that name lists the state; the callback runs; the machine moves along
    the event or along the one the callback chose; the automatic event of the
    state it reached, if any, runs the same way. A callback's error stops the
    run where it is. *)

Definition find_desc (events : list EventDesc) (s : State) (e : Event) : option EventDesc :=
  List.find (fun d => (Name d =s? e) && bool_decide (s ∈ SrcState d) && negb (s =s? "")) events.

Definition find_auto (events : list EventDesc) (s : State) : option EventDesc :=
  List.find (fun d => IsAuto d && bool_decide (s ∈ SrcState d) && negb (s =s? "")) events.

Section spec.
Context {P A D : Type} (events : list EventDesc) (cbs : list (Event * Callback P A D)).

Definition find_cb (e : Event) : option (Callback P A D) :=
  snd <$> List.find (fun ec => ec.1 =s? e) (reverse cbs).

Definition call (e : Event) (args : list A) (p : P) : Go (P * CbRet D) :=
  match find_cb e with
  | Some callback => callback e args p
  | None => Ret (p, ("", None, None))
  end.

(** The automatic step of the state [s] just reached; [data] is the response
    data so far. *)
Definition spec_auto (s : State) (args : list A) (p : P) (data : option D)
  : Go (State * P * (Response D * option error)) :=
  match find_auto events s with
  | None => Ret (s, p, (mk_Response s data, None))
  | Some d =>
      '(p', (out, data', err)) ← call (Name d) args p;
      let data := if data' is Some _ then data' else data in
      match err with
      | Some e => Ret (s, p', (mk_Response s data, Some e))
      | None =>
          match find_desc events s (move_event (Name d) out) with
          | Some d' => Ret (DstState d', p', (mk_Response (DstState d') data, None))
          | None => Ret (s, p', (mk_Response s data, Some (Err "cannot set state by event for state")))
          end
      end
  end.

(** The rest of a run after the callback of [event] returned without error. *)
Definition finish (s : State) (event : Event) (args : list A) (p : P) (out : Event) (data : option D)
  : Go (State * P * (option (Response D) * option error)) :=
  match find_desc events s (move_event event out) with
  | None => Ret (s, p, (Some (mk_Response "" data),
              Some (Err "cannot set state by event for state")))
  | Some d =>
      '(s2, p2, (resp, err)) ← spec_auto (DstState d) args p data;
      Ret (s2, p2, (Some resp, err))
  end.

Definition spec_do (s : State) (event : Event) (args : list A) (p : P)
  : Go (State * P * (option (Response D) * option error)) :=
  match find_desc events s event with
  | None => Ret (s, p, (None, Some (Err "cannot execute event for state")))
  | Some d =>
      if IsInternal d then Ret (s, p, (None, Some (Err "event is internal")))
      else
        '(p1, (out, data, err)) ← call event args p;
        match err with
        | Some e => Ret (s, p1, (Some (mk_Response "" data), Some e))
        | None => finish s event args p1 out data
        end
  end.
End spec.

(** A run without error answers with the state it ends in. *)
Lemma spec_do_response {P A D} events (cbs : list (Event * Callback P A D)) s e args p s' p' resp :
  spec_do events cbs s e args p = Ret (s', p', (resp, None)) →
  ∃ r, resp = Some r ∧ rs_State r = s'.
Proof.
  unfold spec_do. destruct (find_desc events s e) as [d|]; [|done].
  destruct (IsInternal d); [done|]. intros H. go_inv. destruct a as [p1 [[out data] [err|]]]; [done|].
  unfold finish in H. destruct (find_desc events s _) as [d'|]; [|done]. go_inv.
  destruct a as [[s2 p2] [r err]]. go_inv. exists r. split; [done|]. unfold spec_auto in Ha0.
  destruct (find_auto events (DstState d')) as [da|]; [|by go_inv].
  go_inv. destruct a as [p3 [[out3 data3] [err3|]]]; [by go_inv|].
  destruct (find_desc events (DstState d') _); by go_inv.
Qed.

Lemma find_desc_Some events s e d :
  find_desc events s e = Some d → d ∈ events ∧ Name d = e ∧ s ∈ SrcState d ∧ s ≠ "".
Proof.
  unfold find_desc. intros [Hin Hb]%find_some. boolify. apply list_elem_of_In in Hin.
  destruct Hb as [Hb Hs]. boolify. destruct Hb as [Hn Hd]. boolify. done.
Qed.

Lemma find_desc_None events s e d :
  find_desc events s e = None → d ∈ events → Name d = e → s ∈ SrcState d → s ≠ "" → False.
Proof.
  unfold find_desc. intros Hf Hd%list_elem_of_In Hn Hs Hne.
  specialize (find_none _ _ Hf d Hd). simpl. rewrite Hn, seqb_refl, bool_decide_eq_true_2 by done.
  by rewrite (proj2 (seqb_false s "") Hne).
Qed.

Lemma find_auto_Some events s d :
  find_auto events s = Some d → d ∈ events ∧ IsAuto d = true ∧ s ∈ SrcState d ∧ s ≠ "".
Proof.
  unfold find_auto. intros [Hin Hb]%find_some. boolify. apply list_elem_of_In in Hin.
  destruct Hb as [Hb Hs]. boolify. destruct Hb as [Hn Hd]. boolify. done.
Qed.

Lemma find_auto_None events s d :
  find_auto events s = None → d ∈ events → IsAuto d = true → s ∈ SrcState d → s ≠ "" → False.
Proof.
  unfold find_auto. intros Hf Hd%list_elem_of_In Hn Hs Hne.
  specialize (find_none _ _ Hf d Hd). simpl. rewrite Hn, bool_decide_eq_true_2 by done.
  by rewrite (proj2 (seqb_false s "") Hne).
Qed.

(** Every automatic event of the descriptors runs after the requested one, as
    in the three machines of the system. *)
Definition autos_after (events : list EventDesc) : Prop :=
  Forall (fun d => IsAuto d = true → run_mode d = EventRunAfter) events.

#[global] Arguments find_desc : simpl never.
#[global] Arguments find_auto : simpl never.
#[global] Arguments call : simpl never.
#[global] Arguments spec_auto : simpl never.
#[global] Arguments finish : simpl never.

Section refinement.
Context {P A D : Type}.
Implicit Types (f : FSM P A D) (cbs : list (Event * Callback P A D)).

Lemma find_cb_lookup cbs e :
  (list_to_map (reverse cbs) : gmap Event (Callback P A D)) !! e = find_cb cbs e.
Proof.
  unfold find_cb. induction (reverse cbs) as [|[e' cb] l IH]; [done|]. simpl.
  destruct (e' =s? e) eqn:He; boolify.
  - subst. by rewrite lookup_insert_eq.
  - by rewrite lookup_insert_ne.
Qed.

Section with_machine.
Context {machineName : string} {init : State} {events : list EventDesc}
  {cbs : list (Event * Callback P A D)} {f : FSM P A D}.
Hypothesis Hc : constructed machineName init events cbs f.
Hypothesis Hafter : autos_after events.

Lemma transitions_find s e : transitions f !! (s, e) = tr_of <$> find_desc events s e.
Proof.
  destruct (find_desc events s e) as [d|] eqn:Hd; simpl.
  - apply find_desc_Some in Hd as (? & <- & ? & ?). apply (c_transitions _ _ _ _ _ Hc).
    split; [done|]. by exists d.
  - apply eq_None_not_Some. intros [tr Htr]. apply (c_transitions _ _ _ _ _ Hc) in Htr as
      (He & d & ? & ? & ? & ->). by eapply find_desc_None.
Qed.

Lemma auto_find s : autoTransitions f !! (s, EventRunAfter) = tr_of <$> find_auto events s.
Proof.
  destruct (find_auto events s) as [d|] eqn:Hd; simpl.
  - apply find_auto_Some in Hd as (Hin & Ha & ? & ?). apply (c_auto _ _ _ _ _ Hc).
    split_and!; [done| |by exists d]. unfold autos_after in Hafter. rewrite Forall_forall in Hafter.
    by apply Hafter.
  - apply eq_None_not_Some. intros [tr Htr]. apply (c_auto _ _ _ _ _ Hc) in Htr as
      (He & ? & d & ? & ? & ? & ->). by eapply find_auto_None.
Qed.

Lemma constructed_after_only s : after_only (with_state f s).
Proof.
  intros s'. simpl. apply eq_None_not_Some. intros [tr Htr].
  apply (c_auto _ _ _ _ _ Hc) in Htr as (He & Hm & d & Hin & ? & ? & ->). simpl in *.
  unfold autos_after in Hafter. rewrite Forall_forall in Hafter. rewrite Hafter in Hm by done. done.
Qed.

Lemma run_callback_call s e args p : run_callback (with_state f s) e args p = call cbs e args p.
Proof. unfold run_callback, call. simpl. by rewrite (c_callbacks _ _ _ _ _ Hc), find_cb_lookup. Qed.

Lemma SetState_find s e :
  SetState (with_state f s) e =
    match find_desc events s e with
    | Some d => (with_state f (DstState d), None)
    | None => (with_state f s, Some (Err "cannot set state by event for state"))
    end.
Proof. unfold SetState. simpl. rewrite transitions_find. by destruct (find_desc events s e). Qed.

Lemma auto_refines s args p data :
  ('(f3, p3, (_, _, data', err')) ← processAutoEvent (with_state f s) EventRunAfter args p;
   Ret (f3, p3,
     (Some (mk_Response (currentState f3) (if data' is Some _ then data' else data)), err'))) =
  ('(s2, p2, (resp, err)) ← spec_auto events cbs s args p data;
   Ret (with_state f s2, p2, (Some resp, err))).
Proof.
  unfold spec_auto, processAutoEvent. simpl. rewrite auto_find.
  destruct (find_auto events s) as [d|]; [|done]. simpl.
  change (match GoFsm.callbacks f !! Name d with
          | Some callback => callback (Name d) args p | None => Ret (p, ("", None, None)) end)
    with (run_callback (with_state f s) (Name d) args p).
  rewrite run_callback_call.
  destruct (call cbs (Name d) args p) as [[p1 [[out data1] [e|]]]|]; [done| |done]. simpl.
  rewrite SetState_find. by destruct (find_desc events s _).
Qed.

(** [Do] on a machine in state [s]. *)
Lemma Do_refines_spec s e args p :
  Do (with_state f s) e args p =
    ('(s', p', r) ← spec_do events cbs s e args p; Ret (with_state f s', p', r)).
Proof.
  unfold Do, spec_do. simpl. rewrite transitions_find.
  destruct (find_desc events s e) as [d|] eqn:Hd; [|done]. simpl.
  apply find_desc_Some in Hd as (_ & <- & _).
  destruct (IsInternal d); [done|].
  rewrite do_event_after_only by apply constructed_after_only. simpl.
  rewrite run_callback_call.
  destruct (call cbs (Name d) args p) as [[p1 [[out data1] [e|]]]|]; [done| |done]. simpl.
  unfold finish. rewrite SetState_find. destruct (find_desc events s _) as [d'|]; [|done].
  rewrite auto_refines. by destruct (spec_auto _ _ _ _ _ _) as [[[??][??]]|].
Qed.
End with_machine.
End refinement.

(** Enumerate the descriptors that take an event from a state, for a run [H]
    of the engine that returned no error. *)
Ltac step_cases H :=
  unfold spec_do in H;
  match type of H with
  | context [find_desc ?evs ?s ?e] =>
      let Hd := fresh "Hd" in
      destruct (find_desc evs s e) eqn:Hd; [|done];
      apply find_desc_Some in Hd; destruct Hd as (Hd & ? & ? & _);
      repeat (apply elem_of_cons in Hd as [->|Hd]; [|]); [..|by apply not_elem_of_nil in Hd];
      simplify_eq/=
  end;
  repeat match goal with
  | Hs : _ ∈ [_] |- _ => apply list_elem_of_singleton in Hs; subst
  | Hs : _ ∈ _ :: _ |- _ => apply elem_of_cons in Hs as [Hs|Hs]; [subst|]
  end.

(** The same from a lookup [Hd] of the table. *)
Ltac desc_cases Hd :=
  apply find_desc_Some in Hd; destruct Hd as (Hd & ? & ? & _);
  repeat (apply elem_of_cons in Hd as [->|Hd]; [|]); [..|by apply not_elem_of_nil in Hd];
  simplify_eq/=;
  repeat match goal with
  | Hs : _ ∈ [_] |- _ => apply list_elem_of_singleton in Hs; subst
  | Hs : _ ∈ _ :: _ |- _ => apply elem_of_cons in Hs as [Hs|Hs]; [subst|]
  end.

(** The callback of a step that returned no error. *)
Ltac callback_ok H Ha :=
  match type of H with
  | context [call ?cbs ?e ?args ?p ≫= _] =>
      destruct (call cbs e args p) as [[? [[? ?] [?|]]]|] eqn:Ha; [done| |done]; simpl in H
  end.

(** Run a callback body symbolically: [H] says what the body returned, the
    branches that returned something else are gone. *)
Ltac act_unfold H :=
  unfold run_action, arg0, require, check, fail, early, get, put, lift, mret, Act_ret,
    mbind, Act_bind, Go_bind, deref in H; simpl in H.

Ltac act_run :=
  unfold run_action, arg0, require, check, fail, early, get, put, lift, mret, Act_ret,
    mbind, Act_bind, Go_bind, deref; simpl.

Ltac act_step H :=
  match type of H with
  | Ret _ = Ret _ => progress simplify_eq
  | Panic _ = Ret _ => discriminate H
  | context [match ?x with _ => _ end] =>
      lazymatch x with context [match _ with _ => _ end] => fail | _ => idtac end;
      destruct x eqn:?; simpl in H; try discriminate H
  end.

Ltac act_inv H := act_unfold H; repeat (act_step H); simplify_eq/=; boolify.

(** Evaluate the lookups of a concrete table. *)
Ltac table H :=
  repeat match type of H with
  | context [find_desc ?evs ?s ?e] =>
      let r := eval vm_compute in (find_desc evs s e) in
      lazymatch r with Some _ => idtac | None => idtac end;
      change (find_desc evs s e) with r in H; cbn [DstState Name IsInternal] in H
  | context [find_auto ?evs ?s] =>
      let r := eval vm_compute in (find_auto evs s) in
      lazymatch r with Some _ => idtac | None => idtac end;
      change (find_auto evs s) with r in H; cbn [DstState Name IsInternal] in H
  end.

Ltac table_goal :=
  repeat match goal with
  | |- context [find_desc ?evs ?s ?e] =>
      let r := eval vm_compute in (find_desc evs s e) in
      lazymatch r with Some _ => idtac | None => idtac end;
      change (find_desc evs s e) with r; cbn [DstState Name IsInternal]
  | |- context [find_auto ?evs ?s] =>
      let r := eval vm_compute in (find_auto evs s) in
      lazymatch r with Some _ => idtac | None => idtac end;
      change (find_auto evs s) with r; cbn [DstState Name IsInternal]
  end.

(** Run every branch of a callback body in the goal. *)
Ltac act_branches :=
  repeat match goal with
  | |- context [match ?x with _ => _ end] =>
      lazymatch x with context [match _ with _ => _ end] => fail | _ => idtac end;
      destruct x eqn:?; simpl
  end.

(** A callback that returns, and that changes nothing when it returns an
    error. *)
Definition total_on {P A D} (eqv : P → P → Prop) (cb : Callback P A D) e args p : Prop :=
  ∃ p' out d err, cb e args p = Ret (p', (out, d, err)) ∧ (err ≠ None → eqv p' p).

(** A step from a state whose callbacks are total, and whose successors satisfy
    [I], is total, and an error changes neither state nor payload. *)
Lemma spec_do_progress {P A D} events (cbs : list (Event * Callback P A D)) (I : P → State → Prop)
    (eqv : P → P → Prop) s e args p :
  eqv p p →
  (∀ d, find_desc events s e = Some d → IsInternal d = false →
     total_on eqv (call cbs) e args p ∧
     ∀ p1 out data, call cbs e args p = Ret (p1, (out, data, None)) →
       ∃ s' p' r, finish events cbs s e args p1 out data = Ret (s', p', (Some r, None)) ∧ I p' s') →
  ∃ s' p' resp err, spec_do events cbs s e args p = Ret (s', p', (resp, err)) ∧
    match err with Some _ => s' = s ∧ eqv p' p | None => I p' s' end.
Proof.
  intros Hrefl H. unfold spec_do. destruct (find_desc events s e) as [d|]; [|by do 4 eexists].
  destruct (IsInternal d) eqn:Hi; [by do 4 eexists|].
  destruct (H d eq_refl Hi) as [(p1 & out & data & err & Hc & Herr) Hfin]. rewrite Hc. simpl.
  destruct err as [e'|].
  - do 4 eexists. split; [done|]. split; [done|]. by apply Herr.
  - destruct (Hfin _ _ _ Hc) as (s' & p' & r & -> & HI). by do 4 eexists.
Qed.

(** An accepted event: it is public, its callback returned no error, and the
    rest of the run did not either. *)
Lemma spec_do_accepted {P A D} events (cbs : list (Event * Callback P A D)) s e args p s' p' resp :
  spec_do events cbs s e args p = Ret (s', p', (resp, None)) →
  ∃ d p1 out data, find_desc events s e = Some d ∧ IsInternal d = false ∧
    call cbs e args p = Ret (p1, (out, data, None)) ∧
    finish events cbs s e args p1 out data = Ret (s', p', (resp, None)).
Proof.
  unfold spec_do. destruct (find_desc events s e) as [d|]; [|done].
  destruct (IsInternal d) eqn:Hi; [done|].
  destruct (call cbs e args p) as [[p1 [[out data] [err|]]]|]; [done| |done]. simpl.
  intros H. by do 4 eexists.
Qed.
