(* ===== verification/FsmPool.v ===== *)
(** * The pool of machines, [fsm/fsm_pool/fsm_pool.go]

    The pool finds the machine that handles a state or an event. It is written
    against the interface [MachineProvider]; the theorems about it need what
    [provider_ok] says of each machine, which every machine built by
    [MustNewFSM] satisfies. *)

From S2P Require Import Prelude GoFsm.

(** [type MachineProvider interface]: what the pool calls. *)
Class MachineProvider (M : Type) : Type := {
  mp_Name : M → string;
  mp_InitialState : M → State;
  mp_GlobalInitialEvent : M → Event;
  mp_EntryEvent : M → Event;
  mp_EventsList : M → list Event;
  mp_StatesList : M → list State;
  mp_IsFinState : M → State → bool
}.

(** The embedded [*fsm.FSM] implements it. *)
#[export] Instance FSM_MachineProvider {P A D} : MachineProvider (FSM P A D) := {
  mp_Name := name;
  mp_InitialState := initialState;
  mp_GlobalInitialEvent := GlobalInitialEvent;
  mp_EntryEvent := EntryEvent;
  mp_EventsList := EventsList;
  mp_StatesList := StatesList;
  mp_IsFinState := IsFinState
}.

Section pool.
Context {M : Type} `{!MachineProvider M}.

Record FSMPool : Type := mk_FSMPool {
  fsmInitialEvent : Event;
  pool_mapper : gmap string M;
  pool_events : gmap Event string;
  pool_states : gmap State string;
  pool_entryEvents : gmap State Event
}.

(** The body of [for _, event := range machineEvents]. *)
Definition register_event (machineName : string) (events : gmap Event string) (event : Event)
  : Go (gmap Event string) :=
  if bool_decide (is_Some (events !! event)) then Panic "duplicate public event"
  else Ret (<[event := machineName]> events).

(** The body of the first loop, with [allInitStatesMap]. *)
Definition register_machine (acc : FSMPool * gmap State string) (o : option M)
  : Go (FSMPool * gmap State string) :=
  match o with
  | None => Panic "machine not initialized, got nil"
  | Some machine =>
      let '(p, allInitStatesMap) := acc in
      let machineName := mp_Name machine in
      if machineName =s? "" then Panic "machine name cannot be empty"
      else if bool_decide (is_Some (pool_mapper p !! machineName)) then Panic "duplicate machine name"
      else
        let allInitStatesMap := <[mp_InitialState machine := machineName]> allInitStatesMap in
        events ← foldM (register_event machineName) (pool_events p) (mp_EventsList machine);
        let initialEvent := mp_GlobalInitialEvent machine in
        fsmInitialEvent ←
          (if negb (IsEmpty initialEvent) then
             if negb (fsmInitialEvent p =s? "") then Panic "duplicate entry event initialization"
             else Ret initialEvent
           else Ret (fsmInitialEvent p));
        let entryEvents :=
          if negb (IsEmpty (mp_EntryEvent machine))
          then <[mp_InitialState machine := mp_EntryEvent machine]> (pool_entryEvents p)
          else pool_entryEvents p in
        Ret (mk_FSMPool fsmInitialEvent (<[machineName := machine]> (pool_mapper p)) events
               (pool_states p) entryEvents,
             allInitStatesMap)
  end.

(** The body of [for _, state := range machineStates]. *)
Definition register_state (allInitStatesMap : gmap State string) (machine : M)
    (states : gmap State string) (state : State) : Go (gmap State string) :=
  if mp_IsFinState machine state then
    match allInitStatesMap !! state with
    | Some initMachineName => Ret (<[state := initMachineName]> states)
    | None => Ret states
    end
  else
    match states !! state with
    | Some name =>
        if negb (name =s? mp_Name machine) then Panic "duplicate state for machines"
        else Ret (<[state := mp_Name machine]> states)
    | None => Ret (<[state := mp_Name machine]> states)
    end.

(** The body of the second loop. *)
Definition register_states (allInitStatesMap : gmap State string) (states : gmap State string)
    (o : option M) : Go (gmap State string) :=
  machine ← deref o;
  foldM (register_state allInitStatesMap machine) states (mp_StatesList machine).

Definition Init (machines : list (option M)) : Go FSMPool :=
  if Z.of_nat (length machines) =? 0 then Panic "cannot initialize empty pool"
  else
    '(p, allInitStatesMap) ← foldM register_machine (mk_FSMPool "" ∅ ∅ ∅ ∅, ∅) machines;
    states ← foldM (register_states allInitStatesMap) (pool_states p) machines;
    if fsmInitialEvent p =s? "" then Panic "machines pool entry event not set"
    else Ret (mk_FSMPool (fsmInitialEvent p) (pool_mapper p) (pool_events p) states
                (pool_entryEvents p)).

Definition EntryPointMachine (p : FSMPool) : M + error :=
  match pool_mapper p !! default "" (pool_events p !! fsmInitialEvent p) with
  | Some machine => inl machine
  | None => inr (Err "cannot init machine with entry point")
  end.

Definition MachineByEvent (p : FSMPool) (event : Event) : M + error :=
  match pool_mapper p !! default "" (pool_events p !! event) with
  | Some machine => inl machine
  | None => inr (Err "cannot init machine for event")
  end.

Definition MachineByState (p : FSMPool) (state : State) : M + error :=
  match pool_mapper p !! default "" (pool_states p !! state) with
  | Some machine => inl machine
  | None => inr (Err "cannot init machine for state")
  end.

(** ** What the pool promises *)

(** What the pool relies on: the states a machine lists are sources of a
    transition, hence not exit states, and its global initial event is public. *)
Record provider_ok (m : M) : Prop := {
  po_not_fin s : s ∈ mp_StatesList m → mp_IsFinState m s = false;
  po_initial : mp_GlobalInitialEvent m ≠ "" → mp_GlobalInitialEvent m ∈ mp_EventsList m
}.

(** The pool after the first loop has seen [ms]. *)
Record registered (ms : list M) (p : FSMPool) : Prop := {
  reg_mapper n m : pool_mapper p !! n = Some m ↔ m ∈ ms ∧ mp_Name m = n;
  reg_names m : m ∈ ms → mp_Name m ≠ "";
  reg_events e n : pool_events p !! e = Some n ↔ ∃ m, m ∈ ms ∧ mp_Name m = n ∧ e ∈ mp_EventsList m;
  reg_initial : fsmInitialEvent p = "" ∨ ∃ m, m ∈ ms ∧ mp_GlobalInitialEvent m = fsmInitialEvent p;
  reg_states : pool_states p = ∅
}.

Lemma register_events_spec n evs events events' :
  foldM (register_event n) events evs = Ret events' →
  ∀ e k, events' !! e = Some k ↔ events !! e = Some k ∨ (e ∈ evs ∧ k = n).
Proof.
  induction evs as [|e0 evs IH] in events |- *; simpl; intros H e k; go_inv; [set_solver|].
  unfold register_event in Ha. case_bool_decide as Hs; [done|]. go_inv.
  rewrite (IH _ H e k), elem_of_cons, lookup_insert_Some. apply eq_None_not_Some in Hs.
  destruct (decide (e = e0)) as [-> |Hne]; [rewrite Hs|]; naive_solver.
Qed.

Lemma register_machine_spec ms p inits o acc' :
  registered ms p → register_machine (p, inits) o = Ret acc' →
  ∃ m, o = Some m ∧ registered (ms ++ [m]) acc'.1.
Proof.
  intros [Hm Hn He Hi Hs] H. unfold register_machine in H. destruct o as [m|]; [|done].
  destruct (mp_Name m =s? "") eqn:Hname; [done|]. case_bool_decide as Hdup; [done|].
  apply eq_None_not_Some in Hdup. boolify. go_inv. simpl. exists m. split; [done|].
  pose proof (register_events_spec _ _ _ _ Ha) as Hev. split; simpl.
  - intros n m'. rewrite lookup_insert_Some, Hm, elem_of_app, list_elem_of_singleton.
    assert (∀ m0, m0 ∈ ms → mp_Name m0 ≠ mp_Name m) as Hfresh.
    { intros m0 Hm0 Heq. assert (pool_mapper p !! mp_Name m = Some m0) by by apply Hm. congruence. }
    clear -Hfresh. naive_solver.
  - intros m' [?| ->%list_elem_of_singleton]%elem_of_app; auto.
  - intros e n. rewrite Hev, He. setoid_rewrite elem_of_app. setoid_rewrite list_elem_of_singleton.
    clear. naive_solver.
  - destruct (negb (IsEmpty (mp_GlobalInitialEvent m))); [destruct (negb _); [done|]|]; go_inv.
    + right. exists m. set_solver.
    + destruct Hi as [?|(m' & ? & ?)]; [by left|right; exists m'; set_solver].
  - done.
Qed.

Lemma register_machines_spec os p inits acc' ms :
  registered ms p → foldM register_machine (p, inits) os = Ret acc' →
  ∃ ms', os = Some <$> ms' ∧ registered (ms ++ ms') acc'.1.
Proof.
  induction os as [|o os IH] in ms, p, inits |- *; simpl; intros Hr H; go_inv.
  { exists []. by rewrite app_nil_r. }
  destruct (register_machine_spec _ _ _ _ _ Hr Ha) as (m & -> & Hr'). destruct a as [p1 inits1].
  destruct (IH _ _ _ Hr' H) as (ms' & -> & Hr''). exists (m :: ms'). split; [done|].
  by rewrite cons_middle, app_assoc.
Qed.

Lemma register_state_spec inits m l states states' :
  (∀ s, s ∈ l → mp_IsFinState m s = false) →
  foldM (register_state inits m) states l = Ret states' →
  ∀ s n, states' !! s = Some n ↔ states !! s = Some n ∨ (s ∈ l ∧ n = mp_Name m).
Proof.
  induction l as [|s0 l IH] in states |- *; simpl; intros Hfin H s n; go_inv; [set_solver|].
  assert (a = <[s0 := mp_Name m]> states ∧ (∀ n', states !! s0 = Some n' → n' = mp_Name m)) as [-> Hs0].
  { unfold register_state in Ha. rewrite Hfin in Ha by set_solver.
    destruct (states !! s0) as [n'|] eqn:Hs0; [|go_inv; naive_solver].
    destruct (n' =s? mp_Name m) eqn:Hn; simpl in Ha; go_inv. boolify. naive_solver. }
  rewrite (IH _ ltac:(set_solver) H s n), elem_of_cons, lookup_insert_Some.
  destruct (decide (s = s0)) as [-> |Hne]; [|naive_solver]. clear -Hs0. naive_solver.
Qed.

Lemma register_states_spec inits ms states states' :
  (∀ m, m ∈ ms → provider_ok m) →
  foldM (register_states inits) states (Some <$> ms) = Ret states' →
  ∀ s n, states' !! s = Some n ↔
    states !! s = Some n ∨ ∃ m, m ∈ ms ∧ s ∈ mp_StatesList m ∧ n = mp_Name m.
Proof.
  induction ms as [|m ms IH] in states |- *; simpl; intros Hok H s n; go_inv; [set_solver|].
  unfold register_states in Ha. simpl in Ha.
  rewrite (IH _ ltac:(set_solver) H s n).
  rewrite (register_state_spec _ _ _ _ _ (po_not_fin m (Hok m ltac:(set_solver))) Ha).
  setoid_rewrite elem_of_cons. clear. naive_solver.
Qed.

(** A pool that was built finds the machine of every listed state and public
    event, and nothing else. *)
Record indexes (ms : list M) (p : FSMPool) : Prop := {
  ix_state s m : MachineByState p s = inl m ↔ m ∈ ms ∧ s ∈ mp_StatesList m;
  ix_event e m : MachineByEvent p e = inl m ↔ m ∈ ms ∧ e ∈ mp_EventsList m;
  ix_entry : ∃ m, EntryPointMachine p = inl m ∧ m ∈ ms ∧ mp_GlobalInitialEvent m ≠ "" ∧
    mp_GlobalInitialEvent m = fsmInitialEvent p
}.

Lemma Init_indexes os p :
  (∀ m, Some m ∈ os → provider_ok m) → Init os = Ret p →
  ∃ ms, os = Some <$> ms ∧ indexes ms p.
Proof.
  intros Hok H. unfold Init in H. destruct (_ =? 0); [done|]. go_inv. destruct a as [p0 inits].
  go_inv. destruct (fsmInitialEvent p0 =s? "") eqn:Hie; [done|]. go_inv. boolify.
  assert (registered [] (mk_FSMPool "" ∅ ∅ ∅ ∅)) as H0 by (split; simpl; set_solver).
  destruct (register_machines_spec os _ _ _ [] H0 Ha) as (ms & -> & Hreg).
  simpl in Hreg. destruct Hreg as [Hm Hn He Hi Hs].
  assert (∀ m, m ∈ ms → provider_ok m) as Hok'.
  { intros m Hin. apply Hok. by apply list_elem_of_fmap_2. }
  assert (∀ n, n = "" → pool_mapper p0 !! n = None) as Hempty.
  { intros n ->. apply eq_None_not_Some. intros [m [Hin Hname]%Hm]. by apply (Hn m). }
  assert (∀ (o : option string) m, pool_mapper p0 !! default "" o = Some m ↔
            o = Some (mp_Name m) ∧ m ∈ ms) as Hl.
  { intros [n|] m; simpl; [rewrite Hm; naive_solver|]. rewrite Hempty by done. naive_solver. }
  exists ms. split; [done|]. split.
  - intros s m. unfold MachineByState. simpl.
    assert (pool_mapper p0 !! default "" (a !! s) = Some m ↔ m ∈ ms ∧ s ∈ mp_StatesList m) as Hiff.
    { rewrite Hl, (register_states_spec _ _ _ _ Hok' Ha0), Hs, lookup_empty. split.
      - intros [[?|(m' & Hm' & Hs' & Hname)] Hin]; [done|].
        assert (pool_mapper p0 !! mp_Name m = Some m) by by apply Hm.
        assert (pool_mapper p0 !! mp_Name m = Some m') by by apply Hm. naive_solver congruence.
      - intros [? ?]. split; [right; eauto|done]. }
    rewrite <-Hiff. destruct (pool_mapper p0 !! _); naive_solver.
  - intros e m. unfold MachineByEvent. simpl.
    assert (pool_mapper p0 !! default "" (pool_events p0 !! e) = Some m ↔
              m ∈ ms ∧ e ∈ mp_EventsList m) as Hiff.
    { rewrite Hl, He. split.
      - intros [(m' & Hm' & Hname & He') Hin].
        assert (pool_mapper p0 !! mp_Name m = Some m) by by apply Hm.
        assert (pool_mapper p0 !! mp_Name m = Some m') by by apply Hm. naive_solver congruence.
      - intros [? ?]. split; [eauto|done]. }
    rewrite <-Hiff. destruct (pool_mapper p0 !! _); naive_solver.
  - destruct Hi as [?|(m & Hin & Hg)]; [done|]. exists m. unfold EntryPointMachine. simpl.
    rewrite (proj2 (Hl _ m)); [split_and!; [done..|congruence|done]|]. split; [|done].
    apply He. exists m. split_and!; [done..|]. rewrite <-Hg. apply (po_initial m); [by apply Hok'|congruence].
Qed.
End pool.
Arguments FSMPool : clear implicits.

(** ** Machines built by [MustNewFSM] are providers the pool can rely on *)

Lemma elem_of_StatesList {P A D} (f : FSM P A D) s :
  s ∈ StatesList f ↔ ∃ e tr, transitions f !! (s, e) = Some tr.
Proof.
  unfold StatesList. rewrite elem_of_elements, elem_of_list_to_set, list_elem_of_fmap. split.
  - intros ([s' e] & -> & ([k tr] & Hk & Hin)%list_elem_of_fmap). simpl in *. subst k.
    apply elem_of_map_to_list in Hin. eauto.
  - intros (e & tr & H). exists (s, e). split; [done|]. apply list_elem_of_fmap.
    exists (s, e, tr). split; [done|]. by apply elem_of_map_to_list.
Qed.

Lemma elem_of_EventsList {P A D} (f : FSM P A D) e :
  e ∈ EventsList f ↔ ∃ s tr, transitions f !! (s, e) = Some tr ∧ tr_isInternal tr = false.
Proof.
  unfold EventsList. rewrite elem_of_elements, elem_of_list_to_set, list_elem_of_omap. split.
  - intros ([[s e'] tr] & Hin & Ho). apply elem_of_map_to_list in Hin.
    destruct (tr_isInternal tr) eqn:Hi; simplify_eq. eauto.
  - intros (s & tr & H & Hi). exists (s, e, tr). rewrite elem_of_map_to_list. by rewrite Hi.
Qed.

Lemma constructed_provider_ok {P A D} n init events cbs (f : FSM P A D) :
  constructed n init events cbs f → provider_ok f.
Proof.
  intros Hc. split.
  - intros s (e & tr & H)%elem_of_StatesList. unfold mp_IsFinState; simpl. unfold IsFinState.
    apply bool_decide_eq_false. rewrite (c_fin _ _ _ _ _ Hc). intros (_ & _ & Hn).
    apply (Hn tr). by apply (c_transitions _ _ _ _ _ Hc) in H as [_ ?].
  - simpl. unfold GlobalInitialEvent. destruct (transitions f !! _) as [tr|] eqn:H; [|done].
    destruct (tr_isInternal tr) eqn:Hi; [done|]. intros _. apply elem_of_EventsList. eauto.
Qed.
