(* ===== verification/Requests.v ===== *)
(** * Requests, responses and their validation

    [fsm/config/config.go], [fsm/types/requests] and [fsm/types/responses]: the
    typed arguments of the events of the three machines, the [Validate] methods
    the machines call before they act, and the data they answer with. *)

From S2P Require Import Prelude.

(** ** [fsm/config/config.go] *)

Definition UsernameMinLength : Z := 3.
Definition UsernameMaxLength : Z := 150.
Definition ParticipantPubKeyMinLength : Z := 10.
Definition DkgPubKeyMinLength : Z := 10.
Definition SignatureProposalSigningThresholdMinCount : Z := 2.
Definition ParticipantsMinCount : Z := 2.
Definition SignatureProposalConfirmationDeadline : Z := Hour * 24 * 7.
Definition DkgConfirmationDeadline : Z := Hour * 24 * 7.
Definition SigningConfirmationDeadline : Z := Hour * 24 * 7.

(** ** Requests *)

Record FSMError : Type := mk_FSMError { ErrorMsg : string }.

Record DefaultRequest : Type := mk_DefaultRequest { dr_CreatedAt : Time }.

Record SignatureProposalParticipantsEntry : Type := mk_SignatureProposalParticipantsEntry {
  pe_Username : string;
  pe_PubKey : bytes;
  pe_DkgPubKey : bytes
}.

(** The entries are pointers: a [null] in the JSON array decodes to [nil]. *)
Record SignatureProposalParticipantsListRequest : Type :=
  mk_SignatureProposalParticipantsListRequest {
  pl_Participants : list (option SignatureProposalParticipantsEntry);
  pl_SigningThreshold : Z;
  pl_CreatedAt : Time
}.

Record SignatureProposalParticipantRequest : Type := mk_SignatureProposalParticipantRequest {
  pr_ParticipantId : Z;
  pr_CreatedAt : Time
}.

Record SignatureProposalConfirmationErrorRequest : Type :=
  mk_SignatureProposalConfirmationErrorRequest {
  se_ParticipantId : Z;
  se_Error : option FSMError;
  se_CreatedAt : Time
}.

Record DKGProposalCommitConfirmationRequest : Type := mk_DKGProposalCommitConfirmationRequest {
  cr_ParticipantId : Z;
  cr_Commit : bytes;
  cr_CreatedAt : Time
}.

Record DKGProposalDealConfirmationRequest : Type := mk_DKGProposalDealConfirmationRequest {
  de_ParticipantId : Z;
  de_Deal : bytes;
  de_CreatedAt : Time
}.

Record DKGProposalResponseConfirmationRequest : Type :=
  mk_DKGProposalResponseConfirmationRequest {
  rr_ParticipantId : Z;
  rr_Response : bytes;
  rr_CreatedAt : Time
}.

Record DKGProposalMasterKeyConfirmationRequest : Type :=
  mk_DKGProposalMasterKeyConfirmationRequest {
  mr_ParticipantId : Z;
  mr_MasterKey : bytes;
  mr_CreatedAt : Time;
  mr_PubPolyBz : bytes
}.

Record DKGProposalConfirmationErrorRequest : Type := mk_DKGProposalConfirmationErrorRequest {
  er_ParticipantId : Z;
  er_Error : option FSMError;
  er_CreatedAt : Time
}.

(** [Payload] is compared with [nil], hence the option. *)
Record SigningTask : Type := mk_SigningTask {
  st_MessageID : string;
  st_File : string;
  st_Payload : option bytes;
  st_RangeStart : Z;
  st_RangeEnd : Z
}.

Record SigningBatchProposalStartRequest : Type := mk_SigningBatchProposalStartRequest {
  bs_BatchID : string;
  bs_ParticipantId : Z;
  bs_CreatedAt : Time;
  bs_SigningTasks : list SigningTask
}.

Record PartialSign : Type := mk_PartialSign { ps_MessageID : string; ps_Sign : bytes }.

Record SigningProposalBatchPartialSignRequests : Type :=
  mk_SigningProposalBatchPartialSignRequests {
  bp_BatchID : string;
  bp_ParticipantId : Z;
  bp_PartialSigns : list PartialSign;
  bp_CreatedAt : Time
}.

(** The dynamic type of an event's argument ([interface{}]). [RqOther] is a
    value of any other type, for instance the [error] value that
    [FSMRequestFromMessage] hands over for undecodable data. *)
Inductive Request : Type :=
| RqDefault (r : DefaultRequest)
| RqParticipantsList (r : SignatureProposalParticipantsListRequest)
| RqParticipant (r : SignatureProposalParticipantRequest)
| RqSignatureError (r : SignatureProposalConfirmationErrorRequest)
| RqCommit (r : DKGProposalCommitConfirmationRequest)
| RqDeal (r : DKGProposalDealConfirmationRequest)
| RqResponse (r : DKGProposalResponseConfirmationRequest)
| RqMasterKey (r : DKGProposalMasterKeyConfirmationRequest)
| RqDkgError (r : DKGProposalConfirmationErrorRequest)
| RqSigningStart (r : SigningBatchProposalStartRequest)
| RqPartialSigns (r : SigningProposalBatchPartialSignRequests)
| RqOther.

(** Type assertions [args[0].(T)]. *)
Definition as_DefaultRequest (r : Request) : option DefaultRequest :=
  match r with RqDefault r => Some r | _ => None end.
Definition as_ParticipantsList (r : Request) : option SignatureProposalParticipantsListRequest :=
  match r with RqParticipantsList r => Some r | _ => None end.
Definition as_Participant (r : Request) : option SignatureProposalParticipantRequest :=
  match r with RqParticipant r => Some r | _ => None end.
Definition as_SignatureError (r : Request) : option SignatureProposalConfirmationErrorRequest :=
  match r with RqSignatureError r => Some r | _ => None end.
Definition as_Commit (r : Request) : option DKGProposalCommitConfirmationRequest :=
  match r with RqCommit r => Some r | _ => None end.
Definition as_Deal (r : Request) : option DKGProposalDealConfirmationRequest :=
  match r with RqDeal r => Some r | _ => None end.
Definition as_Response (r : Request) : option DKGProposalResponseConfirmationRequest :=
  match r with RqResponse r => Some r | _ => None end.
Definition as_MasterKey (r : Request) : option DKGProposalMasterKeyConfirmationRequest :=
  match r with RqMasterKey r => Some r | _ => None end.
Definition as_DkgError (r : Request) : option DKGProposalConfirmationErrorRequest :=
  match r with RqDkgError r => Some r | _ => None end.
Definition as_SigningStart (r : Request) : option SigningBatchProposalStartRequest :=
  match r with RqSigningStart r => Some r | _ => None end.
Definition as_PartialSigns (r : Request) : option SigningProposalBatchPartialSignRequests :=
  match r with RqPartialSigns r => Some r | _ => None end.

(** ** Validation *)

(** The chain of [if cond { return errors.New(msg) }] of a [Validate] method:
    the first guard that holds gives the error. *)
Fixpoint first_error (guards : list (bool * string)) : option error :=
  match guards with
  | [] => None
  | (b, msg) :: guards => if b : bool then Some (Err msg) else first_error guards
  end.

Definition DefaultRequest_Validate (r : DefaultRequest) : option error :=
  first_error [(IsZero (dr_CreatedAt r), "{CreatedAt} is not set")].

Definition SignatureProposalParticipantRequest_Validate
    (r : SignatureProposalParticipantRequest) : option error :=
  first_error
    [(pr_ParticipantId r <? 0, "{ParticipantId} cannot be a negative number");
     (IsZero (pr_CreatedAt r), "{CreatedAt} cannot be a nil")].

Definition SignatureProposalConfirmationErrorRequest_Validate
    (r : SignatureProposalConfirmationErrorRequest) : option error :=
  first_error
    [(se_ParticipantId r <? 0, "{ParticipantId} cannot be a negative number");
     (bool_decide (se_Error r = None), "{Error} cannot be a nil");
     (IsZero (se_CreatedAt r), "{CreatedAt} is not set")].

Definition DKGProposalCommitConfirmationRequest_Validate
    (r : DKGProposalCommitConfirmationRequest) : option error :=
  first_error
    [(cr_ParticipantId r <? 0, "{ParticipantId} cannot be a negative number");
     (slen (cr_Commit r) =? 0, "{Commit} cannot zero length");
     (IsZero (cr_CreatedAt r), "{CreatedAt} is not set")].

Definition DKGProposalDealConfirmationRequest_Validate
    (r : DKGProposalDealConfirmationRequest) : option error :=
  first_error
    [(de_ParticipantId r <? 0, "{ParticipantId} cannot be a negative number");
     (slen (de_Deal r) =? 0, "{Deal} cannot zero length");
     (IsZero (de_CreatedAt r), "{CreatedAt} is not set")].

Definition DKGProposalResponseConfirmationRequest_Validate
    (r : DKGProposalResponseConfirmationRequest) : option error :=
  first_error
    [(rr_ParticipantId r <? 0, "{ParticipantId} cannot be a negative number");
     (slen (rr_Response r) =? 0, "{Response} cannot zero length");
     (IsZero (rr_CreatedAt r), "{CreatedAt} is not set")].

Definition DKGProposalMasterKeyConfirmationRequest_Validate
    (r : DKGProposalMasterKeyConfirmationRequest) : option error :=
  first_error
    [(mr_ParticipantId r <? 0, "{ParticipantId} cannot be a negative number");
     (slen (mr_MasterKey r) =? 0, "{MasterKey} cannot zero length");
     (IsZero (mr_CreatedAt r), "{CreatedAt} is not set")].

Definition DKGProposalConfirmationErrorRequest_Validate
    (r : DKGProposalConfirmationErrorRequest) : option error :=
  first_error
    [(er_ParticipantId r <? 0, "{ParticipantId} cannot be a negative number");
     (bool_decide (er_Error r = None), "{Error} cannot be a nil");
     (IsZero (er_CreatedAt r), "{CreatedAt} is not set")].

(** [len] of a byte slice that may be [nil]. *)
Definition olen (o : option bytes) : Z := match o with Some b => slen b | None => 0 end.

Definition SigningTask_Validate (m : SigningTask) : option error :=
  first_error
    [(st_MessageID m =s? "", "{MessageID} cannot be empty");
     ((olen (st_Payload m) =? 0) && (st_RangeEnd m <? st_RangeStart m),
      "{Payload} cannot zero length and RangeStart cannot be greater than RangeEnd")].

Definition PartialSign_Validate (s : PartialSign) : option error :=
  first_error
    [(slen (ps_MessageID s) =? 0, "{MessageID} can not be empty");
     (slen (ps_Sign s) =? 0, "{Sign} can not be empty")].

(** [for _, x := range l { if err := x.Validate(); err != nil { return
    fmt.Errorf(msg, err) } }] *)
Fixpoint validate_all {A} (validate : A → option error) (msg : string) (l : list A)
  : option error :=
  match l with
  | [] => None
  | x :: l =>
      match validate x with
      | Some e => Some (Wrap msg e)
      | None => validate_all validate msg l
      end
  end.

Definition SigningBatchProposalStartRequest_Validate
    (r : SigningBatchProposalStartRequest) : option error :=
  match first_error
    [(slen (bs_BatchID r) =? 0, "{BatchID} can not be empty");
     (Z.of_nat (length (bs_SigningTasks r)) =? 0, "{SigningTasks} can not be empty");
     (bs_ParticipantId r <? 0, "{ParticipantId} cannot be a negative number");
     (IsZero (bs_CreatedAt r), "{CreatedAt} is not set")] with
  | Some e => Some e
  | None => validate_all SigningTask_Validate "failed to validate signing task" (bs_SigningTasks r)
  end.

Definition SigningProposalBatchPartialSignRequests_Validate
    (r : SigningProposalBatchPartialSignRequests) : option error :=
  match first_error
    [(slen (bp_BatchID r) =? 0, "{BatchID} can not be empty");
     (IsZero (bp_CreatedAt r), "{CreatedAt} is not set");
     (bp_ParticipantId r <? 0, "{ParticipantId} cannot be a negative number");
     (Z.of_nat (length (bp_PartialSigns r)) =? 0, "{MessagesToSign} can not be empty")] with
  | Some e => Some e
  | None => validate_all PartialSign_Validate "failed to validate partial sign" (bp_PartialSigns r)
  end.

(** The first loop of [SignatureProposalParticipantsListRequest.Validate], with
    the map [uniqueUsernames]. *)
Fixpoint unique_usernames (seen : gset string)
    (l : list (option SignatureProposalParticipantsEntry)) : Go (option error) :=
  match l with
  | [] => Ret None
  | o :: l =>
      participant ← deref o;
      if bool_decide (pe_Username participant ∈ seen)
      then Ret (Some (Err "{Username} must be unique"))
      else unique_usernames ({[pe_Username participant]} ∪ seen) l
  end.

(** Its second loop. *)
Definition entry_error (participant : SignatureProposalParticipantsEntry) : option error :=
  first_error
    [(slen (pe_Username participant) <? UsernameMinLength, "{Username} minimum length");
     (UsernameMaxLength <? slen (pe_Username participant), "{Username} maximum length");
     (slen (pe_PubKey participant) <? ParticipantPubKeyMinLength, "{PubKey} too short");
     (slen (pe_DkgPubKey participant) <? DkgPubKeyMinLength, "{DkgPubKey} too short")].

Fixpoint entries_error (l : list (option SignatureProposalParticipantsEntry)) : Go (option error) :=
  match l with
  | [] => Ret None
  | o :: l =>
      participant ← deref o;
      match entry_error participant with
      | Some e => Ret (Some e)
      | None => entries_error l
      end
  end.

Definition SignatureProposalParticipantsListRequest_Validate
    (r : SignatureProposalParticipantsListRequest) : Go (option error) :=
  match first_error
    [(Z.of_nat (length (pl_Participants r)) <? ParticipantsMinCount, "too few participants");
     (pl_SigningThreshold r <? SignatureProposalSigningThresholdMinCount,
      "{SigningThreshold} minimum count");
     (Z.of_nat (length (pl_Participants r)) <? pl_SigningThreshold r,
      "{SigningThreshold} cannot be higher than {ParticipantsCount}")] with
  | Some e => Ret (Some e)
  | None =>
      e1 ← unique_usernames ∅ (pl_Participants r);
      match e1 with
      | Some e => Ret (Some e)
      | None =>
          e2 ← entries_error (pl_Participants r);
          match e2 with
          | Some e => Ret (Some e)
          | None => Ret (first_error [(IsZero (pl_CreatedAt r), "{CreatedAt} cannot be a nil")])
          end
      end
  end.

#[global] Arguments DefaultRequest_Validate : simpl never.
#[global] Arguments SignatureProposalParticipantRequest_Validate : simpl never.
#[global] Arguments SignatureProposalConfirmationErrorRequest_Validate : simpl never.
#[global] Arguments DKGProposalCommitConfirmationRequest_Validate : simpl never.
#[global] Arguments DKGProposalDealConfirmationRequest_Validate : simpl never.
#[global] Arguments DKGProposalResponseConfirmationRequest_Validate : simpl never.
#[global] Arguments DKGProposalMasterKeyConfirmationRequest_Validate : simpl never.
#[global] Arguments DKGProposalConfirmationErrorRequest_Validate : simpl never.
#[global] Arguments SigningTask_Validate : simpl never.
#[global] Arguments PartialSign_Validate : simpl never.
#[global] Arguments SigningBatchProposalStartRequest_Validate : simpl never.
#[global] Arguments SigningProposalBatchPartialSignRequests_Validate : simpl never.
#[global] Arguments SignatureProposalParticipantsListRequest_Validate : simpl never.

(** ** Responses *)

Record SignatureProposalParticipantInvitationEntry : Type :=
  mk_SignatureProposalParticipantInvitationEntry {
  ie_ParticipantId : Z;
  ie_Username : string;
  ie_Threshold : Z;
  ie_DkgPubKey : bytes;
  ie_PubKey : bytes
}.

Record SignatureProposalParticipantStatusEntry : Type :=
  mk_SignatureProposalParticipantStatusEntry {
  se_id : Z;
  se_Username : string;
  se_Status : Z;
  se_DkgPubKey : bytes
}.

Record DKGProposalPubKeysParticipantEntry : Type := mk_DKGProposalPubKeysParticipantEntry {
  ke_ParticipantId : Z;
  ke_Username : string;
  ke_DkgPubKey : bytes;
  ke_Threshold : Z
}.

(** [DKGProposalCommitParticipantEntry], [DKGProposalDealParticipantEntry] and
    [DKGProposalResponseParticipantEntry] have the same shape: an id, a user
    name and the bytes collected. *)
Record DKGProposalParticipantEntry : Type := mk_DKGProposalParticipantEntry {
  dk_ParticipantId : Z;
  dk_Username : string;
  dk_Data : bytes
}.

Record SigningPartialSignsParticipantInvitationEntry : Type :=
  mk_SigningPartialSignsParticipantInvitationEntry {
  si_ParticipantId : Z;
  si_Username : string;
  si_Status : Z
}.

Record SigningPartialSignsParticipantInvitationsResponse : Type :=
  mk_SigningPartialSignsParticipantInvitationsResponse {
  sr_BatchID : string;
  sr_InitiatorId : Z;
  sr_Participants : list SigningPartialSignsParticipantInvitationEntry;
  sr_SrcPayload : bytes
}.

Record SigningProcessParticipantEntry : Type := mk_SigningProcessParticipantEntry {
  sp_ParticipantId : Z;
  sp_Username : string;
  sp_PartialSigns : gomap string bytes
}.

Record SigningProcessParticipantResponse : Type := mk_SigningProcessParticipantResponse {
  sq_BatchID : string;
  sq_SrcPayload : bytes;
  sq_Participants : list SigningProcessParticipantEntry
}.

(** The dynamic type of [Response.Data]. *)
Inductive RespData : Type :=
| RdInvitations (l : list SignatureProposalParticipantInvitationEntry)
| RdStatuses (l : list SignatureProposalParticipantStatusEntry)
| RdPubKeys (l : list DKGProposalPubKeysParticipantEntry)
| RdCommits (l : list DKGProposalParticipantEntry)
| RdDeals (l : list DKGProposalParticipantEntry)
| RdResponses (l : list DKGProposalParticipantEntry)
| RdSigningInvitations (r : SigningPartialSignsParticipantInvitationsResponse)
| RdSigningProcess (r : SigningProcessParticipantResponse).

(** ** What validation accepts *)

Lemma first_error_None guards :
  first_error guards = None ↔ Forall (fun g : bool * string => g.1 = false) guards.
Proof.
  induction guards as [|[[] msg] guards IH]; simpl; [by split| |].
  - split; [done|]. by inversion 1.
  - rewrite IH. split; [by constructor | by inversion 1].
Qed.

Lemma validate_all_None {A} (validate : A → option error) msg l :
  validate_all validate msg l = None ↔ Forall (fun x => validate x = None) l.
Proof.
  induction l as [|x l IH]; simpl; [by split|].
  destruct (validate x) eqn:Hx.
  - split; [done|]. inversion 1. congruence.
  - rewrite IH. split; [by constructor | by inversion 1].
Qed.

(** A participant entry whose fields have acceptable lengths. *)
Definition entry_ok (e : SignatureProposalParticipantsEntry) : Prop :=
  UsernameMinLength ≤ slen (pe_Username e) ≤ UsernameMaxLength ∧
  ParticipantPubKeyMinLength ≤ slen (pe_PubKey e) ∧
  DkgPubKeyMinLength ≤ slen (pe_DkgPubKey e).

Lemma entry_error_None e : entry_error e = None ↔ entry_ok e.
Proof.
  unfold entry_error, entry_ok. rewrite first_error_None, !Forall_cons, Forall_nil. simpl.
  rewrite !Z.ltb_ge. naive_solver lia.
Qed.

Lemma unique_usernames_None seen es :
  unique_usernames seen (Some <$> es) = Ret None ↔
    NoDup (pe_Username <$> es) ∧ (∀ e, e ∈ es → pe_Username e ∉ seen).
Proof.
  induction es as [|e es IH] in seen |- *; simpl; [split; [|done]; split; [constructor|set_solver]|].
  case_bool_decide as Hin.
  - split; [done|]. intros [_ H]. exfalso. apply (H e); set_solver.
  - rewrite IH, NoDup_cons. set_solver.
Qed.

Lemma entries_error_None es : entries_error (Some <$> es) = Ret None ↔ Forall entry_ok es.
Proof.
  induction es as [|e es IH]; simpl; [by split|].
  rewrite Forall_cons, <-entry_error_None, <-IH.
  destruct (entry_error e); naive_solver.
Qed.

(** Either every entry is present, or the uniqueness loop never accepts. *)
Lemma unique_usernames_present seen l :
  unique_usernames seen l = Ret None → ∃ es, l = Some <$> es.
Proof.
  induction l as [|[e|] l IH] in seen |- *; simpl; intros H; [by exists []| |done].
  case_bool_decide; [done|]. apply IH in H as [es ->]. by exists (e :: es).
Qed.

(** The proposals that start a round: no absent entry, at least two
    participants, a threshold between two and their number, distinct user
    names, acceptable keys, and a creation time. *)
Record proposal_ok (r : SignatureProposalParticipantsListRequest)
    (es : list SignatureProposalParticipantsEntry) : Prop := {
  po_entries : pl_Participants r = Some <$> es;
  po_count : 2 ≤ Z.of_nat (length es);
  po_threshold : 2 ≤ pl_SigningThreshold r ≤ Z.of_nat (length es);
  po_unique : NoDup (pe_Username <$> es);
  po_keys : Forall entry_ok es;
  po_created : pl_CreatedAt r ≠ 0
}.

Lemma list_Validate_None r :
  SignatureProposalParticipantsListRequest_Validate r = Ret None ↔ ∃ es, proposal_ok r es.
Proof.
  unfold SignatureProposalParticipantsListRequest_Validate. split.
  - intros H. destruct (first_error _) eqn:Hg; [done|].
    apply first_error_None in Hg. rewrite !Forall_cons in Hg. simpl in Hg.
    destruct Hg as (Hg1 & Hg2 & Hg3 & _). boolify.
    go_inv. destruct a; [done|].
    destruct (unique_usernames_present _ _ Ha) as [es Hes].
    rewrite Hes in *. rewrite length_fmap in *. go_inv. destruct a; [done|].
    go_inv. apply unique_usernames_None in Ha as [Hnd _]. apply entries_error_None in Ha0.
    unfold IsZero in H. simpl in H.
    exists es. split; auto; unfold ParticipantsMinCount, SignatureProposalSigningThresholdMinCount in *;
      try lia.
    destruct (pl_CreatedAt r =? 0) eqn:Hz; [done|]. by boolify.
  - intros (es & [Hes Hc Ht Hu Hk Hz]). rewrite Hes, length_fmap.
    rewrite (proj2 (first_error_None _)).
    2:{ repeat (apply Forall_cons; split; [simpl; apply Z.ltb_ge;
          unfold ParticipantsMinCount, SignatureProposalSigningThresholdMinCount; lia|]). done. }
    rewrite (proj2 (unique_usernames_None ∅ es)) by set_solver. simpl.
    rewrite (proj2 (entries_error_None es)) by done. simpl.
    unfold IsZero. by rewrite (proj2 (Z.eqb_neq _ _) Hz).
Qed.

(** [Validate] accepts a proposal exactly when no entry is absent, there
    are at least two participants with distinct names of acceptable length and
    keys that are long enough, the threshold lies between two and their number,
    and the creation time is set. *)
Theorem proposal_validation_spec r :
  SignatureProposalParticipantsListRequest_Validate r = Ret None ↔
  ∃ es, pl_Participants r = Some <$> es ∧ 2 ≤ Z.of_nat (length es) ∧
    2 ≤ pl_SigningThreshold r ≤ Z.of_nat (length es) ∧ NoDup (pe_Username <$> es) ∧
    Forall entry_ok es ∧ pl_CreatedAt r ≠ 0.
Proof.
  rewrite list_Validate_None. split.
  - intros (es & []). by exists es.
  - intros (es & ? & ? & ? & ? & ? & ?). by exists es.
Qed.

(** The other requests, as far as the machines rely on them. *)
Ltac validate_inv :=
  rewrite first_error_None, !Forall_cons; simpl; unfold IsZero;
  intros H; decompose [and] H; boolify; eauto.

Lemma slen_zero (s : string) : slen s ≠ 0 → s ≠ "".
Proof. by intros ? ->. Qed.

Lemma participant_Validate_None r :
  SignatureProposalParticipantRequest_Validate r = None → 0 ≤ pr_ParticipantId r ∧ pr_CreatedAt r ≠ 0.
Proof. unfold SignatureProposalParticipantRequest_Validate. validate_inv. Qed.

Lemma commit_Validate_None r :
  DKGProposalCommitConfirmationRequest_Validate r = None → cr_Commit r ≠ "".
Proof. unfold DKGProposalCommitConfirmationRequest_Validate. validate_inv; by apply slen_zero. Qed.

Lemma deal_Validate_None r :
  DKGProposalDealConfirmationRequest_Validate r = None → de_Deal r ≠ "".
Proof. unfold DKGProposalDealConfirmationRequest_Validate. validate_inv; by apply slen_zero. Qed.

Lemma response_Validate_None r :
  DKGProposalResponseConfirmationRequest_Validate r = None → rr_Response r ≠ "".
Proof. unfold DKGProposalResponseConfirmationRequest_Validate. validate_inv; by apply slen_zero. Qed.

Lemma masterkey_Validate_None r :
  DKGProposalMasterKeyConfirmationRequest_Validate r = None → mr_MasterKey r ≠ "".
Proof. unfold DKGProposalMasterKeyConfirmationRequest_Validate. validate_inv; by apply slen_zero. Qed.
