(* ===== verification/Payload.v ===== *)
(** * The payload the three machines share

    [fsm/state_machines/internal]: the quorums of the three stages
    ([types.go]) and the payload that carries them ([provider.go]). A quorum is
    a Go map from participant ids to pointers; no two entries share a pointer,
    so an update through a pointer is an update of the entry. Pointers in a
    quorum are never [nil] in a payload the machines build. *)

From S2P Require Import Prelude GoFsm Requests.

(** ** Signature proposal *)

Inductive ConfirmationParticipantStatus : Type :=
| SigConfirmationAwaitConfirmation
| SigConfirmationConfirmed
| SigConfirmationDeclined
| SigConfirmationError.

#[export] Instance ConfirmationParticipantStatus_eq_dec : EqDecision ConfirmationParticipantStatus.
Proof. solve_decision. Defined.

(** [uint8(status)] *)
Definition ConfirmationParticipantStatus_uint8 (s : ConfirmationParticipantStatus) : Z :=
  match s with
  | SigConfirmationAwaitConfirmation => 0
  | SigConfirmationConfirmed => 1
  | SigConfirmationDeclined => 2
  | SigConfirmationError => 3
  end.

Record SignatureProposalParticipant : Type := mk_SignatureProposalParticipant {
  sgp_ParticipantID : Z;
  sgp_Username : string;
  sgp_PubKey : bytes;
  sgp_DkgPubKey : bytes;
  sgp_InvitationSecret : string;
  sgp_Status : ConfirmationParticipantStatus;
  sgp_Threshold : Z;
  sgp_UpdatedAt : Time
}.

Record SignatureConfirmation : Type := mk_SignatureConfirmation {
  sc_Quorum : gomap Z SignatureProposalParticipant;
  sc_CreatedAt : Time;
  sc_UpdatedAt : Time;
  sc_ExpiresAt : Time
}.

Definition SignatureConfirmation_IsExpired (c : SignatureConfirmation) : bool :=
  Before (sc_ExpiresAt c) (sc_UpdatedAt c).

Definition sgp_set_id (id : Z) (x : SignatureProposalParticipant) :=
  mk_SignatureProposalParticipant id (sgp_Username x) (sgp_PubKey x) (sgp_DkgPubKey x)
    (sgp_InvitationSecret x) (sgp_Status x) (sgp_Threshold x) (sgp_UpdatedAt x).
Definition sgp_set_status (s : ConfirmationParticipantStatus) (t : Time)
    (x : SignatureProposalParticipant) :=
  mk_SignatureProposalParticipant (sgp_ParticipantID x) (sgp_Username x) (sgp_PubKey x)
    (sgp_DkgPubKey x) (sgp_InvitationSecret x) s (sgp_Threshold x) t.

(** ** DKG proposal *)

Inductive DKGParticipantStatus : Type :=
| CommitAwaitConfirmation
| CommitConfirmed
| CommitConfirmationError
| DealAwaitConfirmation
| DealConfirmed
| DealConfirmationError
| ResponseAwaitConfirmation
| ResponseConfirmed
| ResponseConfirmationError
| MasterKeyAwaitConfirmation
| MasterKeyConfirmed
| MasterKeyConfirmationError.

#[export] Instance DKGParticipantStatus_eq_dec : EqDecision DKGParticipantStatus.
Proof. solve_decision. Defined.

Record DKGProposalParticipant : Type := mk_DKGProposalParticipant {
  dp_ParticipantID : Z;
  dp_Username : string;
  dp_DkgPubKey : bytes;
  dp_DkgCommit : bytes;
  dp_DkgDeal : bytes;
  dp_DkgResponse : bytes;
  dp_DkgMasterKey : bytes;
  dp_Status : DKGParticipantStatus;
  dp_Error : option FSMError;
  dp_UpdatedAt : Time
}.

Record DKGConfirmation : Type := mk_DKGConfirmation {
  dc_Quorum : gomap Z DKGProposalParticipant;
  dc_CreatedAt : Time;
  dc_UpdatedAt : Time;
  dc_ExpiresAt : Time;
  dc_PubPolyBz : bytes
}.

Definition DKGConfirmation_IsExpired (c : DKGConfirmation) : bool :=
  Before (dc_ExpiresAt c) (dc_UpdatedAt c).

Definition dp_set_id (id : Z) (x : DKGProposalParticipant) :=
  mk_DKGProposalParticipant id (dp_Username x) (dp_DkgPubKey x) (dp_DkgCommit x) (dp_DkgDeal x)
    (dp_DkgResponse x) (dp_DkgMasterKey x) (dp_Status x) (dp_Error x) (dp_UpdatedAt x).
Definition dp_set_status (s : DKGParticipantStatus) (x : DKGProposalParticipant) :=
  mk_DKGProposalParticipant (dp_ParticipantID x) (dp_Username x) (dp_DkgPubKey x)
    (dp_DkgCommit x) (dp_DkgDeal x) (dp_DkgResponse x) (dp_DkgMasterKey x) s (dp_Error x)
    (dp_UpdatedAt x).
Definition dp_set_error (e : option FSMError) (x : DKGProposalParticipant) :=
  mk_DKGProposalParticipant (dp_ParticipantID x) (dp_Username x) (dp_DkgPubKey x)
    (dp_DkgCommit x) (dp_DkgDeal x) (dp_DkgResponse x) (dp_DkgMasterKey x) (dp_Status x) e
    (dp_UpdatedAt x).
Definition dp_set_updated (t : Time) (x : DKGProposalParticipant) :=
  mk_DKGProposalParticipant (dp_ParticipantID x) (dp_Username x) (dp_DkgPubKey x)
    (dp_DkgCommit x) (dp_DkgDeal x) (dp_DkgResponse x) (dp_DkgMasterKey x) (dp_Status x)
    (dp_Error x) t.
Definition dp_set_commit (b : bytes) (x : DKGProposalParticipant) :=
  mk_DKGProposalParticipant (dp_ParticipantID x) (dp_Username x) (dp_DkgPubKey x)
    b (dp_DkgDeal x) (dp_DkgResponse x) (dp_DkgMasterKey x) (dp_Status x)
    (dp_Error x) (dp_UpdatedAt x).
Definition dp_set_deal (b : bytes) (x : DKGProposalParticipant) :=
  mk_DKGProposalParticipant (dp_ParticipantID x) (dp_Username x) (dp_DkgPubKey x)
    (dp_DkgCommit x) b (dp_DkgResponse x) (dp_DkgMasterKey x) (dp_Status x)
    (dp_Error x) (dp_UpdatedAt x).
Definition dp_set_response (b : bytes) (x : DKGProposalParticipant) :=
  mk_DKGProposalParticipant (dp_ParticipantID x) (dp_Username x) (dp_DkgPubKey x)
    (dp_DkgCommit x) (dp_DkgDeal x) b (dp_DkgMasterKey x) (dp_Status x)
    (dp_Error x) (dp_UpdatedAt x).
Definition dp_set_masterkey (b : bytes) (x : DKGProposalParticipant) :=
  mk_DKGProposalParticipant (dp_ParticipantID x) (dp_Username x) (dp_DkgPubKey x)
    (dp_DkgCommit x) (dp_DkgDeal x) (dp_DkgResponse x) b (dp_Status x)
    (dp_Error x) (dp_UpdatedAt x).

(** ** Signing proposal *)

Inductive SigningParticipantStatus : Type :=
| SigningAwaitPartialSigns
| SigningPartialSignsConfirmed
| SigningError
| SigningProcess.

#[export] Instance SigningParticipantStatus_eq_dec : EqDecision SigningParticipantStatus.
Proof. solve_decision. Defined.

Definition SigningParticipantStatus_uint8 (s : SigningParticipantStatus) : Z :=
  match s with
  | SigningAwaitPartialSigns => 0
  | SigningPartialSignsConfirmed => 1
  | SigningError => 2
  | SigningProcess => 3
  end.

Record SigningProposalParticipant : Type := mk_SigningProposalParticipant {
  np_ParticipantID : Z;
  np_Username : string;
  np_Status : SigningParticipantStatus;
  np_PartialSigns : gomap string bytes;
  np_Error : option FSMError;
  np_UpdatedAt : Time
}.

Record SigningConfirmation : Type := mk_SigningConfirmation {
  nc_BatchID : string;
  nc_InitiatorId : Z;
  nc_Quorum : gomap Z SigningProposalParticipant;
  nc_RecoveredKey : bytes;
  nc_SrcPayload : bytes;
  nc_EncryptedPayload : bytes;
  nc_CreatedAt : Time;
  nc_UpdatedAt : Time;
  nc_ExpiresAt : Time
}.

Definition SigningConfirmation_IsExpired (c : SigningConfirmation) : bool :=
  Before (nc_ExpiresAt c) (nc_UpdatedAt c).

Definition np_set_id (id : Z) (x : SigningProposalParticipant) :=
  mk_SigningProposalParticipant id (np_Username x) (np_Status x) (np_PartialSigns x) (np_Error x)
    (np_UpdatedAt x).
Definition np_set_status (s : SigningParticipantStatus) (x : SigningProposalParticipant) :=
  mk_SigningProposalParticipant (np_ParticipantID x) (np_Username x) s (np_PartialSigns x)
    (np_Error x) (np_UpdatedAt x).
Definition np_set_signs (m : gomap string bytes) (x : SigningProposalParticipant) :=
  mk_SigningProposalParticipant (np_ParticipantID x) (np_Username x) (np_Status x) m
    (np_Error x) (np_UpdatedAt x).
Definition np_set_error (e : option FSMError) (x : SigningProposalParticipant) :=
  mk_SigningProposalParticipant (np_ParticipantID x) (np_Username x) (np_Status x)
    (np_PartialSigns x) e (np_UpdatedAt x).
Definition np_set_updated (t : Time) (x : SigningProposalParticipant) :=
  mk_SigningProposalParticipant (np_ParticipantID x) (np_Username x) (np_Status x)
    (np_PartialSigns x) (np_Error x) t.

(** ** [GetOrderedParticipants]

    The ids are collected from a map iteration and sorted; the loop over them
    writes each id into the participant it belongs to. *)
Definition ordered_loop {X} (set_id : Z → X → X) (st : gmap Z X * list X) (id : Z)
  : gmap Z X * list X :=
  match st.1 !! id with
  | Some participant => (<[id := set_id id participant]> st.1, st.2 ++ [set_id id participant])
  | None => st
  end.

Definition GetOrdered `{!MapOrder} {X} (set_id : Z → X → X) (q : gomap Z X)
  : gomap Z X * list X :=
  match q with
  | None => (None, [])
  | Some q =>
      let '(q', out) := foldl (ordered_loop set_id) (q, []) (sort_Ints (range q).*1) in
      (Some q', out)
  end.

#[global] Arguments GetOrdered : simpl never.
#[global] Arguments SignatureConfirmation_IsExpired : simpl never.
#[global] Arguments DKGConfirmation_IsExpired : simpl never.
#[global] Arguments SigningConfirmation_IsExpired : simpl never.

(** ** The payload *)

Record DumpedMachineStatePayload : Type := mk_DumpedMachineStatePayload {
  pay_DkgId : string;
  pay_Threshold : Z;
  pay_SignatureProposalPayload : option SignatureConfirmation;
  pay_DKGProposalPayload : option DKGConfirmation;
  pay_SigningProposalPayload : option SigningConfirmation;
  pay_PubKeys : gomap string bytes;
  pay_IDs : gomap string Z
}.

Definition pay_set_threshold (t : Z) (p : DumpedMachineStatePayload) :=
  mk_DumpedMachineStatePayload (pay_DkgId p) t (pay_SignatureProposalPayload p)
    (pay_DKGProposalPayload p) (pay_SigningProposalPayload p) (pay_PubKeys p) (pay_IDs p).
Definition pay_set_sig (c : SignatureConfirmation) (p : DumpedMachineStatePayload) :=
  mk_DumpedMachineStatePayload (pay_DkgId p) (pay_Threshold p) (Some c)
    (pay_DKGProposalPayload p) (pay_SigningProposalPayload p) (pay_PubKeys p) (pay_IDs p).
Definition pay_set_dkg (c : DKGConfirmation) (p : DumpedMachineStatePayload) :=
  mk_DumpedMachineStatePayload (pay_DkgId p) (pay_Threshold p) (pay_SignatureProposalPayload p)
    (Some c) (pay_SigningProposalPayload p) (pay_PubKeys p) (pay_IDs p).
Definition pay_set_signing (c : SigningConfirmation) (p : DumpedMachineStatePayload) :=
  mk_DumpedMachineStatePayload (pay_DkgId p) (pay_Threshold p) (pay_SignatureProposalPayload p)
    (pay_DKGProposalPayload p) (Some c) (pay_PubKeys p) (pay_IDs p).

Definition sc_set_quorum (q : gomap Z SignatureProposalParticipant) (c : SignatureConfirmation) :=
  mk_SignatureConfirmation q (sc_CreatedAt c) (sc_UpdatedAt c) (sc_ExpiresAt c).
Definition sc_set_updated (t : Time) (c : SignatureConfirmation) :=
  mk_SignatureConfirmation (sc_Quorum c) (sc_CreatedAt c) t (sc_ExpiresAt c).
Definition dc_set_quorum (q : gomap Z DKGProposalParticipant) (c : DKGConfirmation) :=
  mk_DKGConfirmation q (dc_CreatedAt c) (dc_UpdatedAt c) (dc_ExpiresAt c) (dc_PubPolyBz c).
Definition dc_set_updated (t : Time) (c : DKGConfirmation) :=
  mk_DKGConfirmation (dc_Quorum c) (dc_CreatedAt c) t (dc_ExpiresAt c) (dc_PubPolyBz c).
Definition dc_set_pubpoly (b : bytes) (c : DKGConfirmation) :=
  mk_DKGConfirmation (dc_Quorum c) (dc_CreatedAt c) (dc_UpdatedAt c) (dc_ExpiresAt c) b.
Definition nc_set_quorum (q : gomap Z SigningProposalParticipant) (c : SigningConfirmation) :=
  mk_SigningConfirmation (nc_BatchID c) (nc_InitiatorId c) q (nc_RecoveredKey c)
    (nc_SrcPayload c) (nc_EncryptedPayload c) (nc_CreatedAt c) (nc_UpdatedAt c) (nc_ExpiresAt c).

(** A quorum lookup, [nil] for an absent id or a [nil] quorum, and an update,
    which does nothing on a [nil] quorum. *)
Definition quorum_update {X} (q : gomap Z X) (id : Z) (x : X) : gomap Z X :=
  match q with Some m => Some (<[id := x]> m) | None => None end.

(** Signature quorum *)

Definition SigQuorumCount (p : DumpedMachineStatePayload) : Go Z :=
  c ← deref (pay_SignatureProposalPayload p); Ret (gomap_len (sc_Quorum c)).

Definition SigQuorumExists (p : DumpedMachineStatePayload) (id : Z) : Go bool :=
  c ← deref (pay_SignatureProposalPayload p);
  Ret (bool_decide (is_Some (gomap_lookup (sc_Quorum c) id))).

Definition SigQuorumGet (p : DumpedMachineStatePayload) (id : Z)
  : Go (option SignatureProposalParticipant) :=
  c ← deref (pay_SignatureProposalPayload p); Ret (gomap_lookup (sc_Quorum c) id).

Definition SigQuorumUpdate (p : DumpedMachineStatePayload) (id : Z)
    (participant : SignatureProposalParticipant) : Go DumpedMachineStatePayload :=
  c ← deref (pay_SignatureProposalPayload p);
  Ret (pay_set_sig (sc_set_quorum (quorum_update (sc_Quorum c) id participant) c) p).

(** DKG quorum *)

Definition DKGQuorumCount (p : DumpedMachineStatePayload) : Go Z :=
  c ← deref (pay_DKGProposalPayload p); Ret (gomap_len (dc_Quorum c)).

Definition DKGQuorumExists (p : DumpedMachineStatePayload) (id : Z) : Go bool :=
  c ← deref (pay_DKGProposalPayload p);
  Ret (bool_decide (is_Some (gomap_lookup (dc_Quorum c) id))).

Definition DKGQuorumGet (p : DumpedMachineStatePayload) (id : Z)
  : Go (option DKGProposalParticipant) :=
  c ← deref (pay_DKGProposalPayload p); Ret (gomap_lookup (dc_Quorum c) id).

Definition DKGQuorumUpdate (p : DumpedMachineStatePayload) (id : Z)
    (participant : DKGProposalParticipant) : Go DumpedMachineStatePayload :=
  c ← deref (pay_DKGProposalPayload p);
  Ret (pay_set_dkg (dc_set_quorum (quorum_update (dc_Quorum c) id participant) c) p).

(** Signing quorum *)

Definition SigningQuorumCount (p : DumpedMachineStatePayload) : Go Z :=
  c ← deref (pay_SigningProposalPayload p); Ret (gomap_len (nc_Quorum c)).

Definition GetThreshold (p : DumpedMachineStatePayload) : Z := pay_Threshold p.

Definition SigningQuorumExists (p : DumpedMachineStatePayload) (id : Z) : Go bool :=
  c ← deref (pay_SigningProposalPayload p);
  Ret (bool_decide (is_Some (gomap_lookup (nc_Quorum c) id))).

(** Unlike the other two getters, this one allocates the participant's map of
    partial signs, and dereferences the participant it found. *)
Definition SigningQuorumGet (p : DumpedMachineStatePayload) (id : Z)
  : Go (DumpedMachineStatePayload * option SigningProposalParticipant) :=
  c ← deref (pay_SigningProposalPayload p);
  match nc_Quorum c with
  | None => Ret (p, None)
  | Some q =>
      participant ← deref (q !! id);
      match np_PartialSigns participant with
      | Some _ => Ret (p, Some participant)
      | None =>
          let participant := np_set_signs (Some ∅) participant in
          Ret (pay_set_signing (nc_set_quorum (Some (<[id := participant]> q)) c) p, Some participant)
      end
  end.

Definition SigningQuorumUpdate (p : DumpedMachineStatePayload) (id : Z)
    (participant : SigningProposalParticipant) : Go DumpedMachineStatePayload :=
  c ← deref (pay_SigningProposalPayload p);
  Ret (pay_set_signing (nc_set_quorum (quorum_update (nc_Quorum c) id participant) c) p).

(** Users *)

Definition SetPubKeyUsername (username : string) (pubKey : bytes) (p : DumpedMachineStatePayload) :=
  mk_DumpedMachineStatePayload (pay_DkgId p) (pay_Threshold p) (pay_SignatureProposalPayload p)
    (pay_DKGProposalPayload p) (pay_SigningProposalPayload p)
    (Some (<[username := pubKey]> (default ∅ (pay_PubKeys p)))) (pay_IDs p).

Definition SetIDUsername (username : string) (id : Z) (p : DumpedMachineStatePayload) :=
  mk_DumpedMachineStatePayload (pay_DkgId p) (pay_Threshold p) (pay_SignatureProposalPayload p)
    (pay_DKGProposalPayload p) (pay_SigningProposalPayload p)
    (pay_PubKeys p) (Some (<[username := id]> (default ∅ (pay_IDs p)))).

Definition GetPubKeyByUsername (p : DumpedMachineStatePayload) (username : string)
  : bytes + error :=
  match pay_PubKeys p with
  | None => inr (Err "{PubKeys} not initialized")
  | Some m =>
      if username =s? "" then inr (Err "{username} cannot be empty")
      else match m !! username with
           | Some pubKey => inl pubKey
           | None => inr (Err "cannot find public key by {username}")
           end
  end.

Definition GetIDByUsername (p : DumpedMachineStatePayload) (username : string) : Z + error :=
  match pay_IDs p with
  | None => inr (Err "{IDs} not initialized")
  | Some m =>
      if username =s? "" then inr (Err "{username} cannot be empty")
      else match m !! username with
           | Some id => inl id
           | None => inr (Err "cannot find id by {username}")
           end
  end.

(** ** Machines over the payload

    The three machines hold a pointer to the payload of the dump they are set
    up with; it is [nil] for a dump without a payload. *)
Abbreviation Machine := (FSM (option DumpedMachineStatePayload) Request RespData).
Abbreviation Action := (Callback (option DumpedMachineStatePayload) Request RespData).
Abbreviation Body := (Act (option DumpedMachineStatePayload) RespData).

(** [m.payload] dereferenced, and a write through it. *)
Definition payload : Body DumpedMachineStatePayload := m ← get; lift (deref m).
Definition set_payload (p : DumpedMachineStatePayload) : Body unit := put (Some p).

(** [WithSetup] sets the state of the machine; the payload it also sets is the
    one passed to [Do]. *)
Definition WithSetup (state : State) (machine : Machine) : Go Machine :=
  MustCopyWithState machine state.

(** ** Facts *)

(** What [GetOrderedParticipants] leaves in the quorum and returns: every
    participant carries its id, and the list is in the order of the ids,
    whatever the iteration order of the map. *)
Definition with_ids {X} (set_id : Z → X → X) (q : gmap Z X) : gmap Z X :=
  map_imap (fun k x => Some (set_id k x)) q.

Definition in_id_order {X} (set_id : Z → X → X) (q : gmap Z X) : list X :=
  omap (fun k => set_id k <$> q !! k) (sorted_keys q).

Lemma lookup_with_ids {X} (set_id : Z → X → X) q k :
  with_ids set_id q !! k = set_id k <$> q !! k.
Proof. unfold with_ids. rewrite map_lookup_imap. by destruct (q !! k). Qed.

Lemma size_with_ids {X} (set_id : Z → X → X) q : size (with_ids set_id q) = size q.
Proof.
  apply Nat2Z.inj. rewrite <-(proj2 (qcount_all (fun _ => true) (with_ids set_id q))) by done.
  rewrite <-(proj2 (qcount_all (fun _ => true) q)) by done. by apply qcount_imap.
Qed.

Lemma qcount_with_ids {X} (set_id : Z → X → X) f q :
  (∀ k x, f (set_id k x) = f x) → qcount f (with_ids set_id q) = qcount f q.
Proof. intros H. by apply qcount_imap. Qed.

Lemma ordered_loop_spec {X} (set_id : Z → X → X) q out ks :
  NoDup ks →
  foldl (ordered_loop set_id) (q, out) ks =
    (map_imap (fun k x => Some (if decide (k ∈ ks) then set_id k x else x)) q,
     out ++ omap (fun k => set_id k <$> q !! k) ks).
Proof.
  induction ks as [|k ks IH] in q, out |- *; intros Hnd; simpl.
  { rewrite app_nil_r. f_equal. apply map_eq. intros k. rewrite map_lookup_imap.
    by destruct (q !! k). }
  apply NoDup_cons in Hnd as [Hk Hnd]. unfold ordered_loop at 2; simpl.
  destruct (q !! k) as [x|] eqn:Hx; simpl; rewrite IH by done; f_equal.
  - apply map_eq. intros k'. rewrite !map_lookup_imap, lookup_insert.
    destruct (decide (k = k')) as [->|Hne]; simpl.
    + rewrite Hx. simpl. rewrite decide_False by done. by rewrite decide_True by set_solver.
    + destruct (q !! k'); simpl; [|done]. f_equal.
      destruct (decide (k' ∈ ks)); [rewrite decide_True by set_solver|rewrite decide_False by set_solver]; done.
  - rewrite <-app_assoc. f_equal. simpl. f_equal. apply list_omap_ext, Forall2_same_length_lookup_2;
      [done|]. intros i a b Ha Hb. simplify_eq. rewrite lookup_insert_ne; [done|].
    intros ->. apply Hk. by eapply list_elem_of_lookup_2.
  - apply map_eq. intros k'. rewrite !map_lookup_imap. destruct (q !! k') eqn:Hx'; simpl; [|done].
    f_equal. assert (k' ≠ k) by congruence.
    destruct (decide (k' ∈ ks)); [rewrite decide_True by set_solver|rewrite decide_False by set_solver]; done.
Qed.

Lemma GetOrdered_spec `{!MapOrder} {X} (set_id : Z → X → X) (q : gmap Z X) :
  GetOrdered set_id (Some q) = (Some (with_ids set_id q), in_id_order set_id q).
Proof.
  unfold GetOrdered. rewrite sort_Ints_range, ordered_loop_spec by auto with go.
  simpl. f_equal. f_equal. apply map_eq. intros k. rewrite lookup_with_ids, map_lookup_imap.
  destruct (q !! k) eqn:Hk; simpl; [|done]. rewrite decide_True; [done|].
  apply elem_of_sorted_keys. eauto.
Qed.

Lemma elem_of_in_id_order {X} (set_id : Z → X → X) q y :
  y ∈ in_id_order set_id q ↔ ∃ k x, q !! k = Some x ∧ y = set_id k x.
Proof.
  unfold in_id_order. rewrite list_elem_of_omap. split.
  - intros (k & _ & (x & Hx & ->)%fmap_Some). eauto.
  - intros (k & x & Hx & ->). exists k. rewrite elem_of_sorted_keys, Hx. eauto.
Qed.

(** The loops that count the entries of a quorum and look for a bad one. *)
Definition qexists {X} (f : X → bool) (q : gmap Z X) : bool := negb (qcount f q =? 0).

Lemma qexists_true {X} (f : X → bool) (q : gmap Z X) :
  qexists f q = true ↔ ∃ k x, q !! k = Some x ∧ f x = true.
Proof.
  unfold qexists. rewrite negb_true_iff, Z.eqb_neq, qcount_zero. split.
  - intros H. destruct (decide (map_Exists (fun _ x => f x = true) q)) as [(k & x & ?)|Hn]; [eauto|].
    exfalso. apply H. intros k x Hx. apply not_true_iff_false. intros Hf. apply Hn. by exists k, x.
  - intros (k & x & Hx & Hf) H. specialize (H k x Hx). simpl in H. congruence.
Qed.

Lemma qexists_false {X} (f : X → bool) (q : gmap Z X) :
  qexists f q = false ↔ map_Forall (fun _ x => f x = false) q.
Proof. unfold qexists. by rewrite negb_false_iff, Z.eqb_eq, qcount_zero. Qed.

Lemma tally_spec `{!MapOrder} {X} (step : Z * bool → Z * X → Z * bool) (good bad : X → bool) q n b :
  (∀ n b k x, step (n, b) (k, x) = (n - (if good x then 1 else 0), b || bad x)) →
  foldl step (n, b) (range q) = (n - qcount good q, b || qexists bad q).
Proof.
  intros Hstep. unfold qexists. rewrite <-!(qcount_perm _ q (range q)) by auto with go.
  induction (range q) as [|[k x] l IH] in n, b |- *; simpl.
  { by rewrite Z.sub_0_r, orb_false_r. }
  rewrite Hstep, IH, !filter_cons. simpl.
  destruct (good x), (bad x); repeat case_decide; try done; simpl; f_equal; try lia;
    by rewrite ?orb_false_r, ?orb_true_r.
Qed.

(** ** Payloads up to allocation

    [SigningQuorumGet] turns a participant's [nil] map of partial signs into an
    empty one, also for a request that is then rejected. Nothing reads the
    difference. *)
Definition norm_signer (x : SigningProposalParticipant) : SigningProposalParticipant :=
  np_set_signs (Some (default ∅ (np_PartialSigns x))) x.

Definition norm_payload (p : DumpedMachineStatePayload) : DumpedMachineStatePayload :=
  match pay_SigningProposalPayload p with
  | Some c => pay_set_signing (nc_set_quorum (fmap (M := gmap Z) norm_signer <$> nc_Quorum c) c) p
  | None => p
  end.

Definition same_payload (p1 p2 : option DumpedMachineStatePayload) : Prop :=
  norm_payload <$> p1 = norm_payload <$> p2.

#[export] Instance same_payload_equivalence : Equivalence same_payload.
Proof.
  split; unfold same_payload; [by intros ?|by intros ???|]. intros ??? H1 H2. by rewrite H1.
Qed.

Lemma SigningQuorumGet_spec p id c q x :
  pay_SigningProposalPayload p = Some c → nc_Quorum c = Some q → q !! id = Some x →
  ∃ p' x', SigningQuorumGet p id = Ret (p', Some x') ∧ same_payload (Some p') (Some p) ∧
    np_Status x' = np_Status x ∧ is_Some (np_PartialSigns x') ∧
    is_Some (pay_SigningProposalPayload p') ∧
    pay_SignatureProposalPayload p' = pay_SignatureProposalPayload p.
Proof.
  intros Hc Hq Hx. unfold SigningQuorumGet. rewrite Hc. simpl. rewrite Hq, Hx. simpl.
  destruct (np_PartialSigns x) as [m|] eqn:Hm.
  { exists p, x. rewrite Hm, Hc. split_and!; try done; by eexists. }
  do 2 eexists. split; [done|]. split_and!; [|done|by eexists|by eexists|done].
  unfold same_payload, norm_payload. simpl. rewrite Hc, Hq. simpl.
  unfold pay_set_signing, nc_set_quorum; simpl. do 5 f_equal. rewrite fmap_insert. apply insert_id.
  rewrite lookup_fmap, Hx. simpl. f_equal. unfold norm_signer. by rewrite Hm.
Qed.
