(* ===== verification/SignatureProposal.v ===== *)
(** * The signature proposal machine, [fsm/state_machines/signature_proposal_fsm]

    The first stage of a round: a participants list is proposed and every
    participant confirms or declines. [init.go] gives the table, [actions.go]
    the callbacks. *)

From S2P Require Import Prelude GoFsm Requests Payload.

(** ** States and events *)

Definition FsmName : string := "signature_proposal_fsm".

Definition StateParticipantsConfirmationsInit : State := StateGlobalIdle.
Definition StateAwaitParticipantsConfirmations : State :=
  "state_sig_proposal_await_participants_confirmations".
Definition StateValidationCanceledByParticipant : State :=
  "state_sig_proposal_canceled_by_participant".
Definition StateValidationCanceledByTimeout : State := "state_sig_proposal_canceled_by_timeout".
Definition StateSignatureProposalCollected : State := "state_sig_proposal_collected".

Definition EventInitProposal : Event := "event_sig_proposal_init".
Definition EventConfirmSignatureProposal : Event := "event_sig_proposal_confirm_by_participant".
Definition EventDeclineProposal : Event := "event_sig_proposal_decline_by_participant".
Definition eventAutoValidateProposalInternal : Event := "event_sig_proposal_validate".
Definition eventSetProposalValidatedInternal : Event := "event_sig_proposal_set_validated".
Definition eventSetValidationCanceledByTimeout : Event := "event_sig_proposal_canceled_timeout".
Definition eventSetValidationCanceledByParticipant : Event :=
  "event_sig_proposal_canceled_participant".

(** ** Callbacks *)

(** The quorum entry made for a proposed participant. *)
Definition proposed (r : SignatureProposalParticipantsListRequest)
    (participant : SignatureProposalParticipantsEntry) : SignatureProposalParticipant :=
  mk_SignatureProposalParticipant 0 (pe_Username participant) (pe_PubKey participant)
    (pe_DkgPubKey participant) "" SigConfirmationAwaitConfirmation (pl_SigningThreshold r)
    (pl_CreatedAt r).

(** The body of [for index, participant := range request.Participants]. *)
Definition add_participant (r : SignatureProposalParticipantsListRequest)
    (p : DumpedMachineStatePayload)
    (ip : Z * option SignatureProposalParticipantsEntry) : Go DumpedMachineStatePayload :=
  let '(index, o) := ip in
  participant ← deref o;
  c ← deref (pay_SignatureProposalPayload p);
  q ← gomap_insert (sc_Quorum c) index (proposed r participant);
  Ret (SetIDUsername (pe_Username participant) index
        (SetPubKeyUsername (pe_Username participant) (pe_PubKey participant)
          (pay_set_sig (sc_set_quorum q c) p))).

(** The pairs (index, element) of a slice. *)
Definition indexed {X} (l : list X) : list (Z * X) := imap (fun i x => (Z.of_nat i, x)) l.

Definition invitation (x : SignatureProposalParticipant) :=
  mk_SignatureProposalParticipantInvitationEntry (sgp_ParticipantID x) (sgp_Username x)
    (sgp_Threshold x) (sgp_DkgPubKey x) (sgp_PubKey x).

Section actions.
Context {ord : MapOrder}.

Definition actionInitSignatureProposal : Action := fun inEvent args => run_action (
  request ← arg0 as_ParticipantsList
    "{arg0} required {SignatureProposalParticipantsListRequest}"
    "cannot cast {arg0} to type {SignatureProposalParticipantsListRequest}" args;
  err ← lift (SignatureProposalParticipantsListRequest_Validate request);
  _ ← check err;
  p ← payload;
  let c := mk_SignatureConfirmation (Some ∅) (pl_CreatedAt request) 0
             (Add (pl_CreatedAt request) SignatureProposalConfirmationDeadline) in
  p ← lift (foldM (add_participant request) (pay_set_sig c p) (indexed (pl_Participants request)));
  _ ← set_payload p;
  count ← lift (SigQuorumCount p);
  _ ← require (count =? Z.of_nat (length (pl_Participants request)))
        (Err "error with creating {SignatureProposalQuorum}");
  let p := pay_set_threshold (pl_SigningThreshold request) p in
  c ← lift (deref (pay_SignatureProposalPayload p));
  let '(q, ordered) := GetOrdered sgp_set_id (sc_Quorum c) in
  _ ← set_payload (pay_set_sig (sc_set_quorum q c) p);
  mret (inEvent, Some (RdInvitations (invitation <$> ordered)), None)).

Definition actionProposalResponseByParticipant : Action := fun inEvent args => run_action (
  request ← arg0 as_Participant
    "{arg0} required {SignatureProposalParticipantRequest}"
    "cannot cast {arg0} to type {SignatureProposalParticipantRequest}" args;
  _ ← check (SignatureProposalParticipantRequest_Validate request);
  p ← payload;
  exists_ ← lift (SigQuorumExists p (pr_ParticipantId request));
  _ ← require exists_ (Err "{ParticipantId} not exist in quorum");
  o ← lift (SigQuorumGet p (pr_ParticipantId request));
  participant ← lift (deref o);
  if Before (Add (sgp_UpdatedAt participant) SignatureProposalConfirmationDeadline)
       (pr_CreatedAt request)
  then mret (eventSetValidationCanceledByTimeout, None, None)
  else
    _ ← require (bool_decide (sgp_Status participant = SigConfirmationAwaitConfirmation))
          (Err "cannot apply reply participant with {Status}");
    status ←
      (if inEvent =s? EventConfirmSignatureProposal then mret SigConfirmationConfirmed
       else if inEvent =s? EventDeclineProposal then mret SigConfirmationDeclined
       else fail (Err "unsupported event for action {inEvent}"));
    let participant := sgp_set_status status (pr_CreatedAt request) participant in
    c ← lift (deref (pay_SignatureProposalPayload p));
    let p := pay_set_sig (sc_set_updated (pr_CreatedAt request) c) p in
    p ← lift (SigQuorumUpdate p (pr_ParticipantId request) participant);
    _ ← set_payload p;
    mret ("", None, None)).

Definition is_confirmed (x : SignatureProposalParticipant) : bool :=
  bool_decide (sgp_Status x = SigConfirmationConfirmed).
Definition is_declined (x : SignatureProposalParticipant) : bool :=
  bool_decide (sgp_Status x = SigConfirmationDeclined).

(** The counting loop: [(unconfirmedParticipants, isContainsDecline)]. *)
Definition count_confirmations (acc : Z * bool) (kx : Z * SignatureProposalParticipant) : Z * bool :=
  if is_confirmed kx.2 then (acc.1 - 1, acc.2)
  else if is_declined kx.2 then (acc.1, true)
  else acc.

Definition status_entry (kx : Z * SignatureProposalParticipant) :=
  mk_SignatureProposalParticipantStatusEntry kx.1 (sgp_Username kx.2)
    (ConfirmationParticipantStatus_uint8 (sgp_Status kx.2)) "".

Definition actionValidateSignatureProposal : Action := fun _ _ => run_action (
  p ← payload;
  c ← lift (deref (pay_SignatureProposalPayload p));
  if SignatureConfirmation_IsExpired c then mret (eventSetValidationCanceledByTimeout, None, None)
  else
    count ← lift (SigQuorumCount p);
    let '(unconfirmedParticipants, isContainsDecline) :=
      foldl count_confirmations (count, false) (range (default ∅ (sc_Quorum c))) in
    if isContainsDecline : bool then mret (eventSetValidationCanceledByParticipant, None, None)
    else if 0 <? unconfirmedParticipants then mret ("", None, None)
    else mret (eventSetProposalValidatedInternal,
               Some (RdStatuses (status_entry <$> range (default ∅ (sc_Quorum c)))), None)).

(** ** The machine *)

Definition events : list EventDesc :=
  [event_desc EventInitProposal [StateParticipantsConfirmationsInit]
     StateAwaitParticipantsConfirmations;
   event_desc EventConfirmSignatureProposal [StateAwaitParticipantsConfirmations]
     StateAwaitParticipantsConfirmations;
   event_desc EventDeclineProposal [StateAwaitParticipantsConfirmations]
     StateAwaitParticipantsConfirmations;
   internal_desc eventSetValidationCanceledByParticipant [StateAwaitParticipantsConfirmations]
     StateValidationCanceledByParticipant;
   auto_desc eventAutoValidateProposalInternal [StateAwaitParticipantsConfirmations]
     StateAwaitParticipantsConfirmations;
   internal_desc eventSetProposalValidatedInternal [StateAwaitParticipantsConfirmations]
     StateSignatureProposalCollected;
   internal_desc eventSetValidationCanceledByTimeout [StateAwaitParticipantsConfirmations]
     StateValidationCanceledByTimeout].

Definition callbacks : list (Event * Action) :=
  [(EventInitProposal, actionInitSignatureProposal);
   (EventConfirmSignatureProposal, actionProposalResponseByParticipant);
   (EventDeclineProposal, actionProposalResponseByParticipant);
   (eventAutoValidateProposalInternal, actionValidateSignatureProposal)].

Definition New : Go Machine := MustNewFSM FsmName StateGlobalIdle events callbacks.
End actions.

(** ** The stage's invariant *)

(** A quorum indexed by [0 .. n-1]. *)
Definition dense {X} (q : gmap Z X) : Prop :=
  ∀ id, is_Some (q !! id) ↔ 0 ≤ id < Z.of_nat (size q).

(** A member of the quorum carries its id and the round's threshold. *)
Record member_ok (p : DumpedMachineStatePayload) (id : Z) (x : SignatureProposalParticipant)
  : Prop := {
  mo_id : sgp_ParticipantID x = id;
  mo_threshold : sgp_Threshold x = pay_Threshold p;
  mo_username : UsernameMinLength ≤ slen (sgp_Username x) ≤ UsernameMaxLength
}.

(** The quorum, and the two directories of the payload, which list the user
    names of the quorum and nothing else. *)
Record sig_ok (p : DumpedMachineStatePayload) (q : gmap Z SignatureProposalParticipant) : Prop := {
  so_quorum : sc_Quorum <$> pay_SignatureProposalPayload p = Some (Some q);
  so_dense : dense q;
  so_threshold : 2 ≤ pay_Threshold p ≤ Z.of_nat (size q);
  so_member id x : q !! id = Some x → member_ok p id x;
  so_ids u id : gomap_lookup (pay_IDs p) u = Some id ↔
    ∃ x, q !! id = Some x ∧ sgp_Username x = u;
  so_pubkeys u k : gomap_lookup (pay_PubKeys p) u = Some k ↔
    ∃ id x, q !! id = Some x ∧ sgp_Username x = u ∧ sgp_PubKey x = k
}.

Lemma dense_insert {X} (q : gmap Z X) id x :
  is_Some (q !! id) → dense q → dense (<[id := x]> q).
Proof.
  intros Hid Hd id'. rewrite map_size_insert_Some by done. rewrite <-(Hd id').
  rewrite lookup_insert_is_Some. destruct (decide (id = id')); [subst|]; naive_solver.
Qed.

Lemma dense_imap {X Y} (h : Z → X → Y) (q : gmap Z X) :
  dense q → dense (map_imap (fun k x => Some (h k x)) q).
Proof.
  intros Hd id. pose proof (qcount_imap h (fun _ => true) (fun _ => true) q (fun _ _ _ => eq_refl)) as Hs.
  rewrite !(proj2 (qcount_all _ _)) in Hs by done. rewrite Hs, <-(Hd id), map_lookup_imap.
  destruct (q !! id); simpl; rewrite ?is_Some_alt; done.
Qed.

Lemma dense_zero {X} (q : gmap Z X) : dense q → 0 < Z.of_nat (size q) → is_Some (q !! 0).
Proof. intros Hd ?. apply Hd. lia. Qed.

(** ** Initialisation *)

Lemma foldM_app {A B} (body : B → A → Go B) b l1 l2 :
  foldM body b (l1 ++ l2) = (b' ← foldM body b l1; foldM body b' l2).
Proof.
  induction l1 as [|x l1 IH] in b |- *; [done|]. simpl. destruct (body b x); simpl; [apply IH|done].
Qed.

Lemma indexed_snoc {X} (l : list X) x :
  indexed (l ++ [x]) = indexed l ++ [(Z.of_nat (length l), x)].
Proof. unfold indexed. rewrite imap_app. simpl. by rewrite Nat.add_0_r. Qed.

(** The directories after the loop over [es]. *)
Definition directory_ok (p : DumpedMachineStatePayload)
    (es : list SignatureProposalParticipantsEntry) : Prop :=
  (∀ u id, gomap_lookup (pay_IDs p) u = Some id ↔
     ∃ i e, es !! i = Some e ∧ id = Z.of_nat i ∧ pe_Username e = u) ∧
  (∀ u k, gomap_lookup (pay_PubKeys p) u = Some k ↔
     ∃ i e, es !! i = Some e ∧ pe_Username e = u ∧ pe_PubKey e = k).

(** An entry of [es ++ [e]] is one of [es], with another name, or [e]. *)
Lemma lookup_snoc_name (es : list SignatureProposalParticipantsEntry) e i x :
  NoDup (pe_Username <$> (es ++ [e])) →
  (es ++ [e]) !! i = Some x ↔
    (es !! i = Some x ∧ pe_Username x ≠ pe_Username e) ∨ (i = length es ∧ x = e).
Proof.
  intros Hnd. rewrite lookup_snoc_Some. split; [|naive_solver eauto using lookup_lt_Some].
  intros [[Hlt Hx]|[-> ->]]; [|by right]. left. split; [done|]. intros Heq.
  rewrite fmap_app in Hnd. apply NoDup_app in Hnd as (_ & Hd & _).
  apply (Hd (pe_Username x)); [|rewrite Heq; set_solver].
  apply list_elem_of_fmap. exists x. split; [done|]. by eapply list_elem_of_lookup_2.
Qed.

(** Writing a fresh name into a directory that may be [nil]. *)
Lemma directory_insert {V} (m : gomap string V) u k u' v :
  gomap_lookup (Some (<[u := k]> (default ∅ m))) u' = Some v ↔
    (u' = u ∧ v = k) ∨ (u' ≠ u ∧ gomap_lookup m u' = Some v).
Proof.
  simpl. destruct (decide (u' = u)) as [->|Hne].
  - rewrite lookup_insert_eq. naive_solver.
  - rewrite lookup_insert_ne by done. destruct m; simpl; [naive_solver|].
    rewrite lookup_empty. naive_solver.
Qed.

Lemma directory_snoc p p' es e c :
  NoDup (pe_Username <$> (es ++ [e])) → directory_ok p es →
  p' = SetIDUsername (pe_Username e) (Z.of_nat (length es))
         (SetPubKeyUsername (pe_Username e) (pe_PubKey e) (pay_set_sig c p)) →
  directory_ok p' (es ++ [e]).
Proof.
  intros Hnd [Hids Hpks] ->. pose proof (fun i x => lookup_snoc_name es e i x Hnd) as Hl.
  split; intros u v; cbn [pay_IDs pay_PubKeys SetIDUsername SetPubKeyUsername pay_set_sig];
    rewrite directory_insert, ?Hids, ?Hpks; setoid_rewrite Hl;
    clear; (split; [intros [[-> ->]|(? & i & e' & ? & ? & ?)] |
                    intros (i & e' & [[? ?]|[-> ->]] & ? & ?); subst; eauto 10]);
    [exists (length es), e|exists i, e'|exists (length es), e|exists i, e']; subst; eauto 10.
Qed.

Lemma add_participants_spec r p c es :
  pay_SignatureProposalPayload p = Some c → sc_Quorum c = Some ∅ →
  pay_PubKeys p = None → pay_IDs p = None → NoDup (pe_Username <$> es) →
  ∃ p', foldM (add_participant r) p (indexed (Some <$> es)) = Ret p' ∧
    pay_SignatureProposalPayload p' =
      Some (sc_set_quorum (Some (map_seqZ 0 (proposed r <$> es))) c) ∧
    pay_DKGProposalPayload p' = pay_DKGProposalPayload p ∧
    pay_SigningProposalPayload p' = pay_SigningProposalPayload p ∧
    pay_DkgId p' = pay_DkgId p ∧ directory_ok p' es.
Proof.
  intros Hc Hq Hpk Hid0. induction es as [|e es IH] using rev_ind; intros Hnd.
  { exists p. simpl. split_and!; try done.
    - rewrite Hc. destruct c; simpl in *. by subst.
    - unfold directory_ok. rewrite Hpk, Hid0.
      split; intros; (split; [done|]); intros (i & e & Hi & _); by rewrite lookup_nil in Hi. }
  assert (NoDup (pe_Username <$> es)) as Hnd'.
  { rewrite fmap_app in Hnd. by apply NoDup_app in Hnd as (? & _). }
  destruct (IH Hnd') as (p' & Hf & Hs & Hd & Hn & Hid & Hdir).
  rewrite fmap_app. simpl. rewrite indexed_snoc, foldM_app, Hf, length_fmap. simpl.
  rewrite Hs. simpl. eexists. split; [done|]. split_and!; try done.
  - simpl. unfold sc_set_quorum; simpl. do 3 f_equal. rewrite fmap_app, map_seqZ_app. simpl.
    rewrite length_fmap, insert_empty, <-insert_union_singleton_r; [done|].
    apply lookup_map_seqZ_None. rewrite length_fmap. lia.
  - by eapply directory_snoc.
Qed.

(** The quorum a proposal starts with. *)
Definition initial_quorum (r : SignatureProposalParticipantsListRequest) es :=
  with_ids sgp_set_id (map_seqZ 0 (proposed r <$> es) : gmap Z SignatureProposalParticipant).

(** The invitations that answer it. *)
Definition invitations (r : SignatureProposalParticipantsListRequest) es :=
  invitation <$> in_id_order sgp_set_id (map_seqZ 0 (proposed r <$> es) : gmap Z SignatureProposalParticipant).

Lemma size_map_seqZ {X} (l : list X) : size (map_seqZ 0 l : gmap Z X) = length l.
Proof.
  induction l as [|x l IH] using rev_ind; [done|].
  rewrite map_seqZ_app, length_app. simpl. rewrite insert_empty, <-insert_union_singleton_r.
  - rewrite map_size_insert_None, IH; [lia|]. apply lookup_map_seqZ_None. lia.
  - apply lookup_map_seqZ_None. lia.
Qed.

Lemma dense_map_seqZ {X} (l : list X) : dense (map_seqZ 0 l : gmap Z X).
Proof. intros id. rewrite lookup_map_seqZ_is_Some, size_map_seqZ. lia. Qed.

Section facts.
Context {ord : MapOrder}.

(** What the machine answers to a well-formed proposal. *)
Lemma actionInit_ok e r es p :
  proposal_ok r es → pay_PubKeys p = None → pay_IDs p = None →
  ∃ p', actionInitSignatureProposal e [RqParticipantsList r] (Some p) =
      Ret (Some p', (e, Some (RdInvitations (invitations r es)), None)) ∧
    pay_SignatureProposalPayload p' =
      Some (mk_SignatureConfirmation (Some (initial_quorum r es)) (pl_CreatedAt r) 0
              (Add (pl_CreatedAt r) SignatureProposalConfirmationDeadline)) ∧
    pay_DKGProposalPayload p' = pay_DKGProposalPayload p ∧
    pay_SigningProposalPayload p' = pay_SigningProposalPayload p ∧
    pay_DkgId p' = pay_DkgId p ∧ pay_Threshold p' = pl_SigningThreshold r ∧ directory_ok p' es.
Proof.
  intros Hok Hpk Hids. pose proof (proj2 (list_Validate_None r) (ex_intro _ _ Hok)) as Hv.
  destruct Hok as [Hes _ _ Hnd _ _].
  unfold actionInitSignatureProposal, payload, set_payload. act_run. rewrite Hv. simpl. rewrite Hes.
  match goal with |- context [foldM (add_participant r) (pay_set_sig ?c p) _] =>
    destruct (add_participants_spec r (pay_set_sig c p) c es eq_refl eq_refl Hpk Hids Hnd)
      as (p' & Hf & Hs & Hd & Hn & Hid & Hdir) end.
  rewrite Hf. simpl. unfold SigQuorumCount. rewrite Hs. simpl.
  rewrite size_map_seqZ, !length_fmap, Z.eqb_refl. simpl.
  rewrite GetOrdered_spec. simpl. eexists. split; [done|]. simpl. by split_and!.
Qed.

(** The quorum of a proposal satisfies the invariant, nobody having answered. *)
Lemma initial_sig_ok r es p :
  proposal_ok r es → directory_ok p es → pay_Threshold p = pl_SigningThreshold r →
  sc_Quorum <$> pay_SignatureProposalPayload p = Some (Some (initial_quorum r es)) →
  sig_ok p (initial_quorum r es) ∧
  map_Forall (fun _ x => sgp_Status x = SigConfirmationAwaitConfirmation) (initial_quorum r es).
Proof.
  intros [Hes Hcnt Hth Hu Hk Hz] [Hids Hpks] Ht Hq.
  assert (∀ id x, initial_quorum r es !! id = Some x ↔
            ∃ i e, es !! i = Some e ∧ id = Z.of_nat i ∧ x = sgp_set_id id (proposed r e)) as Hl.
  { intros id x. unfold initial_quorum. rewrite lookup_with_ids, fmap_Some.
    setoid_rewrite lookup_map_seqZ_Some. setoid_rewrite list_lookup_fmap_Some. split.
    - intros (y & (Hle & e & -> & He) & ->). exists (Z.to_nat (id - 0)), e.
      split_and!; [done|lia|done].
    - intros (i & e & He & -> & ->). exists (proposed r e). split; [|done]. split; [lia|].
      exists e. split; [done|]. by rewrite Z.sub_0_r, Nat2Z.id. }
  assert (size (initial_quorum r es) = length es) as Hsz.
  { unfold initial_quorum. by rewrite size_with_ids, size_map_seqZ, length_fmap. }
  split; [split|]; try done.
  - unfold initial_quorum. apply dense_imap, dense_map_seqZ.
  - rewrite Hsz, Ht. done.
  - intros id x (i & e & He & -> & ->)%Hl. rewrite Forall_lookup in Hk. destruct (Hk i e He) as [? _].
    by split; simpl.
  - intros u id. rewrite Hids. setoid_rewrite Hl. clear. split; [|naive_solver].
    intros (i & e & ? & ? & ?). exists (sgp_set_id id (proposed r e)). eauto 10.
  - intros u k. rewrite Hpks. setoid_rewrite Hl. clear. split; [|naive_solver].
    intros (i & e & ? & ? & ?). exists (Z.of_nat i), (sgp_set_id (Z.of_nat i) (proposed r e)). eauto 10.
  - intros id x (i & e & He & -> & ->)%Hl. done.
Qed.

(** ** Replies *)

(** A reply that comes more than the deadline after the participant's last
    update. *)
Definition late_reply (r : SignatureProposalParticipantRequest) (x : SignatureProposalParticipant) :=
  Before (Add (sgp_UpdatedAt x) SignatureProposalConfirmationDeadline) (pr_CreatedAt r).

(** The payload after the reply [st] of the participant [x]. *)
Definition replied (r : SignatureProposalParticipantRequest) st x c
    (q : gmap Z SignatureProposalParticipant) (p : DumpedMachineStatePayload) :=
  pay_set_sig (sc_set_quorum (Some (<[pr_ParticipantId r := sgp_set_status st (pr_CreatedAt r) x]> q))
    (sc_set_updated (pr_CreatedAt r) c)) p.

(** The status an event asks for. *)
Definition reply_status (e : Event) : option ConfirmationParticipantStatus :=
  if e =s? EventConfirmSignatureProposal then Some SigConfirmationConfirmed
  else if e =s? EventDeclineProposal then Some SigConfirmationDeclined
  else None.

Lemma actionResponse_inv e args p p' out d :
  actionProposalResponseByParticipant e args (Some p) = Ret (p', (out, d, None)) →
  ∃ r c q x, args = [RqParticipant r] ∧ SignatureProposalParticipantRequest_Validate r = None ∧
    pay_SignatureProposalPayload p = Some c ∧ sc_Quorum c = Some q ∧
    q !! pr_ParticipantId r = Some x ∧ d = None ∧
    ((late_reply r x = true ∧ out = eventSetValidationCanceledByTimeout ∧ p' = Some p) ∨
     (late_reply r x = false ∧ sgp_Status x = SigConfirmationAwaitConfirmation ∧ out = "" ∧
      ∃ st, reply_status e = Some st ∧ p' = Some (replied r st x c q p))).
Proof.
  unfold actionProposalResponseByParticipant, payload, set_payload, SigQuorumExists, SigQuorumGet,
    SigQuorumUpdate, reply_status, late_reply, replied. intros H. act_inv H.
  all: match goal with H : as_Participant ?a = Some ?r |- _ => destruct a; simplify_eq/= end.
  all: match goal with H : gomap_lookup (sc_Quorum ?c) _ = Some _ |- _ =>
    destruct (sc_Quorum c) as [q|] eqn:Hq; simpl in H; [|done] end.
  all: do 4 eexists; split_and!; [reflexivity|done|done|done|done|done|].
  all: first [left; by split_and! | right; split_and!; [done..|]; eexists; by split].
Qed.

(** ** Validation *)

(** The outcome of the automatic validation, as a function of the counts. *)
Lemma actionValidate_eq e args p c q :
  pay_SignatureProposalPayload p = Some c → sc_Quorum c = Some q →
  actionValidateSignatureProposal e args (Some p) = Ret (Some p,
    if SignatureConfirmation_IsExpired c then (eventSetValidationCanceledByTimeout, None, None)
    else if qexists is_declined q then (eventSetValidationCanceledByParticipant, None, None)
    else if qcount is_confirmed q <? Z.of_nat (size q) then ("", None, None)
    else (eventSetProposalValidatedInternal, Some (RdStatuses (status_entry <$> range q)), None)).
Proof.
  intros Hc Hq. unfold actionValidateSignatureProposal, payload, SigQuorumCount. act_run.
  rewrite Hc. simpl. destruct (SignatureConfirmation_IsExpired c); [done|]. simpl. rewrite Hq. simpl.
  rewrite (tally_spec _ is_confirmed is_declined).
  2:{ intros n b k x. unfold count_confirmations, is_confirmed, is_declined; simpl.
      destruct (sgp_Status x); simpl; by rewrite ?orb_false_r, ?orb_true_r, ?Z.sub_0_r. }
  simpl. destruct (qexists is_declined q); [done|].
  destruct (Z.ltb_spec (qcount is_confirmed q) (Z.of_nat (size q))), (Z.ltb_spec 0
    (Z.of_nat (size q) - qcount is_confirmed q)); try lia; done.
Qed.

(** ** The invariant of the stage *)

Definition later_none (p : DumpedMachineStatePayload) : Prop :=
  pay_DKGProposalPayload p = None ∧ pay_SigningProposalPayload p = None.

(** Before the proposal. *)
Definition fresh (p : DumpedMachineStatePayload) : Prop :=
  pay_SignatureProposalPayload p = None ∧ later_none p ∧ pay_PubKeys p = None ∧ pay_IDs p = None.

Inductive sig_inv (p : DumpedMachineStatePayload) : State → Prop :=
| sig_inv_idle :
    fresh p → sig_inv p StateParticipantsConfirmationsInit
| sig_inv_await q :
    sig_ok p q → later_none p →
    map_Forall (fun _ x => sgp_Status x = SigConfirmationAwaitConfirmation ∨
                           sgp_Status x = SigConfirmationConfirmed) q →
    qcount is_confirmed q < Z.of_nat (size q) →
    sig_inv p StateAwaitParticipantsConfirmations
| sig_inv_canceled_by_participant q id x :
    sig_ok p q → later_none p → q !! id = Some x → sgp_Status x = SigConfirmationDeclined →
    sig_inv p StateValidationCanceledByParticipant
| sig_inv_canceled_by_timeout q :
    sig_ok p q → later_none p → sig_inv p StateValidationCanceledByTimeout
| sig_inv_collected q :
    sig_ok p q → later_none p →
    map_Forall (fun _ x => sgp_Status x = SigConfirmationConfirmed) q →
    sig_inv p StateSignatureProposalCollected.

(** A reply keeps the quorum and the directories. *)
Lemma sig_ok_replied r st x c q p :
  sig_ok p q → q !! pr_ParticipantId r = Some x →
  sig_ok (replied r st x c q p)
    (<[pr_ParticipantId r := sgp_set_status st (pr_CreatedAt r) x]> q).
Proof.
  intros [Hq Hd Ht Hm Hids Hpks] Hx.
  assert (∀ id y, <[pr_ParticipantId r := sgp_set_status st (pr_CreatedAt r) x]> q !! id = Some y →
    ∃ y', q !! id = Some y' ∧ sgp_ParticipantID y = sgp_ParticipantID y' ∧
      sgp_Threshold y = sgp_Threshold y' ∧ sgp_Username y = sgp_Username y' ∧
      sgp_PubKey y = sgp_PubKey y') as Hfw.
  { intros id y. rewrite lookup_insert_Some. intros [[<- <-]|[_ Hy]]; eauto 10. }
  assert (∀ id y, q !! id = Some y →
    ∃ y', <[pr_ParticipantId r := sgp_set_status st (pr_CreatedAt r) x]> q !! id = Some y' ∧
      sgp_Username y' = sgp_Username y ∧ sgp_PubKey y' = sgp_PubKey y) as Hbw.
  { intros id y Hy. destruct (decide (pr_ParticipantId r = id)) as [<-|Hne].
    - rewrite lookup_insert_eq. simplify_eq. eauto.
    - rewrite lookup_insert_ne by done. eauto. }
  split.
  - done.
  - apply dense_insert; [by eauto|done].
  - rewrite map_size_insert_Some by eauto. done.
  - intros id y (y' & Hy & Hi & Hth & Hu & _)%Hfw. destruct (Hm id y' Hy). split; simpl; congruence.
  - intros u id. simpl. rewrite Hids. split.
    + intros (y & (y' & ? & ? & _)%Hbw & ?). exists y'. split; congruence.
    + intros (y & (y' & ? & ? & ? & ? & _)%Hfw & ?). exists y'. split; congruence.
  - intros u k. simpl. rewrite Hpks. split.
    + intros (id & y & (y' & ? & ? & ?)%Hbw & ? & ?). exists id, y'. split_and!; congruence.
    + intros (id & y & (y' & ? & ? & ? & ? & ?)%Hfw & ? & ?). exists id, y'. split_and!; congruence.
Qed.

(** ** Steps of the stage *)

(** What the validation of a quorum decides. *)
Definition sig_outcome (c : SignatureConfirmation) (q : gmap Z SignatureProposalParticipant) : State :=
  if SignatureConfirmation_IsExpired c then StateValidationCanceledByTimeout
  else if qexists is_declined q then StateValidationCanceledByParticipant
  else if qcount is_confirmed q <? Z.of_nat (size q) then StateAwaitParticipantsConfirmations
  else StateSignatureProposalCollected.

Lemma call_init args p :
  call callbacks EventInitProposal args p = actionInitSignatureProposal EventInitProposal args p.
Proof. reflexivity. Qed.
Lemma call_confirm args p :
  call callbacks EventConfirmSignatureProposal args p =
    actionProposalResponseByParticipant EventConfirmSignatureProposal args p.
Proof. reflexivity. Qed.
Lemma call_decline args p :
  call callbacks EventDeclineProposal args p =
    actionProposalResponseByParticipant EventDeclineProposal args p.
Proof. reflexivity. Qed.
Lemma call_validate args p :
  call callbacks eventAutoValidateProposalInternal args p =
    actionValidateSignatureProposal eventAutoValidateProposalInternal args p.
Proof. reflexivity. Qed.

Lemma spec_auto_await args p c q data :
  pay_SignatureProposalPayload p = Some c → sc_Quorum c = Some q →
  ∃ d, spec_auto events callbacks StateAwaitParticipantsConfirmations args (Some p) data =
    Ret (sig_outcome c q, Some p, (mk_Response (sig_outcome c q) d, None)) ∧
    (sig_outcome c q = StateAwaitParticipantsConfirmations → d = data).
Proof.
  intros Hc Hq. unfold spec_auto.
  change (find_auto events StateAwaitParticipantsConfirmations) with
    (Some (auto_desc eventAutoValidateProposalInternal [StateAwaitParticipantsConfirmations]
     StateAwaitParticipantsConfirmations)).
  cbn [Name auto_desc]. rewrite call_validate.
  rewrite (actionValidate_eq _ _ _ c q) by done. unfold sig_outcome. simpl.
  destruct (SignatureConfirmation_IsExpired c); [by eexists|].
  destruct (qexists is_declined q); [by eexists|].
  destruct (_ <? _); by eexists.
Qed.

Lemma sig_outcome_inv p c q :
  sig_ok p q → later_none p →
  map_Forall (fun _ x => sgp_Status x ≠ SigConfirmationError) q →
  sig_inv p (sig_outcome c q).
Proof.
  intros Hok Hl Hst. unfold sig_outcome.
  destruct (SignatureConfirmation_IsExpired c); [by eapply sig_inv_canceled_by_timeout|].
  destruct (qexists is_declined q) eqn:Hdec.
  { apply qexists_true in Hdec as (k & x & Hx & Hs). unfold is_declined in Hs. boolify.
    by eapply sig_inv_canceled_by_participant. }
  apply qexists_false in Hdec. destruct (Z.ltb_spec (qcount is_confirmed q) (Z.of_nat (size q))).
  - eapply sig_inv_await; try done. intros k x Hx. specialize (Hst k x Hx).
    specialize (Hdec k x Hx). unfold is_declined in Hdec. simpl in *. boolify.
    destruct (sgp_Status x); naive_solver.
  - eapply sig_inv_collected; try done. pose proof (qcount_bounds is_confirmed q).
    assert (qcount is_confirmed q = Z.of_nat (size q)) as Hall by lia.
    apply qcount_all in Hall. intros k x Hx. specialize (Hall k x Hx).
    unfold is_confirmed in Hall. simpl in Hall. by boolify.
Qed.

Lemma actionInit_inv e args p p' out d :
  actionInitSignatureProposal e args (Some p) = Ret (p', (out, d, None)) →
  ∃ r es, args = [RqParticipantsList r] ∧ proposal_ok r es.
Proof.
  unfold actionInitSignatureProposal. intros H. act_unfold H.
  destruct args as [|a [|]]; try done. destruct (as_ParticipantsList a) as [r|] eqn:Ha; [|done].
  destruct a; simplify_eq/=.
  destruct (SignatureProposalParticipantsListRequest_Validate r) as [[e'|]|] eqn:Hv; try done.
  apply list_Validate_None in Hv as [es ?]. eauto.
Qed.

(** A proposal is accepted in the initial state, and the stage waits for the
    replies, or is already over if the proposal's times make no sense. *)
Lemma init_step r es p :
  fresh p → proposal_ok r es →
  ∃ p1 d, spec_do events callbacks StateParticipantsConfirmationsInit EventInitProposal
      [RqParticipantsList r] (Some p) =
    Ret (sig_outcome (mk_SignatureConfirmation (Some (initial_quorum r es)) (pl_CreatedAt r) 0
           (Add (pl_CreatedAt r) SignatureProposalConfirmationDeadline)) (initial_quorum r es),
         Some p1, (Some d, None)) ∧
    (rs_State d = StateAwaitParticipantsConfirmations → rs_Data d = Some (RdInvitations (invitations r es))) ∧
    sig_ok p1 (initial_quorum r es) ∧ later_none p1 ∧
    map_Forall (fun _ x => sgp_Status x = SigConfirmationAwaitConfirmation) (initial_quorum r es).
Proof.
  intros (_ & [Hd Hn] & Hpk & Hid) Hok.
  destruct (actionInit_ok EventInitProposal r es p Hok Hpk Hid)
    as (p1 & Ha & Hs & Hd1 & Hn1 & _ & Ht & Hdir).
  unfold spec_do. table_goal. rewrite call_init, Ha. simpl. unfold finish. table_goal.
  match type of Hs with _ = Some ?c => destruct (spec_auto_await [RqParticipantsList r] p1 c
    (initial_quorum r es) (Some (RdInvitations (invitations r es))) Hs eq_refl) as (d' & Hauto & Hdata) end.
  unfold StateAwaitParticipantsConfirmations in Hauto. rewrite Hauto. simpl.
  destruct (initial_sig_ok r es p1 Hok Hdir Ht) as [Hso Haw]; [by rewrite Hs|].
  exists p1. eexists. split; [done|]. split_and!; try done. split; congruence.
Qed.

(** A reply: an accepted one is counted and the quorum validated again, a late
    one ends the stage. *)
Lemma reply_finish p q e args o out d :
  e = EventConfirmSignatureProposal ∨ e = EventDeclineProposal →
  sig_ok p q → later_none p →
  map_Forall (fun _ x => sgp_Status x ≠ SigConfirmationError) q →
  actionProposalResponseByParticipant e args (Some p) = Ret (o, (out, d, None)) →
  ∃ s' p1 r, finish events callbacks StateAwaitParticipantsConfirmations e args o out d =
    Ret (s', Some p1, (Some r, None)) ∧ sig_inv p1 s'.
Proof.
  intros He Hok Hl Hst (r & c & q' & x & -> & Hv & Hc & Hq & Hx & -> & Hcase)%actionResponse_inv.
  assert (q' = q) as ->.
  { pose proof (so_quorum _ _ Hok) as Hso. rewrite Hc in Hso. simpl in Hso. congruence. }
  unfold finish. destruct Hcase as [(_ & -> & ->)|(_ & _ & -> & st & Hst' & ->)].
  - destruct He as [-> | ->]; table_goal; unfold spec_auto; table_goal; simpl;
      (do 3 eexists; split; [done|]); by eapply sig_inv_canceled_by_timeout.
  - assert (st ≠ SigConfirmationError) by (intros ->; unfold reply_status in Hst'; repeat case_match; done).
    destruct (spec_auto_await [RqParticipant r] (replied r st x c q p) _ _ None eq_refl eq_refl)
      as (d' & Hauto & _). unfold StateAwaitParticipantsConfirmations in Hauto.
    destruct He as [-> | ->]; table_goal; rewrite Hauto; simpl;
      (do 3 eexists; split; [done|]); (apply sig_outcome_inv; [by apply sig_ok_replied|done|]);
      apply map_Forall_insert_2; done.
Qed.

Lemma await_no_error (q : gmap Z SignatureProposalParticipant) :
  map_Forall (fun _ x => sgp_Status x = SigConfirmationAwaitConfirmation ∨
                         sgp_Status x = SigConfirmationConfirmed) q →
  map_Forall (fun _ x => sgp_Status x ≠ SigConfirmationError) q.
Proof. intros H k x Hx. destruct (H k x Hx) as [-> | ->]; done. Qed.

(** What follows an accepted callback, in every state. *)
Lemma sig_finish s p d e args o out data :
  sig_inv p s → find_desc events s e = Some d → IsInternal d = false →
  call callbacks e args (Some p) = Ret (o, (out, data, None)) →
  ∃ s' p1 r, finish events callbacks s e args o out data = Ret (s', Some p1, (Some r, None)) ∧
    sig_inv p1 s'.
Proof.
  intros Hinv Hd Hi Ha. desc_cases Hd; try discriminate Hi; inversion Hinv; simplify_eq.
  - rewrite call_init in Ha. destruct (actionInit_inv _ _ _ _ _ _ Ha) as (r & es & -> & Hok).
    destruct (init_step r es p) as (p1 & d & Hs & _ & Hso & Hl & Haw); [done..|].
    unfold spec_do in Hs. table Hs. rewrite call_init, Ha in Hs. simpl in Hs.
    do 3 eexists. split; [exact Hs|]. apply sig_outcome_inv; [done..|].
    intros k x Hx. rewrite (Haw k x Hx). done.
  - rewrite call_confirm in Ha.
    eapply reply_finish; [by left|eassumption|done|by apply await_no_error|exact Ha].
  - rewrite call_decline in Ha.
    eapply reply_finish; [by right|eassumption|done|by apply await_no_error|exact Ha].
Qed.

(** ** The machine is well-formed *)

Lemma New_ok : ∃ f, New = Ret f.
Proof.
  destruct New as [f|] eqn:H; [by exists f|].
  assert (match New with Ret _ => true | Panic _ => false end = true) as Hr by by vm_compute.
  by rewrite H in Hr.
Qed.

(** ** The stage never panics *)

(** No absent entry in a participants list. *)
Definition args_present (args : list Request) : Prop :=
  ∀ r, args = [RqParticipantsList r] → Forall is_Some (pl_Participants r).

Lemma present_entries (l : list (option SignatureProposalParticipantsEntry)) :
  Forall is_Some l → ∃ es, l = Some <$> es.
Proof.
  induction 1 as [|o l [e ->] _ [es ->]]; [by exists []|]. by exists (e :: es).
Qed.

Lemma unique_usernames_returns seen es : ∃ o, unique_usernames seen (Some <$> es) = Ret o.
Proof. induction es as [|e es IH] in seen |- *; simpl; [eauto|]. case_bool_decide; eauto. Qed.

Lemma entries_error_returns es : ∃ o, entries_error (Some <$> es) = Ret o.
Proof. induction es as [|e es [o IH]]; simpl; [eauto|]. destruct (entry_error e); eauto. Qed.

Lemma list_Validate_returns r :
  Forall is_Some (pl_Participants r) →
  ∃ o, SignatureProposalParticipantsListRequest_Validate r = Ret o.
Proof.
  intros (es & Hes)%present_entries. unfold SignatureProposalParticipantsListRequest_Validate.
  destruct (first_error _); [eauto|]. rewrite Hes.
  destruct (unique_usernames_returns ∅ es) as [o1 ->]. simpl. destruct o1; [eauto|].
  destruct (entries_error_returns es) as [o2 ->]. simpl. destruct o2; eauto.
Qed.

Lemma actionInit_total args p :
  fresh p → args_present args → total_on eq actionInitSignatureProposal EventInitProposal args (Some p).
Proof.
  intros (_ & _ & Hpk & Hid) Hargs. destruct args as [|a [|]]; [by do 4 eexists| |by do 4 eexists].
  destruct (as_ParticipantsList a) as [r|] eqn:Ha.
  - destruct a; simplify_eq/=. destruct (list_Validate_returns r) as [[e|] Hv]; [by apply Hargs| |].
    + unfold total_on, actionInitSignatureProposal. act_run. rewrite Hv. by do 4 eexists.
    + apply list_Validate_None in Hv as [es Hok].
      destruct (actionInit_ok EventInitProposal r es p Hok Hpk Hid) as (p' & Heq & _).
      do 4 eexists. by split; [exact Heq|].
  - unfold total_on, actionInitSignatureProposal. act_run. rewrite Ha. by do 4 eexists.
Qed.

Lemma actionResponse_total e args p c q :
  pay_SignatureProposalPayload p = Some c → sc_Quorum c = Some q →
  total_on eq actionProposalResponseByParticipant e args (Some p).
Proof.
  intros Hc Hq. unfold total_on, actionProposalResponseByParticipant, payload, set_payload,
    SigQuorumExists, SigQuorumGet, SigQuorumUpdate. act_run.
  act_branches; simplify_eq/=; try done; by do 4 eexists.
Qed.

Lemma sig_inv_quorum p :
  sig_inv p StateAwaitParticipantsConfirmations →
  ∃ c q, pay_SignatureProposalPayload p = Some c ∧ sc_Quorum c = Some q.
Proof.
  intros H. inversion H as [|q Hok _ _ _| | |]; simplify_eq. pose proof (so_quorum _ _ Hok) as Hq.
  destruct (pay_SignatureProposalPayload p); simplify_eq/=. eauto.
Qed.

Lemma sig_total s p d e args :
  sig_inv p s → args_present args → find_desc events s e = Some d → IsInternal d = false →
  total_on eq (call callbacks) e args (Some p).
Proof.
  intros Hinv Hargs Hd Hi. desc_cases Hd; try discriminate Hi.
  - inversion Hinv; simplify_eq. by apply actionInit_total.
  - destruct (sig_inv_quorum p Hinv) as (c & q & Hc & Hq).
    exact (actionResponse_total EventConfirmSignatureProposal args p c q Hc Hq).
  - destruct (sig_inv_quorum p Hinv) as (c & q & Hc & Hq).
    exact (actionResponse_total EventDeclineProposal args p c q Hc Hq).
Qed.
End facts.
