(* ===== verification/DkgProposal.v ===== *)
(** * The DKG machine, [fsm/state_machines/dkg_proposal_fsm]

    The second stage of a round: commits, deals, responses and master keys are
    collected from every participant, one phase after the other. *)

From S2P Require Import Prelude GoFsm Requests Payload SignatureProposal.

(** ** States and events *)

Definition FsmName : string := "dkg_proposal_fsm".

Definition StateDkgInitial : State := StateSignatureProposalCollected.
Definition StateDkgCommitsAwaitConfirmations : State := "state_dkg_commits_await_confirmations".
Definition StateDkgCommitsAwaitCanceledByError : State := "state_dkg_commits_await_canceled_by_error".
Definition StateDkgCommitsAwaitCanceledByTimeout : State :=
  "state_dkg_commits_await_canceled_by_timeout".
Definition StateDkgDealsAwaitConfirmations : State := "state_dkg_deals_await_confirmations".
Definition StateDkgDealsAwaitCanceledByError : State := "state_dkg_deals_await_canceled_by_error".
Definition StateDkgDealsAwaitCanceledByTimeout : State := "state_dkg_deals_await_canceled_by_timeout".
Definition StateDkgResponsesAwaitConfirmations : State := "state_dkg_responses_await_confirmations".
Definition StateDkgResponsesAwaitCanceledByError : State :=
  "state_dkg_responses_await_canceled_by_error".
Definition StateDkgResponsesAwaitCanceledByTimeout : State :=
  "state_dkg_responses_sending_canceled_by_timeout".
Definition StateDkgMasterKeyAwaitConfirmations : State := "state_dkg_master_key_await_confirmations".
Definition StateDkgMasterKeyAwaitCanceledByError : State :=
  "state_dkg_master_key_await_canceled_by_error".
Definition StateDkgMasterKeyAwaitCanceledByTimeout : State :=
  "state_dkg_master_key_await_canceled_by_timeout".
Definition StateDkgMasterKeyCollected : State := "state_dkg_master_key_collected".

Definition EventDKGInitProcess : Event := "event_dkg_init_process".

Definition EventDKGCommitConfirmationReceived : Event := "event_dkg_commit_confirm_received".
Definition EventDKGCommitConfirmationError : Event := "event_dkg_commit_confirm_canceled_by_error".
Definition eventDKGCommitsConfirmationCancelByTimeoutInternal : Event :=
  "event_dkg_commits_confirm_canceled_by_timeout_internal".
Definition eventDKGCommitsConfirmationCancelByErrorInternal : Event :=
  "event_dkg_commits_confirm_canceled_by_error_internal".
Definition eventDKGCommitsConfirmedInternal : Event := "event_dkg_commits_confirmed_internal".
Definition eventAutoDKGValidateConfirmationCommitsInternal : Event :=
  "event_dkg_commits_validate_internal".

Definition EventDKGDealConfirmationReceived : Event := "event_dkg_deal_confirm_received".
Definition EventDKGDealConfirmationError : Event := "event_dkg_deal_confirm_canceled_by_error".
Definition eventDKGDealsConfirmationCancelByTimeoutInternal : Event :=
  "event_dkg_deals_confirm_canceled_by_timeout_internal".
Definition eventDKGDealsConfirmationCancelByErrorInternal : Event :=
  "event_dkg_deals_confirm_canceled_by_error_internal".
Definition eventDKGDealsConfirmedInternal : Event := "event_dkg_deals_confirmed_internal".
Definition eventAutoDKGValidateConfirmationDealsInternal : Event :=
  "event_dkg_deals_validate_internal".

Definition EventDKGResponseConfirmationReceived : Event := "event_dkg_response_confirm_received".
Definition EventDKGResponseConfirmationError : Event :=
  "event_dkg_response_confirm_canceled_by_error".
Definition eventDKGResponseConfirmationCancelByTimeoutInternal : Event :=
  "event_dkg_response_confirm_canceled_by_timeout_internal".
Definition eventDKGResponseConfirmationCancelByErrorInternal : Event :=
  "event_dkg_response_confirm_canceled_by_error_internal".
Definition eventDKGResponsesConfirmedInternal : Event := "event_dkg_responses_confirmed_internal".
Definition eventAutoDKGValidateResponsesConfirmationInternal : Event :=
  "event_dkg_responses_validate_internal".

Definition EventDKGMasterKeyConfirmationReceived : Event := "event_dkg_master_key_confirm_received".
Definition EventDKGMasterKeyConfirmationError : Event :=
  "event_dkg_master_key_confirm_canceled_by_error".
Definition eventDKGMasterKeyConfirmationCancelByTimeoutInternal : Event :=
  "event_dkg_master_key_confirm_canceled_by_timeout_internal".
Definition eventDKGMasterKeyConfirmationCancelByErrorInternal : Event :=
  "event_dkg_master_key_confirm_canceled_by_error_internal".
Definition eventDKGMasterKeyConfirmedInternal : Event := "event_dkg_master_key_confirmed_internal".
Definition eventAutoDKGValidateMasterKeyConfirmationInternal : Event :=
  "event_dkg_master_key_validate_internal".

(** ** Callbacks *)

(** The quorum entry made for a participant of the signature proposal. *)
Definition enrolled (participant : SignatureProposalParticipant) : DKGProposalParticipant :=
  mk_DKGProposalParticipant 0 (sgp_Username participant) (sgp_DkgPubKey participant) "" "" "" ""
    CommitAwaitConfirmation None (sgp_UpdatedAt participant).

(** The body of [for participantId, participant := range
    m.payload.SignatureProposalPayload.Quorum]. *)
Definition enroll (q : gmap Z DKGProposalParticipant) (kx : Z * SignatureProposalParticipant) :=
  <[kx.1 := enrolled kx.2]> q.

Definition pubkeys_entry (threshold : Z) (x : DKGProposalParticipant) :=
  mk_DKGProposalPubKeysParticipantEntry (dp_ParticipantID x) (dp_Username x) (dp_DkgPubKey x)
    threshold.

(** [m.payload.SignatureProposalPayload.Quorum[0].Threshold], read once per
    entry of the response. *)
Definition pubkeys_entries (sq : gomap Z SignatureProposalParticipant)
    (l : list DKGProposalParticipant) : Go (list DKGProposalPubKeysParticipantEntry) :=
  foldM (fun acc x => first ← deref (gomap_lookup sq 0);
                      Ret (acc ++ [pubkeys_entry (sgp_Threshold first) x])) [] l.

Section actions.
Context {ord : MapOrder}.

Definition actionInitDKGProposal : Action := fun inEvent args => run_action (
  p ← payload;
  match pay_DKGProposalPayload p with
  | Some _ => mret ("", None, None)
  | None =>
      request ← arg0 as_DefaultRequest "{arg0} required {DefaultRequest}"
        "cannot cast {arg0} to type {DefaultRequest}" args;
      let c := mk_DKGConfirmation (Some ∅) (dr_CreatedAt request) 0
                 (Add (dr_CreatedAt request) DkgConfirmationDeadline) "" in
      _ ← set_payload (pay_set_dkg c p);
      sc ← lift (deref (pay_SignatureProposalPayload p));
      let q := foldl enroll ∅ (range (default ∅ (sc_Quorum sc))) in
      let '(q, ordered) := GetOrdered dp_set_id (Some q) in
      _ ← set_payload (pay_set_dkg (dc_set_quorum q c) p);
      responseData ← lift (pubkeys_entries (sc_Quorum sc) ordered);
      mret (inEvent, Some (RdPubKeys responseData), None)
  end).

(** The four actions that receive a contribution are the same code up to the
    request's type, the field they fill and the statuses: [get_id] and
    [get_time] read the request, [store] writes the field. *)
Section received.
Context {R : Type} (cast : Request → option R) (validate : R → option error)
  (get_id : R → Z) (get_time : R → Time) (await confirmed : DKGParticipantStatus)
  (store : R → DKGProposalParticipant → DKGProposalParticipant)
  (touch : R → DKGConfirmation → DKGConfirmation)
  (required cannot_cast cannot_confirm : string).

Definition confirmationReceived : Action := fun inEvent args => run_action (
  request ← arg0 cast required cannot_cast args;
  _ ← check (validate request);
  p ← payload;
  exists_ ← lift (DKGQuorumExists p (get_id request));
  _ ← require exists_ (Err "{ParticipantId} not exist in quorum");
  o ← lift (DKGQuorumGet p (get_id request));
  dkgProposalParticipant ← lift (deref o);
  _ ← require (bool_decide (dp_Status dkgProposalParticipant = await)) (Err cannot_confirm);
  let dkgProposalParticipant :=
    dp_set_updated (get_time request)
      (dp_set_status confirmed (store request dkgProposalParticipant)) in
  c ← lift (deref (pay_DKGProposalPayload p));
  let p := pay_set_dkg (touch request c) p in
  p ← lift (DKGQuorumUpdate p (get_id request) dkgProposalParticipant);
  _ ← set_payload p;
  mret ("", None, None)).
End received.

Definition actionCommitConfirmationReceived : Action :=
  confirmationReceived as_Commit DKGProposalCommitConfirmationRequest_Validate
    cr_ParticipantId cr_CreatedAt CommitAwaitConfirmation CommitConfirmed
    (fun request => dp_set_commit (cr_Commit request))
    (fun request => dc_set_updated (cr_CreatedAt request))
    "{arg0} required {DKGProposalCommitConfirmationRequest}"
    "cannot cast {arg0} to type {DKGProposalCommitConfirmationRequest}"
    "cannot confirm commit with {Status}".

Definition actionDealConfirmationReceived : Action :=
  confirmationReceived as_Deal DKGProposalDealConfirmationRequest_Validate
    de_ParticipantId de_CreatedAt DealAwaitConfirmation DealConfirmed
    (fun request => dp_set_deal (de_Deal request))
    (fun request => dc_set_updated (de_CreatedAt request))
    "{arg0} required {DKGProposalDealConfirmationRequest}"
    "cannot cast {arg0} to type {DKGProposalDealConfirmationRequest}"
    "cannot confirm deal with {Status}".

Definition actionResponseConfirmationReceived : Action :=
  confirmationReceived as_Response DKGProposalResponseConfirmationRequest_Validate
    rr_ParticipantId rr_CreatedAt ResponseAwaitConfirmation ResponseConfirmed
    (fun request => dp_set_response (rr_Response request))
    (fun request => dc_set_updated (rr_CreatedAt request))
    "{arg0} required {DKGProposalResponseConfirmationRequest}"
    "cannot cast {arg0} to type {DKGProposalResponseConfirmationRequest}"
    "cannot confirm response with {Status}".

Definition actionMasterKeyConfirmationReceived : Action :=
  confirmationReceived as_MasterKey DKGProposalMasterKeyConfirmationRequest_Validate
    mr_ParticipantId mr_CreatedAt MasterKeyAwaitConfirmation MasterKeyConfirmed
    (fun request => dp_set_masterkey (mr_MasterKey request))
    (fun request c => dc_set_pubpoly (mr_PubPolyBz request) (dc_set_updated (mr_CreatedAt request) c))
    "{arg0} required {DKGProposalMasterKeyConfirmationRequest}"
    "cannot cast {arg0} to type {DKGProposalMasterKeyConfirmationRequest}"
    "cannot confirm response with {Status}".

Definition has_status (s : DKGParticipantStatus) (x : DKGProposalParticipant) : bool :=
  bool_decide (dp_Status x = s).

(** The counting loop of the validations: [(unconfirmedParticipants,
    isContainsError)]. *)
Definition count_statuses (error confirmed : DKGParticipantStatus) (acc : Z * bool)
    (kx : Z * DKGProposalParticipant) : Z * bool :=
  if has_status error kx.2 then (acc.1, true)
  else if has_status confirmed kx.2 then (acc.1 - 1, acc.2)
  else acc.

(** The first three validations are the same code up to the statuses, the
    events and the response: when all have confirmed, every participant moves
    to the status [next] of the next phase. *)
Section validate.
Context (error confirmed next : DKGParticipantStatus) (by_timeout by_error done : Event)
  (respond : list DKGProposalParticipant → RespData).

Definition validateAwait : Action := fun _ _ => run_action (
  p ← payload;
  c ← lift (deref (pay_DKGProposalPayload p));
  if DKGConfirmation_IsExpired c then mret (by_timeout, None, None)
  else
    count ← lift (DKGQuorumCount p);
    let '(unconfirmedParticipants, isContainsError) :=
      foldl (count_statuses error confirmed) (count, false) (range (default ∅ (dc_Quorum c))) in
    if isContainsError : bool then mret (by_error, None, None)
    else if 0 <? unconfirmedParticipants then mret ("", None, None)
    else
      let q := fmap (M := gmap Z) (dp_set_status next) <$> dc_Quorum c in
      let '(q, ordered) := GetOrdered dp_set_id q in
      _ ← set_payload (pay_set_dkg (dc_set_quorum q c) p);
      mret (done, Some (respond ordered), None)).
End validate.

Definition commit_entry (x : DKGProposalParticipant) :=
  mk_DKGProposalParticipantEntry (dp_ParticipantID x) (dp_Username x) (dp_DkgCommit x).
Definition deal_entry (x : DKGProposalParticipant) :=
  mk_DKGProposalParticipantEntry (dp_ParticipantID x) (dp_Username x) (dp_DkgDeal x).
Definition response_entry (x : DKGProposalParticipant) :=
  mk_DKGProposalParticipantEntry (dp_ParticipantID x) (dp_Username x) (dp_DkgResponse x).

Definition actionValidateDkgProposalAwaitCommits : Action :=
  validateAwait CommitConfirmationError CommitConfirmed DealAwaitConfirmation
    eventDKGCommitsConfirmationCancelByTimeoutInternal
    eventDKGCommitsConfirmationCancelByErrorInternal eventDKGCommitsConfirmedInternal
    (fun l => RdCommits (commit_entry <$> l)).

(** Participants without a deal are left out of the response. *)
Definition actionValidateDkgProposalAwaitDeals : Action :=
  validateAwait DealConfirmationError DealConfirmed ResponseAwaitConfirmation
    eventDKGDealsConfirmationCancelByTimeoutInternal
    eventDKGDealsConfirmationCancelByErrorInternal eventDKGDealsConfirmedInternal
    (fun l => RdDeals (deal_entry <$> filter (fun x => slen (dp_DkgDeal x) ≠ 0) l)).

Definition actionValidateDkgProposalAwaitResponses : Action :=
  validateAwait ResponseConfirmationError ResponseConfirmed MasterKeyAwaitConfirmation
    eventDKGResponseConfirmationCancelByTimeoutInternal
    eventDKGResponseConfirmationCancelByErrorInternal eventDKGResponsesConfirmedInternal
    (fun l => RdResponses (response_entry <$> l)).

(** The master keys of the confirmed participants, in iteration order. *)
Definition collect_masterkeys (l : list (Z * DKGProposalParticipant)) : list bytes :=
  omap (fun kx => if has_status MasterKeyConfirmationError kx.2 then None
                  else if has_status MasterKeyConfirmed kx.2 then Some (dp_DkgMasterKey kx.2)
                  else None) l.

(** Some key differs from the first one. *)
Definition mismatched (masterKeys : list bytes) : bool :=
  match masterKeys with
  | first :: _ :: _ => existsb (fun masterKey => negb (masterKey =s? first)) masterKeys
  | _ => false
  end.

Definition mismatch_error : option FSMError := Some (mk_FSMError "master key is mismatched").

Definition mark_mismatch (x : DKGProposalParticipant) : DKGProposalParticipant :=
  dp_set_error mismatch_error (dp_set_status MasterKeyConfirmationError x).

Definition actionValidateDkgProposalAwaitMasterKey : Action := fun _ _ => run_action (
  p ← payload;
  c ← lift (deref (pay_DKGProposalPayload p));
  if DKGConfirmation_IsExpired c
  then mret (eventDKGMasterKeyConfirmationCancelByTimeoutInternal, None, None)
  else
    count ← lift (DKGQuorumCount p);
    let participants := range (default ∅ (dc_Quorum c)) in
    let '(unconfirmedParticipants, isContainsError) :=
      foldl (count_statuses MasterKeyConfirmationError MasterKeyConfirmed) (count, false)
        participants in
    if isContainsError : bool
    then mret (eventDKGMasterKeyConfirmationCancelByErrorInternal, None, None)
    else if mismatched (collect_masterkeys participants) then
      let q := fmap (M := gmap Z) mark_mismatch <$> dc_Quorum c in
      _ ← set_payload (pay_set_dkg (dc_set_quorum q c) p);
      mret (eventDKGMasterKeyConfirmationCancelByErrorInternal, None, None)
    else if 0 <? unconfirmedParticipants then mret ("", None, None)
    else
      let q := fmap (M := gmap Z) (dp_set_status MasterKeyConfirmed) <$> dc_Quorum c in
      _ ← set_payload (pay_set_dkg (dc_set_quorum q c) p);
      mret (eventDKGMasterKeyConfirmedInternal, None, None)).

(** The inner [switch]es of [actionConfirmationError]: a waiting participant
    gets the phase's error status, any other status is an error. *)
Definition error_status (await confirmed error s : DKGParticipantStatus)
  : DKGParticipantStatus + GoFsm.CbRet RespData :=
  if bool_decide (s = await) then inl error
  else inr ("", None, Some (Err
    (if bool_decide (s = confirmed) then "{Status} already confirmed"
     else if bool_decide (s = error) then "{Status} already has error"
     else "{Status} cannot be set to error"))).

(** The outer [switch]. *)
Definition confirmation_error (inEvent : Event) (s : DKGParticipantStatus)
  : DKGParticipantStatus + GoFsm.CbRet RespData :=
  if inEvent =s? EventDKGCommitConfirmationError
  then error_status CommitAwaitConfirmation CommitConfirmed CommitConfirmationError s
  else if inEvent =s? EventDKGDealConfirmationError
  then error_status DealAwaitConfirmation DealConfirmed DealConfirmationError s
  else if inEvent =s? EventDKGResponseConfirmationError
  then error_status ResponseAwaitConfirmation ResponseConfirmed ResponseConfirmationError s
  else if inEvent =s? EventDKGMasterKeyConfirmationError
  then error_status MasterKeyAwaitConfirmation MasterKeyConfirmed MasterKeyConfirmationError s
  else inr ("", None, Some (Err "event cannot be used for action {actionConfirmationError}")).

Definition actionConfirmationError : Action := fun inEvent args => run_action (
  request ← arg0 as_DkgError "{arg0} required {DKGProposalConfirmationErrorRequest}"
    "cannot cast {arg0} to type {DKGProposalConfirmationErrorRequest}" args;
  _ ← check (DKGProposalConfirmationErrorRequest_Validate request);
  p ← payload;
  exists_ ← lift (DKGQuorumExists p (er_ParticipantId request));
  _ ← require exists_ (Err "{ParticipantId} not exist in quorum");
  o ← lift (DKGQuorumGet p (er_ParticipantId request));
  dkgProposalParticipant ← lift (deref o);
  match confirmation_error inEvent (dp_Status dkgProposalParticipant) with
  | inr ret => mret ret
  | inl status =>
      let dkgProposalParticipant :=
        dp_set_updated (er_CreatedAt request)
          (dp_set_error (er_Error request) (dp_set_status status dkgProposalParticipant)) in
      c ← lift (deref (pay_DKGProposalPayload p));
      let p := pay_set_dkg (dc_set_updated (er_CreatedAt request) c) p in
      p ← lift (DKGQuorumUpdate p (er_ParticipantId request) dkgProposalParticipant);
      _ ← set_payload p;
      mret ("", None, None)
  end).

(** ** The machine *)

Definition events : list EventDesc :=
  [event_desc EventDKGInitProcess [StateDkgInitial] StateDkgCommitsAwaitConfirmations;

   event_desc EventDKGCommitConfirmationReceived [StateDkgCommitsAwaitConfirmations]
     StateDkgCommitsAwaitConfirmations;
   event_desc EventDKGCommitConfirmationError
     [StateDkgCommitsAwaitConfirmations; StateDkgCommitsAwaitCanceledByError]
     StateDkgCommitsAwaitCanceledByError;
   internal_desc eventDKGCommitsConfirmationCancelByTimeoutInternal
     [StateDkgCommitsAwaitConfirmations] StateDkgCommitsAwaitCanceledByTimeout;
   auto_desc eventAutoDKGValidateConfirmationCommitsInternal [StateDkgCommitsAwaitConfirmations]
     StateDkgCommitsAwaitConfirmations;
   internal_desc eventDKGCommitsConfirmedInternal [StateDkgCommitsAwaitConfirmations]
     StateDkgDealsAwaitConfirmations;

   event_desc EventDKGDealConfirmationReceived [StateDkgDealsAwaitConfirmations]
     StateDkgDealsAwaitConfirmations;
   event_desc EventDKGDealConfirmationError
     [StateDkgDealsAwaitConfirmations; StateDkgDealsAwaitCanceledByError]
     StateDkgDealsAwaitCanceledByError;
   internal_desc eventDKGDealsConfirmationCancelByTimeoutInternal
     [StateDkgDealsAwaitConfirmations] StateDkgDealsAwaitCanceledByTimeout;
   auto_desc eventAutoDKGValidateConfirmationDealsInternal [StateDkgDealsAwaitConfirmations]
     StateDkgDealsAwaitConfirmations;
   internal_desc eventDKGDealsConfirmedInternal [StateDkgDealsAwaitConfirmations]
     StateDkgResponsesAwaitConfirmations;

   event_desc EventDKGResponseConfirmationReceived [StateDkgResponsesAwaitConfirmations]
     StateDkgResponsesAwaitConfirmations;
   event_desc EventDKGResponseConfirmationError
     [StateDkgResponsesAwaitConfirmations; StateDkgResponsesAwaitCanceledByError]
     StateDkgResponsesAwaitCanceledByError;
   internal_desc eventDKGResponseConfirmationCancelByTimeoutInternal
     [StateDkgResponsesAwaitConfirmations] StateDkgResponsesAwaitCanceledByTimeout;
   auto_desc eventAutoDKGValidateResponsesConfirmationInternal
     [StateDkgResponsesAwaitConfirmations] StateDkgResponsesAwaitConfirmations;
   internal_desc eventDKGResponsesConfirmedInternal [StateDkgResponsesAwaitConfirmations]
     StateDkgMasterKeyAwaitConfirmations;

   event_desc EventDKGMasterKeyConfirmationReceived [StateDkgMasterKeyAwaitConfirmations]
     StateDkgMasterKeyAwaitConfirmations;
   event_desc EventDKGMasterKeyConfirmationError
     [StateDkgMasterKeyAwaitConfirmations; StateDkgMasterKeyAwaitCanceledByError]
     StateDkgMasterKeyAwaitCanceledByError;
   internal_desc eventDKGMasterKeyConfirmationCancelByErrorInternal
     [StateDkgMasterKeyAwaitConfirmations] StateDkgMasterKeyAwaitCanceledByError;
   internal_desc eventDKGMasterKeyConfirmationCancelByTimeoutInternal
     [StateDkgMasterKeyAwaitConfirmations] StateDkgMasterKeyAwaitCanceledByTimeout;
   auto_desc eventAutoDKGValidateMasterKeyConfirmationInternal
     [StateDkgMasterKeyAwaitConfirmations] StateDkgMasterKeyAwaitConfirmations;
   internal_desc eventDKGMasterKeyConfirmedInternal [StateDkgMasterKeyAwaitConfirmations]
     StateDkgMasterKeyCollected].

Definition callbacks : list (Event * Action) :=
  [(EventDKGInitProcess, actionInitDKGProposal);
   (EventDKGCommitConfirmationReceived, actionCommitConfirmationReceived);
   (EventDKGCommitConfirmationError, actionConfirmationError);
   (eventAutoDKGValidateConfirmationCommitsInternal, actionValidateDkgProposalAwaitCommits);
   (EventDKGDealConfirmationReceived, actionDealConfirmationReceived);
   (EventDKGDealConfirmationError, actionConfirmationError);
   (eventAutoDKGValidateConfirmationDealsInternal, actionValidateDkgProposalAwaitDeals);
   (EventDKGResponseConfirmationReceived, actionResponseConfirmationReceived);
   (EventDKGResponseConfirmationError, actionConfirmationError);
   (eventAutoDKGValidateResponsesConfirmationInternal, actionValidateDkgProposalAwaitResponses);
   (EventDKGMasterKeyConfirmationReceived, actionMasterKeyConfirmationReceived);
   (EventDKGMasterKeyConfirmationError, actionConfirmationError);
   (eventAutoDKGValidateMasterKeyConfirmationInternal, actionValidateDkgProposalAwaitMasterKey)].

Definition New : Go Machine := MustNewFSM FsmName StateDkgInitial events callbacks.
End actions.

(** ** Facts about quorums *)

Lemma size_same_keys {X Y} (q1 : gmap Z X) (q2 : gmap Z Y) :
  (∀ id, is_Some (q1 !! id) ↔ is_Some (q2 !! id)) → size q1 = size q2.
Proof.
  intros H. rewrite <-(size_dom (D := gset Z) q1), <-(size_dom (D := gset Z) q2). f_equal.
  apply set_eq. intros id. rewrite !elem_of_dom. apply H.
Qed.

Lemma with_ids_id (q : gmap Z DKGProposalParticipant) :
  (∀ id x, q !! id = Some x → dp_ParticipantID x = id) → with_ids dp_set_id q = q.
Proof.
  intros H. apply map_eq. intros id. rewrite lookup_with_ids. destruct (q !! id) as [x|] eqn:Hx; [|done].
  simpl. f_equal. rewrite <-(H id x Hx). by destruct x.
Qed.

(** ** The stage's invariant *)

(** The participants of the DKG are the confirmed participants of the proposal. *)
Record dkg_ok (p : DumpedMachineStatePayload) (sq : gmap Z SignatureProposalParticipant)
    (q : gmap Z DKGProposalParticipant) : Prop := {
  do_sig : sig_ok p sq;
  do_confirmed : map_Forall (fun _ x => sgp_Status x = SigConfirmationConfirmed) sq;
  do_quorum : dc_Quorum <$> pay_DKGProposalPayload p = Some (Some q);
  do_keys id : is_Some (q !! id) ↔ is_Some (sq !! id);
  do_member id y : q !! id = Some y → dp_ParticipantID y = id ∧
    ∃ x, sq !! id = Some x ∧ dp_Username y = sgp_Username x ∧ dp_DkgPubKey y = sgp_DkgPubKey x
}.

Lemma dkg_ok_size p sq q : dkg_ok p sq q → size q = size sq.
Proof. intros H. apply size_same_keys, (do_keys _ _ _ H). Qed.

(** A phase of the stage: its three statuses, what participants have delivered
    before it, and what they deliver in it. *)
Record Phase : Type := mk_Phase {
  ph_await : DKGParticipantStatus;
  ph_confirmed : DKGParticipantStatus;
  ph_error : DKGParticipantStatus;
  ph_had : DKGProposalParticipant → Prop;
  ph_has : DKGProposalParticipant → Prop
}.

Definition has_commit (x : DKGProposalParticipant) : Prop := dp_DkgCommit x ≠ "".
Definition has_deal (x : DKGProposalParticipant) : Prop := has_commit x ∧ dp_DkgDeal x ≠ "".
Definition has_response (x : DKGProposalParticipant) : Prop := has_deal x ∧ dp_DkgResponse x ≠ "".
Definition has_masterkey (x : DKGProposalParticipant) : Prop :=
  has_response x ∧ dp_DkgMasterKey x ≠ "".

Definition commits : Phase := mk_Phase CommitAwaitConfirmation CommitConfirmed
  CommitConfirmationError (fun _ => True) has_commit.
Definition deals : Phase := mk_Phase DealAwaitConfirmation DealConfirmed DealConfirmationError
  has_commit has_deal.
Definition responses : Phase := mk_Phase ResponseAwaitConfirmation ResponseConfirmed
  ResponseConfirmationError has_deal has_response.
Definition masterkeys : Phase := mk_Phase MasterKeyAwaitConfirmation MasterKeyConfirmed
  MasterKeyConfirmationError has_response has_masterkey.

(** A participant in the phase [ph]: it waits, or has delivered. *)
Definition in_phase (ph : Phase) (x : DKGProposalParticipant) : Prop :=
  (dp_Status x = ph_await ph ∧ ph_had ph x) ∨ (dp_Status x = ph_confirmed ph ∧ ph_has ph x).

(** The participants who confirmed a master key agree on it. *)
Definition keys_agree (q : gmap Z DKGProposalParticipant) : Prop :=
  ∀ i j x y, q !! i = Some x → q !! j = Some y →
    dp_Status x = MasterKeyConfirmed → dp_Status y = MasterKeyConfirmed →
    dp_DkgMasterKey x = dp_DkgMasterKey y.

Record phase_ok (ph : Phase) (p : DumpedMachineStatePayload)
    (q : gmap Z DKGProposalParticipant) : Prop := {
  pho_dkg : ∃ sq, dkg_ok p sq q;
  pho_signing : pay_SigningProposalPayload p = None;
  pho_all : map_Forall (fun _ x => in_phase ph x) q
}.

(** Not everybody has delivered. *)
Definition pending (ph : Phase) (q : gmap Z DKGProposalParticipant) : Prop :=
  qcount (has_status (ph_confirmed ph)) q < Z.of_nat (size q).

(** A round is over with an error that some participant carries. *)
Definition failed_with (err : DKGParticipantStatus) (p : DumpedMachineStatePayload) : Prop :=
  ∃ sq q, dkg_ok p sq q ∧ pay_SigningProposalPayload p = None ∧
    ∃ id x, q !! id = Some x ∧ dp_Status x = err.

Definition timed_out (p : DumpedMachineStatePayload) : Prop :=
  ∃ sq q, dkg_ok p sq q ∧ pay_SigningProposalPayload p = None.

(** The result of the stage: one master key, confirmed by all. *)
Record dkg_done (p : DumpedMachineStatePayload) (sq : gmap Z SignatureProposalParticipant)
    (q : gmap Z DKGProposalParticipant) (key : bytes) : Prop := {
  dd_dkg : dkg_ok p sq q;
  dd_key : key ≠ "";
  dd_all : map_Forall (fun _ x => dp_Status x = MasterKeyConfirmed ∧ has_masterkey x ∧
                                  dp_DkgMasterKey x = key) q
}.

Inductive dkg_inv (p : DumpedMachineStatePayload) : State → Prop :=
| dkg_inv_initial : sig_inv p StateSignatureProposalCollected → dkg_inv p StateDkgInitial
| dkg_inv_commits q : phase_ok commits p q → pending commits q →
    dkg_inv p StateDkgCommitsAwaitConfirmations
| dkg_inv_deals q : phase_ok deals p q → pending deals q →
    dkg_inv p StateDkgDealsAwaitConfirmations
| dkg_inv_responses q : phase_ok responses p q → pending responses q →
    dkg_inv p StateDkgResponsesAwaitConfirmations
| dkg_inv_masterkeys q : phase_ok masterkeys p q → pending masterkeys q → keys_agree q →
    dkg_inv p StateDkgMasterKeyAwaitConfirmations
| dkg_inv_commits_error : failed_with CommitConfirmationError p →
    dkg_inv p StateDkgCommitsAwaitCanceledByError
| dkg_inv_deals_error : failed_with DealConfirmationError p →
    dkg_inv p StateDkgDealsAwaitCanceledByError
| dkg_inv_responses_error : failed_with ResponseConfirmationError p →
    dkg_inv p StateDkgResponsesAwaitCanceledByError
| dkg_inv_masterkeys_error : failed_with MasterKeyConfirmationError p →
    dkg_inv p StateDkgMasterKeyAwaitCanceledByError
| dkg_inv_commits_timeout : timed_out p → dkg_inv p StateDkgCommitsAwaitCanceledByTimeout
| dkg_inv_deals_timeout : timed_out p → dkg_inv p StateDkgDealsAwaitCanceledByTimeout
| dkg_inv_responses_timeout : timed_out p → dkg_inv p StateDkgResponsesAwaitCanceledByTimeout
| dkg_inv_masterkeys_timeout : timed_out p → dkg_inv p StateDkgMasterKeyAwaitCanceledByTimeout
| dkg_inv_collected sq q key : dkg_done p sq q key → pay_SigningProposalPayload p = None →
    dkg_inv p StateDkgMasterKeyCollected.

(** ** Updates that keep the stage's participants *)

Lemma sig_ok_same p p' sq :
  sc_Quorum <$> pay_SignatureProposalPayload p' = sc_Quorum <$> pay_SignatureProposalPayload p →
  pay_Threshold p' = pay_Threshold p → pay_PubKeys p' = pay_PubKeys p → pay_IDs p' = pay_IDs p →
  sig_ok p sq → sig_ok p' sq.
Proof.
  intros Hs Ht Hp Hi [H1 H2 H3 H4 H5 H6]. split; rewrite ?Hs, ?Ht, ?Hp, ?Hi; try done.
  intros id x Hx. destruct (H4 id x Hx). split; congruence.
Qed.

(** Same participant, whatever it has delivered. *)
Definition same_member (x y : DKGProposalParticipant) : Prop :=
  dp_ParticipantID x = dp_ParticipantID y ∧ dp_Username x = dp_Username y ∧
  dp_DkgPubKey x = dp_DkgPubKey y.

Lemma dkg_ok_map h c p sq q :
  dkg_ok p sq q → (∀ x, same_member (h x) x) → dc_Quorum c = Some (h <$> q) →
  dkg_ok (pay_set_dkg c p) sq (h <$> q).
Proof.
  intros [Hs Hcf Hq Hk Hm] Hh Hc. split; try done.
  - by apply (sig_ok_same p).
  - simpl. by rewrite Hc.
  - intros id. by rewrite lookup_fmap, fmap_is_Some.
  - intros id y (y0 & <- & Hy)%lookup_fmap_Some. destruct (Hh y0) as (-> & -> & ->). by apply Hm.
Qed.

Lemma dkg_ok_insert id x y c p sq q :
  dkg_ok p sq q → q !! id = Some x → same_member y x → dc_Quorum c = Some (<[id := y]> q) →
  dkg_ok (pay_set_dkg c p) sq (<[id := y]> q).
Proof.
  intros [Hs Hcf Hq Hk Hm] Hx (H1 & H2 & H3) Hc. split; try done.
  - by apply (sig_ok_same p).
  - simpl. by rewrite Hc.
  - intros id'. rewrite <-Hk, lookup_insert_is_Some.
    destruct (decide (id = id')) as [<-|]; [rewrite Hx|]; naive_solver.
  - intros id' y'. rewrite lookup_insert_Some. intros [[<- <-]|[_ Hy]]; [|by apply Hm].
    rewrite H1, H2, H3. by apply Hm.
Qed.

Section facts.
Context {ord : MapOrder}.

(** ** What the callbacks do *)

Definition received_participant {R} (get_time : R → Time) confirmed
    (store : R → DKGProposalParticipant → DKGProposalParticipant) (r : R) x :=
  dp_set_updated (get_time r) (dp_set_status confirmed (store r x)).

Lemma confirmationReceived_inv {R} cast (validate : R → option error) get_id get_time await confirmed
    store touch m1 m2 m3 e args p p' out d :
  confirmationReceived cast validate get_id get_time await confirmed store touch m1 m2 m3 e args
    (Some p) = Ret (p', (out, d, None)) →
  ∃ a r c q x, args = [a] ∧ cast a = Some r ∧ validate r = None ∧
    pay_DKGProposalPayload p = Some c ∧ q !! get_id r = Some x ∧ dc_Quorum c = Some q ∧
    dp_Status x = await ∧ out = "" ∧ d = None ∧
    p' = Some (pay_set_dkg (dc_set_quorum (quorum_update (dc_Quorum (touch r c)) (get_id r)
           (received_participant get_time confirmed store r x)) (touch r c)) p).
Proof.
  unfold confirmationReceived, payload, set_payload, DKGQuorumExists, DKGQuorumGet, DKGQuorumUpdate,
    received_participant. intros H. act_inv H.
  match goal with H : gomap_lookup (dc_Quorum ?c) _ = Some _ |- _ =>
    destruct (dc_Quorum c) as [q|] eqn:Hq; simpl in H; [|done] end.
  by do 5 eexists; split_and!.
Qed.

Lemma confirmationError_inv e args p p' out d :
  actionConfirmationError e args (Some p) = Ret (p', (out, d, None)) →
  ∃ r c q x st, args = [RqDkgError r] ∧
    pay_DKGProposalPayload p = Some c ∧ dc_Quorum c = Some q ∧ q !! er_ParticipantId r = Some x ∧
    confirmation_error e (dp_Status x) = inl st ∧ out = "" ∧ d = None ∧
    p' = Some (pay_set_dkg (dc_set_quorum (Some (<[er_ParticipantId r :=
           dp_set_updated (er_CreatedAt r) (dp_set_error (er_Error r) (dp_set_status st x))]> q))
             (dc_set_updated (er_CreatedAt r) c)) p).
Proof.
  unfold actionConfirmationError, payload, set_payload, DKGQuorumExists, DKGQuorumGet, DKGQuorumUpdate.
  intros H. act_unfold H. destruct args as [|a [|]]; try done.
  destruct (as_DkgError a) as [r|] eqn:Ha; [|done]. destruct a; simplify_eq/=.
  destruct (DKGProposalConfirmationErrorRequest_Validate r); [done|]. simpl in H.
  destruct (pay_DKGProposalPayload p) as [c|] eqn:Hc; simpl in H; [|done].
  destruct (dc_Quorum c) as [q|] eqn:Hq; simpl in H; [|done].
  destruct (q !! er_ParticipantId r) as [x|] eqn:Hx; simpl in H; [|done].
  destruct (confirmation_error e (dp_Status x)) as [st|ret] eqn:Hst; simpl in H.
  - simplify_eq/=. by do 5 eexists; split_and!.
  - exfalso. simplify_eq/=. unfold confirmation_error, error_status in Hst.
    repeat case_match; simplify_eq.
Qed.

Lemma count_statuses_tally error confirmed (q : gmap Z DKGProposalParticipant) n :
  error ≠ confirmed →
  foldl (count_statuses error confirmed) (n, false) (range q) =
    (n - qcount (has_status confirmed) q, qexists (has_status error) q).
Proof.
  intros Hne. rewrite (tally_spec _ (has_status confirmed) (has_status error)); [done|].
  intros m b k x. unfold count_statuses, has_status. simpl.
  destruct (bool_decide_reflect (dp_Status x = error)), (bool_decide_reflect (dp_Status x = confirmed));
    simpl; rewrite ?orb_false_r, ?orb_true_r, ?Z.sub_0_r; congruence.
Qed.

(** The outcome of a validation, as a function of the counts. *)
Lemma validateAwait_eq error confirmed next by_timeout by_error done respond e args p c q :
  error ≠ confirmed → pay_DKGProposalPayload p = Some c → dc_Quorum c = Some q →
  validateAwait error confirmed next by_timeout by_error done respond e args (Some p) = Ret (
    if DKGConfirmation_IsExpired c then (Some p, (by_timeout, None, None))
    else if qexists (has_status error) q then (Some p, (by_error, None, None))
    else if qcount (has_status confirmed) q <? Z.of_nat (size q) then (Some p, ("", None, None))
    else (Some (pay_set_dkg (dc_set_quorum (Some (with_ids dp_set_id (dp_set_status next <$> q))) c) p),
          (done, Some (respond (in_id_order dp_set_id (dp_set_status next <$> q))), None))).
Proof.
  intros Hne Hc Hq. unfold validateAwait, payload, set_payload, DKGQuorumCount. act_run.
  rewrite Hc. simpl. destruct (DKGConfirmation_IsExpired c); [reflexivity|]. simpl. rewrite Hq. simpl.
  rewrite count_statuses_tally by assumption.
  destruct (qexists (has_status error) q); [reflexivity|].
  destruct (Z.ltb_spec (qcount (has_status confirmed) q) (Z.of_nat (size q))), (Z.ltb_spec 0
    (Z.of_nat (size q) - qcount (has_status confirmed) q)); try lia; [reflexivity|].
  rewrite GetOrdered_spec. reflexivity.
Qed.

(** Whether the confirmed master keys differ does not depend on the iteration
    order. *)
Definition keys_differ (q : gmap Z DKGProposalParticipant) : bool :=
  bool_decide (¬ map_Forall (fun _ x => map_Forall (fun _ y =>
    dp_Status x = MasterKeyConfirmed → dp_Status y = MasterKeyConfirmed →
    dp_DkgMasterKey x = dp_DkgMasterKey y) q) q).

Lemma keys_differ_false q : keys_differ q = false ↔ keys_agree q.
Proof.
  unfold keys_differ, keys_agree. rewrite bool_decide_eq_false. split.
  - intros H%dec_stable i j x y Hx Hy. exact (H i x Hx j y Hy).
  - intros H Hn. apply Hn. intros i x Hx j y Hy. by eapply H.
Qed.

Lemma mismatched_false l : mismatched l = false ↔ ∀ a b, a ∈ l → b ∈ l → a = b.
Proof.
  destruct l as [|a [|b l]]; unfold mismatched.
  - split; [set_solver|done].
  - split; [|done]. intros _ x y ->%list_elem_of_singleton ->%list_elem_of_singleton. done.
  - rewrite <-not_true_iff_false, existsb_exists. split.
    + intros H. assert (∀ x, x ∈ a :: b :: l → x = a) as Hall.
      { intros x Hx%list_elem_of_In. destruct (x =s? a) eqn:Hxa; [by boolify|].
        exfalso. apply H. exists x. by rewrite Hxa. }
      intros x y Hx%Hall Hy%Hall. congruence.
    + intros H (x & Hx%list_elem_of_In & Hn). boolify. apply Hn. apply H; set_solver.
Qed.

Lemma collect_masterkeys_spec q k :
  k ∈ collect_masterkeys (range q) ↔
    ∃ id x, q !! id = Some x ∧ dp_Status x = MasterKeyConfirmed ∧ dp_DkgMasterKey x = k.
Proof.
  unfold collect_masterkeys. rewrite list_elem_of_omap. unfold has_status. split.
  - intros ([id x] & Hx%elem_of_range & Hk). simpl in Hk. repeat case_bool_decide; simplify_eq. eauto.
  - intros (id & x & Hx & Hs & <-). exists (id, x). rewrite elem_of_range. simpl.
    rewrite Hs. done.
Qed.

Lemma mismatched_range q : mismatched (collect_masterkeys (range q)) = keys_differ q.
Proof.
  destruct (keys_differ q) eqn:Hk.
  - apply not_false_iff_true. rewrite mismatched_false. intros H.
    apply not_false_iff_true in Hk. apply Hk, keys_differ_false. intros i j x y Hx Hy Hcx Hcy.
    apply H; apply collect_masterkeys_spec; eauto.
  - apply mismatched_false. intros a b (i & x & Hx & Hcx & <-)%collect_masterkeys_spec
      (j & y & Hy & Hcy & <-)%collect_masterkeys_spec. apply keys_differ_false in Hk. by eapply Hk.
Qed.

Lemma validateMasterKey_eq e args p c q :
  pay_DKGProposalPayload p = Some c → dc_Quorum c = Some q →
  actionValidateDkgProposalAwaitMasterKey e args (Some p) = Ret (
    if DKGConfirmation_IsExpired c
    then (Some p, (eventDKGMasterKeyConfirmationCancelByTimeoutInternal, None, None))
    else if qexists (has_status MasterKeyConfirmationError) q
    then (Some p, (eventDKGMasterKeyConfirmationCancelByErrorInternal, None, None))
    else if keys_differ q
    then (Some (pay_set_dkg (dc_set_quorum (Some (mark_mismatch <$> q)) c) p),
          (eventDKGMasterKeyConfirmationCancelByErrorInternal, None, None))
    else if qcount (has_status MasterKeyConfirmed) q <? Z.of_nat (size q)
    then (Some p, ("", None, None))
    else (Some (pay_set_dkg (dc_set_quorum (Some (dp_set_status MasterKeyConfirmed <$> q)) c) p),
          (eventDKGMasterKeyConfirmedInternal, None, None))).
Proof.
  intros Hc Hq. unfold actionValidateDkgProposalAwaitMasterKey, payload, set_payload, DKGQuorumCount.
  act_run. rewrite Hc. simpl. destruct (DKGConfirmation_IsExpired c); [done|]. simpl. rewrite Hq. simpl.
  rewrite count_statuses_tally by done. rewrite mismatched_range.
  destruct (qexists _ q); [done|]. destruct (keys_differ q); [done|].
  destruct (Z.ltb_spec (qcount (has_status MasterKeyConfirmed) q) (Z.of_nat (size q))), (Z.ltb_spec 0
    (Z.of_nat (size q) - qcount (has_status MasterKeyConfirmed) q)); try lia; done.
Qed.

(** ** Phases *)

Lemma phase_ok_nonempty ph p q : phase_ok ph p q → 0 < Z.of_nat (size q).
Proof.
  intros [[sq Hd] _ _]. rewrite (dkg_ok_size _ _ _ Hd).
  pose proof (so_threshold _ _ (do_sig _ _ _ Hd)). lia.
Qed.

Lemma phase_ok_quorum ph p q :
  phase_ok ph p q → ∃ c, pay_DKGProposalPayload p = Some c ∧ dc_Quorum c = Some q.
Proof.
  intros [[sq [_ _ Hq _ _]] _ _]. destruct (pay_DKGProposalPayload p) as [c|]; simplify_eq/=. eauto.
Qed.

Lemma received_phase_ok ph p q id x y c :
  phase_ok ph p q → q !! id = Some x → dp_Status y = ph_confirmed ph → ph_has ph y →
  same_member y x → dc_Quorum c = Some (<[id := y]> q) →
  phase_ok ph (pay_set_dkg c p) (<[id := y]> q).
Proof.
  intros [[sq Hd] Hn Hall] Hx Hs Hh Hm Hc. split; [|done|].
  - exists sq. by eapply dkg_ok_insert.
  - apply map_Forall_insert_2; [|done]. right. done.
Qed.

(** No participant of a running phase carries the phase's error. *)
Lemma phase_ok_no_error ph p q :
  ph_error ph ≠ ph_await ph → ph_error ph ≠ ph_confirmed ph → phase_ok ph p q →
  qexists (has_status (ph_error ph)) q = false.
Proof.
  intros H1 H2 [_ _ Hall]. apply qexists_false. intros k x Hx. apply bool_decide_eq_false.
  destruct (Hall k x Hx) as [[-> _]|[-> _]]; congruence.
Qed.

Lemma phase_done ph p q :
  phase_ok ph p q → ph_await ph ≠ ph_confirmed ph → ¬ pending ph q →
  map_Forall (fun _ x => dp_Status x = ph_confirmed ph ∧ ph_has ph x) q.
Proof.
  intros [_ _ Hall] Hne Hp. unfold pending in Hp.
  pose proof (qcount_bounds (has_status (ph_confirmed ph)) q).
  assert (qcount (has_status (ph_confirmed ph)) q = Z.of_nat (size q)) as Hc by lia.
  apply qcount_all in Hc. intros k x Hx. specialize (Hc k x Hx). simpl in Hc.
  unfold has_status in Hc. boolify. destruct (Hall k x Hx) as [[Ha _]|?]; [congruence|done].
Qed.

(** Everybody has delivered: the next phase starts with everybody waiting. *)
Lemma next_phase_ok ph ph' p q c :
  phase_ok ph p q → map_Forall (fun _ x => dp_Status x = ph_confirmed ph ∧ ph_has ph x) q →
  (∀ x, ph_has ph x → ph_had ph' (dp_set_status (ph_await ph') x)) →
  ph_await ph' ≠ ph_confirmed ph' →
  dc_Quorum c = Some (dp_set_status (ph_await ph') <$> q) →
  phase_ok ph' (pay_set_dkg c p) (dp_set_status (ph_await ph') <$> q) ∧
  pending ph' (dp_set_status (ph_await ph') <$> q) ∧
  map_Forall (fun _ x => dp_Status x = ph_await ph') (dp_set_status (ph_await ph') <$> q).
Proof.
  intros Hph Hall Hhas Hne Hc. split_and!.
  - destruct Hph as [[sq Hd] Hn _]. split; [|done|].
    + exists sq. by apply dkg_ok_map.
    + apply map_Forall_fmap. intros k x Hx. left. split; [done|]. apply Hhas. by apply (Hall k x Hx).
  - unfold pending. rewrite (proj2 (qcount_zero _ _)).
    + rewrite map_size_fmap. by eapply phase_ok_nonempty.
    + apply map_Forall_fmap. intros k x Hx. apply bool_decide_eq_false. done.
  - apply map_Forall_fmap. intros k x Hx. done.
Qed.

(** The automatic validation of one of the first three phases. *)
Lemma spec_auto_phase S ST SN na by_timeout by_error done respond ph ph' p c q args data :
  find_auto events S = Some (auto_desc na [S] S) →
  call callbacks na args (Some p) = validateAwait (ph_error ph) (ph_confirmed ph) (ph_await ph')
    by_timeout by_error done respond na args (Some p) →
  DstState <$> find_desc events S (move_event na by_timeout) = Some ST →
  DstState <$> find_desc events S (move_event na "") = Some S →
  DstState <$> find_desc events S (move_event na done) = Some SN →
  (∀ x, ph_has ph x → ph_had ph' (dp_set_status (ph_await ph') x)) →
  NoDup [ph_error ph; ph_await ph; ph_confirmed ph] → ph_await ph' ≠ ph_confirmed ph' →
  phase_ok ph p q → pay_DKGProposalPayload p = Some c → dc_Quorum c = Some q →
  ∃ s' p' r, spec_auto events callbacks S args (Some p) data = Ret (s', Some p', (r, None)) ∧
    rs_State r = s' ∧
    ((s' = ST ∧ p' = p ∧ DKGConfirmation_IsExpired c = true) ∨
     (s' = S ∧ p' = p ∧ pending ph q ∧ DKGConfirmation_IsExpired c = false) ∨
     (s' = SN ∧ ¬ pending ph q ∧ ∃ q', phase_ok ph' p' q' ∧ pending ph' q' ∧
        map_Forall (fun _ x => dp_Status x = ph_await ph') q')).
Proof.
  intros Hauto Hcall Ht Ha Hn Hhas Hnd Hne' Hph Hc Hq. unfold spec_auto. rewrite Hauto.
  rewrite !NoDup_cons, elem_of_cons in Hnd. cbn [Name auto_desc]. rewrite Hcall.
  assert (ph_error ph ≠ ph_confirmed ph) by set_solver.
  assert (ph_await ph ≠ ph_confirmed ph) by set_solver.
  rewrite (validateAwait_eq _ _ _ _ _ _ _ _ _ p c q) by assumption. simpl.
  destruct (DKGConfirmation_IsExpired c).
  { apply fmap_Some in Ht as (d & -> & ->). eauto 10. }
  rewrite (phase_ok_no_error ph p q) by set_solver.
  destruct (Z.ltb_spec (qcount (has_status (ph_confirmed ph)) q) (Z.of_nat (size q))) as [Hp|Hp].
  { apply fmap_Some in Ha as (d & -> & Hd). simpl. rewrite <-Hd. do 3 eexists.
    split; [reflexivity|]. split; [reflexivity|]. right. left. auto. }
  assert (¬ pending ph q) as Hnp by (unfold pending; lia).
  apply fmap_Some in Hn as (d & -> & ->). do 3 eexists. split; [reflexivity|].
  split; [reflexivity|]. right. right. split; [reflexivity|]. split; [assumption|].
  eexists. eapply next_phase_ok; eauto using phase_done.
  simpl. f_equal. apply with_ids_id. intros id x (y & <- & Hy)%lookup_fmap_Some. simpl.
  destruct Hph as [[sq Hd] _ _]. by apply (do_member _ _ _ Hd id y Hy).
Qed.

Lemma keys_agree_key p q :
  phase_ok masterkeys p q → keys_agree q →
  map_Forall (fun _ x => dp_Status x = MasterKeyConfirmed ∧ has_masterkey x) q →
  ∃ key, key ≠ "" ∧ map_Forall (fun _ x => dp_DkgMasterKey x = key) q.
Proof.
  intros Hph Hk Hall. pose proof (phase_ok_nonempty _ _ _ Hph) as Hsz.
  destruct (map_choose q) as (id & x & Hx).
  { intros ->. rewrite map_size_empty in Hsz. lia. }
  destruct (Hall id x Hx) as [Hs [_ Hne]]. exists (dp_DkgMasterKey x). split; [done|].
  intros j y Hy. destruct (Hall j y Hy) as [Hsy _]. by eapply Hk.
Qed.

(** The automatic validation of the last phase. *)
Lemma spec_auto_masterkeys p c q args data :
  phase_ok masterkeys p q → pay_DKGProposalPayload p = Some c → dc_Quorum c = Some q →
  ∃ s' p' r, spec_auto events callbacks StateDkgMasterKeyAwaitConfirmations args (Some p) data =
      Ret (s', Some p', (r, None)) ∧ rs_State r = s' ∧
    ((s' = StateDkgMasterKeyAwaitCanceledByTimeout ∧ p' = p ∧ DKGConfirmation_IsExpired c = true) ∨
     (s' = StateDkgMasterKeyAwaitCanceledByError ∧ ¬ keys_agree q ∧
        failed_with MasterKeyConfirmationError p') ∨
     (s' = StateDkgMasterKeyAwaitConfirmations ∧ p' = p ∧ pending masterkeys q ∧ keys_agree q) ∨
     (s' = StateDkgMasterKeyCollected ∧ ¬ pending masterkeys q ∧
        pay_SigningProposalPayload p' = None ∧ ∃ sq q' key, dkg_done p' sq q' key)).
Proof.
  intros Hph Hc Hq. unfold spec_auto. table_goal.
  change (call callbacks _) with
    (actionValidateDkgProposalAwaitMasterKey eventAutoDKGValidateMasterKeyConfirmationInternal).
  rewrite (validateMasterKey_eq _ _ p c q) by assumption. simpl.
  destruct (DKGConfirmation_IsExpired c); [table_goal; by do 3 eexists; split_and!; [..|left]|].
  assert (qexists (has_status MasterKeyConfirmationError) q = false) as ->
    by by apply (phase_ok_no_error masterkeys p).
  destruct (keys_differ q) eqn:Hk.
  { table_goal. do 3 eexists. split; [done|]. split; [done|]. right. left. split; [done|].
    split; [by rewrite <-keys_differ_false, Hk|]. destruct Hph as [[sq Hd] Hn Hall].
    exists sq, (mark_mismatch <$> q). split; [by apply dkg_ok_map|]. split; [done|].
    destruct (map_choose q) as (id & x & Hx).
    { intros ->. by rewrite (proj2 (keys_differ_false ∅)) in Hk. }
    exists id. rewrite lookup_fmap, Hx. by eexists. }
  apply keys_differ_false in Hk.
  destruct (Z.ltb_spec (qcount (has_status MasterKeyConfirmed) q) (Z.of_nat (size q))) as [Hp|Hp].
  { table_goal. do 3 eexists. split; [done|]. split; [done|]. right. right. left. done. }
  assert (¬ pending masterkeys q) as Hnp by (unfold pending; simpl; lia).
  assert (map_Forall (fun _ x => dp_Status x = MasterKeyConfirmed ∧ has_masterkey x) q) as Hall
    by by apply (phase_done masterkeys p).
  destruct (keys_agree_key p q Hph Hk Hall) as (key & Hne & Hkey).
  table_goal. do 3 eexists. split; [done|]. split; [done|]. right. right. right.
  destruct Hph as [[sq Hd] Hn _]. split_and!; [done..|].
  exists sq, (dp_set_status MasterKeyConfirmed <$> q), key.
  split; [by apply dkg_ok_map|done|]. apply map_Forall_fmap. intros id x Hx.
  destruct (Hall id x Hx). split_and!; [done..|]. by apply (Hkey id x).
Qed.

(** ** Initialisation *)

Lemma fold_enroll l acc k y :
  NoDup l.*1 →
  foldl enroll acc l !! k = Some y ↔
    (∃ x, (k, x) ∈ l ∧ y = enrolled x) ∨ (k ∉ l.*1 ∧ acc !! k = Some y).
Proof.
  induction l as [|[k' x'] l IH] in acc |- *; intros Hnd; simpl; [set_solver|].
  apply NoDup_cons in Hnd as [Hk' Hnd]. rewrite IH by done. clear IH. unfold enroll at 1. simpl.
  setoid_rewrite elem_of_cons. destruct (decide (k = k')) as [-> |Hne].
  - rewrite lookup_insert_eq. split.
    + intros [(x & Hx & ->)|[_ [= <-]]]; [|eauto]. exfalso. apply Hk'.
      apply list_elem_of_fmap. by exists (k', x).
    + intros [(x & [[= <-]|Hx] & ->)|[Hn _]]; [by right|by left; eauto|].
      exfalso. apply Hn. by left.
  - rewrite lookup_insert_ne by done. split.
    + intros [(x & Hx & ->)|[Hn Hy]]; [by eauto|]. right. split; [|done]. intros [?|?]; done.
    + intros [(x & [[= ? ?]|Hx] & ->)|[Hn Hy]]; [done|by eauto|]. right. split; [|done].
      intros ?. apply Hn. by right.
Qed.

Lemma foldl_enroll_range sq : foldl enroll ∅ (range sq) = enrolled <$> sq.
Proof.
  apply map_eq. intros k. apply option_eq. intros y.
  rewrite fold_enroll by apply NoDup_range_keys. rewrite lookup_empty, lookup_fmap, fmap_Some.
  setoid_rewrite elem_of_range. naive_solver.
Qed.

Lemma pubkeys_entries_eq sq x0 l :
  sq !! 0 = Some x0 → pubkeys_entries (Some sq) l = Ret (pubkeys_entry (sgp_Threshold x0) <$> l).
Proof.
  intros Hx. unfold pubkeys_entries. simpl. rewrite Hx. simpl.
  assert (∀ acc, foldM (fun acc x => Ret (acc ++ [pubkeys_entry (sgp_Threshold x0) x])) acc l =
    Ret (acc ++ (pubkeys_entry (sgp_Threshold x0) <$> l))) as H; [|apply H].
  induction l as [|x l IH]; intros acc; simpl; [by rewrite app_nil_r|].
  by rewrite IH, <-app_assoc.
Qed.

Definition enrolled_quorum (sq : gmap Z SignatureProposalParticipant) :=
  with_ids dp_set_id (enrolled <$> sq).

Definition enrolled_payload (r : DefaultRequest) (sq : gmap Z SignatureProposalParticipant) p :=
  pay_set_dkg (mk_DKGConfirmation (Some (enrolled_quorum sq)) (dr_CreatedAt r) 0
    (Add (dr_CreatedAt r) DkgConfirmationDeadline) "") p.

Lemma actionInitDKG_eq e r p sq :
  sig_ok p sq → pay_DKGProposalPayload p = None →
  ∃ d, actionInitDKGProposal e [RqDefault r] (Some p) =
    Ret (Some (enrolled_payload r sq p), (e, Some (RdPubKeys d), None)).
Proof.
  intros Hok Hd. pose proof (so_quorum _ _ Hok) as Hq.
  destruct (pay_SignatureProposalPayload p) as [c|] eqn:Hc; simpl in Hq; [|done]. simplify_eq.
  destruct (dense_zero sq (so_dense _ _ Hok)) as [x0 Hx0]; [pose proof (so_threshold _ _ Hok); lia|].
  unfold actionInitDKGProposal, payload, set_payload. act_run. rewrite Hd. simpl. rewrite Hc. simpl.
  rewrite Hq. simpl. rewrite foldl_enroll_range, GetOrdered_spec. simpl.
  rewrite (pubkeys_entries_eq _ _ _ Hx0). simpl. by eexists.
Qed.

Lemma actionInitDKG_args e args p p' out d :
  pay_DKGProposalPayload p = None →
  actionInitDKGProposal e args (Some p) = Ret (p', (out, d, None)) → ∃ r, args = [RqDefault r].
Proof.
  intros Hd H. unfold actionInitDKGProposal, payload, set_payload in H. act_unfold H.
  rewrite Hd in H. simpl in H. destruct args as [|a [|]]; try done. destruct a; try done. eauto.
Qed.

Lemma enrolled_phase_ok r sq p :
  sig_ok p sq → map_Forall (fun _ x => sgp_Status x = SigConfirmationConfirmed) sq →
  pay_SigningProposalPayload p = None →
  phase_ok commits (enrolled_payload r sq p) (enrolled_quorum sq).
Proof.
  intros Hok Hall Hn. unfold enrolled_quorum. split; [|done|].
  - exists sq. split; try done.
    + by apply (sig_ok_same p).
    + intros id. by rewrite lookup_with_ids, lookup_fmap, !fmap_is_Some.
    + intros id y. rewrite lookup_with_ids, lookup_fmap.
      destruct (sq !! id) as [x|] eqn:Hx; simpl; [|done]. intros [= <-]. split; [done|]. eauto.
  - intros id y. rewrite lookup_with_ids, lookup_fmap.
    destruct (sq !! id) as [x|] eqn:Hx; simpl; [|done]. intros [= <-]. by left.
Qed.

(** ** Steps of the stage *)

Lemma failed_signing err p : failed_with err p → pay_SigningProposalPayload p = None.
Proof. by intros (? & ? & ? & ? & _). Qed.

Lemma phase_ok_timed_out ph p q : phase_ok ph p q → timed_out p.
Proof. intros [[sq Hd] Hn _]. by exists sq, q. Qed.

(** The validation of a phase leads to a state whose invariant holds. *)
Lemma auto_commits p c q args data :
  phase_ok commits p q → pay_DKGProposalPayload p = Some c → dc_Quorum c = Some q →
  ∃ s' p' r, spec_auto events callbacks StateDkgCommitsAwaitConfirmations args (Some p) data =
    Ret (s', Some p', (r, None)) ∧ dkg_inv p' s'.
Proof.
  intros Hph Hc Hq.
  destruct (spec_auto_phase StateDkgCommitsAwaitConfirmations StateDkgCommitsAwaitCanceledByTimeout
    StateDkgDealsAwaitConfirmations eventAutoDKGValidateConfirmationCommitsInternal _ _ _ _
    commits deals p c q args data eq_refl eq_refl eq_refl eq_refl eq_refl)
    as (s' & p' & r & Hs & _ & Hcase); try done; [by apply (bool_decide_eq_true_1 (NoDup _))|].
  do 3 eexists. split; [done|].
  destruct Hcase as [(-> & -> & _)|[(-> & -> & Hp & _)|(-> & _ & q' & ? & ? & _)]].
  - by eapply dkg_inv_commits_timeout, phase_ok_timed_out.
  - by eapply dkg_inv_commits.
  - by eapply dkg_inv_deals.
Qed.

Lemma auto_deals p c q args data :
  phase_ok deals p q → pay_DKGProposalPayload p = Some c → dc_Quorum c = Some q →
  ∃ s' p' r, spec_auto events callbacks StateDkgDealsAwaitConfirmations args (Some p) data =
    Ret (s', Some p', (r, None)) ∧ dkg_inv p' s'.
Proof.
  intros Hph Hc Hq.
  destruct (spec_auto_phase StateDkgDealsAwaitConfirmations StateDkgDealsAwaitCanceledByTimeout
    StateDkgResponsesAwaitConfirmations eventAutoDKGValidateConfirmationDealsInternal _ _ _ _
    deals responses p c q args data eq_refl eq_refl eq_refl eq_refl eq_refl)
    as (s' & p' & r & Hs & _ & Hcase); try done; [by apply (bool_decide_eq_true_1 (NoDup _))|].
  do 3 eexists. split; [done|].
  destruct Hcase as [(-> & -> & _)|[(-> & -> & Hp & _)|(-> & _ & q' & ? & ? & _)]].
  - by eapply dkg_inv_deals_timeout, phase_ok_timed_out.
  - by eapply dkg_inv_deals.
  - by eapply dkg_inv_responses.
Qed.

Lemma auto_responses p c q args data :
  phase_ok responses p q → pay_DKGProposalPayload p = Some c → dc_Quorum c = Some q →
  ∃ s' p' r, spec_auto events callbacks StateDkgResponsesAwaitConfirmations args (Some p) data =
    Ret (s', Some p', (r, None)) ∧ dkg_inv p' s'.
Proof.
  intros Hph Hc Hq.
  destruct (spec_auto_phase StateDkgResponsesAwaitConfirmations
    StateDkgResponsesAwaitCanceledByTimeout
    StateDkgMasterKeyAwaitConfirmations eventAutoDKGValidateResponsesConfirmationInternal _ _ _ _
    responses masterkeys p c q args data eq_refl eq_refl eq_refl eq_refl eq_refl)
    as (s' & p' & r & Hs & _ & Hcase); try done; [by apply (bool_decide_eq_true_1 (NoDup _))|].
  do 3 eexists. split; [done|].
  destruct Hcase as [(-> & -> & _)|[(-> & -> & Hp & _)|(-> & _ & q' & ? & ? & Haw)]].
  - by eapply dkg_inv_responses_timeout, phase_ok_timed_out.
  - by eapply dkg_inv_responses.
  - eapply dkg_inv_masterkeys; [done..|]. intros i j x y Hx _ Hcx _.
    pose proof (Haw i x Hx) as Hs'. simpl in Hs'. congruence.
Qed.

Lemma auto_masterkeys p c q args data :
  phase_ok masterkeys p q → pay_DKGProposalPayload p = Some c → dc_Quorum c = Some q →
  ∃ s' p' r, spec_auto events callbacks StateDkgMasterKeyAwaitConfirmations args (Some p) data =
    Ret (s', Some p', (r, None)) ∧ dkg_inv p' s'.
Proof.
  intros Hph Hc Hq. destruct (spec_auto_masterkeys p c q args data Hph Hc Hq)
    as (s' & p' & r & Hs & _ & Hcase). do 3 eexists. split; [done|].
  destruct Hcase as [(-> & -> & _)|[(-> & _ & ?)|[(-> & -> & ? & ?)|(-> & _ & ? & ? & ? & ? & ?)]]].
  - by eapply dkg_inv_masterkeys_timeout, phase_ok_timed_out.
  - by eapply dkg_inv_masterkeys_error.
  - by eapply dkg_inv_masterkeys.
  - by eapply dkg_inv_collected.
Qed.

(** A reported error. *)
Lemma error_failed_with e args p sq q o out d err :
  dkg_ok p sq q → pay_SigningProposalPayload p = None →
  (∀ s st, confirmation_error e s = inl st → st = err) →
  actionConfirmationError e args (Some p) = Ret (o, (out, d, None)) →
  out = "" ∧ d = None ∧ ∃ p1, o = Some p1 ∧ failed_with err p1.
Proof.
  intros Hd Hn Herr (r & c & q' & x & st & -> & Hc & Hq & Hx & Hst & -> & -> & ->)%confirmationError_inv.
  pose proof (do_quorum _ _ _ Hd) as Hq'. rewrite Hc in Hq'. simplify_eq/=.
  split_and!; [done..|]. eexists. split; [done|].
  exists sq. eexists. split.
  { eapply dkg_ok_insert; [done|exact Hx| |reflexivity]. by split_and!. }
  split; [done|].
  exists (er_ParticipantId r). eexists. split; [by rewrite lookup_insert_eq|]. by eapply Herr.
Qed.

(** A contribution received in the phase [ph]. *)
Lemma received_in_phase {R} ph cast (validate : R → option error) get_id get_time store touch m1 m2 m3
    e args p q o out d :
  (∀ r x, validate r = None → ph_had ph x →
     ph_has ph (received_participant get_time (ph_confirmed ph) store r x)) →
  (∀ r x, same_member (store r x) x) → (∀ r c, dc_Quorum (touch r c) = dc_Quorum c) →
  ph_await ph ≠ ph_confirmed ph → phase_ok ph p q →
  confirmationReceived cast validate get_id get_time (ph_await ph) (ph_confirmed ph) store touch
    m1 m2 m3 e args (Some p) = Ret (o, (out, d, None)) →
  out = "" ∧ d = None ∧ ∃ p1 c q1, o = Some p1 ∧ phase_ok ph p1 q1 ∧
    pay_DKGProposalPayload p1 = Some c ∧ dc_Quorum c = Some q1.
Proof.
  intros Hhas Hsame Htouch Hne Hph
    (a & r & c & q' & x & -> & Hcast & Hv & Hc & Hx & Hq & Hst & -> & -> & ->)%confirmationReceived_inv.
  destruct (phase_ok_quorum _ _ _ Hph) as (c' & Hc' & Hq'). simplify_eq.
  split_and!; [done..|]. rewrite Htouch, Hq. simpl. do 3 eexists. split; [done|].
  split; [|done]. eapply received_phase_ok; [done|exact Hx|done| | |done].
  - apply Hhas; [done|]. destruct (pho_all _ _ _ Hph _ _ Hx) as [[_ ?]|[? _]]; [done|congruence].
  - apply Hsame.
Qed.

(** A contribution of the phase [ph] in its state [S]. *)
Lemma received_finish {R} S ph cast (validate : R → option error) get_id get_time store touch m1 m2 m3
    e args p q o out d :
  (∀ p c q args data, phase_ok ph p q → pay_DKGProposalPayload p = Some c → dc_Quorum c = Some q →
     ∃ s' p' r, spec_auto events callbacks S args (Some p) data =
       Ret (s', Some p', (r, None)) ∧ dkg_inv p' s') →
  DstState <$> find_desc events S (move_event e "") = Some S →
  (∀ r x, validate r = None → ph_had ph x →
     ph_has ph (received_participant get_time (ph_confirmed ph) store r x)) →
  (∀ r x, same_member (store r x) x) → (∀ r c, dc_Quorum (touch r c) = dc_Quorum c) →
  ph_await ph ≠ ph_confirmed ph → phase_ok ph p q →
  confirmationReceived cast validate get_id get_time (ph_await ph) (ph_confirmed ph) store touch
    m1 m2 m3 e args (Some p) = Ret (o, (out, d, None)) →
  ∃ s' p1 r, finish events callbacks S e args o out d = Ret (s', Some p1, (Some r, None)) ∧
    dkg_inv p1 s'.
Proof.
  intros Hauto Hdesc H1 H2 H3 H4 Hph Ha.
  destruct (received_in_phase ph cast validate get_id get_time store touch m1 m2 m3 e args p q o out d)
    as (-> & -> & p1 & c & q1 & -> & Hph1 & Hc & Hq); [done..|].
  unfold finish. apply fmap_Some in Hdesc as (d' & Hd' & ->). rewrite Hd'.
  destruct (Hauto p1 c q1 args None Hph1 Hc Hq) as (s2 & p2 & r & Hs & Hi). rewrite Hs. simpl. eauto.
Qed.

(** An error reported in the state [S] of a phase, or after it. *)
Lemma error_finish S ST e args p sq q o out d err :
  DstState <$> find_desc events S (move_event e "") = Some ST → find_auto events ST = None →
  (∀ p, failed_with err p → dkg_inv p ST) →
  (∀ s st, confirmation_error e s = inl st → st = err) →
  dkg_ok p sq q → pay_SigningProposalPayload p = None →
  actionConfirmationError e args (Some p) = Ret (o, (out, d, None)) →
  ∃ s' p1 r, finish events callbacks S e args o out d = Ret (s', Some p1, (Some r, None)) ∧
    dkg_inv p1 s'.
Proof.
  intros Hdesc Hna Hinv Herr Hd Hn Ha.
  destruct (error_failed_with _ _ _ _ _ _ _ _ _ Hd Hn Herr Ha) as (-> & -> & p1 & -> & Hf).
  unfold finish. apply fmap_Some in Hdesc as (d' & Hd' & ->). rewrite Hd'.
  unfold spec_auto. rewrite Hna. simpl. eauto 10.
Qed.

Lemma init_finish args p sq o out d :
  sig_ok p sq → map_Forall (fun _ x => sgp_Status x = SigConfirmationConfirmed) sq → later_none p →
  actionInitDKGProposal EventDKGInitProcess args (Some p) = Ret (o, (out, d, None)) →
  ∃ s' p1 r, finish events callbacks StateDkgInitial EventDKGInitProcess args o out d =
    Ret (s', Some p1, (Some r, None)) ∧ dkg_inv p1 s'.
Proof.
  intros Hok Hall [Hd Hn] Ha. destruct (actionInitDKG_args _ _ _ _ _ _ Hd Ha) as [r ->].
  destruct (actionInitDKG_eq EventDKGInitProcess r p sq Hok Hd) as [l Heq]. rewrite Heq in Ha.
  simplify_eq. unfold finish. table_goal.
  destruct (auto_commits (enrolled_payload r sq p) _ (enrolled_quorum sq) [RqDefault r]
    (Some (RdPubKeys l)) (enrolled_phase_ok r sq p Hok Hall Hn) eq_refl eq_refl)
    as (s2 & p2 & rs & Hs & Hi). unfold StateDkgCommitsAwaitConfirmations in Hs.
  rewrite Hs. simpl. eauto.
Qed.

Lemma confirmation_error_commit s st :
  confirmation_error EventDKGCommitConfirmationError s = inl st → st = CommitConfirmationError.
Proof. by destruct s; intros [= <-]. Qed.
Lemma confirmation_error_deal s st :
  confirmation_error EventDKGDealConfirmationError s = inl st → st = DealConfirmationError.
Proof. by destruct s; intros [= <-]. Qed.
Lemma confirmation_error_response s st :
  confirmation_error EventDKGResponseConfirmationError s = inl st → st = ResponseConfirmationError.
Proof. by destruct s; intros [= <-]. Qed.
Lemma confirmation_error_masterkey s st :
  confirmation_error EventDKGMasterKeyConfirmationError s = inl st → st = MasterKeyConfirmationError.
Proof. by destruct s; intros [= <-]. Qed.

(** The state and payload of a failed or running phase, for a reported error. *)
Ltac error_case Ha Hc :=
  match goal with
  | Hph : phase_ok _ _ _ |- _ => destruct Hph as [[? ?] ? _]
  | Hf : failed_with _ _ |- _ => destruct Hf as (? & ? & ? & ? & _)
  end;
  eapply error_finish; [..|exact Ha];
    [reflexivity|reflexivity|intros; by constructor|exact Hc|eassumption|done].

Lemma has_commit_received r x :
  DKGProposalCommitConfirmationRequest_Validate r = None → True →
  has_commit (received_participant cr_CreatedAt CommitConfirmed
    (fun request => dp_set_commit (cr_Commit request)) r x).
Proof. intros Hv _. by apply commit_Validate_None. Qed.

Lemma has_deal_received r x :
  DKGProposalDealConfirmationRequest_Validate r = None → has_commit x →
  has_deal (received_participant de_CreatedAt DealConfirmed
    (fun request => dp_set_deal (de_Deal request)) r x).
Proof. intros Hv ?. split; [done|]. by apply deal_Validate_None. Qed.

Lemma has_response_received r x :
  DKGProposalResponseConfirmationRequest_Validate r = None → has_deal x →
  has_response (received_participant rr_CreatedAt ResponseConfirmed
    (fun request => dp_set_response (rr_Response request)) r x).
Proof. intros Hv ?. split; [done|]. by apply response_Validate_None. Qed.

Lemma has_masterkey_received r x :
  DKGProposalMasterKeyConfirmationRequest_Validate r = None → has_response x →
  has_masterkey (received_participant mr_CreatedAt MasterKeyConfirmed
    (fun request => dp_set_masterkey (mr_MasterKey request)) r x).
Proof. intros Hv ?. split; [done|]. by apply masterkey_Validate_None. Qed.

(** What follows an accepted callback, in every state. *)
Lemma dkg_finish s p d e args o out data :
  dkg_inv p s → find_desc events s e = Some d → IsInternal d = false →
  call callbacks e args (Some p) = Ret (o, (out, data, None)) →
  ∃ s' p1 r, finish events callbacks s e args o out data = Ret (s', Some p1, (Some r, None)) ∧
    dkg_inv p1 s'.
Proof.
  intros Hinv Hd Hi Ha. desc_cases Hd; try discriminate Hi; inversion Hinv; simplify_eq.
  - match goal with Hs : sig_inv _ _ |- _ => inversion Hs; simplify_eq end.
    eapply init_finish; [eassumption..|exact Ha].
  - eapply (received_finish StateDkgCommitsAwaitConfirmations commits);
      [..|exact Ha]; [apply auto_commits|reflexivity|apply has_commit_received|done..].
  - error_case Ha confirmation_error_commit.
  - error_case Ha confirmation_error_commit.
  - eapply (received_finish StateDkgDealsAwaitConfirmations deals);
      [..|exact Ha]; [apply auto_deals|reflexivity|apply has_deal_received|done..].
  - error_case Ha confirmation_error_deal.
  - error_case Ha confirmation_error_deal.
  - eapply (received_finish StateDkgResponsesAwaitConfirmations responses);
      [..|exact Ha]; [apply auto_responses|reflexivity|apply has_response_received|done..].
  - error_case Ha confirmation_error_response.
  - error_case Ha confirmation_error_response.
  - eapply (received_finish StateDkgMasterKeyAwaitConfirmations masterkeys);
      [..|exact Ha]; [apply auto_masterkeys|reflexivity|apply has_masterkey_received|done..].
  - error_case Ha confirmation_error_masterkey.
  - error_case Ha confirmation_error_masterkey.
Qed.

(** ** The stage never panics *)

Lemma confirmationReceived_total {R} cast (validate : R → option error) get_id get_time await confirmed
    store touch m1 m2 m3 e args p c :
  pay_DKGProposalPayload p = Some c →
  total_on eq (confirmationReceived cast validate get_id get_time await confirmed store touch m1 m2 m3)
    e args (Some p).
Proof.
  intros Hc. unfold total_on, confirmationReceived, payload, set_payload,
    DKGQuorumExists, DKGQuorumGet, DKGQuorumUpdate. act_run.
  act_branches; simplify_eq/=; try done; by do 4 eexists.
Qed.

Lemma confirmationError_total e args p c :
  pay_DKGProposalPayload p = Some c → total_on eq actionConfirmationError e args (Some p).
Proof.
  intros Hc. unfold total_on, actionConfirmationError, payload, set_payload,
    DKGQuorumExists, DKGQuorumGet, DKGQuorumUpdate. act_run.
  act_branches; simplify_eq/=; try done;
    try match goal with r : CbRet _ |- _ => destruct r as [[? ?] ?] end; by do 4 eexists.
Qed.

Lemma actionInitDKG_total args p sq :
  sig_ok p sq → pay_DKGProposalPayload p = None →
  total_on eq actionInitDKGProposal EventDKGInitProcess args (Some p).
Proof.
  intros Hok Hd.
  assert ((∃ r, args = [RqDefault r]) ∨ ∀ r, args ≠ [RqDefault r]) as [[r ->]|Hn].
  { destruct args as [|[] [|]]; naive_solver. }
  - destruct (actionInitDKG_eq EventDKGInitProcess r p sq Hok Hd) as [l Heq].
    do 4 eexists. by split; [exact Heq|].
  - unfold total_on, actionInitDKGProposal, payload, set_payload. act_run. rewrite Hd. simpl.
    destruct args as [|[] [|]]; try (by do 4 eexists). by destruct (Hn r).
Qed.

Lemma dkg_ok_conf p sq q : dkg_ok p sq q → ∃ c, pay_DKGProposalPayload p = Some c.
Proof. intros [_ _ Hq _ _]. destruct (pay_DKGProposalPayload p); [eauto|done]. Qed.

Lemma dkg_inv_conf p s :
  dkg_inv p s → s = StateDkgInitial ∨ ∃ c, pay_DKGProposalPayload p = Some c.
Proof.
  intros []; [by left|right..].
  all: try match goal with H : phase_ok _ _ _ |- _ => destruct H as [[? Hd] _ _]; by eapply dkg_ok_conf end.
  all: try match goal with H : failed_with _ _ |- _ => destruct H as (? & ? & Hd & _); by eapply dkg_ok_conf end.
  all: try match goal with H : timed_out _ |- _ => destruct H as (? & ? & Hd & _); by eapply dkg_ok_conf end.
  match goal with H : dkg_done _ _ _ _ |- _ => destruct H as [Hd _ _]; by eapply dkg_ok_conf end.
Qed.

Lemma dkg_total s p d e args :
  dkg_inv p s → find_desc events s e = Some d → IsInternal d = false →
  total_on eq (call callbacks) e args (Some p).
Proof.
  intros Hinv Hd Hi. destruct (decide (s = StateDkgInitial)) as [->|Hne].
  - desc_cases Hd; try discriminate Hi; try done. inversion Hinv; simplify_eq.
    match goal with Hs : sig_inv _ _ |- _ => inversion Hs as [| | | |? Hok [Hn _] ?]; simplify_eq end.
    exact (actionInitDKG_total args p _ Hok Hn).
  - destruct (dkg_inv_conf p s Hinv) as [?|[c Hc]]; [done|].
    desc_cases Hd; try discriminate Hi; first
      [done | exact (confirmationError_total _ args p c Hc)
      | exact (confirmationReceived_total _ _ _ _ _ _ _ _ _ _ _ _ args p c Hc)].
Qed.

Lemma DKG_New_ok : ∃ f, New = Ret f.
Proof.
  destruct New as [f|] eqn:H; [by exists f|].
  assert (match New with Ret _ => true | Panic _ => false end = true) as Hr by by vm_compute.
  by rewrite H in Hr.
Qed.
End facts.
