(* ===== verification/SigningProposal.v ===== *)
(** * The signing machine, [fsm/state_machines/signing_proposal_fsm]

    The third stage of a round, which repeats: a batch is proposed, partial
    signatures are collected until a threshold of participants has signed, and
    the machine is restarted for the next batch. *)

From S2P Require Import Prelude GoFsm Requests Payload SignatureProposal DkgProposal.

(** ** States and events *)

Definition FsmName : string := "signing_proposal_fsm".

Definition StateSigningInitial : State := StateDkgMasterKeyCollected.
Definition StateSigningIdle : State := "stage_signing_idle".
Definition StateSigningAwaitPartialSigns : State := "state_signing_await_partial_signs".
Definition StateSigningPartialSignsAwaitCancelledByTimeout : State :=
  "state_signing_partial_signs_await_cancelled_by_timeout".
Definition StateSigningPartialSignsAwaitCancelledByError : State :=
  "state_signing_partial_signs_await_cancelled_by_error".
Definition StateSigningPartialSignsCollected : State := "state_signing_partial_signs_collected".

Definition EventSigningInit : Event := "event_signing_init".
Definition EventSigningStart : Event := "event_signing_start".
Definition EventSigningPartialSignReceived : Event := "event_signing_partial_sign_received".
Definition EventSigningPartialSignError : Event := "event_signing_partial_sign_error_received".
Definition eventSigningPartialSignsAwaitCancelByTimeoutInternal : Event :=
  "event_signing_partial_signs_await_cancel_by_timeout_internal".
Definition eventSigningPartialSignsAwaitCancelByErrorInternal : Event :=
  "event_signing_partial_signs_await_sign_cancel_by_error_internal".
Definition eventAutoSigningValidatePartialSignInternal : Event :=
  "event_signing_partial_signs_await_validate".
Definition eventSigningPartialSignsConfirmedInternal : Event :=
  "event_signing_partial_signs_confirmed_internal".
Definition EventSigningRestart : Event := "event_signing_restart".

(** ** Callbacks *)

(** [CreatedAt], [BatchID], [InitiatorId], [SrcPayload] and [Quorum] assigned;
    the other fields of the confirmation are kept. *)
Definition started (r : SigningBatchProposalStartRequest) (src : bytes)
    (q : gomap Z SigningProposalParticipant) (c : SigningConfirmation) : SigningConfirmation :=
  mk_SigningConfirmation (bs_BatchID r) (bs_ParticipantId r) q (nc_RecoveredKey c) src
    (nc_EncryptedPayload c) (bs_CreatedAt r) (nc_UpdatedAt c) (nc_ExpiresAt c).

(** The quorum entry made for a participant of the DKG. *)
Definition signer (r : SigningBatchProposalStartRequest) (dkgEntry : DKGProposalParticipant) :=
  mk_SigningProposalParticipant 0 (dp_Username dkgEntry) SigningAwaitPartialSigns None None
    (bs_CreatedAt r).

Definition add_signer (r : SigningBatchProposalStartRequest)
    (q : gmap Z SigningProposalParticipant) (dkgEntry : DKGProposalParticipant) :=
  <[dp_ParticipantID dkgEntry := signer r dkgEntry]> q.

Definition signing_invitation (x : SigningProposalParticipant) :=
  mk_SigningPartialSignsParticipantInvitationEntry (np_ParticipantID x) (np_Username x)
    (SigningParticipantStatus_uint8 (np_Status x)).

(** [for _, partialSign := range request.PartialSigns]: writes into the
    participant's map. *)
Definition add_partial_sign (m : gomap string bytes) (s : PartialSign) : Go (gomap string bytes) :=
  gomap_insert m (ps_MessageID s) (ps_Sign s).

Definition has_signing_status (s : SigningParticipantStatus) (x : SigningProposalParticipant) : bool :=
  bool_decide (np_Status x = s).

(** The counting loop: [(failedParticipantsCount, unconfirmedParticipants)]. *)
Definition count_signers (acc : Z * Z) (kx : Z * SigningProposalParticipant) : Z * Z :=
  if has_signing_status SigningError kx.2 then (acc.1 + 1, acc.2)
  else if has_signing_status SigningPartialSignsConfirmed kx.2 then (acc.1, acc.2 - 1)
  else acc.

Definition process_entry (x : SigningProposalParticipant) :=
  mk_SigningProcessParticipantEntry (np_ParticipantID x) (np_Username x) (np_PartialSigns x).

(** The [switch]es of [actionConfirmationError]. *)
Definition signing_error (inEvent : Event) (s : SigningParticipantStatus)
  : SigningParticipantStatus + GoFsm.CbRet RespData :=
  if inEvent =s? EventSigningPartialSignError then
    match s with
    | SigningAwaitPartialSigns => inl SigningError
    | SigningPartialSignsConfirmed => inr ("", None, Some (Err "{Status} already confirmed"))
    | SigningError => inr ("", None, Some (Err "{Status} already has error"))
    | SigningProcess => inr ("", None, Some (Err "{Status} cannot be set to error"))
    end
  else inr ("", None, Some (Err "event cannot be used for action {actionConfirmationError}")).

(** [m.payload.SignatureProposalPayload.UpdatedAt = request.CreatedAt] *)
Definition touch_signature (t : Time) (p : DumpedMachineStatePayload) : Go DumpedMachineStatePayload :=
  c ← deref (pay_SignatureProposalPayload p); Ret (pay_set_sig (sc_set_updated t c) p).

Section actions.
Context {ord : MapOrder} {json : JSON (list SigningTask)}.

Definition actionInitSigningProposal : Action := fun _ args => run_action (
  request ← arg0 as_DefaultRequest "{arg0} required {DefaultRequest}"
    "cannot cast {arg0} to type {DefaultRequest}" args;
  _ ← check (DefaultRequest_Validate request);
  p ← payload;
  let c := mk_SigningConfirmation "" 0 (Some ∅) "" "" "" (dr_CreatedAt request) 0
             (Add (dr_CreatedAt request) SigningConfirmationDeadline) in
  _ ← set_payload (pay_set_signing c p);
  mret ("", None, None)).

Definition actionStartSigningProposal : Action := fun inEvent args => run_action (
  request ← arg0 as_SigningStart "{arg0} required {SigningBatchProposalStartRequest}"
    "cannot cast {arg0} to type {SigningBatchProposalStartRequest}" args;
  _ ← check (SigningBatchProposalStartRequest_Validate request);
  src ← match marshal (bs_SigningTasks request) with
        | Some src => mret src
        | None => fail (Wrap "failed to marshal messages to sign" (Err "json"))
        end;
  p ← payload;
  c ← lift (deref (pay_SigningProposalPayload p));
  dc ← lift (deref (pay_DKGProposalPayload p));
  let '(dq, dkgEntries) := GetOrdered dp_set_id (dc_Quorum dc) in
  let p := pay_set_dkg (dc_set_quorum dq dc) p in
  let q := foldl (add_signer request) ∅ dkgEntries in
  let '(q, participants) := GetOrdered np_set_id (Some q) in
  let c := started request src q c in
  _ ← set_payload (pay_set_signing c p);
  mret (inEvent,
        Some (RdSigningInvitations (mk_SigningPartialSignsParticipantInvitationsResponse
          (nc_BatchID c) (nc_InitiatorId c) (signing_invitation <$> participants) (nc_SrcPayload c))),
        None)).

Definition actionPartialSignConfirmationReceived : Action := fun _ args => run_action (
  request ← arg0 as_PartialSigns "{arg0} required {SigningProposalPartialSignRequest}"
    "cannot cast {arg0} to type {SigningProposalBatchPartialSignRequests}" args;
  _ ← check (SigningProposalBatchPartialSignRequests_Validate request);
  p ← payload;
  exists_ ← lift (SigningQuorumExists p (bp_ParticipantId request));
  _ ← require exists_ (Err "{ParticipantId} not exist in quorum");
  po ← lift (SigningQuorumGet p (bp_ParticipantId request));
  let '(p, o) := po in
  _ ← set_payload p;
  participant ← lift (deref o);
  _ ← require (bool_decide (np_Status participant = SigningAwaitPartialSigns))
        (Err "cannot confirm response with {Status}");
  signs ← lift (foldM add_partial_sign (np_PartialSigns participant) (bp_PartialSigns request));
  let participant :=
    np_set_updated (bp_CreatedAt request)
      (np_set_status SigningPartialSignsConfirmed (np_set_signs signs participant)) in
  p ← lift (SigningQuorumUpdate p (bp_ParticipantId request) participant);
  p ← lift (touch_signature (bp_CreatedAt request) p);
  _ ← set_payload p;
  mret ("", None, None)).

Definition actionValidateSigningPartialSignsAwaitConfirmations : Action := fun _ _ => run_action (
  p ← payload;
  c ← lift (deref (pay_SigningProposalPayload p));
  if SigningConfirmation_IsExpired c
  then mret (eventSigningPartialSignsAwaitCancelByTimeoutInternal, None, None)
  else
    count ← lift (SigningQuorumCount p);
    let '(failedParticipantsCount, unconfirmedParticipants) :=
      foldl count_signers (0, count) (range (default ∅ (nc_Quorum c))) in
    if count - GetThreshold p <? failedParticipantsCount
    then mret (eventSigningPartialSignsAwaitCancelByErrorInternal, None, None)
    else if count - GetThreshold p <? unconfirmedParticipants then mret ("", None, None)
    else
      let q := fmap (M := gmap Z) (np_set_status SigningProcess) <$> nc_Quorum c in
      let '(q, participants) := GetOrdered np_set_id q in
      _ ← set_payload (pay_set_signing (nc_set_quorum q c) p);
      mret (eventSigningPartialSignsConfirmedInternal,
            Some (RdSigningProcess (mk_SigningProcessParticipantResponse (nc_BatchID c)
              (nc_SrcPayload c)
              (process_entry <$> filter (fun x => gomap_len (np_PartialSigns x) ≠ 0) participants))),
            None)).

Definition actionSigningRestart : Action := fun _ _ => run_action (mret ("", None, None)).

Definition actionConfirmationError : Action := fun inEvent args => run_action (
  request ← arg0 as_SignatureError "{arg0} required {SignatureProposalConfirmationErrorRequest}"
    "cannot cast {arg0} to type {SignatureProposalConfirmationErrorRequest}" args;
  _ ← check (SignatureProposalConfirmationErrorRequest_Validate request);
  p ← payload;
  exists_ ← lift (SigningQuorumExists p (se_ParticipantId request));
  _ ← require exists_ (Err "{ParticipantId} not exist in quorum");
  po ← lift (SigningQuorumGet p (se_ParticipantId request));
  let '(p, o) := po in
  _ ← set_payload p;
  participant ← lift (deref o);
  match signing_error inEvent (np_Status participant) with
  | inr ret => mret ret
  | inl status =>
      let participant :=
        np_set_updated (se_CreatedAt request)
          (np_set_error (se_Error request) (np_set_status status participant)) in
      p ← lift (SigningQuorumUpdate p (se_ParticipantId request) participant);
      p ← lift (touch_signature (se_CreatedAt request) p);
      _ ← set_payload p;
      mret ("", None, None)
  end).

(** ** The machine *)

Definition events : list EventDesc :=
  [event_desc EventSigningInit [StateSigningInitial] StateSigningIdle;
   event_desc EventSigningStart [StateSigningIdle] StateSigningAwaitPartialSigns;
   event_desc EventSigningPartialSignReceived [StateSigningAwaitPartialSigns]
     StateSigningAwaitPartialSigns;
   event_desc EventSigningPartialSignError [StateSigningAwaitPartialSigns]
     StateSigningAwaitPartialSigns;
   internal_desc eventSigningPartialSignsAwaitCancelByTimeoutInternal
     [StateSigningAwaitPartialSigns] StateSigningPartialSignsAwaitCancelledByTimeout;
   internal_desc eventSigningPartialSignsAwaitCancelByErrorInternal
     [StateSigningAwaitPartialSigns] StateSigningPartialSignsAwaitCancelledByError;
   auto_desc eventAutoSigningValidatePartialSignInternal [StateSigningAwaitPartialSigns]
     StateSigningAwaitPartialSigns;
   internal_desc eventSigningPartialSignsConfirmedInternal [StateSigningAwaitPartialSigns]
     StateSigningPartialSignsCollected;
   event_desc EventSigningRestart
     [StateSigningPartialSignsCollected; StateSigningPartialSignsAwaitCancelledByTimeout;
      StateSigningPartialSignsAwaitCancelledByError] StateSigningIdle].

Definition callbacks : list (Event * Action) :=
  [(EventSigningInit, actionInitSigningProposal);
   (EventSigningStart, actionStartSigningProposal);
   (EventSigningPartialSignReceived, actionPartialSignConfirmationReceived);
   (eventAutoSigningValidatePartialSignInternal, actionValidateSigningPartialSignsAwaitConfirmations);
   (EventSigningPartialSignError, actionConfirmationError);
   (EventSigningRestart, actionSigningRestart)].

Definition New : Go Machine := MustNewFSM FsmName StateSigningInitial events callbacks.
End actions.

(** ** The stage's invariant *)

Record signers_ok (dq : gmap Z DKGProposalParticipant) (q : gmap Z SigningProposalParticipant)
  : Prop := {
  sg_keys id : is_Some (q !! id) ↔ is_Some (dq !! id);
  sg_member id y : q !! id = Some y → np_ParticipantID y = id ∧
    ∃ x, dq !! id = Some x ∧ np_Username y = dp_Username x
}.

(** What every state of the stage has: the result of the DKG, and a signing
    confirmation whose [UpdatedAt] nothing has ever set. *)
Record signing_base (p : DumpedMachineStatePayload) sq dq key (c : SigningConfirmation) : Prop := {
  sb_done : dkg_done p sq dq key;
  sb_conf : pay_SigningProposalPayload p = Some c;
  sb_updated : nc_UpdatedAt c = 0
}.

Definition signed (x : SigningProposalParticipant) : bool := 0 <? gomap_len (np_PartialSigns x).

(** A participant of a running batch has signatures when it has confirmed. *)
Definition signer_ok (x : SigningProposalParticipant) : Prop :=
  np_Status x ≠ SigningProcess ∧
  signed x = has_signing_status SigningPartialSignsConfirmed x.

(** The batch runs: too few failures to give up, too few signatures to stop. *)
Record batch_open (t : Z) (q : gmap Z SigningProposalParticipant) : Prop := {
  bo_failed : qcount (has_signing_status SigningError) q ≤ Z.of_nat (size q) - t;
  bo_signed : qcount (has_signing_status SigningPartialSignsConfirmed) q < t
}.

Inductive signing_inv (p : DumpedMachineStatePayload) : State → Prop :=
| signing_inv_initial : dkg_inv p StateDkgMasterKeyCollected → signing_inv p StateSigningInitial
| signing_inv_idle sq dq key c : signing_base p sq dq key c → signing_inv p StateSigningIdle
| signing_inv_await sq dq key c q : signing_base p sq dq key c → nc_Quorum c = Some q →
    signers_ok dq q → map_Forall (fun _ x => signer_ok x) q → batch_open (pay_Threshold p) q →
    signing_inv p StateSigningAwaitPartialSigns
| signing_inv_collected sq dq key c q : signing_base p sq dq key c → nc_Quorum c = Some q →
    signers_ok dq q → map_Forall (fun _ x => np_Status x = SigningProcess) q →
    pay_Threshold p ≤ qcount signed q →
    signing_inv p StateSigningPartialSignsCollected
| signing_inv_error sq dq key c q : signing_base p sq dq key c → nc_Quorum c = Some q →
    signers_ok dq q →
    Z.of_nat (size q) - pay_Threshold p < qcount (has_signing_status SigningError) q →
    signing_inv p StateSigningPartialSignsAwaitCancelledByError
| signing_inv_timeout sq dq key c : signing_base p sq dq key c →
    SigningConfirmation_IsExpired c = true →
    signing_inv p StateSigningPartialSignsAwaitCancelledByTimeout.

(** ** Updates that keep the result of the DKG *)

Lemma dkg_done_same p p' sq dq key :
  sc_Quorum <$> pay_SignatureProposalPayload p' = sc_Quorum <$> pay_SignatureProposalPayload p →
  pay_Threshold p' = pay_Threshold p → pay_PubKeys p' = pay_PubKeys p → pay_IDs p' = pay_IDs p →
  pay_DKGProposalPayload p' = pay_DKGProposalPayload p →
  dkg_done p sq dq key → dkg_done p' sq dq key.
Proof.
  intros Hs Ht Hp Hi Hd [[H1 H2 H3 H4 H5] Hk Hall]. split; try done. split; try done.
  - by apply (sig_ok_same p).
  - by rewrite Hd.
Qed.

Lemma signers_ok_size dq q : signers_ok dq q → size q = size dq.
Proof. intros H. apply size_same_keys, (sg_keys _ _ H). Qed.

Lemma signers_ok_insert dq q id x y :
  signers_ok dq q → q !! id = Some x → np_ParticipantID y = np_ParticipantID x →
  np_Username y = np_Username x → signers_ok dq (<[id := y]> q).
Proof.
  intros [Hk Hm] Hx Hi Hu. split.
  - intros id'. rewrite <-Hk, lookup_insert_is_Some.
    destruct (decide (id = id')) as [<-|]; [rewrite Hx|]; naive_solver.
  - intros id' y'. rewrite lookup_insert_Some. intros [[<- <-]|[_ Hy]]; [|by apply Hm].
    rewrite Hi, Hu. by apply Hm.
Qed.

Lemma signers_ok_map h dq q :
  signers_ok dq q → (∀ x, np_ParticipantID (h x) = np_ParticipantID x ∧ np_Username (h x) = np_Username x) →
  signers_ok dq (h <$> q).
Proof.
  intros [Hk Hm] Hh. split.
  - intros id. by rewrite lookup_fmap, fmap_is_Some.
  - intros id y (y0 & <- & Hy)%lookup_fmap_Some. destruct (Hh y0) as [-> ->]. by apply Hm.
Qed.

Lemma np_with_ids_id (q : gmap Z SigningProposalParticipant) :
  (∀ id x, q !! id = Some x → np_ParticipantID x = id) → with_ids np_set_id q = q.
Proof.
  intros H. apply map_eq. intros id. rewrite lookup_with_ids. destruct (q !! id) as [x|] eqn:Hx; [|done].
  simpl. f_equal. rewrite <-(H id x Hx). by destruct x.
Qed.

(** ** Starting a batch *)

Lemma fold_add_signer r l acc k y :
  NoDup (dp_ParticipantID <$> l) →
  foldl (add_signer r) acc l !! k = Some y ↔
    (∃ x, x ∈ l ∧ dp_ParticipantID x = k ∧ y = signer r x) ∨
    (k ∉ dp_ParticipantID <$> l ∧ acc !! k = Some y).
Proof.
  induction l as [|x' l IH] in acc |- *; intros Hnd; simpl; [set_solver|].
  apply NoDup_cons in Hnd as [Hk' Hnd]. rewrite IH by done. clear IH. unfold add_signer at 1.
  setoid_rewrite elem_of_cons. destruct (decide (k = dp_ParticipantID x')) as [-> |Hne].
  - rewrite lookup_insert_eq. split.
    + intros [(x & Hx & Hid & ->)|[_ [= <-]]]; [|left; exists x'; by auto]. exfalso. apply Hk'. rewrite <-Hid.
      by apply list_elem_of_fmap_2.
    + intros [(x & [->|Hx] & Hid & ->)|[Hn _]]; [by right|left; exists x; by auto|].
      exfalso. apply Hn. by left.
  - rewrite lookup_insert_ne by done. split.
    + intros [(x & Hx & Hid & ->)|[Hn Hy]]; [left; exists x; by auto|]. right. split; [|done]. intros [?|?]; done.
    + intros [(x & [->|Hx] & Hid & ->)|[Hn Hy]]; [done|left; exists x; by auto|]. right. split; [|done].
      intros ?. apply Hn. by right.
Qed.

(** The quorum a batch starts with. *)
Definition initial_signers (r : SigningBatchProposalStartRequest)
    (dq : gmap Z DKGProposalParticipant) : gmap Z SigningProposalParticipant :=
  with_ids np_set_id (signer r <$> dq).

Lemma NoDup_in_id_order (dq : gmap Z DKGProposalParticipant) :
  NoDup (dp_ParticipantID <$> in_id_order dp_set_id dq).
Proof.
  unfold in_id_order. pose proof (NoDup_sorted_keys dq) as Hnd.
  induction (sorted_keys dq) as [|k l IH]; simpl; [constructor|].
  apply NoDup_cons in Hnd as [Hk Hnd].
  destruct (dq !! k) as [x|] eqn:Hx; simpl; [|by apply IH].
  apply NoDup_cons. split; [|by apply IH]. rewrite list_elem_of_fmap. intros (y & -> & Hy).
  apply list_elem_of_omap in Hy as (k' & Hk' & (x' & Hx' & ->)%fmap_Some). by simpl in Hk.
Qed.

Lemma foldl_add_signer r dq :
  foldl (add_signer r) ∅ (in_id_order dp_set_id dq) = signer r <$> dq.
Proof.
  apply map_eq. intros k. apply option_eq. intros y.
  rewrite fold_add_signer by apply NoDup_in_id_order.
  rewrite lookup_empty, lookup_fmap, fmap_Some. setoid_rewrite elem_of_in_id_order. split.
  - intros [(x & (k' & x' & Hx' & ->) & <- & ->)|[_ ?]]; [|done]. simpl. eauto.
  - intros (x & Hx & ->). left. exists (dp_set_id k x). split; [by eauto|]. done.
Qed.

Lemma initial_signers_ok r dq : signers_ok dq (initial_signers r dq).
Proof.
  unfold initial_signers. split.
  - intros id. by rewrite lookup_with_ids, lookup_fmap, !fmap_is_Some.
  - intros id y. rewrite lookup_with_ids, lookup_fmap.
    destruct (dq !! id) as [x|] eqn:Hx; simpl; [|done]. intros [= <-]. split; [done|]. eauto.
Qed.

Lemma initial_signers_await r dq :
  map_Forall (fun _ x => np_Status x = SigningAwaitPartialSigns ∧ np_PartialSigns x = None)
    (initial_signers r dq).
Proof.
  intros id y. unfold initial_signers. rewrite lookup_with_ids, lookup_fmap.
  destruct (dq !! id); simpl; [|done]. by intros [= <-].
Qed.

Section facts.
Context {ord : MapOrder} {json : JSON (list SigningTask)}.

(** ** What the callbacks do *)

Lemma actionStart_inv e args p p' out d c dc dq :
  pay_SigningProposalPayload p = Some c → pay_DKGProposalPayload p = Some dc →
  dc_Quorum dc = Some dq → (∀ id x, dq !! id = Some x → dp_ParticipantID x = id) →
  actionStartSigningProposal e args (Some p) = Ret (p', (out, d, None)) →
  ∃ r src, args = [RqSigningStart r] ∧ marshal (bs_SigningTasks r) = Some src ∧ out = e ∧
    p' = Some (pay_set_signing (started r src (Some (initial_signers r dq)) c) (pay_set_dkg dc p)).
Proof.
  intros Hc Hdc Hdq Hids H. unfold actionStartSigningProposal, payload, set_payload in H.
  act_unfold H. destruct args as [|a [|]]; try done. destruct a; try done. simpl in H.
  destruct (SigningBatchProposalStartRequest_Validate r); [done|].
  destruct (marshal (bs_SigningTasks r)) as [src|] eqn:Hm; [|done]. simpl in H.
  rewrite Hc in H. simpl in H. rewrite Hdc in H. simpl in H. rewrite Hdq, GetOrdered_spec in H.
  rewrite foldl_add_signer, GetOrdered_spec in H. simplify_eq/=.
  exists r, src. split_and!; [done..|]. f_equal. f_equal. f_equal.
  rewrite with_ids_id by done. unfold dc_set_quorum. rewrite <-Hdq. by destruct dc.
Qed.

Lemma add_partial_signs_spec l m :
  ∃ m', foldM add_partial_sign (Some m) l = Ret (Some m') ∧
    (∀ id, is_Some (m' !! id) ↔ is_Some (m !! id) ∨ id ∈ ps_MessageID <$> l).
Proof.
  induction l as [|s l IH] in m |- *; simpl; [exists m; set_solver|].
  destruct (IH (<[ps_MessageID s := ps_Sign s]> m)) as (m' & Hf & Hm'). exists m'. split; [done|].
  intros id. rewrite Hm', lookup_insert_is_Some, elem_of_cons.
  destruct (decide (ps_MessageID s = id)); naive_solver.
Qed.

(** The payload after an update of the participant [id]. *)
Definition with_signer (t : Time) (id : Z) (y : SigningProposalParticipant)
    (q : gmap Z SigningProposalParticipant) (c : SigningConfirmation) (sc : SignatureConfirmation)
    (p : DumpedMachineStatePayload) : DumpedMachineStatePayload :=
  pay_set_sig (sc_set_updated t sc) (pay_set_signing (nc_set_quorum (Some (<[id := y]> q)) c) p).

Lemma actionPartialSign_inv e args p p' out d c q sc :
  pay_SigningProposalPayload p = Some c → nc_Quorum c = Some q →
  pay_SignatureProposalPayload p = Some sc →
  actionPartialSignConfirmationReceived e args (Some p) = Ret (p', (out, d, None)) →
  ∃ r x m, args = [RqPartialSigns r] ∧ q !! bp_ParticipantId r = Some x ∧
    np_Status x = SigningAwaitPartialSigns ∧ out = "" ∧ d = None ∧
    (∀ id, is_Some (m !! id) ↔ is_Some (default ∅ (np_PartialSigns x) !! id) ∨
                               id ∈ ps_MessageID <$> bp_PartialSigns r) ∧
    bp_PartialSigns r ≠ [] ∧
    p' = Some (with_signer (bp_CreatedAt r) (bp_ParticipantId r)
      (np_set_updated (bp_CreatedAt r) (np_set_status SigningPartialSignsConfirmed
        (np_set_signs (Some m) x))) q c sc p).
Proof.
  intros Hc Hq Hsc H. unfold actionPartialSignConfirmationReceived, payload, set_payload,
    SigningQuorumExists, SigningQuorumGet, SigningQuorumUpdate, touch_signature in H.
  act_unfold H. destruct args as [|a [|]]; try done. destruct a; try done. simpl in H.
  destruct (SigningProposalBatchPartialSignRequests_Validate r) eqn:Hv; [done|]. simpl in H.
  rewrite Hc in H. simpl in H. rewrite Hq in H. simpl in H.
  destruct (q !! bp_ParticipantId r) as [x|] eqn:Hx; simpl in H; [|done].
  assert (bp_PartialSigns r ≠ []) as Hne.
  { intros Hnil. unfold SigningProposalBatchPartialSignRequests_Validate in Hv. rewrite Hnil in Hv.
    destruct (first_error _) eqn:Hf in Hv; [done|]. apply first_error_None in Hf.
    rewrite !Forall_cons in Hf. by destruct Hf as (_ & _ & _ & ? & _). }
  destruct (np_PartialSigns x) as [m0|] eqn:Hm0; simpl in H.
  - destruct (add_partial_signs_spec (bp_PartialSigns r) m0) as (m & Hf & Hm).
    destruct (bool_decide_reflect (np_Status x = SigningAwaitPartialSigns)) as [Hst|]; [|done].
    simpl in H. rewrite Hm0, Hf in H. simpl in H. rewrite Hc in H. simpl in H.
    rewrite Hsc, Hq in H. simplify_eq/=. exists r, x, m. split_and!; try done. by rewrite Hm0.
  - destruct (add_partial_signs_spec (bp_PartialSigns r) ∅) as (m & Hf & Hm).
    destruct (bool_decide_reflect (np_Status x = SigningAwaitPartialSigns)) as [Hst|]; [|done].
    simpl in H. rewrite Hf in H. simpl in H. rewrite Hsc in H. simplify_eq/=.
    exists r, x, m. split_and!; try done; [by rewrite Hm0|].
    f_equal. unfold with_signer, pay_set_signing, nc_set_quorum. simpl. by rewrite insert_insert_eq.
Qed.

Lemma actionSigningError_inv args p p' out d c q sc :
  pay_SigningProposalPayload p = Some c → nc_Quorum c = Some q →
  pay_SignatureProposalPayload p = Some sc →
  actionConfirmationError EventSigningPartialSignError args (Some p) = Ret (p', (out, d, None)) →
  ∃ r x m, args = [RqSignatureError r] ∧ q !! se_ParticipantId r = Some x ∧
    np_Status x = SigningAwaitPartialSigns ∧ out = "" ∧ d = None ∧
    gomap_len m = gomap_len (np_PartialSigns x) ∧
    p' = Some (with_signer (se_CreatedAt r) (se_ParticipantId r)
      (np_set_updated (se_CreatedAt r) (np_set_error (se_Error r) (np_set_status SigningError
        (np_set_signs m x)))) q c sc p).
Proof.
  intros Hc Hq Hsc H. unfold actionConfirmationError, payload, set_payload,
    SigningQuorumExists, SigningQuorumGet, SigningQuorumUpdate, touch_signature in H.
  act_unfold H. destruct args as [|a [|]]; try done. destruct a; try done. simpl in H.
  destruct (SignatureProposalConfirmationErrorRequest_Validate r) eqn:Hv; [done|]. simpl in H.
  rewrite Hc in H. simpl in H. rewrite Hq in H. simpl in H.
  destruct (q !! se_ParticipantId r) as [x|] eqn:Hx; simpl in H; [|done].
  destruct (np_PartialSigns x) as [m0|] eqn:Hm0; simpl in H;
    destruct (np_Status x) eqn:Hst; try done; simpl in H.
  - rewrite Hc in H. simpl in H. rewrite Hsc, Hq in H. simplify_eq/=.
    exists r, x, (Some m0). split_and!; try done; [by rewrite Hm0|].
    by rewrite <-Hm0; destruct x.
  - rewrite Hsc in H. simplify_eq/=. exists r, x, (Some ∅). split_and!; try done; [by rewrite Hm0|].
    f_equal. unfold with_signer, pay_set_signing, nc_set_quorum. simpl. by rewrite insert_insert_eq.
Qed.

Lemma count_signers_spec (q : gmap Z SigningProposalParticipant) a b :
  foldl count_signers (a, b) (range q) =
    (a + qcount (has_signing_status SigningError) q,
     b - qcount (has_signing_status SigningPartialSignsConfirmed) q).
Proof.
  rewrite <-!(qcount_perm _ q (range q)) by auto with go.
  induction (range q) as [|[k x] l IH] in a, b |- *; simpl.
  { by rewrite Z.add_0_r, Z.sub_0_r. }
  rewrite !filter_cons. simpl. unfold count_signers at 2. unfold has_signing_status. simpl.
  destruct (bool_decide_reflect (np_Status x = SigningError)) as [He|He],
    (bool_decide_reflect (np_Status x = SigningPartialSignsConfirmed)) as [Hcf|Hcf];
    try congruence; rewrite IH; unfold has_signing_status;
    rewrite ?decide_True, ?decide_False by done; simpl; f_equal; lia.
Qed.

(** The outcome of the validation, as a function of the counts. *)
Lemma validateSigning_eq e args p c q :
  pay_SigningProposalPayload p = Some c → nc_Quorum c = Some q →
  actionValidateSigningPartialSignsAwaitConfirmations e args (Some p) = Ret (
    if SigningConfirmation_IsExpired c
    then (Some p, (eventSigningPartialSignsAwaitCancelByTimeoutInternal, None, None))
    else if Z.of_nat (size q) - pay_Threshold p <? qcount (has_signing_status SigningError) q
    then (Some p, (eventSigningPartialSignsAwaitCancelByErrorInternal, None, None))
    else if qcount (has_signing_status SigningPartialSignsConfirmed) q <? pay_Threshold p
    then (Some p, ("", None, None))
    else (Some (pay_set_signing (nc_set_quorum (Some (with_ids np_set_id
                 (np_set_status SigningProcess <$> q))) c) p),
          (eventSigningPartialSignsConfirmedInternal,
           Some (RdSigningProcess (mk_SigningProcessParticipantResponse (nc_BatchID c)
              (nc_SrcPayload c) (process_entry <$> filter (fun x => gomap_len (np_PartialSigns x) ≠ 0)
                 (in_id_order np_set_id (np_set_status SigningProcess <$> q))))), None))).
Proof.
  intros Hc Hq. unfold actionValidateSigningPartialSignsAwaitConfirmations, payload, set_payload,
    SigningQuorumCount, GetThreshold. act_run. rewrite Hc. simpl.
  destruct (SigningConfirmation_IsExpired c); [done|]. simpl. rewrite Hq. simpl.
  rewrite count_signers_spec, Z.add_0_l. destruct (_ <? qcount _ q); [done|].
  match goal with |- context [qcount ?f q <? ?t] =>
    destruct (Z.ltb_spec (qcount f q) t), (Z.ltb_spec (Z.of_nat (size q) - pay_Threshold p)
      (Z.of_nat (size q) - qcount f q)); try lia; [done|] end.
  by rewrite GetOrdered_spec.
Qed.

(** ** Steps of the stage *)

(** The validation of a batch whose quorum is well-formed. *)
Lemma auto_signing p sq dq key c q args data :
  signing_base p sq dq key c → nc_Quorum c = Some q → signers_ok dq q →
  map_Forall (fun _ x => signer_ok x) q →
  ∃ s' p' r, spec_auto events callbacks StateSigningAwaitPartialSigns args (Some p) data =
    Ret (s', Some p', (r, None)) ∧ rs_State r = s' ∧ signing_inv p' s'.
Proof.
  intros Hb Hq Hs Hall. pose proof Hb as [Hd Hc Hu]. unfold spec_auto. table_goal.
  change (call callbacks _) with (actionValidateSigningPartialSignsAwaitConfirmations
    eventAutoSigningValidatePartialSignInternal).
  rewrite (validateSigning_eq _ _ p c q) by assumption.
  destruct (SigningConfirmation_IsExpired c) eqn:Hexp.
  { cbn beta iota. table_goal. do 3 eexists. split; [done|]. split; [done|].
    by eapply signing_inv_timeout. }
  destruct (Z.ltb_spec (Z.of_nat (size q) - pay_Threshold p)
    (qcount (has_signing_status SigningError) q)) as [He|He].
  { cbn beta iota. table_goal. do 3 eexists. split; [done|]. split; [done|].
    by eapply signing_inv_error. }
  destruct (Z.ltb_spec (qcount (has_signing_status SigningPartialSignsConfirmed) q)
    (pay_Threshold p)) as [Hp|Hp].
  { cbn beta iota. table_goal. do 3 eexists. split; [done|]. split; [done|].
    by eapply signing_inv_await. }
  cbn beta iota. table_goal. do 3 eexists. split; [done|]. split; [done|].
  rewrite np_with_ids_id.
  2:{ intros id x (y & <- & Hy)%lookup_fmap_Some. by apply (sg_member _ _ Hs id y Hy). }
  eapply (signing_inv_collected _ sq dq key); [split|..].
  - by apply (dkg_done_same p).
  - done.
  - done.
  - done.
  - by apply signers_ok_map.
  - by apply map_Forall_fmap.
  - simpl. etrans; [exact Hp|]. rewrite (qcount_fmap _ _ signed) by done.
    apply Z.eq_le_incl, qcount_ext. intros k x Hx. simpl. by destruct (Hall k x Hx) as [_ ->].
Qed.

(** An update of one participant keeps the base of the stage. *)
Lemma with_signer_base t id y q c sc p sq dq key :
  signing_base p sq dq key c → pay_SignatureProposalPayload p = Some sc →
  signing_base (with_signer t id y q c sc p) sq dq key (nc_set_quorum (Some (<[id := y]> q)) c).
Proof.
  intros [Hd Hc Hu] Hsc. split; [|done|done]. apply (dkg_done_same p); try done. simpl. by rewrite Hsc.
Qed.

Lemma signing_base_sig p sq dq key c :
  signing_base p sq dq key c → ∃ sc, pay_SignatureProposalPayload p = Some sc.
Proof.
  intros [[[[Hq _ _ _ _ _] _ _ _ _] _ _] _ _]. destruct (pay_SignatureProposalPayload p); [eauto|done].
Qed.

Lemma signed_len m x : signed (np_set_signs (Some m) x) = bool_decide (m ≠ ∅).
Proof.
  unfold signed. simpl. destruct (Z.ltb_spec 0 (Z.of_nat (size m))) as [H|H].
  - symmetry. apply bool_decide_eq_true. intros ->. rewrite map_size_empty in H. lia.
  - symmetry. apply bool_decide_eq_false. intros Hn. apply Hn. apply map_size_empty_iff. lia.
Qed.

Lemma received_signer p sq dq key c q sc args o out d :
  signing_base p sq dq key c → nc_Quorum c = Some q → signers_ok dq q →
  map_Forall (fun _ x => signer_ok x) q → pay_SignatureProposalPayload p = Some sc →
  actionPartialSignConfirmationReceived EventSigningPartialSignReceived args (Some p) =
    Ret (o, (out, d, None)) →
  out = "" ∧ ∃ p1 c1 q1, o = Some p1 ∧ signing_base p1 sq dq key c1 ∧ nc_Quorum c1 = Some q1 ∧
    signers_ok dq q1 ∧ map_Forall (fun _ x => signer_ok x) q1.
Proof.
  intros Hb Hq Hs Hall Hsc Ha.
  destruct (actionPartialSign_inv _ _ _ _ _ _ c q sc (sb_conf _ _ _ _ _ Hb) Hq Hsc Ha)
    as (r & x & m & -> & Hx & Hst & -> & -> & Hm & Hne & ->).
  split; [done|]. do 3 eexists. split; [done|]. split; [by apply with_signer_base|].
  split; [done|]. split; [by eapply signers_ok_insert|]. apply map_Forall_insert_2; [|done].
  split; [done|]. destruct (bp_PartialSigns r) as [|ps l] eqn:Hl; [done|].
  change (signed _) with (signed (np_set_signs (Some m) x)). rewrite signed_len.
  apply bool_decide_eq_true_2. intros ->. destruct (proj2 (Hm (ps_MessageID ps))) as [? Hlk].
  { right. simpl. by left. }
  by rewrite lookup_empty in Hlk.
Qed.

Lemma failed_signer p sq dq key c q sc args o out d :
  signing_base p sq dq key c → nc_Quorum c = Some q → signers_ok dq q →
  map_Forall (fun _ x => signer_ok x) q → pay_SignatureProposalPayload p = Some sc →
  actionConfirmationError EventSigningPartialSignError args (Some p) = Ret (o, (out, d, None)) →
  out = "" ∧ ∃ p1 c1 q1, o = Some p1 ∧ signing_base p1 sq dq key c1 ∧ nc_Quorum c1 = Some q1 ∧
    signers_ok dq q1 ∧ map_Forall (fun _ x => signer_ok x) q1.
Proof.
  intros Hb Hq Hs Hall Hsc Ha.
  destruct (actionSigningError_inv _ _ _ _ _ c q sc (sb_conf _ _ _ _ _ Hb) Hq Hsc Ha)
    as (r & x & m & -> & Hx & Hst & -> & -> & Hm & ->).
  split; [done|]. do 3 eexists. split; [done|]. split; [by apply with_signer_base|].
  split; [done|]. split; [by eapply signers_ok_insert|]. apply map_Forall_insert_2; [|done].
  split; [done|]. destruct (Hall _ _ Hx) as [_ Hsg]. unfold signed, has_signing_status in *.
  simpl. rewrite Hm, Hsg, Hst. done.
Qed.

Lemma start_signers p sq dq key c args o out d :
  signing_base p sq dq key c →
  actionStartSigningProposal EventSigningStart args (Some p) = Ret (o, (out, d, None)) →
  out = EventSigningStart ∧
  ∃ p1 c1 q1, o = Some p1 ∧ signing_base p1 sq dq key c1 ∧ nc_Quorum c1 = Some q1 ∧
    signers_ok dq q1 ∧ map_Forall (fun _ x => signer_ok x) q1.
Proof.
  intros [Hd Hc Hu] Ha. pose proof Hd as [[_ _ Hq _ Hm] _ _].
  destruct (pay_DKGProposalPayload p) as [dc|] eqn:Hdc; simplify_eq/=.
  assert (∀ id x, dq !! id = Some x → dp_ParticipantID x = id) as Hids by (intros id x Hx; by apply Hm).
  destruct (actionStart_inv _ _ _ _ _ _ c dc dq Hc Hdc Hq Hids Ha) as (r & src & -> & _ & -> & ->).
  split; [done|]. do 3 eexists. split; [done|]. split.
  { split; [|done|done]. by apply (dkg_done_same p). }
  split; [done|]. split; [apply initial_signers_ok|]. intros id x Hx.
  destruct (initial_signers_await r dq id x Hx) as [Hs Hn]. unfold signer_ok, signed, has_signing_status.
  by rewrite Hs, Hn.
Qed.

Lemma init_signing p args o out d sq dq key :
  dkg_done p sq dq key →
  actionInitSigningProposal EventSigningInit args (Some p) = Ret (o, (out, d, None)) →
  out = "" ∧ ∃ p1 c, o = Some p1 ∧ signing_base p1 sq dq key c.
Proof.
  intros Hd H. unfold actionInitSigningProposal, payload, set_payload in H. act_unfold H.
  destruct args as [|a [|]]; try done. destruct a; try done. simpl in H.
  destruct (DefaultRequest_Validate r); simplify_eq/=. split; [done|].
  do 2 eexists. split; [done|]. split; [by apply (dkg_done_same p)|done|done].
Qed.

(** A batch whose quorum is well-formed is validated. *)
Lemma batch_finish p sq dq key c q S e args out d :
  signing_base p sq dq key c → nc_Quorum c = Some q → signers_ok dq q →
  map_Forall (fun _ x => signer_ok x) q →
  DstState <$> find_desc events S (move_event e out) = Some StateSigningAwaitPartialSigns →
  ∃ s' p1 r, finish events callbacks S e args (Some p) out d = Ret (s', Some p1, (Some r, None)) ∧
    signing_inv p1 s'.
Proof.
  intros Hb Hq Hs Hall (d' & Hd' & Hdst)%fmap_Some.
  destruct (auto_signing p sq dq key c q args d Hb Hq Hs Hall) as (s2 & p2 & r & Hauto & _ & Hi).
  unfold finish. rewrite Hd', <-Hdst, Hauto. simpl. eauto.
Qed.

(** Steps that lead to the idle state. *)
Lemma idle_finish p sq dq key c S e args out d :
  signing_base p sq dq key c →
  DstState <$> find_desc events S (move_event e out) = Some StateSigningIdle →
  ∃ s' p1 r, finish events callbacks S e args (Some p) out d = Ret (s', Some p1, (Some r, None)) ∧
    signing_inv p1 s'.
Proof.
  intros Hb (d' & Hd' & Hdst)%fmap_Some. unfold finish. rewrite Hd', <-Hdst. unfold spec_auto.
  table_goal. simpl. do 3 eexists. split; [done|]. by eapply signing_inv_idle.
Qed.

Lemma restart_inv p args o out d :
  call callbacks EventSigningRestart args (Some p) = Ret (o, (out, d, None)) → o = Some p ∧ out = "".
Proof. intros H. by injection H as <- <- <-. Qed.

(** What follows an accepted callback, in every state. *)
Lemma signing_finish s p d e args o out data :
  signing_inv p s → find_desc events s e = Some d → IsInternal d = false →
  call callbacks e args (Some p) = Ret (o, (out, data, None)) →
  ∃ s' p1 r, finish events callbacks s e args o out data = Ret (s', Some p1, (Some r, None)) ∧
    signing_inv p1 s'.
Proof.
  intros Hinv Hd Hi Ha. desc_cases Hd; try discriminate Hi; inversion Hinv; simplify_eq.
  - match goal with Hs : dkg_inv _ _ |- _ => inversion Hs; simplify_eq end.
    match goal with Hd : dkg_done _ _ _ _ |- _ =>
      destruct (init_signing _ _ _ _ _ _ _ _ Hd Ha) as (-> & p1 & c & -> & Hb) end.
    by eapply idle_finish.
  - match goal with Hb : signing_base _ _ _ _ _ |- _ =>
      destruct (start_signers _ _ _ _ _ _ _ _ _ Hb Ha)
        as (-> & p1 & c1 & q1 & -> & Hb1 & Hq & Hs & Hall) end. by eapply batch_finish.
  - match goal with
    | Hb : signing_base _ _ _ _ _, Hq : nc_Quorum _ = _, Hs : signers_ok _ _,
      Hall : map_Forall _ _ |- _ =>
        destruct (signing_base_sig _ _ _ _ _ Hb) as [sc Hsc];
        destruct (received_signer _ _ _ _ _ _ _ _ _ _ _ Hb Hq Hs Hall Hsc Ha)
          as (-> & p1 & c1 & q1 & -> & Hb1 & Hq1 & Hs1 & Hall1) end. by eapply batch_finish.
  - match goal with
    | Hb : signing_base _ _ _ _ _, Hq : nc_Quorum _ = _, Hs : signers_ok _ _,
      Hall : map_Forall _ _ |- _ =>
        destruct (signing_base_sig _ _ _ _ _ Hb) as [sc Hsc];
        destruct (failed_signer _ _ _ _ _ _ _ _ _ _ _ Hb Hq Hs Hall Hsc Ha)
          as (-> & p1 & c1 & q1 & -> & Hb1 & Hq1 & Hs1 & Hall1) end. by eapply batch_finish.
  - apply restart_inv in Ha as [-> ->]. by eapply idle_finish.
  - apply restart_inv in Ha as [-> ->]. by eapply idle_finish.
  - apply restart_inv in Ha as [-> ->]. by eapply idle_finish.
Qed.

(** ** The stage never panics *)

Lemma actionPartialSign_total e args p c q sc :
  pay_SigningProposalPayload p = Some c → nc_Quorum c = Some q →
  pay_SignatureProposalPayload p = Some sc →
  total_on same_payload actionPartialSignConfirmationReceived e args (Some p).
Proof.
  intros Hc Hq Hsc. unfold total_on, actionPartialSignConfirmationReceived, payload, set_payload,
    SigningQuorumExists, touch_signature. act_run.
  destruct args as [|a [|]]; [by do 4 eexists| |by do 4 eexists].
  destruct (as_PartialSigns a) as [r|]; [simpl|by do 4 eexists].
  destruct (SigningProposalBatchPartialSignRequests_Validate r); [by do 4 eexists|]. simpl.
  rewrite Hc. simpl. rewrite Hq. simpl.
  destruct (q !! bp_ParticipantId r) as [x|] eqn:Hx; simpl; [|by do 4 eexists].
  destruct (SigningQuorumGet_spec p _ c q x Hc Hq Hx) as
    (p' & x' & Hget & Hsame & Hst & [m Hm] & [c' Hc'] & Hsc'). rewrite Hget. simpl.
  destruct (bool_decide (np_Status x' = _)); simpl; [|by do 4 eexists].
  rewrite Hm. destruct (add_partial_signs_spec (bp_PartialSigns r) m) as (m' & Hf & _). rewrite Hf.
  simpl. unfold SigningQuorumUpdate. rewrite Hc'. simpl. rewrite Hsc', Hsc. simpl. by do 4 eexists.
Qed.

Lemma actionSigningError_total e args p c q sc :
  pay_SigningProposalPayload p = Some c → nc_Quorum c = Some q →
  pay_SignatureProposalPayload p = Some sc →
  total_on same_payload actionConfirmationError e args (Some p).
Proof.
  intros Hc Hq Hsc. unfold total_on, actionConfirmationError, payload, set_payload,
    SigningQuorumExists, touch_signature. act_run.
  destruct args as [|a [|]]; [by do 4 eexists| |by do 4 eexists].
  destruct (as_SignatureError a) as [r|]; [simpl|by do 4 eexists].
  destruct (SignatureProposalConfirmationErrorRequest_Validate r); [by do 4 eexists|]. simpl.
  rewrite Hc. simpl. rewrite Hq. simpl.
  destruct (q !! se_ParticipantId r) as [x|] eqn:Hx; simpl; [|by do 4 eexists].
  destruct (SigningQuorumGet_spec p _ c q x Hc Hq Hx) as
    (p' & x' & Hget & Hsame & Hst & [m Hm] & [c' Hc'] & Hsc'). rewrite Hget. simpl.
  destruct (signing_error e (np_Status x')) as [st|[[out d] err]]; simpl; [|by do 4 eexists].
  unfold SigningQuorumUpdate. rewrite Hc'. simpl. rewrite Hsc', Hsc. simpl. by do 4 eexists.
Qed.

Lemma actionStart_total e args p c dc :
  pay_SigningProposalPayload p = Some c → pay_DKGProposalPayload p = Some dc →
  total_on same_payload actionStartSigningProposal e args (Some p).
Proof.
  intros Hc Hdc. unfold total_on, actionStartSigningProposal, payload, set_payload. act_run.
  destruct args as [|a [|]]; [by do 4 eexists| |by do 4 eexists].
  destruct (as_SigningStart a) as [r|]; [simpl|by do 4 eexists].
  destruct (SigningBatchProposalStartRequest_Validate r); [by do 4 eexists|]. simpl.
  destruct (marshal (bs_SigningTasks r)); [simpl|by do 4 eexists]. rewrite Hc. simpl. rewrite Hdc. simpl.
  destruct (GetOrdered dp_set_id _) as [dq l]. destruct (GetOrdered np_set_id _). by do 4 eexists.
Qed.

Lemma actionInitSigning_total e args p :
  total_on same_payload actionInitSigningProposal e args (Some p).
Proof.
  unfold total_on, actionInitSigningProposal, payload, set_payload. act_run.
  destruct args as [|a [|]]; [by do 4 eexists| |by do 4 eexists].
  destruct (as_DefaultRequest a) as [r|]; [simpl|by do 4 eexists].
  destruct (DefaultRequest_Validate r); by do 4 eexists.
Qed.

Lemma signing_base_dkg p sq dq key c :
  signing_base p sq dq key c → ∃ dc, pay_DKGProposalPayload p = Some dc.
Proof. intros [[Hd _ _] _ _]. by eapply dkg_ok_conf. Qed.

Lemma signing_total s p d e args :
  signing_inv p s → find_desc events s e = Some d → IsInternal d = false →
  total_on same_payload (call callbacks) e args (Some p).
Proof.
  intros Hinv Hd Hi. desc_cases Hd; try discriminate Hi; inversion Hinv; simplify_eq;
    try match goal with Hb : signing_base _ _ _ _ _ |- _ =>
      destruct (signing_base_sig _ _ _ _ _ Hb) as [sc Hsc];
      destruct (signing_base_dkg _ _ _ _ _ Hb) as [dc Hdc];
      pose proof (sb_conf _ _ _ _ _ Hb) as Hc end.
  - exact (actionInitSigning_total _ args p).
  - exact (actionStart_total EventSigningStart args p _ dc Hc Hdc).
  - match goal with Hq : nc_Quorum _ = _ |- _ =>
      exact (actionPartialSign_total EventSigningPartialSignReceived args p _ _ sc Hc Hq Hsc) end.
  - match goal with Hq : nc_Quorum _ = _ |- _ =>
      exact (actionSigningError_total EventSigningPartialSignError args p _ _ sc Hc Hq Hsc) end.
  - by do 4 eexists.
  - by do 4 eexists.
  - by do 4 eexists.
Qed.

Lemma Signing_New_ok : ∃ f, New = Ret f.
Proof.
  destruct New as [f|] eqn:H; [by exists f|].
  assert (match New with Ret _ => true | Panic _ => false end = true) as Hr by by vm_compute.
  by rewrite H in Hr.
Qed.
End facts.
