(* ===== verification/StateMachines.v ===== *)
(** * FSM instances and their dumps, [fsm/state_machines/provider.go]

    An instance is a machine and the dump it works on. Machines are taken from
    a pool of the three stages, by the state of the dump. *)

From S2P Require Import Prelude GoFsm Requests Payload FsmPool.
From S2P Require Import SignatureProposal DkgProposal SigningProposal.

Record FSMDump : Type := mk_FSMDump {
  TransactionId : string;
  dump_State : State;
  dump_Payload : option DumpedMachineStatePayload
}.

(** The machine's payload pointer is the one of the dump it was set up with:
    the payload is kept once, in the dump. *)
Record FSMInstance : Type := mk_FSMInstance {
  machine : option Machine;
  dump : option FSMDump
}.

Definition new_instance : FSMInstance := mk_FSMInstance None None.

Definition InitDump (i : FSMInstance) (dkgID : string) : FSMInstance * option error :=
  match dump i with
  | Some _ => (i, Some (Err "dump already initialized"))
  | None =>
      let dkgID := TrimSpace dkgID in
      if dkgID =s? "" then (i, Some (Err "empty {dkgID}"))
      else
        (mk_FSMInstance (machine i)
           (Some (mk_FSMDump dkgID StateGlobalIdle
              (Some (mk_DumpedMachineStatePayload dkgID 0 None None None None None)))), None)
  end.

(** ** The three stages *)

Inductive Stage : Type := Sig | Dkg | Signing.

#[export] Instance Stage_eq_dec : EqDecision Stage.
Proof. solve_decision. Defined.

Section instances.
Context {ord : MapOrder} {json_tasks : JSON (list SigningTask)} {json_dump : JSON FSMDump}.

(** [fsm_pool.Init(signature_proposal_fsm.New(), dkg_proposal_fsm.New(),
    signing_proposal_fsm.New())] *)
Definition fsmPoolProvider : Go (FSMPool Machine) :=
  sig ← SignatureProposal.New;
  dkg ← DkgProposal.New;
  signing ← SigningProposal.New;
  Init [Some sig; Some dkg; Some signing].

(** The type assertion on the [nil] interface that [EntryPointMachine] returns
    with an error panics. *)
Definition Create (dkgID : string) : Go (FSMInstance + error) :=
  match InitDump new_instance dkgID with
  | (_, Some err) => Ret (inr err)
  | (i, None) =>
      pool ← fsmPoolProvider;
      match EntryPointMachine pool with
      | inr _ => Panic "interface conversion: interface is nil"
      | inl m =>
          d ← deref (dump i);
          m ← WithSetup (dump_State d) m;
          Ret (inl (mk_FSMInstance (Some m) (dump i)))
      end
  end.

Definition FromDump (data : bytes) : Go (FSMInstance + error) :=
  if slen data <? 2 then Ret (inr (Err "machine dump is empty"))
  else
    pool ← fsmPoolProvider;
    match unmarshal data with
    | None => Ret (inr (Wrap "cannot read machine dump" (Err "json")))
    | Some d =>
        match MachineByState pool (dump_State d) with
        | inr err => Ret (inr err)
        | inl m =>
            m ← WithSetup (dump_State d) m;
            Ret (inl (mk_FSMInstance (Some m) (Some d)))
        end
    end.

Definition FSMInstance_GetPubKeyByUsername (i : FSMInstance) (username : string)
  : Go (bytes + error) :=
  match dump i with
  | None => Ret (inr (Err "dump not initialized"))
  | Some d => p ← deref (dump_Payload d); Ret (GetPubKeyByUsername p username)
  end.

Definition FSMInstance_GetIDByUsername (i : FSMInstance) (username : string) : Go (Z + error) :=
  match dump i with
  | None => Ret (inr (Err "dump not initialized"))
  | Some d => p ← deref (dump_Payload d); Ret (GetIDByUsername p username)
  end.

(** [FSMDump.Marshal]; the caller below drops its error. *)
Definition FSMDump_Marshal (d : FSMDump) : option bytes := marshal d.

Definition FSMInstance_Do (i : FSMInstance) (event : Event) (args : list Request)
  : Go (FSMInstance * (option (Response RespData) * bytes * option error)) :=
  match machine i with
  | None => Ret (i, (None, "", Some (Err "machine is not initialized")))
  | Some m =>
      d ← deref (dump i);
      '(m, p, (result, err)) ← Do m event args (dump_Payload d);
      let d := mk_FSMDump (TransactionId d) (dump_State d) p in
      match result with
      | None => Ret (mk_FSMInstance (Some m) (Some d), (None, "", err))
      | Some r =>
          let d := mk_FSMDump (TransactionId d) (rs_State r) p in
          let i := mk_FSMInstance (Some m) (Some d) in
          match FSMDump_Marshal d with
          | None => Ret (i, (result, "", err))
          | Some b => Ret (i, (result, b, err))
          end
      end
  end.

Definition FSMInstance_State (i : FSMInstance) : State + error :=
  match machine i with
  | None => inr (Err "machine is not initialized")
  | Some m => inl (currentState m)
  end.

Definition FSMInstance_Id (i : FSMInstance) : string :=
  match dump i with Some d => TransactionId d | None => "" end.

Definition FSMInstance_Dump (i : FSMInstance) : bytes + error :=
  match dump i with
  | None => inr (Err "dump is not initialized")
  | Some d =>
      match FSMDump_Marshal d with
      | Some b => inl b
      | None => inr (Err "json")
      end
  end.

Definition stage_name (st : Stage) : string :=
  match st with
  | Sig => SignatureProposal.FsmName
  | Dkg => DkgProposal.FsmName
  | Signing => SigningProposal.FsmName
  end.
Definition stage_init (st : Stage) : State :=
  match st with
  | Sig => StateGlobalIdle
  | Dkg => DkgProposal.StateDkgInitial
  | Signing => SigningProposal.StateSigningInitial
  end.
Definition stage_events (st : Stage) : list EventDesc :=
  match st with
  | Sig => SignatureProposal.events
  | Dkg => DkgProposal.events
  | Signing => SigningProposal.events
  end.
Definition stage_callbacks (st : Stage) : list (Event * Action) :=
  match st with
  | Sig => SignatureProposal.callbacks
  | Dkg => DkgProposal.callbacks
  | Signing => SigningProposal.callbacks
  end.
Definition stage_New (st : Stage) : Go Machine :=
  match st with
  | Sig => SignatureProposal.New
  | Dkg => DkgProposal.New
  | Signing => SigningProposal.New
  end.

(** What an instance runs: the machine of a stage in a state. *)
Definition runs (st : Stage) (s : State) (m : Machine) : Prop :=
  ∃ f, stage_New st = Ret f ∧ m = with_state f s.

Lemma stage_New_MustNewFSM st :
  stage_New st = MustNewFSM (stage_name st) (stage_init st) (stage_events st) (stage_callbacks st).
Proof. by destruct st. Qed.

#[local] Opaque SignatureProposal.New DkgProposal.New SigningProposal.New.

Lemma stage_New_ok st : ∃ f, stage_New st = Ret f.
Proof.
  destruct st; cbn [stage_New].
  - exact SignatureProposal.New_ok.
  - exact DkgProposal.DKG_New_ok.
  - exact SigningProposal.Signing_New_ok.
Qed.

Lemma stage_constructed st f :
  stage_New st = Ret f →
  constructed (stage_name st) (stage_init st) (stage_events st) (stage_callbacks st) f.
Proof. rewrite stage_New_MustNewFSM. apply MustNewFSM_constructed. Qed.

Lemma stage_autos_after st : autos_after (stage_events st).
Proof. destruct st; repeat constructor; done. Qed.

(** [Do] on the machine of a stage is the stage's step function. *)
Lemma runs_Do st s m e args p :
  runs st s m →
  ∃ f, stage_New st = Ret f ∧
    Do m e args p =
      ('(s', p', r) ← spec_do (stage_events st) (stage_callbacks st) s e args p;
       Ret (with_state f s', p', r)).
Proof.
  intros (f & Hf & ->). exists f. split; [done|].
  apply Do_refines_spec with (1 := stage_constructed st f Hf), stage_autos_after.
Qed.

(** C22. The three machines are what their tables say: construction succeeds,
    and [Do] in any state, on any event, arguments and payload, is the step
    function of the table, the automatic event included. *)
Theorem stage_machines_refine_tables st s e args p :
  ∃ f, stage_New st = Ret f ∧ name f = stage_name st ∧ initialState f = stage_init st ∧
    Do (with_state f s) e args p =
      ('(s', p', r) ← spec_do (stage_events st) (stage_callbacks st) s e args p;
       Ret (with_state f s', p', r)).
Proof.
  destruct (stage_New_ok st) as [f Hf]. pose proof (stage_constructed st f Hf) as Hc.
  exists f. split; [exact Hf|]. split; [apply (c_name _ _ _ _ _ Hc)|]. split; [apply (c_initial _ _ _ _ _ Hc)|].
  apply (Do_refines_spec Hc), stage_autos_after.
Qed.

(** ** The pool of the three machines *)

(** The states a stage's machine can be set up with. *)
Definition handles (st : Stage) (s : State) : Prop := ∃ tr, listed (stage_events st) s tr.

Lemma stage_states_spec st f s :
  stage_New st = Ret f → s ∈ StatesList f ↔ handles st s.
Proof.
  intros Hf. pose proof (stage_constructed st f Hf) as Hc. rewrite elem_of_StatesList. split.
  - intros (e & tr & H). apply (c_transitions _ _ _ _ _ Hc) in H as [_ ?]. by exists tr.
  - intros [tr H]. exists (tr_event tr), tr. by apply (c_transitions _ _ _ _ _ Hc).
Qed.

Lemma fsmPoolProvider_Init f1 f2 f3 :
  stage_New Sig = Ret f1 → stage_New Dkg = Ret f2 → stage_New Signing = Ret f3 →
  fsmPoolProvider = Init [Some f1; Some f2; Some f3].
Proof.
  cbn [stage_New]. intros H1 H2 H3. unfold fsmPoolProvider. rewrite H1, H2, H3. reflexivity.
Qed.

Lemma fsmPoolProvider_ok : ∃ p, fsmPoolProvider = Ret p.
Proof.
  destruct fsmPoolProvider as [p|w] eqn:Hp; [by exists p|].
  assert (match fsmPoolProvider with Ret _ => true | Panic _ => false end = true) as Hr
    by by vm_compute.
  by rewrite Hp in Hr.
Qed.

Lemma pool_ok :
  ∃ p ms, fsmPoolProvider = Ret p ∧ indexes ms p ∧ (∀ m, m ∈ ms ↔ ∃ st, stage_New st = Ret m).
Proof.
  destruct (stage_New_ok Sig) as [f1 H1], (stage_New_ok Dkg) as [f2 H2], (stage_New_ok Signing) as [f3 H3].
  destruct fsmPoolProvider_ok as [p Hp]. pose proof Hp as Hi.
  rewrite (fsmPoolProvider_Init f1 f2 f3 H1 H2 H3) in Hi.
  assert (∀ m, m ∈ [f1; f2; f3] ↔ ∃ st, stage_New st = Ret m) as Hms.
  { intros m. rewrite !elem_of_cons, elem_of_nil. split.
    - intros [->|[->|[->|[]]]]; [exists Sig; exact H1|exists Dkg; exact H2|exists Signing; exact H3].
    - intros [[] Hst]; [rewrite H1 in Hst|rewrite H2 in Hst|rewrite H3 in Hst];
        injection Hst as <-; [by left|by right; left|by right; right; left]. }
  destruct (Init_indexes [Some f1; Some f2; Some f3] p) as (ms & Heq & Hix); [|exact Hi|].
  - intros m Hm. assert (m ∈ [f1; f2; f3]) as Hm' by (apply (list_elem_of_fmap_inj_2 Some); exact Hm).
    apply Hms in Hm' as [st Hst].
    exact (constructed_provider_ok _ _ _ _ _ (stage_constructed st m Hst)).
  - exists p, ms. split; [exact Hp|]. split; [exact Hix|].
    assert (ms = [f1; f2; f3]) as -> by (apply (inj (fmap Some)); symmetry; exact Heq). exact Hms.
Qed.
End instances.
