(* ===== verification/Protocol.v ===== *)
(** * The life of a round

    Instances as the node uses them: created once, then loaded from the dump
    of the previous event, sent one event, and dumped again. The invariants of
    the three stages hold along every such life. *)

From S2P Require Import Prelude GoFsm Requests Payload FsmPool.
From S2P Require Import SignatureProposal DkgProposal SigningProposal StateMachines.

Section protocol.
Context {ord : MapOrder} {json_tasks : JSON (list SigningTask)} {json_dump : JSON FSMDump}
  {json_spec : JSONSpec FSMDump}.

(** ** Stages and states *)

(** The source states of each machine, the states a dump can be loaded in. *)
Definition stage_states (st : Stage) : list State :=
  match st with
  | Sig => [StateParticipantsConfirmationsInit; StateAwaitParticipantsConfirmations]
  | Dkg =>
      [StateDkgInitial; StateDkgCommitsAwaitConfirmations; StateDkgCommitsAwaitCanceledByError;
       StateDkgDealsAwaitConfirmations; StateDkgDealsAwaitCanceledByError;
       StateDkgResponsesAwaitConfirmations; StateDkgResponsesAwaitCanceledByError;
       StateDkgMasterKeyAwaitConfirmations; StateDkgMasterKeyAwaitCanceledByError]
  | Signing =>
      [StateSigningInitial; StateSigningIdle; StateSigningAwaitPartialSigns;
       StateSigningPartialSignsCollected; StateSigningPartialSignsAwaitCancelledByTimeout;
       StateSigningPartialSignsAwaitCancelledByError]
  end.

(** Two lists of states without a common one. *)
Definition disjointb (l1 l2 : list State) : bool :=
  forallb (fun s => negb (bool_decide (s ∈ l2))) l1.

Lemma disjointb_spec l1 l2 s : disjointb l1 l2 = true → s ∈ l1 → s ∈ l2 → False.
Proof.
  unfold disjointb. rewrite forallb_forall. intros H H1%list_elem_of_In H2.
  specialize (H s H1). by rewrite bool_decide_eq_true_2 in H.
Qed.

Definition includedb (l1 l2 : list State) : bool := forallb (fun s => bool_decide (s ∈ l2)) l1.

Lemma includedb_spec l1 l2 s : includedb l1 l2 = true → s ∈ l1 → s ∈ l2.
Proof.
  unfold includedb. rewrite forallb_forall. intros H H1%list_elem_of_In.
  specialize (H s H1). by apply bool_decide_eq_true in H.
Qed.

Definition sources (events : list EventDesc) : list State :=
  filter (fun s => s ≠ "") (mjoin (SrcState <$> events)).

Lemma handles_sources st s : handles st s ↔ s ∈ sources (stage_events st).
Proof.
  unfold handles, listed, sources. rewrite list_elem_of_filter, list_elem_of_join.
  setoid_rewrite list_elem_of_fmap. split.
  - intros (tr & d & Hd & Hs & Hne & _). split; [done|]. by exists (SrcState d); eauto.
  - intros (Hne & l & Hs & d & -> & Hd). exists (tr_of d), d. done.
Qed.

Lemma handles_states st s : handles st s ↔ s ∈ stage_states st.
Proof.
  rewrite handles_sources.
  split; apply includedb_spec; destruct st; vm_compute; reflexivity.
Qed.

Definition stage_inv (st : Stage) (p : DumpedMachineStatePayload) (s : State) : Prop :=
  match st with
  | Sig => sig_inv p s
  | Dkg => dkg_inv p s
  | Signing => signing_inv p s
  end.

(** What follows an accepted callback. *)
Lemma stage_finish st s p d e args o out data :
  stage_inv st p s → find_desc (stage_events st) s e = Some d → IsInternal d = false →
  call (stage_callbacks st) e args (Some p) = Ret (o, (out, data, None)) →
  ∃ s' p1 r, finish (stage_events st) (stage_callbacks st) s e args o out data =
    Ret (s', Some p1, (Some r, None)) ∧ stage_inv st p1 s'.
Proof.
  destruct st; cbn [stage_inv stage_events stage_callbacks].
  - apply sig_finish.
  - apply dkg_finish.
  - apply signing_finish.
Qed.

(** An accepted event keeps the invariant of its stage. *)
Lemma stage_step st s p e args s' p' resp :
  stage_inv st p s →
  spec_do (stage_events st) (stage_callbacks st) s e args (Some p) = Ret (s', p', (resp, None)) →
  ∃ p1, p' = Some p1 ∧ stage_inv st p1 s'.
Proof.
  intros Hinv (d & o & out & data & Hd & Hi & Hc & Hf)%spec_do_accepted.
  destruct (stage_finish _ _ _ _ _ _ _ _ _ Hinv Hd Hi Hc) as (s1 & p1 & r & Heq & Hinv1).
  rewrite Heq in Hf. simplify_eq. eauto.
Qed.

Lemma stage_total st s p d e args :
  stage_inv st p s → args_present args → find_desc (stage_events st) s e = Some d →
  IsInternal d = false → total_on same_payload (call (stage_callbacks st)) e args (Some p).
Proof.
  intros Hinv Hargs Hd Hi.
  destruct st; cbn [stage_inv stage_events stage_callbacks] in *.
  - destruct (sig_total _ _ _ _ _ Hinv Hargs Hd Hi) as (o & out & data & err & Hc & He).
    do 4 eexists. split; [exact Hc|]. intros ->%He. done.
  - destruct (dkg_total _ _ _ _ args Hinv Hd Hi) as (o & out & data & err & Hc & He).
    do 4 eexists. split; [exact Hc|]. intros ->%He. done.
  - exact (signing_total _ _ _ _ args Hinv Hd Hi).
Qed.

(** Every event is answered; an error changes neither state nor payload, up to
    the allocation of empty maps. *)
Lemma stage_progress st s p e args :
  stage_inv st p s → args_present args →
  ∃ s' p' resp err,
    spec_do (stage_events st) (stage_callbacks st) s e args (Some p) = Ret (s', p', (resp, err)) ∧
    match err with
    | Some _ => s' = s ∧ same_payload p' (Some p)
    | None => ∃ p1, p' = Some p1 ∧ stage_inv st p1 s'
    end.
Proof.
  intros Hinv Hargs.
  apply (spec_do_progress _ _ (fun p' s' => ∃ p1, p' = Some p1 ∧ stage_inv st p1 s')); [done|].
  intros d Hd Hi. split; [by eapply stage_total|]. intros o out data Hc.
  destruct (stage_finish _ _ _ _ _ _ _ _ _ Hinv Hd Hi Hc) as (s1 & p1 & r & Heq & Hinv1).
  do 3 eexists. split; [exact Heq|]. eauto.
Qed.

(** The states of the invariants. *)
Lemma sig_inv_states p s :
  sig_inv p s → s ∈ stage_states Sig ∨
    s ∈ [StateValidationCanceledByParticipant; StateValidationCanceledByTimeout; StateDkgInitial].
Proof. intros []; cbn [stage_states]; rewrite !elem_of_cons; unfold StateDkgInitial; auto 10. Qed.

Lemma dkg_inv_states p s :
  dkg_inv p s → s ∈ stage_states Dkg ∨
    s ∈ [StateDkgCommitsAwaitCanceledByTimeout; StateDkgDealsAwaitCanceledByTimeout;
         StateDkgResponsesAwaitCanceledByTimeout; StateDkgMasterKeyAwaitCanceledByTimeout;
         StateSigningInitial].
Proof. intros []; cbn [stage_states]; unfold StateSigningInitial; rewrite !elem_of_cons; auto 20. Qed.

Lemma signing_inv_states p s : signing_inv p s → s ∈ stage_states Signing.
Proof. intros []; cbn [stage_states]; rewrite !elem_of_cons; auto 10. Qed.

(** Handing a round over to the machine of its state. *)
Lemma handover st st' p s : stage_inv st p s → handles st' s → stage_inv st' p s.
Proof.
  rewrite handles_states. intros Hi Hs. destruct (decide (st = st')) as [-> |Hne]; [done|].
  destruct st; cbn [stage_inv] in Hi.
  - apply sig_inv_states in Hi as Hst. destruct Hst as [Hst|Hst].
    { exfalso. destruct st'; [done|..]; refine (disjointb_spec _ _ s _ Hst Hs); vm_compute; reflexivity. }
    destruct st'; [done| |].
    + cbn [stage_inv]. rewrite !elem_of_cons, elem_of_nil in Hst. destruct Hst as [->|[->|[->|[]]]].
      * exfalso. revert Hs. apply (bool_decide_eq_false_1 (_ ∈ _)). reflexivity.
      * exfalso. revert Hs. apply (bool_decide_eq_false_1 (_ ∈ _)). reflexivity.
      * by apply dkg_inv_initial.
    + exfalso. refine (disjointb_spec _ _ s _ Hst Hs); vm_compute; reflexivity.
  - apply dkg_inv_states in Hi as Hst. destruct Hst as [Hst|Hst].
    { exfalso. destruct st'; [|done|]; refine (disjointb_spec _ _ s _ Hst Hs); vm_compute; reflexivity. }
    destruct st'; [|done|].
    + exfalso. refine (disjointb_spec _ _ s _ Hst Hs); vm_compute; reflexivity.
    + cbn [stage_inv]. rewrite !elem_of_cons, elem_of_nil in Hst.
      destruct Hst as [->|[->|[->|[->|[->|[]]]]]];
        try (exfalso; revert Hs; apply (bool_decide_eq_false_1 (_ ∈ _)); reflexivity).
      by apply signing_inv_initial.
  - exfalso. apply signing_inv_states in Hi. destruct st'; [..|done];
      refine (disjointb_spec _ _ s _ Hi Hs); vm_compute; reflexivity.
Qed.

(** ** Instances *)

(** An instance runs the machine of a stage, in the state of its dump, on a
    payload that satisfies the stage's invariant. *)
Definition inst_ok (i : FSMInstance) : Prop :=
  ∃ st m d p, machine i = Some m ∧ dump i = Some d ∧ dump_Payload d = Some p ∧
    runs st (dump_State d) m ∧ stage_inv st p (dump_State d).

#[local] Opaque SignatureProposal.New DkgProposal.New SigningProposal.New.

Lemma WithSetup_runs st f s : stage_New st = Ret f → handles st s →
  WithSetup s f = Ret (with_state f s).
Proof.
  intros Hf Hs. unfold WithSetup, MustCopyWithState.
  assert (s ≠ "") as Hne by (destruct Hs as (tr & d & _ & _ & ? & _); done).
  rewrite (proj2 (seqb_false s "") Hne), bool_decide_eq_true_2; [reflexivity|].
  by apply (stage_states_spec st f s Hf).
Qed.

(** The machine of a state is found exactly when some stage handles it. *)
Lemma MachineByState_spec p ms s m :
  indexes ms p → (∀ m, m ∈ ms ↔ ∃ st, stage_New st = Ret m) →
  MachineByState p s = inl m ↔ ∃ st, stage_New st = Ret m ∧ handles st s.
Proof.
  intros Hix Hms. rewrite (ix_state _ _ Hix), Hms. split.
  - intros [[st Hst] Hs]. exists st. split; [exact Hst|]. by apply (stage_states_spec st m s Hst).
  - intros (st & Hst & Hs). split; [exists st; exact Hst|]. by apply (stage_states_spec st m s Hst).
Qed.

(** Loading a dump. *)
Lemma FromDump_handled d b st :
  unmarshal b = Some d → 2 ≤ slen b → handles st (dump_State d) →
  ∃ m, FromDump b = Ret (inl (mk_FSMInstance (Some m) (Some d))) ∧
    ∃ st', runs st' (dump_State d) m ∧ handles st' (dump_State d).
Proof.
  intros Hb Hlen Hs. unfold FromDump.
  rewrite (proj2 (Z.ltb_ge _ _) Hlen). destruct pool_ok as (p & ms & Hp & Hix & Hms).
  rewrite Hp. cbn [mbind Go_bind]. rewrite Hb.
  destruct (stage_New_ok st) as [f Hf].
  pose proof (proj2 (MachineByState_spec p ms (dump_State d) f Hix Hms)
    (ex_intro _ st (conj Hf Hs))) as Hm.
  rewrite Hm. rewrite (WithSetup_runs st f _ Hf Hs). cbn [mbind Go_bind].
  exists (with_state f (dump_State d)). split; [reflexivity|]. exists st. split; [|exact Hs].
  exists f. split; [exact Hf|reflexivity].
Qed.

Lemma FromDump_unhandled d b :
  unmarshal b = Some d → 2 ≤ slen b → (∀ st, ¬ handles st (dump_State d)) →
  FromDump b = Ret (inr (Err "cannot init machine for state")).
Proof.
  intros Hb Hlen Hs. unfold FromDump.
  rewrite (proj2 (Z.ltb_ge _ _) Hlen). destruct pool_ok as (p & ms & Hp & Hix & Hms).
  rewrite Hp. cbn [mbind Go_bind]. rewrite Hb.
  destruct (MachineByState p (dump_State d)) as [m|e] eqn:Hm.
  - exfalso. apply (MachineByState_spec p ms _ _ Hix Hms) in Hm as (st & _ & Hh). by apply (Hs st).
  - unfold MachineByState in Hm. destruct (_ !! _); [done|]. by injection Hm as <-.
Qed.

(** Only the first machine has a global initial event. *)
Lemma entry_stage st f :
  stage_New st = Ret f → GlobalInitialEvent f ≠ "" → st = Sig.
Proof.
  intros Hf. unfold GlobalInitialEvent.
  destruct (transitions f !! _) as [tr|] eqn:Htr; [|done]. intros _.
  apply (c_transitions _ _ _ _ _ (stage_constructed st f Hf)) in Htr as [_ Hl].
  assert (handles st StateGlobalIdle) as Hh by by exists tr. apply handles_states in Hh.
  destruct st; [done|exfalso..]; revert Hh; apply (bool_decide_eq_false_1 (_ ∈ _)); reflexivity.
Qed.

(** The pool finds the machine of a state, and finds none for a state that
    no machine leaves; its entry point is the machine of the proposal. *)
Theorem pool_finds_the_stage :
  ∃ pool, fsmPoolProvider = Ret pool ∧
    (∀ s m, MachineByState pool s = inl m ↔ ∃ st, stage_New st = Ret m ∧ s ∈ stage_states st) ∧
    ∃ m, EntryPointMachine pool = inl m ∧ stage_New Sig = Ret m.
Proof.
  destruct pool_ok as (p & ms & Hp & Hix & Hms). exists p. split; [exact Hp|]. split.
  - intros s m. rewrite (MachineByState_spec p ms s m Hix Hms). by setoid_rewrite handles_states.
  - destruct (ix_entry _ _ Hix) as (f & He & Hin & Hg & _). exists f. split; [exact He|].
    apply Hms in Hin as [st Hst]. by rewrite <-(entry_stage st f Hst Hg).
Qed.

Definition fresh_payload (dkgID : string) : DumpedMachineStatePayload :=
  mk_DumpedMachineStatePayload dkgID 0 None None None None None.

Lemma Create_ok dkgID :
  TrimSpace dkgID ≠ "" →
  ∃ m, runs Sig StateGlobalIdle m ∧
    Create dkgID = Ret (inl (mk_FSMInstance (Some m) (Some (mk_FSMDump (TrimSpace dkgID)
      StateGlobalIdle (Some (fresh_payload (TrimSpace dkgID))))))).
Proof.
  intros Hne. unfold Create, InitDump. cbn [dump new_instance].
  rewrite (proj2 (seqb_false _ _) Hne). destruct pool_ok as (p & ms & Hp & Hix & Hms).
  rewrite Hp. cbn [mbind Go_bind].
  destruct (ix_entry _ _ Hix) as (f & He & Hin & Hg & _). rewrite He.
  apply Hms in Hin as [st Hst]. pose proof (entry_stage st f Hst Hg) as ->.
  cbn [deref dump mbind Go_bind dump_State].
  assert (handles Sig StateGlobalIdle) as Hh by (apply handles_states; by left).
  rewrite (WithSetup_runs Sig f _ Hst Hh). cbn [mbind Go_bind].
  eexists. split; [exists f; split; [exact Hst|reflexivity]|]. reflexivity.
Qed.

Lemma Create_empty dkgID : TrimSpace dkgID = "" → Create dkgID = Ret (inr (Err "empty {dkgID}")).
Proof. intros He. unfold Create, InitDump. cbn [dump new_instance]. by rewrite He. Qed.

(** One event on a well-formed instance. *)
Lemma inst_Do i e args :
  inst_ok i → ∃ st f d p,
    stage_New st = Ret f ∧ machine i = Some (with_state f (dump_State d)) ∧ dump i = Some d ∧
    dump_Payload d = Some p ∧ stage_inv st p (dump_State d) ∧
    FSMInstance_Do i e args =
      ('(s', p', (resp, err)) ←
         spec_do (stage_events st) (stage_callbacks st) (dump_State d) e args (Some p);
       let d' := mk_FSMDump (TransactionId d)
                   (match resp with Some r => rs_State r | None => dump_State d end) p' in
       Ret (mk_FSMInstance (Some (with_state f s')) (Some d'),
            (resp, match resp with Some _ => default "" (FSMDump_Marshal d') | None => "" end, err))).
Proof.
  intros (st & m & d & p & Hm & Hd & Hp & Hr & Hi). pose proof Hr as (f & Hf & ->).
  exists st, f, d, p. split_and!; [exact Hf|exact Hm|exact Hd|exact Hp|exact Hi|].
  unfold FSMInstance_Do. rewrite Hm, Hd. cbn [deref mbind Go_bind]. rewrite Hp.
  destruct (runs_Do st _ _ e args (Some p) Hr) as (f' & Hf' & HDo).
  assert (f' = f) as -> by (rewrite Hf in Hf'; by injection Hf').
  rewrite HDo. destruct (spec_do _ _ _ _ _ _) as [[[s' p'] [[r|] err]]|]; cbn [mbind Go_bind]; [|done..].
  cbn [TransactionId]. by destruct (FSMDump_Marshal _).
Qed.

(** ** Reachable instances *)

(** Creation; an event that was accepted; a reload from the dump. *)
Inductive reachable : FSMInstance → Prop :=
| reach_create dkgID i : Create dkgID = Ret (inl i) → reachable i
| reach_do i e args i' resp b :
    reachable i → FSMInstance_Do i e args = Ret (i', (resp, b, None)) → reachable i'
| reach_reload i d b i' :
    reachable i → dump i = Some d → encodable d → FSMInstance_Dump i = inl b →
    FromDump b = Ret (inl i') → reachable i'.

Lemma create_inst_ok dkgID i : Create dkgID = Ret (inl i) → inst_ok i.
Proof.
  intros H. destruct (decide (TrimSpace dkgID = "")) as [He|Hne].
  - by rewrite (Create_empty _ He) in H.
  - destruct (Create_ok dkgID Hne) as (m & Hr & Hc). rewrite Hc in H. injection H as <-.
    do 4 eexists. split_and!; [reflexivity|reflexivity|reflexivity|exact Hr|]. by apply sig_inv_idle.
Qed.

Lemma do_inst_ok i e args i' resp b :
  inst_ok i → FSMInstance_Do i e args = Ret (i', (resp, b, None)) → inst_ok i'.
Proof.
  intros Hi H. destruct (inst_Do i e args Hi) as (st & f & d & p & Hf & Hm & Hd & Hp & Hinv & HDo).
  rewrite HDo in H. go_inv. destruct a as [[s' p'] [resp' err]]. cbv zeta in H.
  injection H as <- <- <- ->.
  destruct (stage_step _ _ _ _ _ _ _ _ Hinv Ha) as (p1 & -> & Hinv1).
  destruct (spec_do_response _ _ _ _ _ _ _ _ _ Ha) as (r & -> & Hr).
  do 4 eexists. split_and!; [reflexivity|reflexivity|reflexivity| |].
  - exists f. split; [exact Hf|]. cbn [dump_State]. by rewrite Hr.
  - cbn [dump_State]. rewrite Hr. exact Hinv1.
Qed.

Lemma reload_inst_ok i d b i' :
  inst_ok i → dump i = Some d → encodable d → FSMInstance_Dump i = inl b →
  FromDump b = Ret (inl i') → inst_ok i' ∧ dump i' = Some d.
Proof.
  intros (st & m & d' & p & Hm & Hd' & Hp & Hr & Hinv) Hd He Hb Hf.
  assert (d' = d) as -> by congruence. destruct (marshal_roundtrip d He) as (b' & Hb' & Hlen & Hu).
  unfold FSMInstance_Dump, FSMDump_Marshal in Hb. rewrite Hd, Hb' in Hb. injection Hb as ->.
  destruct (decide (Exists (fun st => dump_State d ∈ stage_states st) [Sig; Dkg; Signing])) as [Hex|Hn].
  - apply Exists_exists in Hex as (st' & _ & Hst'). apply handles_states in Hst'.
    destruct (FromDump_handled d b st' Hu Hlen Hst') as (m' & Hfd & st2 & Hr2 & Hh2).
    rewrite Hfd in Hf. injection Hf as <-. split; [|done].
    do 4 eexists. split_and!; [reflexivity|reflexivity|exact Hp|exact Hr2|]. by eapply handover.
  - exfalso. rewrite (FromDump_unhandled d b Hu Hlen) in Hf; [done|].
    intros st' Hh%handles_states. apply Hn, Exists_exists. exists st'. split; [|done].
    destruct st'; set_solver.
Qed.

Lemma reachable_inst_ok i : reachable i → inst_ok i.
Proof.
  induction 1; [by eapply create_inst_ok|by eapply do_inst_ok|].
  by eapply reload_inst_ok.
Qed.

(** ** Running a script of events *)

(** The state and payload after a list of events, all accepted, within a stage. *)
Fixpoint run_stage (st : Stage) (s : State) (p : DumpedMachineStatePayload)
    (script : list (Event * list Request)) : option (State * DumpedMachineStatePayload) :=
  match script with
  | [] => Some (s, p)
  | (e, args) :: script =>
      match spec_do (stage_events st) (stage_callbacks st) s e args (Some p) with
      | Ret (s', Some p', (_, None)) => run_stage st s' p' script
      | _ => None
      end
  end.

Definition at_stage (i : FSMInstance) (st : Stage) (id : string) (s : State)
    (p : DumpedMachineStatePayload) : Prop :=
  ∃ m, machine i = Some m ∧ runs st s m ∧ dump i = Some (mk_FSMDump id s (Some p)).

Lemma at_stage_Do i st id s p e args s' p' resp :
  at_stage i st id s p → stage_inv st p s →
  spec_do (stage_events st) (stage_callbacks st) s e args (Some p) = Ret (s', Some p', (resp, None)) →
  ∃ i' b, FSMInstance_Do i e args = Ret (i', (resp, b, None)) ∧ at_stage i' st id s' p'.
Proof.
  intros (m & Hm & Hr & Hd) Hinv Hs. pose proof Hr as (f & Hf & ->).
  destruct (spec_do_response _ _ _ _ _ _ _ _ _ Hs) as (r & -> & Hst).
  unfold FSMInstance_Do. rewrite Hm, Hd. cbn [deref mbind Go_bind dump_Payload].
  destruct (runs_Do st _ _ e args (Some p) Hr) as (f' & Hf' & HDo).
  assert (f' = f) as -> by (rewrite Hf in Hf'; by injection Hf').
  rewrite HDo, Hs. cbn [mbind Go_bind TransactionId]. rewrite Hst.
  destruct (FSMDump_Marshal _); do 2 eexists; (split; [reflexivity|]);
    (exists (with_state f s'); split; [reflexivity|]; split; [exists f; split; [exact Hf|reflexivity]|reflexivity]).
Qed.

Lemma run_stage_reachable i st id s p script s' p' :
  reachable i → at_stage i st id s p → stage_inv st p s → run_stage st s p script = Some (s', p') →
  ∃ i', reachable i' ∧ at_stage i' st id s' p' ∧ stage_inv st p' s'.
Proof.
  induction script as [|[e args] script IH] in i, s, p |- *; intros Hre Hat Hinv Hrun; simpl in Hrun.
  { injection Hrun as <- <-. by exists i. }
  destruct (spec_do _ _ _ _ _ _) as [[[s1 [p1|]] [resp [err|]]]|] eqn:Hs; try discriminate Hrun.
  destruct (stage_step _ _ _ _ _ _ _ _ Hinv Hs) as (p1' & [= <-] & Hinv1).
  destruct (at_stage_Do _ _ _ _ _ _ _ _ _ _ Hat Hinv Hs) as (i1 & b & HDo & Hat1).
  eapply IH; [|exact Hat1|exact Hinv1|exact Hrun]. by eapply reach_do.
Qed.

Lemma handles_unique st1 st2 s : handles st1 s → handles st2 s → st1 = st2.
Proof.
  rewrite !handles_states. intros H1 H2.
  destruct st1, st2; try reflexivity; exfalso;
    refine (disjointb_spec _ _ s _ H1 H2); vm_compute; reflexivity.
Qed.

Lemma handover_reachable i st st' id s p :
  reachable i → at_stage i st id s p → stage_inv st p s → handles st' s →
  encodable (mk_FSMDump id s (Some p)) →
  ∃ i', reachable i' ∧ at_stage i' st' id s p ∧ stage_inv st' p s.
Proof.
  intros Hre (m & Hm & Hr & Hd) Hinv Hh He.
  destruct (marshal_roundtrip _ He) as (b & Hb & Hlen & Hu).
  destruct (FromDump_handled _ b st' Hu Hlen Hh) as (m' & Hfd & st2 & Hr2 & Hh2).
  assert (st2 = st') as -> by by eapply handles_unique.
  eexists. split; [|split; [|by eapply handover]].
  - eapply reach_reload; [exact Hre|exact Hd|exact He| |exact Hfd].
    unfold FSMInstance_Dump, FSMDump_Marshal. by rewrite Hd, Hb.
  - exists m'. split; [reflexivity|]. split; [exact Hr2|reflexivity].
Qed.

Lemma create_reachable dkgID :
  TrimSpace dkgID ≠ "" →
  ∃ i, reachable i ∧ at_stage i Sig (TrimSpace dkgID) StateGlobalIdle (fresh_payload (TrimSpace dkgID)) ∧
    stage_inv Sig (fresh_payload (TrimSpace dkgID)) StateGlobalIdle.
Proof.
  intros Hne. destruct (Create_ok dkgID Hne) as (m & Hr & Hc). eexists. split; [by eapply reach_create|].
  split; [|by apply sig_inv_idle]. exists m. split; [reflexivity|]. split; [exact Hr|reflexivity].
Qed.
End protocol.
