(* ===== verification/Samples.v ===== *)
(** * A round with two participants

    A concrete order of map iteration, concrete encoders, and the instances of
    a complete round, at which the theorems about reachable instances are
    evaluated. *)

From S2P Require Import Prelude GoFsm Requests Payload FsmPool.
From S2P Require Import SignatureProposal DkgProposal SigningProposal StateMachines Protocol.

#[export] Existing Instance source_order.

#[export] Instance sample_json_tasks : JSON (list SigningTask) := {
  marshal := fun l => Some "[]";
  unmarshal := fun _ => Some []
}.

(** ** The requests of the round *)

Definition alice : SignatureProposalParticipantsEntry :=
  mk_SignatureProposalParticipantsEntry "alice" "alice-comm-key" "alice-dkg-key".
Definition bobby : SignatureProposalParticipantsEntry :=
  mk_SignatureProposalParticipantsEntry "bobby" "bobby-comm-key" "bobby-dkg-key".

Definition sample_proposal : SignatureProposalParticipantsListRequest :=
  mk_SignatureProposalParticipantsListRequest [Some alice; Some bobby] 2 1000.

Definition confirm (id t : Z) : Event * list Request :=
  (EventConfirmSignatureProposal, [RqParticipant (mk_SignatureProposalParticipantRequest id t)]).

Definition sig_script : list (Event * list Request) :=
  [(EventInitProposal, [RqParticipantsList sample_proposal]); confirm 0 1001; confirm 1 1002].

Definition dkg_script : list (Event * list Request) :=
  [(EventDKGInitProcess, [RqDefault (mk_DefaultRequest 1003)]);
   (EventDKGCommitConfirmationReceived,
    [RqCommit (mk_DKGProposalCommitConfirmationRequest 0 "commit-0" 1004)]);
   (EventDKGCommitConfirmationReceived,
    [RqCommit (mk_DKGProposalCommitConfirmationRequest 1 "commit-1" 1005)]);
   (EventDKGDealConfirmationReceived,
    [RqDeal (mk_DKGProposalDealConfirmationRequest 0 "deal-0" 1006)]);
   (EventDKGDealConfirmationReceived,
    [RqDeal (mk_DKGProposalDealConfirmationRequest 1 "deal-1" 1007)]);
   (EventDKGResponseConfirmationReceived,
    [RqResponse (mk_DKGProposalResponseConfirmationRequest 0 "response-0" 1008)]);
   (EventDKGResponseConfirmationReceived,
    [RqResponse (mk_DKGProposalResponseConfirmationRequest 1 "response-1" 1009)]);
   (EventDKGMasterKeyConfirmationReceived,
    [RqMasterKey (mk_DKGProposalMasterKeyConfirmationRequest 0 "master" 1010 "poly")]);
   (EventDKGMasterKeyConfirmationReceived,
    [RqMasterKey (mk_DKGProposalMasterKeyConfirmationRequest 1 "master" 1011 "poly")])].

Definition sample_task : SigningTask := mk_SigningTask "m1" "" (Some "message") 0 0.

Definition sign (id t : Z) : Event * list Request :=
  (EventSigningPartialSignReceived,
   [RqPartialSigns (mk_SigningProposalBatchPartialSignRequests "batch" id
      [mk_PartialSign "m1" "partial"] t)]).

Definition signing_failed (id t : Z) : Event * list Request :=
  (EventSigningPartialSignError,
   [RqSignatureError (mk_SignatureProposalConfirmationErrorRequest id
      (Some (mk_FSMError "refused")) t)]).

Definition signing_script : list (Event * list Request) :=
  [(EventSigningInit, [RqDefault (mk_DefaultRequest 1012)]);
   (EventSigningStart,
    [RqSigningStart (mk_SigningBatchProposalStartRequest "batch" 0 1013 [sample_task])])].

(** ** The dumps of the round *)

Definition dump_of (o : option (State * DumpedMachineStatePayload)) : FSMDump :=
  match o with
  | Some (s, p) => mk_FSMDump "dkg" s (Some p)
  | None => mk_FSMDump "" "" None
  end.

(** Continue from a dump with a script of a stage. *)
Definition continue (st : Stage) (d : FSMDump) (script : list (Event * list Request)) : FSMDump :=
  match dump_Payload d with
  | Some p => dump_of (run_stage st (dump_State d) p script)
  | None => d
  end.

Definition d_idle : FSMDump := mk_FSMDump "dkg" StateGlobalIdle (Some (fresh_payload "dkg")).
Definition d_sig : FSMDump := continue Sig d_idle sig_script.
Definition d_dkg : FSMDump := continue Dkg d_sig dkg_script.

(** ** An encoder for the dumps that are reloaded

    The code of a dump is a string whose length is its position in the list. *)

#[export] Instance FSMError_eq_dec : EqDecision FSMError.
Proof. solve_decision. Defined.
#[export] Instance SignatureProposalParticipant_eq_dec : EqDecision SignatureProposalParticipant.
Proof. solve_decision. Defined.
#[export] Instance SignatureConfirmation_eq_dec : EqDecision SignatureConfirmation.
Proof. solve_decision. Defined.
#[export] Instance DKGProposalParticipant_eq_dec : EqDecision DKGProposalParticipant.
Proof. solve_decision. Defined.
#[export] Instance DKGConfirmation_eq_dec : EqDecision DKGConfirmation.
Proof. solve_decision. Defined.
#[export] Instance SigningProposalParticipant_eq_dec : EqDecision SigningProposalParticipant.
Proof. solve_decision. Defined.
#[export] Instance SigningConfirmation_eq_dec : EqDecision SigningConfirmation.
Proof. solve_decision. Defined.
#[export] Instance DumpedMachineStatePayload_eq_dec : EqDecision DumpedMachineStatePayload.
Proof. solve_decision. Defined.
#[export] Instance FSMDump_eq_dec : EqDecision FSMDump.
Proof. solve_decision. Defined.

Fixpoint code (n : nat) : bytes :=
  match n with O => "{}" | S n => String "{" (code n) end.

Lemma length_code n : String.length (code n) = S (S n).
Proof. induction n; simpl; auto. Qed.

Section table.
Context (ds : list FSMDump).

Definition table_marshal (d : FSMDump) : option bytes :=
  match list_find (fun x => x = d) ds with
  | Some (n, _) => Some (code n)
  | None => None
  end.

Definition table_unmarshal (b : bytes) : option FSMDump := ds !! (String.length b - 2)%nat.

Definition table_json : JSON FSMDump := {| marshal := table_marshal; unmarshal := table_unmarshal |}.

Lemma table_roundtrip d :
  d ∈ ds → ∃ b, table_marshal d = Some b ∧ 2 ≤ slen b ∧ table_unmarshal b = Some d.
Proof.
  intros Hd. unfold table_marshal.
  destruct (list_find (fun x => x = d) ds) as [[n x]|] eqn:Hf.
  - apply list_find_Some in Hf as (Hn & -> & _). exists (code n). split; [done|].
    unfold slen, table_unmarshal. rewrite length_code. split; [lia|].
    by replace (S (S n) - 2)%nat with n by lia.
  - exfalso. apply list_find_None in Hf. rewrite Forall_forall in Hf. by apply (Hf d Hd).
Qed.

Definition table_json_spec : @JSONSpec FSMDump table_json :=
  @Build_JSONSpec FSMDump table_json (fun d => d ∈ ds) table_roundtrip.
End table.

#[export] Instance sample_json : JSON FSMDump := table_json [d_sig; d_dkg].
#[export] Instance sample_json_spec : JSONSpec FSMDump := table_json_spec [d_sig; d_dkg].

(** ** The instances of the round *)

(** A script that ends in the state [S]. *)
Definition ends_in (st : Stage) (d : FSMDump) (script : list (Event * list Request)) (S : State)
  : bool :=
  match dump_Payload d with
  | Some p =>
      match run_stage st (dump_State d) p script with
      | Some (s, _) => s =s? S
      | None => false
      end
  | None => false
  end.

Lemma ends_in_run st d script S :
  ends_in st d script S = true → TransactionId d = "dkg" →
  ∃ s0 p0 p, d = mk_FSMDump "dkg" s0 (Some p0) ∧ run_stage st s0 p0 script = Some (S, p) ∧
    continue st d script = mk_FSMDump "dkg" S (Some p).
Proof.
  unfold ends_in, continue. destruct d as [id s0 [p0|]]; [|done]. cbn [dump_Payload dump_State TransactionId].
  intros H ->. destruct (run_stage st s0 p0 script) as [[s p]|] eqn:Hr; [|done].
  apply seqb_true in H as ->. by exists s0, p0, p.
Qed.

Lemma reach_script st d script S :
  (∃ i s0 p0, reachable i ∧ d = mk_FSMDump "dkg" s0 (Some p0) ∧ at_stage i st "dkg" s0 p0 ∧
     stage_inv st p0 s0) →
  ends_in st d script S = true →
  ∃ i p, reachable i ∧ continue st d script = mk_FSMDump "dkg" S (Some p) ∧
    at_stage i st "dkg" S p ∧ stage_inv st p S.
Proof.
  intros (i & s0 & p0 & Hre & -> & Hat & Hinv) He.
  destruct (ends_in_run _ _ _ _ He eq_refl) as (s1 & p1 & p & Heq & Hrun & Hc).
  injection Heq as <- <-.
  destruct (run_stage_reachable _ _ _ _ _ _ _ _ Hre Hat Hinv Hrun) as (i' & ? & ? & ?). eauto 10.
Qed.

Lemma reach_sig script S :
  ends_in Sig d_idle script S = true →
  ∃ i p, reachable i ∧ continue Sig d_idle script = mk_FSMDump "dkg" S (Some p) ∧
    at_stage i Sig "dkg" S p ∧ stage_inv Sig p S.
Proof.
  apply reach_script.
  destruct (create_reachable "dkg" ltac:(vm_compute; discriminate)) as (i & Hre & Hat & Hinv).
  change (TrimSpace "dkg") with "dkg" in Hat, Hinv.
  exists i, StateGlobalIdle, (fresh_payload "dkg"). done.
Qed.

(** The next stage continues from a reloaded dump. *)
Lemma reach_handover st st' d S :
  (∃ i p, reachable i ∧ d = mk_FSMDump "dkg" S (Some p) ∧ at_stage i st "dkg" S p ∧
     stage_inv st p S) →
  d ∈ [d_sig; d_dkg] → S ∈ stage_states st' →
  ∃ i s0 p0, reachable i ∧ d = mk_FSMDump "dkg" s0 (Some p0) ∧ at_stage i st' "dkg" s0 p0 ∧
    stage_inv st' p0 s0.
Proof.
  intros (i & p & Hre & -> & Hat & Hinv) Hd HS%handles_states.
  destruct (handover_reachable i st st' "dkg" S p Hre Hat Hinv HS Hd) as (i' & ? & ? & ?). eauto 10.
Qed.

Lemma reach_dkg script S :
  ends_in Dkg d_sig script S = true →
  ∃ i p, reachable i ∧ continue Dkg d_sig script = mk_FSMDump "dkg" S (Some p) ∧
    at_stage i Dkg "dkg" S p ∧ stage_inv Dkg p S.
Proof.
  apply reach_script, (reach_handover Sig _ _ StateSignatureProposalCollected).
  - apply reach_sig. vm_compute. reflexivity.
  - by left.
  - by left.
Qed.

Lemma reach_signing script S :
  ends_in Signing d_dkg script S = true →
  ∃ i p, reachable i ∧ continue Signing d_dkg script = mk_FSMDump "dkg" S (Some p) ∧
    at_stage i Signing "dkg" S p ∧ stage_inv Signing p S.
Proof.
  apply reach_script, (reach_handover Dkg _ _ StateDkgMasterKeyCollected).
  - apply reach_dkg. vm_compute. reflexivity.
  - by right; left.
  - by left.
Qed.

(** One accepted event from a dump of the sample round. *)
Lemma sample_Do {json : JSON FSMDump} i st d s p ev S :
  at_stage i st "dkg" s p → stage_inv st p s → d = mk_FSMDump "dkg" s (Some p) →
  ends_in st d [ev] S = true →
  ∃ i' resp b, FSMInstance_Do i ev.1 ev.2 = Ret (i', (resp, b, None)) ∧
    dump i' = Some (continue st d [ev]).
Proof.
  intros Hat Hinv -> He. destruct (ends_in_run _ _ _ _ He eq_refl) as (s1 & p1 & p2 & Heq & Hrun & Hc).
  injection Heq as <- <-. destruct ev as [e args]. simpl in Hrun.
  destruct (spec_do _ _ _ _ _ _) as [[[s2 [p3|]] [resp [err|]]]|] eqn:Hs; try discriminate Hrun.
  injection Hrun as <- <-.
  destruct (at_stage_Do _ _ _ _ _ _ _ _ _ _ Hat Hinv Hs) as (i' & b & HDo & (m & _ & _ & Hd)).
  exists i', resp, b. split; [exact HDo|]. by rewrite Hc.
Qed.

(** ** Reading a dump of the round *)

Definition payload_of (d : FSMDump) : DumpedMachineStatePayload :=
  default (fresh_payload "") (dump_Payload d).
Definition sig_conf_of (d : FSMDump) : SignatureConfirmation :=
  default (mk_SignatureConfirmation None 0 0 0) (pay_SignatureProposalPayload (payload_of d)).
Definition sig_quorum_of (d : FSMDump) : gmap Z SignatureProposalParticipant :=
  default ∅ (sc_Quorum (sig_conf_of d)).
Definition dkg_conf_of (d : FSMDump) : DKGConfirmation :=
  default (mk_DKGConfirmation None 0 0 0 "") (pay_DKGProposalPayload (payload_of d)).
Definition dkg_quorum_of (d : FSMDump) : gmap Z DKGProposalParticipant :=
  default ∅ (dc_Quorum (dkg_conf_of d)).
Definition signing_conf_of (d : FSMDump) : SigningConfirmation :=
  default (mk_SigningConfirmation "" 0 None "" "" "" 0 0 0) (pay_SigningProposalPayload (payload_of d)).
Definition signing_quorum_of (d : FSMDump) : gmap Z SigningProposalParticipant :=
  default ∅ (nc_Quorum (signing_conf_of d)).

Lemma payload_of_eq d id s p : d = mk_FSMDump id s (Some p) → p = payload_of d.
Proof. by intros ->. Qed.

Definition sig_member (d : FSMDump) (id : Z) : SignatureProposalParticipant :=
  default (mk_SignatureProposalParticipant 0 "" "" "" "" SigConfirmationError 0 0) (sig_quorum_of d !! id).
Definition dkg_member (d : FSMDump) (id : Z) : DKGProposalParticipant :=
  default (mk_DKGProposalParticipant 0 "" "" "" "" "" "" MasterKeyConfirmationError None 0)
    (dkg_quorum_of d !! id).
Definition signing_member (d : FSMDump) (id : Z) : SigningProposalParticipant :=
  default (mk_SigningProposalParticipant 0 "" SigningError None None 0) (signing_quorum_of d !! id).
