(* ===== verification/Rounds.v ===== *)
(** * What a round guarantees

    Properties of every instance a node can reach, read off the invariants of
    the stages, each with its evaluation on the round of [Samples]. *)

From S2P Require Import Prelude GoFsm Requests Payload FsmPool.
From S2P Require Import SignatureProposal DkgProposal SigningProposal StateMachines Protocol Samples.

Section rounds.
Context {ord : MapOrder} {json_tasks : JSON (list SigningTask)} {json_dump : JSON FSMDump}
  {json_spec : JSONSpec FSMDump}.

(** The invariant of the stage that handles a state holds of a reachable dump
    in that state. *)
Lemma reachable_stage_inv st i d p :
  reachable i → dump i = Some d → dump_Payload d = Some p → dump_State d ∈ stage_states st →
  stage_inv st p (dump_State d).
Proof.
  intros (st0 & m & d0 & p0 & _ & Hd0 & Hp0 & _ & Hinv)%reachable_inst_ok Hd Hp Hs%handles_states.
  assert (d0 = d) as -> by congruence. assert (p0 = p) as -> by congruence. by eapply handover.
Qed.

(** Every state of the signing stage has the result of the DKG. *)
Lemma signing_inv_done p s : signing_inv p s → ∃ sq dq key, dkg_done p sq dq key.
Proof.
  intros Hs. inversion Hs; try match goal with Hb : signing_base _ _ _ _ _ |- _ => destruct Hb; eauto end.
  match goal with Hd : dkg_inv _ _ |- _ => inversion Hd; simplify_eq; eauto end.
Qed.

(** C1. Once the master key is collected, and in every state of the signing
    stage, every participant of the proposal has delivered commits, deals and
    responses and has confirmed one and the same non-empty master key. *)
Theorem master_key_agreement i d p :
  reachable i → dump i = Some d → dump_Payload d = Some p → dump_State d ∈ stage_states Signing →
  ∃ sq dq key,
    sc_Quorum <$> pay_SignatureProposalPayload p = Some (Some sq) ∧
    dc_Quorum <$> pay_DKGProposalPayload p = Some (Some dq) ∧
    key ≠ "" ∧ (∀ id, is_Some (dq !! id) ↔ is_Some (sq !! id)) ∧
    ∀ id y, dq !! id = Some y →
      dp_Status y = MasterKeyConfirmed ∧ dp_DkgMasterKey y = key ∧
      dp_DkgCommit y ≠ "" ∧ dp_DkgDeal y ≠ "" ∧ dp_DkgResponse y ≠ "".
Proof.
  intros Hre Hd Hp Hs. pose proof (reachable_stage_inv Signing _ _ _ Hre Hd Hp Hs) as Hinv.
  apply signing_inv_done in Hinv as (sq & dq & key & [[Hsig _ Hq Hk _] Hne Hall]).
  exists sq, dq, key. split_and!; [apply (so_quorum _ _ Hsig)|done..|].
  intros id y Hy. destruct (Hall id y Hy) as (? & (((? & ?) & ?) & ?) & ?). done.
Qed.

(** The signing confirmation and the threshold of a signing state. *)
Lemma signing_threshold p sq dq key c q :
  signing_base p sq dq key c → signers_ok dq q → 2 ≤ pay_Threshold p ≤ Z.of_nat (size q).
Proof.
  intros Hb Hsg. pose proof (dd_dkg _ _ _ _ (sb_done _ _ _ _ _ Hb)) as Hd.
  rewrite (signers_ok_size _ _ Hsg), (dkg_ok_size _ _ _ Hd). apply (so_threshold _ _ (do_sig _ _ _ Hd)).
Qed.

(** C2. When the partial signatures of a batch are collected, at least the
    threshold of participants, itself at least two, have delivered signatures,
    and everybody has been moved on. *)
Theorem threshold_signatures i d p :
  reachable i → dump i = Some d → dump_Payload d = Some p →
  dump_State d = StateSigningPartialSignsCollected →
  ∃ c q, pay_SigningProposalPayload p = Some c ∧ nc_Quorum c = Some q ∧
    2 ≤ pay_Threshold p ≤ Z.of_nat (size q) ∧ pay_Threshold p ≤ qcount signed q ∧
    map_Forall (fun _ x => np_Status x = SigningProcess) q.
Proof.
  intros Hre Hd Hp Hs. assert (dump_State d ∈ stage_states Signing) as Hst.
  { rewrite Hs. by apply (bool_decide_eq_true_1 (_ ∈ _)). }
  pose proof (reachable_stage_inv Signing _ _ _ Hre Hd Hp Hst) as Hinv. rewrite Hs in Hinv.
  inversion Hinv as [| | |sq dq key c q Hb Hq Hsg Hall Ht| |]; simplify_eq.
  pose proof (signing_threshold _ _ _ _ _ _ Hb Hsg).
  exists c, q. split_and!; [apply (sb_conf _ _ _ _ _ Hb)|done|lia|lia|done|done].
Qed.
(** C34. A batch is given up for errors only when more participants have failed
    than the quorum can do without, so that the threshold is out of reach. *)
Theorem signing_error_is_fatal i d p :
  reachable i → dump i = Some d → dump_Payload d = Some p →
  dump_State d = StateSigningPartialSignsAwaitCancelledByError →
  ∃ c q, pay_SigningProposalPayload p = Some c ∧ nc_Quorum c = Some q ∧
    Z.of_nat (size q) - qcount (has_signing_status SigningError) q < pay_Threshold p.
Proof.
  intros Hre Hd Hp Hs. assert (dump_State d ∈ stage_states Signing) as Hst.
  { rewrite Hs. by apply (bool_decide_eq_true_1 (_ ∈ _)). }
  pose proof (reachable_stage_inv Signing _ _ _ Hre Hd Hp Hst) as Hinv. rewrite Hs in Hinv.
  inversion Hinv as [| | | |sq dq key c q Hb Hq Hsg Hf|]; simplify_eq.
  exists c, q. split_and!; [apply (sb_conf _ _ _ _ _ Hb)|done|lia].
Qed.

(** C35. While a batch waits for signatures it is undecided: fewer participants
    than the threshold have signed, and few enough have failed for the
    threshold to remain possible; a participant has signatures exactly when it
    has confirmed. *)
Theorem waiting_batch_is_open i d p :
  reachable i → dump i = Some d → dump_Payload d = Some p →
  dump_State d = StateSigningAwaitPartialSigns →
  ∃ c q, pay_SigningProposalPayload p = Some c ∧ nc_Quorum c = Some q ∧
    qcount (has_signing_status SigningPartialSignsConfirmed) q < pay_Threshold p ∧
    pay_Threshold p ≤ Z.of_nat (size q) - qcount (has_signing_status SigningError) q ∧
    map_Forall (fun _ x => signed x = has_signing_status SigningPartialSignsConfirmed x) q.
Proof.
  intros Hre Hd Hp Hs. assert (dump_State d ∈ stage_states Signing) as Hst.
  { rewrite Hs. by apply (bool_decide_eq_true_1 (_ ∈ _)). }
  pose proof (reachable_stage_inv Signing _ _ _ Hre Hd Hp Hst) as Hinv. rewrite Hs in Hinv.
  inversion Hinv as [| |sq dq key c q Hb Hq Hsg Hall [Hf Hn]| | |]; simplify_eq.
  exists c, q. split_and!; [apply (sb_conf _ _ _ _ _ Hb)|done|done|lia|].
  intros k x Hx. by destruct (Hall k x Hx).
Qed.

(** C24. A DKG phase is entered only when everybody has delivered in the phases
    before it: nobody lacks a commit when deals are awaited, a deal when
    responses are, or a response when master keys are. *)
Theorem dkg_phases_are_complete i d p :
  reachable i → dump i = Some d → dump_Payload d = Some p →
  dump_State d ∈ [StateDkgDealsAwaitConfirmations; StateDkgResponsesAwaitConfirmations;
                  StateDkgMasterKeyAwaitConfirmations] →
  ∃ dq, dc_Quorum <$> pay_DKGProposalPayload p = Some (Some dq) ∧
    ∀ id y, dq !! id = Some y → dp_DkgCommit y ≠ "" ∧
      (dump_State d ≠ StateDkgDealsAwaitConfirmations → dp_DkgDeal y ≠ "") ∧
      (dump_State d = StateDkgMasterKeyAwaitConfirmations → dp_DkgResponse y ≠ "").
Proof.
  intros Hre Hd Hp Hs. assert (dump_State d ∈ stage_states Dkg) as Hst.
  { revert Hs. apply includedb_spec. by vm_compute. }
  pose proof (reachable_stage_inv Dkg _ _ _ Hre Hd Hp Hst) as Hinv.
  rewrite !elem_of_cons, elem_of_nil in Hs.
  destruct Hs as [Hs|[Hs|[Hs|[]]]]; rewrite Hs in Hinv |- *; inversion Hinv; simplify_eq;
    match goal with Hph : phase_ok _ _ ?q |- _ =>
      exists q; destruct Hph as [[sq Hdk] _ Hall] end;
    (split; [apply (do_quorum _ _ _ Hdk)|]); intros id y Hy;
    destruct (Hall id y Hy) as [[_ Hh]|[_ Hh]]; unfold commits, deals, responses, masterkeys,
      ph_had, ph_has, has_masterkey, has_response, has_deal, has_commit in Hh; naive_solver.
Qed.

(** C32. Signature proposals are collected only with the confirmation of every
    proposed participant; the participants are numbered from zero, and the
    threshold lies between two and their number. *)
Theorem collected_proposal i d p :
  reachable i → dump i = Some d → dump_Payload d = Some p →
  dump_State d = StateSignatureProposalCollected →
  ∃ q, sc_Quorum <$> pay_SignatureProposalPayload p = Some (Some q) ∧
    2 ≤ pay_Threshold p ≤ Z.of_nat (size q) ∧
    (∀ id, is_Some (q !! id) ↔ 0 ≤ id < Z.of_nat (size q)) ∧
    ∀ id x, q !! id = Some x → sgp_Status x = SigConfirmationConfirmed ∧ sgp_ParticipantID x = id ∧
      sgp_Threshold x = pay_Threshold p.
Proof.
  intros Hre Hd Hp Hs. assert (dump_State d ∈ stage_states Dkg) as Hst.
  { rewrite Hs. by apply (bool_decide_eq_true_1 (_ ∈ _)). }
  pose proof (reachable_stage_inv Dkg _ _ _ Hre Hd Hp Hst) as Hinv. rewrite Hs in Hinv.
  inversion Hinv as [Hsi| | | | | | | | | | | | |]; simplify_eq.
  inversion Hsi as [| | | |q Hok _ Hall]; simplify_eq. exists q. destruct Hok as [Hq Hden Ht Hm _ _].
  split_and!; [done|lia|lia|done|]. intros id x Hx. destruct (Hm id x Hx). by rewrite (Hall id x Hx).
Qed.

(** In every state but the first, the proposal's invariant holds. *)
Lemma stage_inv_sig_ok st p s : stage_inv st p s → s ≠ StateGlobalIdle → ∃ q, sig_ok p q.
Proof.
  intros Hi Hne. destruct st; cbn [stage_inv] in Hi.
  - inversion Hi; simplify_eq; eauto; try done.
  - inversion Hi; simplify_eq;
      try match goal with H : phase_ok _ _ _ |- _ => destruct H as [[? [? _ _ _ _]] _ _]; eauto end;
      try match goal with H : failed_with _ _ |- _ => destruct H as (? & ? & [? _ _ _ _] & _); eauto end;
      try match goal with H : timed_out _ |- _ => destruct H as (? & ? & [? _ _ _ _] & _); eauto end;
      try match goal with H : dkg_done _ _ _ _ |- _ => destruct H as [[? _ _ _ _] _ _]; eauto end.
    match goal with H : sig_inv _ _ |- _ => inversion H; simplify_eq; eauto end.
  - apply signing_inv_done in Hi as (? & ? & ? & [[? _ _ _ _] _ _]). eauto.
Qed.

(** C36. After the proposal, the directories answer with the participants and
    with nothing else: a user name has an id exactly when the participant with
    that id bears it, and its key is that participant's. *)
Theorem directories_match_quorum i d p :
  reachable i → dump i = Some d → dump_Payload d = Some p → dump_State d ≠ StateGlobalIdle →
  ∃ q, sc_Quorum <$> pay_SignatureProposalPayload p = Some (Some q) ∧
    (∀ u id, FSMInstance_GetIDByUsername i u = Ret (inl id) ↔
       ∃ x, q !! id = Some x ∧ sgp_Username x = u) ∧
    (∀ u k, FSMInstance_GetPubKeyByUsername i u = Ret (inl k) ↔
       ∃ id x, q !! id = Some x ∧ sgp_Username x = u ∧ sgp_PubKey x = k).
Proof.
  intros (st0 & m & d0 & p0 & _ & Hd0 & Hp0 & _ & Hinv)%reachable_inst_ok Hd Hp Hs.
  assert (d0 = d) as -> by congruence. assert (p0 = p) as -> by congruence.
  destruct (stage_inv_sig_ok _ _ _ Hinv Hs) as [q [Hq _ _ Hm Hids Hpks]].
  assert (∀ id x, q !! id = Some x → sgp_Username x ≠ "") as Hne.
  { intros id x Hx Hu. destruct (Hm id x Hx) as [_ _ [Hl _]]. by rewrite Hu in Hl. }
  exists q. split; [done|].
  unfold FSMInstance_GetIDByUsername, FSMInstance_GetPubKeyByUsername, GetIDByUsername,
    GetPubKeyByUsername. rewrite Hd, Hp. cbn [deref mbind Go_bind]. split.
  - intros u id. rewrite <-Hids. unfold gomap_lookup. destruct (pay_IDs p) as [l|]; cbn [mbind option_bind];
      [|naive_solver]. destruct (u =s? "") eqn:Hu; boolify.
    + subst. split; [done|]. intros (x & Hx & Hn)%Hids. by apply Hne in Hx.
    + destruct (l !! u); naive_solver.
  - intros u k. rewrite <-Hpks. unfold gomap_lookup. destruct (pay_PubKeys p) as [l|]; cbn [mbind option_bind];
      [|naive_solver]. destruct (u =s? "") eqn:Hu; boolify.
    + subst. split; [done|]. intros (id & x & Hx & Hn & _)%Hpks. by apply Hne in Hx.
    + destruct (l !! u); naive_solver.
Qed.

(** What comes with an error: no response, and nothing was touched, when the
    table has no public event for the state; and the empty state, when the
    callback refused. *)
Lemma stage_error st s p e args s' p' resp err :
  stage_inv st p s →
  spec_do (stage_events st) (stage_callbacks st) s e args (Some p) = Ret (s', p', (resp, Some err)) →
  match resp with None => p' = Some p | Some r => rs_State r = "" end.
Proof.
  intros Hinv H. unfold spec_do in H.
  destruct (find_desc (stage_events st) s e) as [d|] eqn:Hd; [|by injection H as _ <- <- _].
  destruct (IsInternal d) eqn:Hi; [by injection H as _ <- <- _|].
  destruct (call (stage_callbacks st) e args (Some p)) as [[o [[out data] [err'|]]]|] eqn:Hc; [..|done].
  - by injection H as _ _ <- _.
  - destruct (stage_finish _ _ _ _ _ _ _ _ _ Hinv Hd Hi Hc) as (s1 & p1 & r & Heq & _).
    cbn in H. rewrite Heq in H. discriminate H.
Qed.


(** C40. A batch is cancelled by timeout only if its expiry time lies before the
    zero time: [UpdatedAt] of the signing confirmation, which the expiry is
    compared with, keeps its zero value for the whole life of the instance. *)
Theorem signing_timeout_never_fires i d p :
  reachable i → dump i = Some d → dump_Payload d = Some p →
  dump_State d = StateSigningPartialSignsAwaitCancelledByTimeout →
  ∃ c, pay_SigningProposalPayload p = Some c ∧ nc_UpdatedAt c = 0 ∧ nc_ExpiresAt c < 0.
Proof.
  intros Hre Hd Hp Hs. assert (dump_State d ∈ stage_states Signing) as Hst.
  { rewrite Hs. by apply (bool_decide_eq_true_1 (_ ∈ _)). }
  pose proof (reachable_stage_inv Signing _ _ _ Hre Hd Hp Hst) as Hinv. rewrite Hs in Hinv.
  inversion Hinv as [| | | | |sq dq key c [_ Hc Hu] Hexp]; simplify_eq.
  exists c. split_and!; [done..|]. unfold SigningConfirmation_IsExpired, Before in Hexp.
  boolify. lia.
Qed.

(** A dump is loaded exactly when its state is a source state of one of
    the machines; the instance then has that dump, and its machine that state. *)
Theorem loadable_states d b :
  unmarshal b = Some d → 2 ≤ slen b →
  (∃ i, FromDump b = Ret (inl i) ∧ dump i = Some d ∧ FSMInstance_State i = inl (dump_State d)) ↔
  (∃ st, dump_State d ∈ stage_states st).
Proof.
  intros Hu Hlen. split.
  - intros (i & Hf & _). destruct (decide (Exists (fun st => dump_State d ∈ stage_states st)
      [Sig; Dkg; Signing])) as [(st & _ & ?)%Exists_exists|Hn]; [by eauto|].
    exfalso. rewrite (FromDump_unhandled d b Hu Hlen) in Hf; [done|].
    intros st Hh%handles_states. apply Hn, Exists_exists. exists st. split; [|done].
    destruct st; set_solver.
  - intros [st Hst]. destruct (FromDump_handled d b st Hu Hlen) as (m & Hf & st' & (f & _ & ->) & _);
      [by apply handles_states|]. eexists. split; [exact Hf|]. done.
Qed.

(** C38. A round that was cancelled by a participant, or by a timeout before
    the master key was collected, cannot be loaded again. *)
Theorem cancelled_rounds_do_not_load d b :
  unmarshal b = Some d → 2 ≤ slen b →
  dump_State d ∈ [StateValidationCanceledByParticipant; StateValidationCanceledByTimeout;
    StateDkgCommitsAwaitCanceledByTimeout; StateDkgDealsAwaitCanceledByTimeout;
    StateDkgResponsesAwaitCanceledByTimeout; StateDkgMasterKeyAwaitCanceledByTimeout] →
  FromDump b = Ret (inr (Err "cannot init machine for state")).
Proof.
  intros Hu Hlen Hs. apply (FromDump_unhandled d b Hu Hlen). intros st Hh%handles_states.
  destruct st; refine (disjointb_spec _ _ _ _ Hs Hh); by vm_compute.
Qed.

(** The dump an accepted event returns decodes to the dump of the
    instance; loading it gives an instance in the same state, with that dump. *)
Theorem dump_roundtrip i e args i' resp b d' st :
  reachable i → FSMInstance_Do i e args = Ret (i', (resp, b, None)) → dump i' = Some d' →
  encodable d' → dump_State d' ∈ stage_states st →
  unmarshal b = Some d' ∧
  ∃ i'', FromDump b = Ret (inl i'') ∧ dump i'' = Some d' ∧
    FSMInstance_State i'' = FSMInstance_State i'.
Proof.
  intros Hre HDo Hd' Henc Hst. pose proof (reachable_inst_ok _ Hre) as Hi.
  destruct (inst_Do i e args Hi) as (st0 & f & d & p & Hf & Hm & Hd & Hp & Hinv & Heq).
  rewrite Heq in HDo. go_inv. destruct a as [[s' p'] [resp' err]]. cbv zeta in HDo.
  injection HDo as <- <- <- ->.
  destruct (spec_do_response _ _ _ _ _ _ _ _ _ Ha) as (r & -> & Hr).
  cbn [dump] in Hd'. injection Hd' as <-. destruct (marshal_roundtrip _ Henc) as (b & Hb & Hlen & Hu).
  unfold FSMDump_Marshal. rewrite Hb. cbn [default]. split; [exact Hu|].
  destruct (FromDump_handled _ b st Hu Hlen) as (m & Hfd & st' & (f' & _ & ->) & _);
    [by apply handles_states|]. eexists. split; [exact Hfd|]. split; [reflexivity|].
  unfold FSMInstance_State. simpl. by rewrite Hr.
Qed.

(** Creating a round: an identifier of white space is refused, any other
    gives an instance in the idle state with an empty payload. *)
Theorem create_spec dkgID :
  ∃ r, Create dkgID = Ret r ∧
    match r with
    | inr err => TrimSpace dkgID = "" ∧ err = Err "empty {dkgID}"
    | inl i => TrimSpace dkgID ≠ "" ∧ FSMInstance_State i = inl StateGlobalIdle ∧
        dump i = Some (mk_FSMDump (TrimSpace dkgID) StateGlobalIdle
                         (Some (fresh_payload (TrimSpace dkgID))))
    end.
Proof.
  destruct (decide (TrimSpace dkgID = "")) as [He|Hne].
  - rewrite (Create_empty _ He). by eexists.
  - destruct (Create_ok dkgID Hne) as (m & (f & _ & ->) & Hc). rewrite Hc. by eexists.
Qed.
End rounds.

(** ** The sample round *)

Lemma master_key_agreement_witness :
  ∃ i d p dq key, reachable i ∧ dump i = Some d ∧ dump_State d = StateDkgMasterKeyCollected ∧
    dump_Payload d = Some p ∧ dc_Quorum <$> pay_DKGProposalPayload p = Some (Some dq) ∧ key ≠ "" ∧
    ∀ id y, dq !! id = Some y → dp_DkgMasterKey y = key.
Proof.
  destruct (reach_dkg dkg_script StateDkgMasterKeyCollected ltac:(vm_compute; reflexivity))
    as (i & p & Hre & _ & (m & _ & _ & Hd) & _).
  destruct (master_key_agreement i _ p Hre Hd eq_refl) as (sq & dq & key & _ & Hq & Hne & _ & Hall).
  { by apply (bool_decide_eq_true_1 (_ ∈ _)). }
  do 5 eexists. split_and!; [exact Hre|exact Hd|reflexivity|reflexivity|exact Hq|exact Hne|].
  intros id y Hy. apply (Hall id y Hy).
Defined.

Lemma threshold_signatures_witness :
  ∃ i p q, reachable i ∧
    dump i = Some (mk_FSMDump "dkg" StateSigningPartialSignsCollected (Some p)) ∧ 2 ≤ qcount signed q.
Proof.
  destruct (reach_signing (signing_script ++ [sign 0 1014; sign 1 1015])
    StateSigningPartialSignsCollected ltac:(vm_compute; reflexivity))
    as (i & p & Hre & _ & (m & _ & _ & Hd) & _).
  destruct (threshold_signatures i _ p Hre Hd eq_refl eq_refl) as (c & q & _ & _ & [H1 _] & H2 & _).
  exists i, p, q. split_and!; [exact Hre|exact Hd|lia].
Defined.

Lemma signing_error_is_fatal_witness :
  ∃ i p c q, reachable i ∧
    dump i = Some (mk_FSMDump "dkg" StateSigningPartialSignsAwaitCancelledByError (Some p)) ∧
    pay_SigningProposalPayload p = Some c ∧ nc_Quorum c = Some q ∧
    Z.of_nat (size q) - qcount (has_signing_status SigningError) q < pay_Threshold p.
Proof.
  destruct (reach_signing (signing_script ++ [signing_failed 0 1014])
    StateSigningPartialSignsAwaitCancelledByError ltac:(vm_compute; reflexivity))
    as (i & p & Hre & _ & (m & _ & _ & Hd) & _).
  destruct (signing_error_is_fatal i _ p Hre Hd eq_refl eq_refl) as (c & q & H).
  exists i, p, c, q. split_and!; [exact Hre|exact Hd|apply H..].
Defined.

Lemma waiting_batch_is_open_witness :
  ∃ i p c q, reachable i ∧
    dump i = Some (mk_FSMDump "dkg" StateSigningAwaitPartialSigns (Some p)) ∧
    pay_SigningProposalPayload p = Some c ∧ nc_Quorum c = Some q ∧
    qcount (has_signing_status SigningPartialSignsConfirmed) q < pay_Threshold p.
Proof.
  destruct (reach_signing (signing_script ++ [sign 0 1014]) StateSigningAwaitPartialSigns
    ltac:(vm_compute; reflexivity)) as (i & p & Hre & _ & (m & _ & _ & Hd) & _).
  destruct (waiting_batch_is_open i _ p Hre Hd eq_refl eq_refl) as (c & q & H).
  exists i, p, c, q. split_and!; [exact Hre|exact Hd|apply H..].
Defined.

Lemma dkg_phases_are_complete_witness :
  ∃ i p dq, reachable i ∧
    dump i = Some (mk_FSMDump "dkg" StateDkgMasterKeyAwaitConfirmations (Some p)) ∧
    dc_Quorum <$> pay_DKGProposalPayload p = Some (Some dq) ∧
    ∀ id y, dq !! id = Some y → dp_DkgResponse y ≠ "".
Proof.
  destruct (reach_dkg (take 7 dkg_script) StateDkgMasterKeyAwaitConfirmations
    ltac:(vm_compute; reflexivity)) as (i & p & Hre & _ & (m & _ & _ & Hd) & _).
  destruct (dkg_phases_are_complete i _ p Hre Hd eq_refl) as (dq & Hq & H).
  { by right; right; left. }
  exists i, p, dq. split_and!; [exact Hre|exact Hd|exact Hq|]. intros id y Hy. by apply (H id y Hy).
Defined.

Lemma collected_proposal_witness :
  ∃ i p q, reachable i ∧
    dump i = Some (mk_FSMDump "dkg" StateSignatureProposalCollected (Some p)) ∧
    sc_Quorum <$> pay_SignatureProposalPayload p = Some (Some q) ∧
    ∀ id x, q !! id = Some x → sgp_Status x = SigConfirmationConfirmed.
Proof.
  destruct (reach_sig sig_script StateSignatureProposalCollected ltac:(vm_compute; reflexivity))
    as (i & p & Hre & _ & (m & _ & _ & Hd) & _).
  destruct (collected_proposal i _ p Hre Hd eq_refl eq_refl) as (q & Hq & _ & _ & H).
  exists i, p, q. split_and!; [exact Hre|exact Hd|exact Hq|]. intros id x Hx. by apply (H id x Hx).
Defined.

Lemma directories_match_quorum_witness :
  ∃ i p (q : gmap Z SignatureProposalParticipant), reachable i ∧
    dump i = Some (mk_FSMDump "dkg" StateSignatureProposalCollected (Some p)) ∧
    ∀ u id, FSMInstance_GetIDByUsername i u = Ret (inl id) ↔
      ∃ x, q !! id = Some x ∧ sgp_Username x = u.
Proof.
  destruct (reach_sig sig_script StateSignatureProposalCollected ltac:(vm_compute; reflexivity))
    as (i & p & Hre & _ & (m & _ & _ & Hd) & _).
  destruct (directories_match_quorum i _ p Hre Hd eq_refl) as (q & _ & H & _); [discriminate|].
  exists i, p, q. split_and!; [exact Hre|exact Hd|exact H].
Defined.


(** A batch initialised with a time in the year zero. *)
Definition early_script : list (Event * list Request) :=
  [(EventSigningInit, [RqDefault (mk_DefaultRequest (- 10000000000000000))]);
   (EventSigningStart,
    [RqSigningStart (mk_SigningBatchProposalStartRequest "batch" 0 1013 [sample_task])])].

Lemma signing_timeout_never_fires_witness :
  ∃ i p c, reachable i ∧
    dump i = Some (mk_FSMDump "dkg" StateSigningPartialSignsAwaitCancelledByTimeout (Some p)) ∧
    pay_SigningProposalPayload p = Some c ∧ nc_UpdatedAt c = 0 ∧ nc_ExpiresAt c < 0.
Proof.
  destruct (reach_signing early_script StateSigningPartialSignsAwaitCancelledByTimeout
    ltac:(vm_compute; reflexivity)) as (i & p & Hre & _ & (m & _ & _ & Hd) & _).
  destruct (signing_timeout_never_fires i _ p Hre Hd eq_refl eq_refl) as (c & H).
  exists i, p, c. split_and!; [exact Hre|exact Hd|apply H..].
Defined.

Lemma loadable_states_witness :
  ∃ i, FromDump (code 0) = Ret (inl i) ∧ dump i = Some d_sig ∧
    FSMInstance_State i = inl (dump_State d_sig).
Proof.
  apply (loadable_states d_sig (code 0)); [reflexivity|vm_compute; discriminate|].
  exists Dkg. by apply (bool_decide_eq_true_1 (_ ∈ _)); vm_compute.
Defined.

(** A proposal that a participant declined. *)
Definition d_declined : FSMDump :=
  continue Sig d_idle
    [(EventInitProposal, [RqParticipantsList sample_proposal]);
     (EventDeclineProposal, [RqParticipant (mk_SignatureProposalParticipantRequest 0 1001)])].

Lemma cancelled_rounds_do_not_load_witness :
  dump_State d_declined = StateValidationCanceledByParticipant ∧
  @FromDump _ _ (table_json [d_declined]) (code 0) = Ret (inr (Err "cannot init machine for state")).
Proof.
  split; [by vm_compute|].
  apply (@cancelled_rounds_do_not_load _ _ (table_json [d_declined]) d_declined (code 0));
    [reflexivity|vm_compute; discriminate|].
  by apply (bool_decide_eq_true_1 (_ ∈ _)); vm_compute.
Defined.

Definition d_await : FSMDump := continue Sig d_idle (take 2 sig_script).

Lemma dump_roundtrip_witness :
  ∃ i i' resp b, reachable i ∧
    FSMInstance_Do i EventConfirmSignatureProposal
      [RqParticipant (mk_SignatureProposalParticipantRequest 1 1002)] = Ret (i', (resp, b, None)) ∧
    unmarshal b = Some d_sig.
Proof.
  destruct (reach_sig (take 2 sig_script) StateAwaitParticipantsConfirmations
    ltac:(vm_compute; reflexivity)) as (i & p & Hre & Hc & Hat & Hinv).
  destruct (sample_Do i Sig d_await _ p (confirm 1 1002) StateSignatureProposalCollected Hat Hinv Hc
    ltac:(vm_compute; reflexivity)) as (i' & resp & b & HDo & Hd').
  assert (continue Sig d_await [confirm 1 1002] = d_sig) as Heq by (vm_compute; reflexivity).
  rewrite Heq in Hd'. exists i, i', resp, b. split_and!; [exact Hre|exact HDo|].
  apply (dump_roundtrip i _ _ i' resp b d_sig Dkg Hre HDo Hd'); [by left|].
  apply (bool_decide_eq_true_1 (_ ∈ _)). vm_compute. reflexivity.
Defined.
