(* ===== verification/LevelState.v ===== *)
(** * The node's key-value state, [client/modules/state/state.go]

    [LevelDBState] keeps the offset of the bulletin board, the operation pool,
    the signatures and the FSM dumps in a LevelDB database. The database is a
    third-party package: its four operations are a class, with what its
    documentation promises as the laws of [LevelDBSpec]. The repositories are
    clients of the Go interface [State], here the class [NodeState]; its laws,
    [NodeStateSpec], are discharged for [LevelDBState] at the end.

    The mutex of [LevelDBState] is not modelled: an operation is one step. *)

From stdpp Require Import pretty.
From S2P Require Import Prelude.

(** ** Operations on the node's state

    A computation on a state [S] that returns a value or an error, or panics.
    An error that is returned to the caller ends the computation, as the
    [if err != nil { return ... }] of the source does. *)
Definition IO (S A : Type) : Type := S → Go (S * (A + error)).

#[export] Instance IO_ret {S} : MRet (IO S) := fun A a s => Ret (s, inl a).
#[export] Instance IO_bind {S} : MBind (IO S) := fun A B k m s =>
  match m s with
  | Ret (s, inl a) => k a s
  | Ret (s, inr e) => Ret (s, inr e)
  | Panic w => Panic w
  end.

Definition throw {S A} (e : error) : IO S A := fun s => Ret (s, inr e).
(** [return fmt.Errorf("msg: %w", err)] *)
Definition wrap {S A} (msg : string) (m : IO S A) : IO S A := fun s =>
  match m s with
  | Ret (s, inr e) => Ret (s, inr (Wrap msg e))
  | r => r
  end.
(** The error of [m] as a value. *)
Definition try {S A} (m : IO S A) : IO S (A + error) := fun s =>
  match m s with
  | Ret (s, r) => Ret (s, inl r)
  | Panic w => Panic w
  end.
(** A computation without effect that may panic. *)
Definition lift {S A} (m : Go A) : IO S A := fun s =>
  match m with Ret a => Ret (s, inl a) | Panic w => Panic w end.
Definition lift_res {S A} (m : Go (A + error)) : IO S A := fun s =>
  match m with Ret r => Ret (s, r) | Panic w => Panic w end.
(** [json.Marshal] and [json.Unmarshal] with the caller's message. *)
Definition json_res {S A} (msg : string) (o : option A) : IO S A :=
  match o with Some a => mret a | None => throw (Wrap msg (Err "json")) end.

(** [errors.Is(err, target)] *)
Fixpoint errors_Is (err target : error) : bool :=
  bool_decide (err = target) ||
  match err with Err _ => false | Wrap _ cause => errors_Is cause target end.

(** ** The interface [state.State] *)

(** [time.Now().Unix()] at the call of [Reset] is an argument. *)
Class NodeState (S : Type) : Type := {
  state_Get : string → IO S (option bytes);
  state_Set : string → bytes → IO S unit;
  state_Delete : string → IO S unit;
  state_Reset : Z → string → IO S (string * option error);
  state_SaveOffset : Z → IO S unit;
  state_LoadOffset : IO S Z;
  state_GetOrError : string → IO S bytes
}.

(** The sentinel [leveldb.ErrNotFound], which does not wrap another error. *)
Class LevelDBErr : Type := {
  ErrNotFound : error;
  ErrNotFound_plain : ∀ e, errors_Is ErrNotFound e = true ↔ e = ErrNotFound
}.

(** What the state promises to the repositories while its database works
    ([ready]): it is a finite map. *)
Class NodeStateSpec (S : Type) `{!NodeState S, !LevelDBErr} : Type := {
  ready : S → Prop;
  stored : S → gmap string bytes;
  state_Get_ready s k : ready s → state_Get k s = Ret (s, inl (stored s !! k));
  state_GetOrError_ready s k : ready s →
    state_GetOrError k s =
      Ret (s, match stored s !! k with Some v => inl v | None => inr ErrNotFound end);
  state_Set_ready s k v : ready s →
    ∃ s', state_Set k v s = Ret (s', inl tt) ∧ ready s' ∧ stored s' = <[k := v]> (stored s);
  state_Delete_ready s k : ready s →
    ∃ s', state_Delete k s = Ret (s', inl tt) ∧ ready s' ∧ stored s' = delete k (stored s)
}.

(** What the repositories rely on from [encoding/json]: an empty object decodes
    to an empty map, and a map of acceptable entries is encoded without loss. *)
Class JSONMap (V : Type) {json : JSON (gomap string V)} : Type := {
  entry_fits : string → V → Prop;
  map_roundtrip : ∀ m : gmap string V, map_Forall entry_fits m →
    ∃ b, marshal (Some m) = Some b ∧ 2 ≤ slen b ∧ unmarshal b = Some (Some m);
  unmarshal_object : unmarshal "{}" = Some (Some ∅)
}.

(** ** Keys and [encoding/binary] *)

Definition OffsetKey : string := "offset".

Definition MakeCompositeKey (prefix key : string) : bytes := prefix +:+ "_" +:+ key.
Definition MakeCompositeKeyString (prefix key : string) : string := prefix +:+ "_" +:+ key.

(** [binary.LittleEndian]: [n] bytes of [v], the lowest first. *)
Fixpoint le_bytes (n : nat) (v : Z) : bytes :=
  match n with
  | O => EmptyString
  | S n => String (ascii_of_N (Z.to_N (Z.land v 255))) (le_bytes n (Z.shiftr v 8))
  end.
Fixpoint le_value (s : bytes) : Z :=
  match s with
  | EmptyString => 0
  | String c s => Z.lor (Z.of_N (N_of_ascii c)) (Z.shiftl (le_value s) 8)
  end.

Definition PutUint64 (v : Z) : bytes := le_bytes 8 v.
(** Reads the first eight bytes; the bounds check panics on a shorter slice. *)
Definition Uint64 (b : bytes) : Go Z :=
  if slen b <? 8 then Panic "index out of range" else Ret (le_value (String.substring 0 8 b)).

(** ** LevelDB *)

(** The database package: [DB] is a handle, [W] what the disk holds. *)
Class LevelDB (DB W : Type) : Type := {
  leveldb_OpenFile : string → W → W * (DB + error);
  leveldb_Get : DB → bytes → W → bytes + error;
  leveldb_Put : DB → bytes → bytes → W → W * option error;
  leveldb_Delete : DB → bytes → W → W * option error
}.

(** The documented behaviour of a database that is open and whose disk works
    ([live]): reads see the last write of the key, [Get] of an absent key
    answers [ErrNotFound], opening a path gives a handle on what the path
    holds. *)
Class LevelDBSpec (DB W : Type) `{!LevelDB DB W, !LevelDBErr} : Type := {
  live : DB → W → Prop;
  path_of : DB → string;
  disk : string → W → gmap string bytes;
  leveldb_Get_live d k w : live d w →
    leveldb_Get d k w = match disk (path_of d) w !! k with Some v => inl v | None => inr ErrNotFound end;
  leveldb_Put_live d k v w : live d w →
    ∃ w', leveldb_Put d k v w = (w', None) ∧ live d w' ∧
      disk (path_of d) w' = <[k := v]> (disk (path_of d) w) ∧
      ∀ path, path ≠ path_of d → disk path w' = disk path w;
  leveldb_Delete_live d k w : live d w →
    ∃ w', leveldb_Delete d k w = (w', None) ∧ live d w' ∧
      disk (path_of d) w' = delete k (disk (path_of d) w);
  leveldb_OpenFile_live path w w' d : leveldb_OpenFile path w = (w', inl d) →
    live d w' ∧ path_of d = path ∧ ∀ p, disk p w' = disk p w
}.

(** ** [LevelDBState] *)

Section level_state.
Context {DB W : Type} {ldb : LevelDB DB W} {lerr : LevelDBErr}.

Record LevelDBState : Type := mk_LevelDBState {
  stateDb : DB;
  topic : string;
  stateDbPath : string
}.

Definition NewLevelDBState (stateDbPath topic : string) : IO W LevelDBState := fun w =>
  match leveldb_OpenFile stateDbPath w with
  | (w, inr err) => Ret (w, inr (Wrap "failed to open stateDB" err))
  | (w, inl db) =>
      let state := mk_LevelDBState db topic stateDbPath in
      let offsetCompositeKey := MakeCompositeKey topic OffsetKey in
      match leveldb_Get db offsetCompositeKey w with
      | inl _ => Ret (w, inl state)
      | inr _ =>
          match leveldb_Put db offsetCompositeKey (PutUint64 0) w with
          | (w, Some err) => Ret (w, inr (Wrap "failed to init storage" err))
          | (w, None) => Ret (w, inl state)
          end
      end
  end.

(** The path of a new database: the given one, or the old one and the time. *)
Definition new_path (s : LevelDBState) (unixNow : Z) (path : string) : string :=
  if slen path <? 1 then stateDbPath s +:+ "_" +:+ pretty unixNow else path.

Definition NewStateFromOld (s : LevelDBState) (unixNow : Z) (path : string)
  : IO W ((LevelDBState + error) * string) :=
  let path := new_path s unixNow path in
  state ← try (NewLevelDBState path (topic s));
  mret (state, path).

(** The object and the disk. *)
Abbreviation St := (LevelDBState * W)%type (only parsing).

Definition LevelDBState_Reset (unixNow : Z) (path : string) : IO St (string * option error) :=
  fun '(s, w) =>
  let path := new_path s unixNow path in
  match NewLevelDBState path (topic s) w with
  | Panic why => Panic why
  | Ret (w, inr err) => Ret ((s, w), inl (path, Some (Wrap "failed to open stateDB" err)))
  | Ret (w, inl newstate) =>
      Ret ((mk_LevelDBState (stateDb newstate) (topic s) path, w), inl (path, None))
  end.

(** [errors.Is(leveldb.ErrNotFound, err)] with its arguments in this order. *)
Definition LevelDBState_Get (key : string) : IO St (option bytes) := fun '(s, w) =>
  match leveldb_Get (stateDb s) key w with
  | inl value => Ret ((s, w), inl (Some value))
  | inr err =>
      if negb (errors_Is ErrNotFound err)
      then Ret ((s, w), inr (Wrap "failed to get value from leveldb storage" err))
      else Ret ((s, w), inl None)
  end.

Definition LevelDBState_Set (key : string) (value : bytes) : IO St unit := fun '(s, w) =>
  match leveldb_Put (stateDb s) key value w with
  | (w, Some err) => Ret ((s, w), inr (Wrap "failed to save value" err))
  | (w, None) => Ret ((s, w), inl tt)
  end.

Definition LevelDBState_Delete (key : string) : IO St unit := fun '(s, w) =>
  match leveldb_Delete (stateDb s) key w with
  | (w, Some err) =>
      if negb (errors_Is err ErrNotFound)
      then Ret ((s, w), inr (Wrap "failed to delete value" err))
      else Ret ((s, w), inl tt)
  | (w, None) => Ret ((s, w), inl tt)
  end.

Definition SaveOffset (offset : Z) : IO St unit := fun '(s, w) =>
  match leveldb_Put (stateDb s) (MakeCompositeKey (topic s) OffsetKey) (PutUint64 offset) w with
  | (w, Some err) => Ret ((s, w), inr (Wrap "failed to set offset" err))
  | (w, None) => Ret ((s, w), inl tt)
  end.

Definition LoadOffset : IO St Z := fun '(s, w) =>
  match leveldb_Get (stateDb s) (MakeCompositeKey (topic s) OffsetKey) w with
  | inr err => Ret ((s, w), inr (Wrap "failed to read offset" err))
  | inl bz => offset ← Uint64 bz; Ret ((s, w), inl offset)
  end.

Definition GetOrError (key : string) : IO St bytes := fun '(s, w) =>
  match leveldb_Get (stateDb s) key w with
  | inr err => Ret ((s, w), inr err)
  | inl value => Ret ((s, w), inl value)
  end.

#[export] Instance LevelDBState_NodeState : NodeState St := {
  state_Get := LevelDBState_Get;
  state_Set := LevelDBState_Set;
  state_Delete := LevelDBState_Delete;
  state_Reset := LevelDBState_Reset;
  state_SaveOffset := SaveOffset;
  state_LoadOffset := LoadOffset;
  state_GetOrError := GetOrError
}.
End level_state.
Arguments LevelDBState DB : clear implicits.

(** ** Lemmas *)

Lemma IO_bind_ret {S A B} (m : IO S A) (k : A → IO S B) s s' a :
  m s = Ret (s', inl a) → (m ≫= k) s = k a s'.
Proof. intros H. unfold mbind, IO_bind. by rewrite H. Qed.

Lemma IO_bind_err {S A B} (m : IO S A) (k : A → IO S B) s s' e :
  m s = Ret (s', inr e) → (m ≫= k) s = Ret (s', inr e).
Proof. intros H. unfold mbind, IO_bind. by rewrite H. Qed.

Lemma wrap_ret {S A} msg (m : IO S A) s s' a :
  m s = Ret (s', inl a) → wrap msg m s = Ret (s', inl a).
Proof. intros H. unfold wrap. by rewrite H. Qed.

Lemma wrap_err {S A} msg (m : IO S A) s s' e :
  m s = Ret (s', inr e) → wrap msg m s = Ret (s', inr (Wrap msg e)).
Proof. intros H. unfold wrap. by rewrite H. Qed.

(** Run the first computation of a sequence, whose result the equation [H]
    gives. *)
Ltac io_step H :=
  first [ erewrite IO_bind_ret; [|first [exact H | apply wrap_ret; exact H]]
        | erewrite IO_bind_err; [|first [exact H | apply wrap_err; exact H]] ]; cbn beta iota.

Lemma sapp_nil s : "" +:+ s = s.
Proof. reflexivity. Qed.
Lemma sapp_cons c a s : String c a +:+ s = String c (a +:+ s).
Proof. reflexivity. Qed.

Lemma sapp_inj_l (a b c : string) : a +:+ b = a +:+ c → b = c.
Proof. induction a; simpl; [done|]. intros [=]. auto. Qed.

Lemma sapp_assoc (a b c : string) : (a +:+ b) +:+ c = a +:+ (b +:+ c).
Proof. induction a as [|x a IH]; [reflexivity|exact (f_equal (String x) IH)]. Qed.

Lemma MakeCompositeKeyString_inj topic k k' :
  MakeCompositeKeyString topic k = MakeCompositeKeyString topic k' → k = k'.
Proof. unfold MakeCompositeKeyString. by intros [= ?]%sapp_inj_l. Qed.

Lemma length_le_bytes n v : String.length (le_bytes n v) = n.
Proof. induction n in v |- *; simpl; auto. Qed.

Lemma le_value_bytes n v : le_value (le_bytes n v) = v mod 2 ^ (8 * Z.of_nat n).
Proof.
  induction n as [|n IH] in v |- *.
  { simpl. by rewrite Z.mod_1_r. }
  cbn [le_bytes le_value]. rewrite IH, N_ascii_embedding.
  2:{ apply N2Z.inj_lt. rewrite Z2N.id by (apply Z.land_nonneg; lia).
      change 255 with (Z.ones 8). rewrite Z.land_ones by lia.
      change (Z.of_N 256) with (2 ^ 8). apply Z.mod_pos_bound. lia. }
  rewrite Z2N.id by (apply Z.land_nonneg; lia). change 255 with (Z.ones 8).
  apply Z.bits_inj'. intros i Hi. rewrite Z.lor_spec, Z.land_spec.
  rewrite Z.testbit_ones_nonneg, Z.shiftl_spec by lia.
  destruct (Z.ltb_spec i 8) as [Hlt|Hge].
  - rewrite (Z.testbit_neg_r _ (i - 8)), Z.mod_pow2_bits_low by lia. by rewrite andb_true_r, orb_false_r.
  - rewrite andb_false_r. cbn [orb].
    destruct (Z.lt_ge_cases (i - 8) (8 * Z.of_nat n)).
    + rewrite !Z.mod_pow2_bits_low, Z.shiftr_spec by lia. f_equal. lia.
    + rewrite !Z.mod_pow2_bits_high by lia. done.
Qed.

Lemma substring_all s : String.substring 0 (String.length s) s = s.
Proof. induction s; simpl; [done|by f_equal]. Qed.

Lemma Uint64_PutUint64 v : Uint64 (PutUint64 v) = Ret (v mod 2 ^ 64).
Proof.
  unfold Uint64, PutUint64, slen. pose proof (substring_all (le_bytes 8 v)) as Hs.
  rewrite length_le_bytes in *. simpl (_ <? _). by rewrite Hs, le_value_bytes.
Qed.

(** ** The contract of the state *)

Section level_spec.
Context {DB W : Type} {ldb : LevelDB DB W} {lerr : LevelDBErr} {lspec : LevelDBSpec DB W}.
Implicit Types (x : LevelDBState DB * W).

Definition level_ready (x : LevelDBState DB * W) : Prop := live (stateDb x.1) x.2.
Definition level_stored (x : LevelDBState DB * W) : gmap string bytes :=
  disk (path_of (stateDb x.1)) x.2.

#[export] Program Instance LevelDBState_NodeStateSpec : NodeStateSpec (LevelDBState DB * W) := {
  ready := level_ready;
  stored := level_stored
}.
Next Obligation.
  intros [s w] k Hl. cbn. rewrite leveldb_Get_live by done. unfold level_stored. cbn.
  destruct (_ !! k); [done|]. by rewrite (proj2 (ErrNotFound_plain _) eq_refl).
Qed.
Next Obligation.
  intros [s w] k Hl. cbn. rewrite leveldb_Get_live by done. unfold level_stored. cbn.
  by destruct (_ !! k).
Qed.
Next Obligation.
  intros [s w] k v Hl. cbn. destruct (leveldb_Put_live (stateDb s) k v w) as (w' & -> & ? & ? & _); [done|].
  by exists (s, w').
Qed.
Next Obligation.
  intros [s w] k Hl. cbn. destruct (leveldb_Delete_live (stateDb s) k w) as (w' & -> & ? & ?); [done|].
  by exists (s, w').
Qed.

(** Whether the database of a path holds an offset for a topic. *)
Definition offset_key (topic : string) : string := MakeCompositeKey topic OffsetKey.

(** Opening a database succeeds when the file opens, and only adds the offset
    of the topic when it is missing. *)
Lemma NewLevelDBState_ok path topic w w1 d :
  leveldb_OpenFile path w = (w1, inl d) →
  ∃ w', NewLevelDBState path topic w = Ret (w', inl (mk_LevelDBState d topic path)) ∧
    live d w' ∧ path_of d = path ∧
    disk path w' =
      (if disk path w !! offset_key topic is Some _ then disk path w
       else <[offset_key topic := PutUint64 0]> (disk path w)) ∧
    ∀ p, p ≠ path → disk p w' = disk p w.
Proof.
  intros Ho. destruct (leveldb_OpenFile_live path w w1 d Ho) as (Hl & Hp & Hd).
  unfold NewLevelDBState. rewrite Ho, leveldb_Get_live, Hp, Hd by done. fold (offset_key topic).
  destruct (disk path w !! offset_key topic) as [v|].
  - exists w1. split_and!; auto.
  - destruct (leveldb_Put_live d (offset_key topic) (PutUint64 0) w1 Hl) as (w' & -> & Hl' & Hd' & Hp').
    exists w'. rewrite Hp, Hd in Hd'. split_and!; auto.
    intros p Hne. by rewrite Hp', Hd by by rewrite Hp.
Qed.

Lemma SaveOffset_ok s w n :
  live (stateDb s) w →
  ∃ w', SaveOffset n (s, w) = Ret ((s, w'), inl tt) ∧ live (stateDb s) w' ∧
    disk (path_of (stateDb s)) w' =
      <[offset_key (topic s) := PutUint64 n]> (disk (path_of (stateDb s)) w).
Proof.
  intros Hl. unfold SaveOffset.
  destruct (leveldb_Put_live (stateDb s) (offset_key (topic s)) (PutUint64 n) w Hl) as (w' & Hw & ? & ? & _).
  exists w'. fold (offset_key (topic s)). by rewrite Hw.
Qed.

Lemma LoadOffset_ok s w n :
  live (stateDb s) w →
  disk (path_of (stateDb s)) w !! offset_key (topic s) = Some (PutUint64 n) →
  LoadOffset (s, w) = Ret ((s, w), inl (n mod 2 ^ 64)).
Proof.
  intros Hl Hk. unfold LoadOffset. fold (offset_key (topic s)).
  by rewrite leveldb_Get_live, Hk, Uint64_PutUint64 by done.
Qed.

(** The offset is kept: it is read back as saved, by this process and by
    one that opens the database again. *)
Theorem offset_survives_restart s w n :
  live (stateDb s) w → path_of (stateDb s) = stateDbPath s → 0 ≤ n < 2 ^ 64 →
  ∃ w1, SaveOffset n (s, w) = Ret ((s, w1), inl tt) ∧ LoadOffset (s, w1) = Ret ((s, w1), inl n) ∧
    ∀ w2 d, leveldb_OpenFile (stateDbPath s) w1 = (w2, inl d) →
      ∃ s' w3, NewLevelDBState (stateDbPath s) (topic s) w1 = Ret (w3, inl s') ∧
        LoadOffset (s', w3) = Ret ((s', w3), inl n).
Proof.
  intros Hl Hp Hn. destruct (SaveOffset_ok s w n Hl) as (w1 & Hs & Hl1 & Hd1).
  assert (n mod 2 ^ 64 = n) as Hm by by apply Z.mod_small.
  exists w1. split; [done|]. split.
  { rewrite (LoadOffset_ok s w1 n Hl1); [by rewrite Hm|]. by rewrite Hd1, lookup_insert_eq. }
  intros w2 d Ho. destruct (NewLevelDBState_ok (stateDbPath s) (topic s) w1 w2 d Ho)
    as (w3 & Hnew & Hl3 & Hp3 & Hd3 & _).
  rewrite Hp in Hd1. rewrite Hd1, lookup_insert_eq in Hd3.
  eexists _, w3. split; [exact Hnew|]. rewrite (LoadOffset_ok _ _ n); cbn; [by rewrite Hm|done|].
  by rewrite Hp3, Hd3, lookup_insert_eq.
Qed.

(** [Reset] to a path without a database continues there with offset zero
    and nothing else, and leaves the old database as it is. *)
Theorem reset_starts_afresh s w now path w1 d :
  leveldb_OpenFile (new_path s now path) w = (w1, inl d) →
  disk (new_path s now path) w = ∅ →
  ∃ s' w', LevelDBState_Reset now path (s, w) = Ret ((s', w'), inl (new_path s now path, None)) ∧
    LoadOffset (s', w') = Ret ((s', w'), inl 0) ∧
    level_stored (s', w') = {[offset_key (topic s) := PutUint64 0]} ∧
    ∀ p, p ≠ new_path s now path → disk p w' = disk p w.
Proof.
  intros Ho He. destruct (NewLevelDBState_ok _ (topic s) w w1 d Ho) as (w' & Hnew & Hl & Hp & Hd & Hoth).
  rewrite He, lookup_empty in Hd. unfold LevelDBState_Reset. rewrite Hnew.
  do 2 eexists. split; [reflexivity|]. split.
  { rewrite (LoadOffset_ok _ _ 0); cbn; [done|done|]. by rewrite Hp, Hd, lookup_insert_eq. }
  split; [|done]. unfold level_stored. cbn. by rewrite Hp, Hd.
Qed.
End level_spec.

(** ** A database in memory *)

(** The disk as a map from paths to databases, and the path as the handle. *)
Module MemDB.

Abbreviation Disk := (gmap string (gmap string bytes)).
Definition db_at (path : string) (w : Disk) : gmap string bytes := default ∅ (w !! path).

#[export] Program Instance mem_err : LevelDBErr := { ErrNotFound := Err "leveldb: not found" }.
Next Obligation.
  intros e. cbn. rewrite orb_false_r, bool_decide_eq_true. done.
Qed.

#[export] Instance mem_db : LevelDB string Disk := {
  leveldb_OpenFile := fun path w => (w, inl path);
  leveldb_Get := fun d k w =>
    match db_at d w !! k with Some v => inl v | None => inr ErrNotFound end;
  leveldb_Put := fun d k v w => (<[d := <[k := v]> (db_at d w)]> w, None);
  leveldb_Delete := fun d k w => (<[d := delete k (db_at d w)]> w, None)
}.

Lemma db_at_insert d m w : db_at d (<[d := m]> w) = m.
Proof. unfold db_at. by rewrite lookup_insert_eq. Qed.
Lemma db_at_insert_ne d d' m w : d ≠ d' → db_at d' (<[d := m]> w) = db_at d' w.
Proof. intros. unfold db_at. by rewrite lookup_insert_ne. Qed.

#[export] Program Instance mem_spec : LevelDBSpec string Disk := {
  live := fun _ _ => True;
  path_of := fun d => d;
  disk := db_at
}.
Next Obligation. done. Qed.
Next Obligation.
  intros d k v w _. eexists. split; [done|]. split; [done|]. rewrite db_at_insert.
  split; [done|]. intros p Hp. by rewrite db_at_insert_ne.
Qed.
Next Obligation. intros d k w _. eexists. split; [done|]. by rewrite db_at_insert. Qed.
Next Obligation. intros path w w' d [= <- <-]. done. Qed.


Lemma offset_survives_restart_witness :
  ∃ w1 w3, SaveOffset 300 (mk_LevelDBState "db" "topic" "db", ∅) =
      Ret ((mk_LevelDBState "db" "topic" "db", w1), inl tt) ∧
    NewLevelDBState "db" "topic" w1 = Ret (w3, inl (mk_LevelDBState "db" "topic" "db")) ∧
    LoadOffset (mk_LevelDBState "db" "topic" "db", w3) =
      Ret ((mk_LevelDBState "db" "topic" "db", w3), inl 300).
Proof.
  destruct (offset_survives_restart (mk_LevelDBState "db" "topic" "db") (∅ : Disk) 300)
    as (w1 & H1 & _ & H2); [exact I|reflexivity|lia|].
  destruct (H2 w1 "db" eq_refl) as (s' & w3 & H3 & H4). pose proof H3 as H3'.
  injection H1 as H1'. subst w1. vm_compute in H3'. injection H3' as H5 H6. subst s'.
  do 2 eexists. split; [reflexivity|]. split; [exact H3|exact H4].
Defined.

Lemma reset_starts_afresh_witness :
  ∃ s' w', LevelDBState_Reset 1700000000 "" (mk_LevelDBState "db" "topic" "db", (∅ : Disk)) =
      Ret ((s', w'), inl ("db_1700000000", None)) ∧
    LoadOffset (s', w') = Ret ((s', w'), inl 0).
Proof.
  destruct (reset_starts_afresh (mk_LevelDBState "db" "topic" "db") (∅ : Disk) 1700000000 ""
    ∅ "db_1700000000") as (s' & w' & H1 & H2 & _); [by vm_compute|by vm_compute|].
  exists s', w'. split; [exact H1|exact H2].
Defined.
End MemDB.
