(* ===== verification/ClientTypes.v ===== *)
(** * Messages and operations

    [storage/types.go], [client/types/types.go] and [fsm/types/types.go]: the
    messages of the bulletin board, the operations a node hands to its
    air-gapped machine, the translation of a message into the request of a
    machine, and the message that reinitialises a key generation. *)

From stdpp Require Import pretty.
From S2P Require Import Prelude GoFsm Requests Payload.
From S2P Require Import SignatureProposal DkgProposal SigningProposal.

(** ** [encoding/hex] and [encoding/base64] *)

Definition char_at (alphabet : string) (i : Z) : ascii :=
  default "000"%char (String.get (Z.to_nat i) alphabet).
Definition byte_of (c : ascii) : Z := Z.of_N (N_of_ascii c).

Definition hex_alphabet : string := "0123456789abcdef".
Fixpoint hex_EncodeToString (s : bytes) : string :=
  match s with
  | EmptyString => EmptyString
  | String c s =>
      String (char_at hex_alphabet (byte_of c / 16))
        (String (char_at hex_alphabet (byte_of c mod 16)) (hex_EncodeToString s))
  end.

Definition b64_alphabet : string :=
  "ABCDEFGHIJKLMNOPQRSTUVWXYZabcdefghijklmnopqrstuvwxyz0123456789+/".
Definition b64_char (v : Z) : ascii := char_at b64_alphabet (v mod 64).
(** [base64.StdEncoding], with padding. *)
Fixpoint base64_EncodeToString (s : bytes) : string :=
  match s with
  | EmptyString => EmptyString
  | String a EmptyString =>
      let v := byte_of a * 16 in
      String (b64_char (v / 64)) (String (b64_char v) "==")
  | String a (String b EmptyString) =>
      let v := (byte_of a * 256 + byte_of b) * 4 in
      String (b64_char (v / 4096)) (String (b64_char (v / 64)) (String (b64_char v) "="))
  | String a (String b (String c s)) =>
      let v := (byte_of a * 256 + byte_of b) * 256 + byte_of c in
      String (b64_char (v / 262144)) (String (b64_char (v / 4096))
        (String (b64_char (v / 64)) (String (b64_char v) (base64_EncodeToString s))))
  end.

(** The hash functions and the signature scheme are parameters. *)
Class Crypto : Type := {
  md5_Sum : bytes → bytes;
  sha1_Sum : bytes → bytes;
  ed25519_Verify : bytes → bytes → bytes → bool
}.

(** [ed25519.Verify] panics on a public key of another size than 32 bytes. *)
Definition PublicKeySize : Z := 32.
Definition Verify `{!Crypto} (publicKey message sig : bytes) : Go bool :=
  if negb (slen publicKey =? PublicKeySize) then Panic "ed25519: bad public key length"
  else Ret (ed25519_Verify publicKey message sig).

(** ** [storage.Message] *)

Record Message : Type := mk_Message {
  msg_ID : string;
  msg_DkgRoundID : string;
  msg_Offset : Z;
  msg_Event : string;
  msg_Data : bytes;
  msg_Signature : bytes;
  msg_SenderAddr : string;
  msg_RecipientAddr : string
}.

#[export] Instance Message_eq_dec : EqDecision Message.
Proof. solve_decision. Defined.

Definition Message_Bytes (m : Message) : bytes := msg_Data m.
Definition Message_Verify `{!Crypto} (m : Message) (pubKey : bytes) : Go bool :=
  Verify pubKey (Message_Bytes m) (msg_Signature m).

(** ** [fsm/types.ReconstructedSignature] and [BatchPartialSignatures] *)

Record ReconstructedSignature : Type := mk_ReconstructedSignature {
  rec_File : string;
  rec_BatchID : string;
  rec_MessageID : string;
  rec_SrcPayload : bytes;
  rec_Signature : bytes;
  rec_Username : string;
  rec_DKGRoundID : string;
  rec_ValIdx : Z
}.

#[export] Instance ReconstructedSignature_eq_dec : EqDecision ReconstructedSignature.
Proof. solve_decision. Defined.

Definition AddPartialSignature (b : gomap string (list bytes)) (messageID : string)
    (partialSignature : bytes) : Go (gomap string (list bytes)) :=
  gomap_insert b messageID (default [] (gomap_lookup b messageID) ++ [partialSignature]).

(** ** [types.Operation] *)

Abbreviation OperationType := string (only parsing).

Definition DKGCommits : OperationType := "dkg_commits".
Definition SignatureReconstructed : Event := "signature_reconstructed".
Definition SignatureReconstructionFailed : Event := "signature_reconstruction_failed".
Definition ReinitDKG : State := "reinit_dkg".
Definition OperationProcessed : Event := "operation_processed_successfully".

Record Operation : Type := mk_Operation {
  op_ID : string;
  op_Type : OperationType;
  op_Payload : bytes;
  op_ResultMsgs : list Message;
  op_CreatedAt : Time;
  op_DKGIdentifier : string;
  op_To : string;
  op_Event : Event;
  op_ExtraData : bytes
}.

#[export] Instance Operation_eq_dec : EqDecision Operation.
Proof. solve_decision. Defined.

(** The string whose hash identifies an operation. *)
Definition operation_preimage (dkgRoundID : string) (payload : bytes) : string :=
  dkgRoundID +:+ "_" +:+ base64_EncodeToString payload.

(** [time.Now()] is the argument [now]. *)
Definition NewOperation `{!Crypto} (now : Time) (dkgRoundID : string) (payload : bytes)
    (state : State) : Operation :=
  let operationID := operation_preimage dkgRoundID payload in
  {| op_ID := hex_EncodeToString (md5_Sum operationID);
     op_Type := state;
     op_Payload := payload;
     op_ResultMsgs := [];
     op_CreatedAt := now;
     op_DKGIdentifier := dkgRoundID;
     op_To := "";
     op_Event := "";
     op_ExtraData := "" |}.

Definition Operation_Equal (o o2 : Operation) : option error :=
  if negb (op_ID o =s? op_ID o2) then Some (Err "o1.ID != o2.ID")
  else if negb (op_Type o =s? op_Type o2) then Some (Err "o1.Type != o2.Type")
  else if negb (op_Payload o =s? op_Payload o2) then Some (Err "o1.Payload != o2.Payload")
  else None.

(** The receiver is a pointer that may be [nil]. *)
Definition IsSigningState (o : option Operation) : bool :=
  match o with
  | Some o => HasPrefix (op_Type o) "state_signing_"
  | None => false
  end.

Definition getShortOperationDescription (operationType : OperationType) : string :=
  if operationType =s? StateAwaitParticipantsConfirmations then "confirm_participation"
  else if operationType =s? StateDkgCommitsAwaitConfirmations then "send_commits_for_the_DKG_round"
  else if operationType =s? StateDkgDealsAwaitConfirmations then "send_deals_for_the_DKG_round"
  else if operationType =s? StateDkgResponsesAwaitConfirmations then "send_responses_for_the_DKG_round"
  else if operationType =s? StateDkgMasterKeyAwaitConfirmations
    then "reconstruct_the_public_key_and_broadcast_it"
  else if operationType =s? StateSigningAwaitPartialSigns then "partial_sign"
  else if operationType =s? StateSigningPartialSignsCollected then "recover_full_signature"
  else if operationType =s? ReinitDKG then "reinit_DKG"
  else "unknown_operation".

Definition getStepNumber (operationType : OperationType) : Z :=
  if operationType =s? StateDkgCommitsAwaitConfirmations then 1
  else if operationType =s? StateDkgDealsAwaitConfirmations then 2
  else if operationType =s? StateDkgResponsesAwaitConfirmations then 3
  else if operationType =s? StateDkgMasterKeyAwaitConfirmations then 4
  else if operationType =s? StateAwaitParticipantsConfirmations then 1
  else if operationType =s? StateSigningAwaitPartialSigns then 1
  else if operationType =s? StateSigningPartialSignsCollected then 2
  else if operationType =s? ReinitDKG then 0
  else -1.

(** [s[:n]], which panics when [s] is shorter. *)
Definition slice_to (s : string) (n : nat) : Go string :=
  if (String.length s <? n)%nat then Panic "slice bounds out of range"
  else Ret (String.substring 0 n s).

Definition Filename {json_inv : JSON SigningPartialSignsParticipantInvitationsResponse}
    (o : Operation) : Go string :=
  dkg ← slice_to (op_DKGIdentifier o) 5;
  let filename := "dkg_id_" +:+ dkg in
  let filename :=
    if IsSigningState (Some o) then
      match unmarshal (op_Payload o) with
      | Some payload => filename +:+ "_signing_id_" +:+ sr_BatchID payload
      | None => filename
      end
    else filename in
  id ← slice_to (op_ID o) 5;
  Ret (filename +:+ "_step_" +:+ pretty (getStepNumber (op_Type o)) +:+ "_" +:+
       getShortOperationDescription (op_Type o) +:+ "_" +:+ id).

(** ** From messages to requests *)

Class RequestsJSON : Type := {
  #[global] json_participant :: JSON SignatureProposalParticipantRequest;
  #[global] json_participants_list :: JSON SignatureProposalParticipantsListRequest;
  #[global] json_commit :: JSON DKGProposalCommitConfirmationRequest;
  #[global] json_deal :: JSON DKGProposalDealConfirmationRequest;
  #[global] json_response :: JSON DKGProposalResponseConfirmationRequest;
  #[global] json_masterkey :: JSON DKGProposalMasterKeyConfirmationRequest;
  #[global] json_partial_signs :: JSON SigningProposalBatchPartialSignRequests;
  #[global] json_signing_start :: JSON SigningBatchProposalStartRequest;
  #[global] json_dkg_error :: JSON DKGProposalConfirmationErrorRequest;
  #[global] json_signature_error :: JSON SignatureProposalConfirmationErrorRequest
}.

(** When the data do not decode, the error is returned as the value, next to a
    [nil] error: the request is then of no type that a machine expects. *)
Definition decode_request {A} {j : JSON A} (mk : A → Request) (data : bytes) : Request + error :=
  match unmarshal data with
  | Some req => inl (mk req)
  | None => inl RqOther
  end.

Section messages.
Context {jreq : RequestsJSON}.

Definition FSMRequestFromMessage (message : Message) : Request + error :=
  let ev := msg_Event message in
  let data := msg_Data message in
  if (ev =s? EventConfirmSignatureProposal) || (ev =s? EventDeclineProposal) then
    decode_request RqParticipant data
  else if ev =s? EventInitProposal then decode_request RqParticipantsList data
  else if ev =s? EventDKGCommitConfirmationReceived then decode_request RqCommit data
  else if ev =s? EventDKGDealConfirmationReceived then decode_request RqDeal data
  else if ev =s? EventDKGResponseConfirmationReceived then decode_request RqResponse data
  else if ev =s? EventDKGMasterKeyConfirmationReceived then decode_request RqMasterKey data
  else if ev =s? EventSigningPartialSignReceived then decode_request RqPartialSigns data
  else if ev =s? EventSigningStart then decode_request RqSigningStart data
  else if (ev =s? EventDKGCommitConfirmationError) || (ev =s? EventDKGDealConfirmationError) ||
    (ev =s? EventDKGResponseConfirmationError) || (ev =s? EventDKGMasterKeyConfirmationError) then
    decode_request RqDkgError data
  else if (ev =s? EventSigningPartialSignError) || (ev =s? SignatureReconstructionFailed) then
    decode_request RqSignatureError data
  else inr (Err "invalid event").

(** ** Reinitialisation *)

Record Participant : Type := mk_Participant {
  pt_DKGPubKey : bytes;
  pt_OldCommPubKey : bytes;
  pt_NewCommPubKey : bytes;
  pt_Name : string
}.

Record ReDKG : Type := mk_ReDKG {
  re_DKGID : string;
  re_Threshold : Z;
  re_Participants : list Participant;
  re_Messages : list Message
}.

Definition empty_ReDKG : ReDKG := mk_ReDKG "" 0 [] [].

(** The body of the inner loop: a participant of the proposal, with its new
    communication key or the default value. *)
Definition participant_entry (newCommPubKeys : gomap string bytes)
    (ps : list Participant) (participant : option SignatureProposalParticipantsEntry)
  : Go (list Participant) :=
  e ← deref participant;
  Ret (ps ++ [mk_Participant (pe_DkgPubKey e) (pe_PubKey e)
                (default "" (gomap_lookup newCommPubKeys (pe_Username e))) (pe_Username e)]).

Fixpoint redkg_loop (newCommPubKeys : gomap string bytes) (reDKG : ReDKG) (messages : list Message)
  : Go (ReDKG + error) :=
  match messages with
  | [] => Ret (inl reDKG)
  | msg :: messages =>
      r ←
        (if msg_Event msg =s? EventInitProposal then
           match FSMRequestFromMessage msg with
           | inr err => Ret (inr (Wrap "failed to get FSM request from message" err))
           | inl req =>
               match as_ParticipantsList req with
               | None => Ret (inr (Err "invalid request"))
               | Some request =>
                   ps ← foldM (participant_entry newCommPubKeys) (re_Participants reDKG)
                          (pl_Participants request);
                   Ret (inl (mk_ReDKG (msg_DkgRoundID msg) (pl_SigningThreshold request) ps
                               (re_Messages reDKG)))
               end
           end
         else Ret (inl reDKG));
      match r with
      | inr err => Ret (inr err)
      | inl reDKG =>
          if msg_Event msg =s? EventSigningStart then Ret (inl reDKG)
          else
            redkg_loop newCommPubKeys
              (mk_ReDKG (re_DKGID reDKG) (re_Threshold reDKG) (re_Participants reDKG)
                 (re_Messages reDKG ++ [msg]))
              messages
      end
  end.

Definition GenerateReDKGMessage (messages : list Message) (newCommPubKeys : gomap string bytes)
  : Go (ReDKG + error) :=
  redkg_loop newCommPubKeys empty_ReDKG messages.

(** The bytes that [CalcStartReInitDKGMessageHash] writes to its buffer. *)
Definition participant_bytes (p : Participant) : bytes :=
  pt_NewCommPubKey p +:+ pt_OldCommPubKey p +:+ pt_DKGPubKey p +:+ pt_Name p.
Definition message_bytes (m : Message) : bytes :=
  msg_Data m +:+ msg_Signature m +:+ msg_RecipientAddr m +:+ msg_Event m +:+ msg_SenderAddr m +:+
  msg_DkgRoundID m +:+ pretty (msg_Offset m).
Definition concat_bytes (l : list bytes) : bytes := foldr String.append "" l.
Definition redkg_bytes (msg : ReDKG) : bytes :=
  re_DKGID msg +:+ pretty (re_Threshold msg) +:+
  concat_bytes (participant_bytes <$> re_Participants msg) +:+
  concat_bytes (message_bytes <$> re_Messages msg).

Definition CalcStartReInitDKGMessageHash `{!Crypto} {json_redkg : JSON ReDKG} (payload : bytes)
  : bytes + error :=
  match unmarshal payload with
  | None => inr (Wrap "failed to unmarshal payload" (Err "json"))
  | Some msg => inl (sha1_Sum (redkg_bytes msg))
  end.

End messages.

(** ** Encodings are injective *)

Lemma byte_of_bound c : 0 ≤ byte_of c < 256.
Proof. unfold byte_of. pose proof (N_ascii_bounded c). lia. Qed.

Lemma byte_of_inj c d : byte_of c = byte_of d → c = d.
Proof.
  unfold byte_of. intros H%N2Z.inj. rewrite <-(ascii_N_embedding c), <-(ascii_N_embedding d). by f_equal.
Qed.

(** The digits of an alphabet without repetition are told apart. *)
Lemma b64_char_inj i j : b64_char i = b64_char j → i mod 64 = j mod 64.
Proof.
  assert (∀ a b : fin 64, char_at b64_alphabet (Z.of_nat (fin_to_nat a)) =
                          char_at b64_alphabet (Z.of_nat (fin_to_nat b)) → a = b) as Hf.
  { apply (bool_decide_unpack _). by vm_compute. }
  unfold b64_char. intros H.
  assert (∀ k, ∃ a : fin 64, k mod 64 = Z.of_nat (fin_to_nat a)) as Hk.
  { intros k. pose proof (Z.mod_pos_bound k 64). assert (Z.to_nat (k mod 64) < 64)%nat as Hlt by lia.
    exists (nat_to_fin Hlt). rewrite fin_to_nat_to_fin. lia. }
  destruct (Hk i) as [a Ha], (Hk j) as [b Hb]. rewrite Ha, Hb in *. by rewrite (Hf a b H).
Qed.

Definition no_char (c : ascii) (s : string) : Prop := ∀ i, String.get i s ≠ Some c.

Lemma no_char_cons c d s : no_char c (String d s) ↔ d ≠ c ∧ no_char c s.
Proof.
  split.
  - intros H. split; [intros ->; by apply (H 0%nat)|]. intros i. exact (H (S i)).
  - intros [? H] [|i]; simpl; [congruence|apply H].
Qed.

Lemma b64_char_plain v : b64_char v ≠ "_"%char ∧ b64_char v ≠ "="%char.
Proof.
  assert (∀ a : fin 64, char_at b64_alphabet (Z.of_nat (fin_to_nat a)) ≠ "_"%char ∧
                        char_at b64_alphabet (Z.of_nat (fin_to_nat a)) ≠ "="%char) as Hf.
  { apply (bool_decide_unpack _). by vm_compute. }
  unfold b64_char. pose proof (Z.mod_pos_bound v 64).
  assert (Z.to_nat (v mod 64) < 64)%nat as Hlt by lia.
  specialize (Hf (nat_to_fin Hlt)). rewrite fin_to_nat_to_fin, Z2Nat.id in Hf by lia. done.
Qed.

Lemma string3_ind (P : string → Prop) :
  P "" → (∀ a, P (String a "")) → (∀ a b, P (String a (String b ""))) →
  (∀ a b c s, P s → P (String a (String b (String c s)))) → ∀ s, P s.
Proof.
  intros H0 H1 H2 H3. fix IH 1. intros [|a [|b [|c s]]]; [exact H0|apply H1|apply H2|].
  apply H3, IH.
Qed.

(** The four digits of a group determine its number. *)
Lemma b64_group_inj v w :
  0 ≤ v < 16777216 → 0 ≤ w < 16777216 →
  b64_char (v / 262144) = b64_char (w / 262144) → b64_char (v / 4096) = b64_char (w / 4096) →
  b64_char (v / 64) = b64_char (w / 64) → b64_char v = b64_char w → v = w.
Proof.
  intros Hv Hw H1%b64_char_inj H2%b64_char_inj H3%b64_char_inj H4%b64_char_inj.
  Z.div_mod_to_equations. lia.
Qed.

(** The bytes of the goal are below 256, equal digits have equal values. *)
Ltac b64_facts :=
  repeat match goal with H : b64_char _ = b64_char _ |- _ => apply b64_char_inj in H end;
  repeat match goal with c : ascii |- _ =>
    lazymatch goal with
    | _ : 0 ≤ byte_of c < 256 |- _ => fail
    | _ => pose proof (byte_of_bound c)
    end
  end.

Lemma bytes3_inj a b c a' b' c' :
  (byte_of a * 256 + byte_of b) * 256 + byte_of c =
  (byte_of a' * 256 + byte_of b') * 256 + byte_of c' → a = a' ∧ b = b' ∧ c = c'.
Proof.
  b64_facts. intros. split_and!; apply byte_of_inj; lia.
Qed.

Lemma base64_inj s t : base64_EncodeToString s = base64_EncodeToString t → s = t.
Proof.
  assert (∀ v, b64_char v = "="%char → False) as Hpad by (intros v; apply b64_char_plain).
  revert t. induction s as [|a|a b|a b c s IH] using string3_ind; intros [|a' [|b' [|c' t]]];
    cbn [base64_EncodeToString]; intros Heq; simplify_eq; try done;
    try (exfalso; eauto; fail).
  - destruct (bytes3_inj "000" "000" a "000" "000" a') as (_ & _ & ->); [|done].
    b64_facts. Z.div_mod_to_equations. simpl. lia.
  - destruct (bytes3_inj "000" a b "000" a' b') as (_ & -> & ->); [|done].
    b64_facts. Z.div_mod_to_equations. simpl. lia.
  - rewrite (IH t) by done.
    destruct (bytes3_inj a b c a' b' c') as (-> & -> & ->); [|done].
    apply b64_group_inj; auto; b64_facts; lia.
Qed.

Lemma base64_no_underscore s : no_char "_" (base64_EncodeToString s).
Proof.
  induction s as [|a|a b|a b c s IH] using string3_ind; cbn [base64_EncodeToString];
    rewrite ?no_char_cons; split_and?; try apply b64_char_plain; try done; by intros [].
Qed.

(** A string is split at its last separator. *)
Lemma split_last_sep c (r r' s s' : string) :
  no_char c s → no_char c s' →
  r +:+ String c s = r' +:+ String c s' → r = r' ∧ s = s'.
Proof.
  intros Hs Hs'.
  assert (∀ pre suf, ¬ no_char c (pre +:+ String c suf)) as Hsep.
  { intros pre suf H. apply (H (String.length pre)). clear H. induction pre; simpl; auto. }
  revert r'. induction r as [|d r IH]; intros [|d' r']; simpl; intros [= H].
  - done.
  - subst. by destruct (Hsep r' s').
  - subst. by destruct (Hsep r s).
  - subst d'. by destruct (IH r') as [-> ->].
Qed.

Lemma operation_preimage_inj r p r' p' :
  operation_preimage r p = operation_preimage r' p' → r = r' ∧ p = p'.
Proof.
  unfold operation_preimage. intros H.
  apply split_last_sep in H as [-> H]; [|apply base64_no_underscore..]. split; [done|by apply base64_inj].
Qed.

Lemma hex_inj s t : hex_EncodeToString s = hex_EncodeToString t → s = t.
Proof.
  assert (∀ a b : fin 16, char_at hex_alphabet (Z.of_nat (fin_to_nat a)) =
                          char_at hex_alphabet (Z.of_nat (fin_to_nat b)) → a = b) as Hf.
  { apply (bool_decide_unpack _). by vm_compute. }
  assert (∀ i j, 0 ≤ i < 16 → 0 ≤ j < 16 → char_at hex_alphabet i = char_at hex_alphabet j → i = j) as Hc.
  { intros i j Hi Hj H. assert (Z.to_nat i < 16)%nat as Hi' by lia. assert (Z.to_nat j < 16)%nat as Hj' by lia.
    specialize (Hf (nat_to_fin Hi') (nat_to_fin Hj')). rewrite !fin_to_nat_to_fin, !Z2Nat.id in Hf by lia.
    apply Hf in H. apply (f_equal fin_to_nat) in H. rewrite !fin_to_nat_to_fin in H. lia. }
  revert t. induction s as [|a s IH]; intros [|b t]; cbn; try done. intros [= H1 H2 H3].
  rewrite (IH t) by done. f_equal. apply byte_of_inj.
  pose proof (byte_of_bound a). pose proof (byte_of_bound b).
  apply Hc in H1, H2; Z.div_mod_to_equations; lia.
Qed.

(** The identifier of an operation depends on the round and the payload
    alone, and determines both unless MD5 collides on the two inputs: the
    separator and the encoding are not ambiguous. *)
Theorem operation_id_determines `{!Crypto} now now' r r' p p' s s' :
  (md5_Sum (operation_preimage r p) = md5_Sum (operation_preimage r' p') →
   operation_preimage r p = operation_preimage r' p') →
  op_ID (NewOperation now r p s) = op_ID (NewOperation now' r' p' s') ↔ r = r' ∧ p = p'.
Proof.
  intros Hmd5. cbn. split.
  - intros Heq%hex_inj. by apply operation_preimage_inj, Hmd5.
  - by intros [-> ->].
Qed.

(** A hash without collisions, to evaluate the model with. *)
Definition plain_crypto : Crypto :=
  {| md5_Sum := fun b => b; sha1_Sum := fun b => b; ed25519_Verify := fun _ _ _ => true |}.

Lemma operation_id_determines_witness :
  op_ID (@NewOperation plain_crypto 1 "a_b" "c" "s") ≠ op_ID (@NewOperation plain_crypto 1 "a" "b_c" "s").
Proof.
  intros Heq. apply (@operation_id_determines plain_crypto) in Heq as [Heq _]; [discriminate Heq|].
  intros Hmd5. exact Hmd5.
Defined.

(** ** Events of the bulletin board *)

(** The events a message may carry. *)
Definition board_events : list Event :=
  [EventInitProposal; EventConfirmSignatureProposal; EventDeclineProposal;
   EventDKGCommitConfirmationReceived; EventDKGDealConfirmationReceived;
   EventDKGResponseConfirmationReceived; EventDKGMasterKeyConfirmationReceived;
   EventDKGCommitConfirmationError; EventDKGDealConfirmationError;
   EventDKGResponseConfirmationError; EventDKGMasterKeyConfirmationError;
   EventSigningStart; EventSigningPartialSignReceived; EventSigningPartialSignError;
   SignatureReconstructionFailed].

Section board.
Context {jreq : RequestsJSON}.

Lemma decode_request_inl {A} {j : JSON A} (mk : A → Request) data : ∃ r, decode_request mk data = inl r.
Proof. unfold decode_request. destruct (unmarshal data); eauto. Qed.

Lemma FSMRequestFromMessage_board m :
  match FSMRequestFromMessage m with
  | inl _ => msg_Event m ∈ board_events
  | inr err => msg_Event m ∉ board_events ∧ err = Err "invalid event"
  end.
Proof.
  assert (∀ e, (msg_Event m =s? e) = true → e ∈ board_events → msg_Event m ∈ board_events) as Hin
    by by intros e <-%seqb_true.
  unfold FSMRequestFromMessage.
  repeat match goal with
  | |- context [if ?b then _ else _] =>
      let Hb := fresh "Hb" in destruct b eqn:Hb;
      [match goal with |- context [decode_request ?mk ?data] => destruct (decode_request_inl mk data) as [r ->] end;
       repeat (apply orb_true_iff in Hb as [Hb|Hb]);
       (eapply Hin; [exact Hb|]; by apply (bool_decide_eq_true_1 (_ ∈ _)); vm_compute)
      |rewrite ?orb_false_iff in Hb]
  end.
  split; [|done]. unfold board_events. rewrite !elem_of_cons, elem_of_nil.
  repeat match goal with H : _ ∧ _ |- _ => destruct H end. boolify. naive_solver.
Qed.

(** The prefix of a log before the first signing. *)
Fixpoint before_signing (l : list Message) : list Message :=
  match l with
  | [] => []
  | m :: l => if msg_Event m =s? EventSigningStart then [] else m :: before_signing l
  end.

Definition is_init (m : Message) : bool := msg_Event m =s? EventInitProposal.

(** The proposal of an [EventInitProposal] message, without absent entries. *)
Definition init_proposal (m : Message) : option SignatureProposalParticipantsListRequest :=
  if is_init m then unmarshal (msg_Data m) else None.

Definition proposal_present (m : Message) : Prop :=
  is_init m = true → ∃ req es, init_proposal m = Some req ∧ pl_Participants req = Some <$> es.

Definition init_entries (m : Message) : list SignatureProposalParticipantsEntry :=
  match init_proposal m with
  | Some req => omap id (pl_Participants req)
  | None => []
  end.

Definition participant_of (keys : gomap string bytes) (e : SignatureProposalParticipantsEntry)
  : Participant :=
  mk_Participant (pe_DkgPubKey e) (pe_PubKey e) (default "" (gomap_lookup keys (pe_Username e)))
    (pe_Username e).

Lemma participant_entries keys ps es :
  foldM (participant_entry keys) ps (Some <$> es) = Ret (ps ++ (participant_of keys <$> es)).
Proof.
  induction es as [|e es IH] in ps |- *; simpl; [by rewrite app_nil_r|].
  by rewrite IH, <-app_assoc.
Qed.

Lemma omap_id_Some {A} (l : list A) : omap id (Some <$> l) = l.
Proof. induction l; simpl; [done|by f_equal]. Qed.

(** The round and the threshold after a log: those of its last proposal. *)
Definition last_init (l : list Message) : option Message := last (filter (fun m => is_init m = true) l).

Definition redkg_of (keys : gomap string bytes) (l : list Message) : ReDKG :=
  mk_ReDKG (default "" (msg_DkgRoundID <$> last_init l))
    (default 0 (pl_SigningThreshold <$> (last_init l ≫= init_proposal)))
    (participant_of keys <$> mjoin (init_entries <$> l)) l.

Lemma redkg_of_snoc keys pre m :
  redkg_of keys (pre ++ [m]) =
    mk_ReDKG
      (if is_init m then msg_DkgRoundID m else re_DKGID (redkg_of keys pre))
      (if is_init m then default 0 (pl_SigningThreshold <$> init_proposal m)
       else re_Threshold (redkg_of keys pre))
      (re_Participants (redkg_of keys pre) ++ (participant_of keys <$> init_entries m))
      (pre ++ [m]).
Proof.
  unfold redkg_of, last_init. cbn. rewrite filter_app, filter_cons, filter_nil.
  rewrite fmap_app, join_app, fmap_app. cbn. rewrite app_nil_r.
  case_decide as Hm; [rewrite Hm, last_snoc; done|].
  apply not_true_is_false in Hm. rewrite Hm, app_nil_r. done.
Qed.

Lemma redkg_loop_spec keys pre l :
  Forall proposal_present (before_signing l) →
  redkg_loop keys (redkg_of keys pre) l = Ret (inl (redkg_of keys (pre ++ before_signing l))).
Proof.
  induction l as [|m l IH] in pre |- *; intros Hall; cbn [redkg_loop before_signing] in *;
    [by rewrite app_nil_r|].
  destruct (msg_Event m =s? EventSigningStart) eqn:Hs.
  { apply seqb_true in Hs. rewrite Hs. simpl. by rewrite app_nil_r. }
  apply Forall_cons in Hall as [Hm Hall].
  replace (pre ++ m :: before_signing l) with ((pre ++ [m]) ++ before_signing l) by by rewrite <-app_assoc.
  rewrite <-(IH (pre ++ [m]) Hall), redkg_of_snoc. unfold is_init.
  destruct (msg_Event m =s? EventInitProposal) eqn:Hi; simpl.
  - destruct (Hm Hi) as (req & es & Hreq & Hes). unfold init_entries. rewrite Hreq.
    unfold init_proposal, is_init in Hreq. rewrite Hi in Hreq.
    unfold FSMRequestFromMessage. apply seqb_true in Hi. rewrite Hi. simpl.
    unfold decode_request. rewrite Hreq. simpl. rewrite Hes, participant_entries, omap_id_Some. done.
  - unfold init_entries, init_proposal, is_init. rewrite Hi. simpl. by rewrite app_nil_r.
Qed.

(** The message that reinitialises a round holds the log up to the first
    signing, the round and threshold of its last proposal, and one participant
    for every proposed one, in order, with its new communication key if there
    is one. *)
Theorem reinit_message_spec messages keys :
  Forall proposal_present (before_signing messages) →
  GenerateReDKGMessage messages keys = Ret (inl (redkg_of keys (before_signing messages))).
Proof. apply (redkg_loop_spec keys []). Qed.

End board.

(** A log with one proposal, and a decoder that knows its data. *)
Definition known_json {A} (data : bytes) (a : A) : JSON A :=
  {| marshal := fun _ => Some data;
     unmarshal := fun b => if b =s? data then Some a else None |}.

Definition log_proposal : SignatureProposalParticipantsListRequest :=
  mk_SignatureProposalParticipantsListRequest
    [Some (mk_SignatureProposalParticipantsEntry "alice" "comm-key" "dkg-key")] 2 1000.

Definition log_json : RequestsJSON := {|
  json_participant := known_json "participant" (mk_SignatureProposalParticipantRequest 0 1000);
  json_participants_list := known_json "proposal" log_proposal;
  json_commit := known_json "commit" (mk_DKGProposalCommitConfirmationRequest 0 "c" 1000);
  json_deal := known_json "deal" (mk_DKGProposalDealConfirmationRequest 0 "d" 1000);
  json_response := known_json "response" (mk_DKGProposalResponseConfirmationRequest 0 "r" 1000);
  json_masterkey := known_json "key" (mk_DKGProposalMasterKeyConfirmationRequest 0 "k" 1000 "p");
  json_partial_signs := known_json "signs" (mk_SigningProposalBatchPartialSignRequests "b" 0 [] 1000);
  json_signing_start := known_json "start" (mk_SigningBatchProposalStartRequest "b" 0 1000 []);
  json_dkg_error := known_json "error" (mk_DKGProposalConfirmationErrorRequest 0 None 1000);
  json_signature_error := known_json "error" (mk_SignatureProposalConfirmationErrorRequest 0 None 1000)
|}.

Definition log_message (e : Event) (data : bytes) : Message :=
  mk_Message "id" "round" 0 e data "" "alice" "".
Definition sample_log : list Message :=
  [log_message EventInitProposal "proposal"; log_message EventConfirmSignatureProposal "participant";
   log_message EventSigningStart "start"; log_message EventSigningPartialSignReceived "signs"].

Lemma reinit_message_spec_witness :
  @GenerateReDKGMessage log_json sample_log (Some {["alice" := "new-key"]}) =
    Ret (inl (mk_ReDKG "round" 2 [mk_Participant "dkg-key" "comm-key" "new-key" "alice"]
                (take 2 sample_log))).
Proof.
  rewrite (@reinit_message_spec log_json); [by vm_compute|].
  repeat (apply Forall_cons; split); [|discriminate|done].
  intros _. exists log_proposal. eexists [_]. split; reflexivity.
Defined.
