(* ===== verification/Codec.v ===== *)
(** * A lossless codec

    [encoding/json] is a parameter of the model. To evaluate the repositories
    this file gives it a concrete instance on the maps they store: a map is
    written as the bits of its number. *)

From S2P Require Import Prelude LevelState ClientTypes.

Fixpoint bits (p : positive) : string :=
  match p with
  | xH => "H"
  | xO p => String "0" (bits p)
  | xI p => String "1" (bits p)
  end.

Fixpoint unbits (s : string) : option positive :=
  match s with
  | "H" => Some xH
  | String "0" s => xO <$> unbits s
  | String "1" s => xI <$> unbits s
  | _ => None
  end.

Lemma unbits_bits p : unbits (bits p) = Some p.
Proof. induction p; simpl; by rewrite ?IHp. Qed.

Section map_codec.
Context {V : Type} `{Countable V}.

Definition map_json : JSON (gomap string V) := {|
  marshal := fun m => Some (String "{" (bits (encode m)));
  unmarshal := fun b => if b =s? "{}" then Some (Some ∅) else unbits (sdrop 1 b) ≫= decode
|}.

Lemma bits_not_object p : (String "{" (bits p) =s? "{}") = false.
Proof. apply seqb_false. by destruct p. Qed.

Lemma bits_length p : 1 ≤ slen (bits p).
Proof. unfold slen. destruct p; simpl; lia. Qed.

Lemma map_json_roundtrip (m : gmap string V) :
  map_Forall (fun _ _ => True) m →
  ∃ b, @marshal _ map_json (Some m) = Some b ∧ 2 ≤ slen b ∧ @unmarshal _ map_json b = Some (Some m).
Proof.
  intros _. eexists. split; [reflexivity|]. split.
  - pose proof (bits_length (encode (Some m))) as Hl. unfold slen in *. simpl. lia.
  - cbn. rewrite bits_not_object. simpl. rewrite unbits_bits. cbn. apply decode_encode.
Qed.

Definition map_json_map : @JSONMap V map_json :=
  @Build_JSONMap V map_json (fun _ _ => True) map_json_roundtrip eq_refl.
End map_codec.

(** ** The stored types are countable *)

#[export] Instance Message_countable : Countable Message.
Proof.
  refine (inj_countable'
    (fun m => (msg_ID m, msg_DkgRoundID m, msg_Offset m, msg_Event m, msg_Data m, msg_Signature m,
               msg_SenderAddr m, msg_RecipientAddr m))
    (fun '(a, b, c, d, e, f, g, h) => mk_Message a b c d e f g h) _).
  by intros [].
Defined.

#[export] Instance Operation_countable : Countable Operation.
Proof.
  refine (inj_countable'
    (fun o => (op_ID o, op_Type o, op_Payload o, op_ResultMsgs o, op_CreatedAt o, op_DKGIdentifier o,
               op_To o, op_Event o, op_ExtraData o))
    (fun '(a, b, c, d, e, f, g, h, i) => mk_Operation a b c d e f g h i) _).
  by intros [].
Defined.

#[export] Instance ReconstructedSignature_countable : Countable ReconstructedSignature.
Proof.
  refine (inj_countable'
    (fun r => (rec_File r, rec_BatchID r, rec_MessageID r, rec_SrcPayload r, rec_Signature r,
               rec_Username r, rec_DKGRoundID r, rec_ValIdx r))
    (fun '(a, b, c, d, e, f, g, h) => mk_ReconstructedSignature a b c d e f g h) _).
  by intros [].
Defined.
