(* ===== verification/OperationRepo.v ===== *)
(** * The operation pool, [client/repositories/operation/operation.go]

    Two JSON objects in the node's state: the operations, and the deleted
    operations, which hide theirs from every reader. The repository is a client
    of [NodeState]; what it promises is stated over the two maps it keeps. *)

From S2P Require Import Prelude LevelState ClientTypes Codec.

Definition OperationsKey : string := "operations".
Definition DeletedOperationsKey : string := "deleted_operations".

(** [map[string]*types.Operation]: a JSON [null] decodes to a [nil] entry or to
    a [nil] map. *)
Abbreviation Operations := (gomap string (option Operation)) (only parsing).

Record BaseOperationRepo : Type := mk_BaseOperationRepo {
  operationsCompositeKey : string;
  deleteOperationsCompositeKey : string
}.

Section operations.
Context {S : Type} {st : NodeState S} {json_ops : JSON Operations}.
Implicit Types (r : BaseOperationRepo).

Definition initJsonKey (key : string) : IO S unit :=
  wrap "failed to init state" (state_Set key "{}").

Definition NewOperationRepo (topic : string) : IO S BaseOperationRepo :=
  let operationsCompositeKey := MakeCompositeKeyString topic OperationsKey in
  let deleteOperationsCompositeKey := MakeCompositeKeyString topic DeletedOperationsKey in
  _ ← wrap "failed to init storage" (initJsonKey operationsCompositeKey);
  _ ← wrap "failed to init storage" (initJsonKey deleteOperationsCompositeKey);
  mret (mk_BaseOperationRepo operationsCompositeKey deleteOperationsCompositeKey).

Definition getDeletedOperations r : IO S Operations :=
  bz ← wrap "failed to get deleted Operations" (state_Get (deleteOperationsCompositeKey r));
  match bz with
  | None => mret (Some ∅)
  | Some bz => json_res "failed to unmarshal deleted Operations" (unmarshal bz)
  end.

(** The loop copies the entries that are not deleted, whatever its order. *)
Definition not_deleted (deleted : Operations) (operations : gmap string (option Operation))
  : gmap string (option Operation) :=
  filter (fun io => gomap_lookup deleted io.1 = None) operations.

Definition GetOperations r : IO S Operations :=
  deletedOperations ← wrap "failed to getDeletedOperations" (getDeletedOperations r);
  bz ← wrap "failed to get Operations" (state_Get (operationsCompositeKey r));
  match bz with
  | None => mret (Some ∅)
  | Some bz =>
      operations ← json_res "failed to unmarshal Operations" (unmarshal bz);
      mret (Some (not_deleted deletedOperations (default ∅ operations)))
  end.

(** The argument is a pointer. *)
Definition PutOperation r (operation : option Operation) : IO S unit :=
  operations ← wrap "failed to getOperations" (GetOperations r);
  op ← lift (deref operation);
  match gomap_lookup operations (op_ID op) with
  | Some _ => throw (Err "operation already exists")
  | None =>
      operations ← lift (gomap_insert operations (op_ID op) operation);
      operationsJSON ← json_res "failed to marshal operations" (marshal operations);
      wrap "failed to put operations" (state_Set (operationsCompositeKey r) operationsJSON)
  end.

Definition gomap_delete {V} (m : gomap string V) (k : string) : gomap string V := delete k <$> m.

Definition DeleteOperation r (operation : option Operation) : IO S unit :=
  deletedOperations ← wrap "failed to getDeletedOperations" (getDeletedOperations r);
  op ← lift (deref operation);
  match gomap_lookup deletedOperations (op_ID op) with
  | Some _ => throw (Err "operation was already deleted")
  | None =>
      deletedOperations ← lift (gomap_insert deletedOperations (op_ID op) operation);
      deletedOperationsJSON ←
        json_res "failed to marshal deleted operations" (marshal deletedOperations);
      _ ← wrap "failed to put deleted operations"
            (state_Set (deleteOperationsCompositeKey r) deletedOperationsJSON);
      operations ← wrap "failed to getOperations" (GetOperations r);
      let operations := gomap_delete operations (op_ID op) in
      operationsJSON ← json_res "failed to marshal operations" (marshal operations);
      wrap "failed to put operations" (state_Set (operationsCompositeKey r) operationsJSON)
  end.

Definition GetOperationByID r (operationID : string) : IO S (option Operation) :=
  operations ← wrap "failed to getOperations" (GetOperations r);
  match gomap_lookup operations operationID with
  | None => throw (Err "operation not found")
  | Some operation => mret operation
  end.
End operations.

(** ** The pool as two maps *)

(** The abstract pool: the operations and the deleted ones. *)
Record Pool : Type := mk_Pool {
  live_ops : gmap string (option Operation);
  dead_ops : gmap string (option Operation)
}.

Definition visible (P : Pool) : gmap string (option Operation) :=
  not_deleted (Some (dead_ops P)) (live_ops P).

(** What the two changing operations do to the abstract pool. *)
Definition pool_put (op : Operation) (P : Pool) : Pool * option error :=
  if visible P !! op_ID op is Some _ then (P, Some (Err "operation already exists"))
  else (mk_Pool (<[op_ID op := Some op]> (visible P)) (dead_ops P), None).

Definition pool_delete (op : Operation) (P : Pool) : Pool * option error :=
  if dead_ops P !! op_ID op is Some _ then (P, Some (Err "operation was already deleted"))
  else (mk_Pool (delete (op_ID op) (visible P)) (<[op_ID op := Some op]> (dead_ops P)), None).

Lemma visible_lookup P id : visible P !! id = if dead_ops P !! id is Some _ then None else live_ops P !! id.
Proof.
  unfold visible, not_deleted. cbn. destruct (dead_ops P !! id) eqn:Hd.
  - rewrite map_lookup_filter_None. right. intros x _ Hx. cbn in Hx. congruence.
  - destruct (live_ops P !! id) eqn:Hl.
    + rewrite map_lookup_filter_Some. done.
    + by rewrite map_lookup_filter_None; left.
Qed.

Section pool.
Context {S : Type} {st : NodeState S} {lerr : LevelDBErr} {spec : NodeStateSpec S}
  {json_ops : JSON Operations} {jmap : JSONMap (option Operation)}.
Implicit Types (s : S) (P : Pool).

(** The state holds a pool that the encoder accepts. *)
Record holds (r : BaseOperationRepo) (P : Pool) (s : S) : Prop := {
  ho_ready : ready s;
  ho_keys : operationsCompositeKey r ≠ deleteOperationsCompositeKey r;
  ho_live : ∃ b, stored s !! operationsCompositeKey r = Some b ∧ unmarshal b = Some (Some (live_ops P));
  ho_dead : ∃ b, stored s !! deleteOperationsCompositeKey r = Some b ∧ unmarshal b = Some (Some (dead_ops P));
  ho_live_fits : map_Forall entry_fits (live_ops P);
  ho_dead_fits : map_Forall entry_fits (dead_ops P)
}.

Lemma getDeletedOperations_ok r P s :
  holds r P s → getDeletedOperations r s = Ret (s, inl (Some (dead_ops P))).
Proof.
  intros [Hr _ _ (b & Hb & Hu) _ _]. unfold getDeletedOperations.
  io_step (state_Get_ready s (deleteOperationsCompositeKey r) Hr). by rewrite Hb, Hu.
Qed.

Lemma GetOperations_ok r P s : holds r P s → GetOperations r s = Ret (s, inl (Some (visible P))).
Proof.
  intros H. pose proof H as [Hr _ (b & Hb & Hu) _ _ _]. unfold GetOperations.
  io_step (getDeletedOperations_ok r P s H).
  io_step (state_Get_ready s (operationsCompositeKey r) Hr). rewrite Hb, Hu. done.
Qed.

Lemma visible_fits r P s : holds r P s → map_Forall entry_fits (visible P).
Proof.
  intros H i x [Hx _]%map_lookup_filter_Some. by apply (ho_live_fits _ _ _ H).
Qed.

(** Writing one of the two maps. *)
Lemma set_live r P s m :
  holds r P s → map_Forall entry_fits m →
  ∃ b s', marshal (Some m) = Some b ∧ state_Set (operationsCompositeKey r) b s = Ret (s', inl tt) ∧
    holds r (mk_Pool m (dead_ops P)) s'.
Proof.
  intros [Hr Hk Hl (bd & Hd & Hud) Hfl Hfd] Hm. destruct (map_roundtrip m Hm) as (b & Hb & _ & Hu).
  destruct (state_Set_ready s (operationsCompositeKey r) b Hr) as (s' & Hs & Hr' & Hst).
  exists b, s'. split_and!; [done..|]. split; try done; cbn; rewrite Hst.
  - exists b. by rewrite lookup_insert_eq.
  - exists bd. by rewrite lookup_insert_ne.
Qed.

Lemma set_dead r P s m :
  holds r P s → map_Forall entry_fits m →
  ∃ b s', marshal (Some m) = Some b ∧ state_Set (deleteOperationsCompositeKey r) b s = Ret (s', inl tt) ∧
    holds r (mk_Pool (live_ops P) m) s'.
Proof.
  intros [Hr Hk (bl & Hl & Hul) Hd Hfl Hfd] Hm. destruct (map_roundtrip m Hm) as (b & Hb & _ & Hu).
  destruct (state_Set_ready s (deleteOperationsCompositeKey r) b Hr) as (s' & Hs & Hr' & Hst).
  exists b, s'. split_and!; [done..|]. split; try done; cbn; rewrite Hst.
  - exists bl. by rewrite lookup_insert_ne.
  - exists b. by rewrite lookup_insert_eq.
Qed.

(** The outcome of an abstract operation as a Go result. *)
Definition outcome (err : option error) : unit + error :=
  match err with Some e => inr e | None => inl tt end.

Lemma PutOperation_ok r P s op :
  holds r P s → entry_fits (op_ID op) (Some op) →
  ∃ s', PutOperation r (Some op) s = Ret (s', outcome (pool_put op P).2) ∧
    holds r (pool_put op P).1 s'.
Proof.
  intros H Hf. unfold PutOperation, pool_put. io_step (GetOperations_ok r P s H).
  unfold mbind, IO_bind, lift. cbn. destruct (visible P !! op_ID op) eqn:Hv; [by exists s|].
  destruct (set_live r P s (<[op_ID op := Some op]> (visible P)) H) as (b & s' & Hb & Hs & Hh).
  { apply map_Forall_insert_2; [done|by eapply visible_fits]. }
  cbn. rewrite Hb. cbn. rewrite (wrap_ret _ _ _ _ _ Hs). by exists s'.
Qed.

Lemma visible_delete P op :
  delete (op_ID op) (visible (mk_Pool (live_ops P) (<[op_ID op := Some op]> (dead_ops P)))) =
  delete (op_ID op) (visible P).
Proof.
  apply map_eq. intros id. destruct (decide (id = op_ID op)) as [-> |Hne].
  - by rewrite !lookup_delete_eq.
  - rewrite !lookup_delete_ne, !visible_lookup by done. cbn. by rewrite lookup_insert_ne.
Qed.

Lemma DeleteOperation_ok r P s op :
  holds r P s → entry_fits (op_ID op) (Some op) →
  ∃ s', DeleteOperation r (Some op) s = Ret (s', outcome (pool_delete op P).2) ∧
    holds r (pool_delete op P).1 s'.
Proof.
  intros H Hf. unfold DeleteOperation, pool_delete. io_step (getDeletedOperations_ok r P s H).
  unfold mbind, IO_bind, lift. cbn. destruct (dead_ops P !! op_ID op) eqn:Hv; [by exists s|].
  destruct (set_dead r P s (<[op_ID op := Some op]> (dead_ops P)) H) as (b & s1 & Hb & Hs & H1).
  { apply map_Forall_insert_2; [done|apply (ho_dead_fits _ _ _ H)]. }
  set (P1 := mk_Pool (live_ops P) (<[op_ID op := Some op]> (dead_ops P))) in *.
  destruct (set_live r P1 s1 (delete (op_ID op) (visible P1)) H1) as (b' & s2 & Hb' & Hs2 & H2).
  { apply map_Forall_delete. by eapply visible_fits. }
  cbn. rewrite Hb. cbn. rewrite (wrap_ret _ _ _ _ _ Hs).
  rewrite (wrap_ret _ _ _ _ _ (GetOperations_ok r P1 s1 H1)). cbn. rewrite Hb'. cbn.
  rewrite (wrap_ret _ _ _ _ _ Hs2). exists s2. split; [done|].
  unfold P1 in H2. by rewrite visible_delete in H2.
Qed.

(** The repository of a topic. *)
Definition repo_of (topic : string) : BaseOperationRepo :=
  mk_BaseOperationRepo (MakeCompositeKeyString topic OperationsKey)
    (MakeCompositeKeyString topic DeletedOperationsKey).

Lemma NewOperationRepo_ok topic s :
  ready s → ∃ s', NewOperationRepo topic s = Ret (s', inl (repo_of topic)) ∧
    holds (repo_of topic) (mk_Pool ∅ ∅) s'.
Proof.
  intros Hr. unfold NewOperationRepo, initJsonKey.
  set (k1 := MakeCompositeKeyString topic OperationsKey).
  set (k2 := MakeCompositeKeyString topic DeletedOperationsKey).
  assert (k1 ≠ k2) as Hk by (intros Heq%MakeCompositeKeyString_inj; discriminate Heq).
  destruct (state_Set_ready s k1 "{}" Hr) as (s1 & Hs1 & Hr1 & Hst1).
  destruct (state_Set_ready s1 k2 "{}" Hr1) as (s2 & Hs2 & Hr2 & Hst2).
  exists s2.
  erewrite IO_bind_ret; [|by apply wrap_ret, wrap_ret]. cbn beta.
  erewrite IO_bind_ret; [|by apply wrap_ret, wrap_ret]. split; [done|].
  split; cbn; try done; rewrite ?Hst2, ?Hst1.
  - exists "{}". rewrite lookup_insert_ne, lookup_insert_eq by done. split; [done|apply unmarshal_object].
  - exists "{}". rewrite lookup_insert_eq. split; [done|apply unmarshal_object].
Qed.


(** ** Sequences of calls *)

Inductive pool_call : Type :=
| CPut (op : Operation)
| CDelete (op : Operation).

Definition call_op (c : pool_call) : Operation := match c with CPut op | CDelete op => op end.

Definition repo_call (r : BaseOperationRepo) (c : pool_call) : IO S unit :=
  match c with CPut op => PutOperation r (Some op) | CDelete op => DeleteOperation r (Some op) end.
Definition pool_step (c : pool_call) (P : Pool) : Pool * option error :=
  match c with CPut op => pool_put op P | CDelete op => pool_delete op P end.

(** The results of a sequence of calls: an error does not stop the caller. *)
Fixpoint repo_run (r : BaseOperationRepo) (cs : list pool_call) : IO S (list (unit + error)) :=
  match cs with
  | [] => mret []
  | c :: cs => x ← try (repo_call r c); xs ← repo_run r cs; mret (x :: xs)
  end.
Fixpoint pool_run (cs : list pool_call) (P : Pool) : Pool * list (unit + error) :=
  match cs with
  | [] => (P, [])
  | c :: cs =>
      let '(P1, err) := pool_step c P in
      let '(P2, xs) := pool_run cs P1 in (P2, outcome err :: xs)
  end.

Definition call_fits (c : pool_call) : Prop := entry_fits (op_ID (call_op c)) (Some (call_op c)).

Lemma repo_call_ok r P s c :
  holds r P s → call_fits c →
  ∃ s', repo_call r c s = Ret (s', outcome (pool_step c P).2) ∧ holds r (pool_step c P).1 s'.
Proof. destruct c; [apply PutOperation_ok|apply DeleteOperation_ok]. Qed.

Lemma repo_run_ok r cs P s :
  holds r P s → Forall call_fits cs →
  ∃ s', repo_run r cs s = Ret (s', inl (pool_run cs P).2) ∧ holds r (pool_run cs P).1 s'.
Proof.
  induction cs as [|c cs IH] in P, s |- *; intros H Hfs; [by exists s|].
  apply Forall_cons in Hfs as [Hf Hfs].
  destruct (repo_call_ok r P s c H Hf) as (s1 & Hc & H1). cbn [repo_run pool_run].
  destruct (pool_step c P) as [P1 err]. cbn in Hc, H1.
  destruct (IH P1 s1 H1 Hfs) as (s2 & Hr & H2). exists s2.
  destruct (pool_run cs P1) as [P2 xs]. cbn in *.
  unfold mbind, IO_bind, try. rewrite Hc, Hr. done.
Qed.

(** Deletion is for good. *)
Lemma pool_step_dead c P id :
  is_Some (dead_ops P !! id) → is_Some (dead_ops (pool_step c P).1 !! id).
Proof.
  intros H. destruct c; simpl; unfold pool_put, pool_delete.
  - by destruct (visible P !! _).
  - destruct (dead_ops P !! op_ID op); [done|]. cbn. by apply lookup_insert_is_Some'; right.
Qed.

Lemma pool_run_dead cs P id :
  is_Some (dead_ops P !! id) → is_Some (dead_ops (pool_run cs P).1 !! id).
Proof.
  induction cs as [|c cs IH] in P |- *; intros H; [done|]. cbn.
  pose proof (pool_step_dead c P id H) as H1. destruct (pool_step c P) as [P1 err].
  specialize (IH P1 H1). by destruct (pool_run cs P1).
Qed.

(** C37. The pool is the abstract one: from a new repository on, any sequence
    of [PutOperation] and [DeleteOperation] answers as on the two maps, and
    [GetOperations] then returns the operations that are not deleted. *)
Theorem operation_pool_refines topic cs s :
  ready s → Forall call_fits cs →
  ∃ s1 s2, NewOperationRepo topic s = Ret (s1, inl (repo_of topic)) ∧
    repo_run (repo_of topic) cs s1 = Ret (s2, inl (pool_run cs (mk_Pool ∅ ∅)).2) ∧
    GetOperations (repo_of topic) s2 = Ret (s2, inl (Some (visible (pool_run cs (mk_Pool ∅ ∅)).1))).
Proof.
  intros Hr Hfs. destruct (NewOperationRepo_ok topic s Hr) as (s1 & Hnew & Hh).
  destruct (repo_run_ok _ cs _ s1 Hh Hfs) as (s2 & Hrun & Hh2).
  exists s1, s2. split_and!; [done..|]. by apply GetOperations_ok.
Qed.

(** A deleted operation never shows up again while the node runs: after a
    successful [DeleteOperation], and whatever is put or deleted afterwards,
    its identifier is not found. *)
Theorem deleted_operation_stays_hidden r P s op s1 cs :
  holds r P s → entry_fits (op_ID op) (Some op) → Forall call_fits cs →
  DeleteOperation r (Some op) s = Ret (s1, inl tt) →
  ∃ s2 xs, repo_run r cs s1 = Ret (s2, inl xs) ∧
    GetOperationByID r (op_ID op) s2 = Ret (s2, inr (Err "operation not found")).
Proof.
  intros Hh Hf Hfs Hdel. destruct (DeleteOperation_ok r P s op Hh Hf) as (s1' & Hd & Hh1).
  rewrite Hdel in Hd. injection Hd as <- Herr.
  assert (is_Some (dead_ops (pool_delete op P).1 !! op_ID op)) as Hdead.
  { unfold pool_delete in *. destruct (dead_ops P !! op_ID op) eqn:Hx; [done|].
    cbn. by rewrite lookup_insert_eq. }
  destruct (repo_run_ok r cs _ s1 Hh1 Hfs) as (s2 & Hrun & Hh2). do 2 eexists. split; [exact Hrun|].
  unfold GetOperationByID. io_step (GetOperations_ok _ _ _ Hh2). cbn [gomap_lookup mbind option_bind].
  rewrite visible_lookup. destruct (pool_run_dead cs _ _ Hdead) as [x ->]. done.
Qed.

(** Starting the repository empties it: whatever the state held under the
    topic, pending operations included, nothing is left and no deletion is
    remembered. *)
Theorem restart_forgets_operations topic P s :
  holds (repo_of topic) P s →
  GetOperations (repo_of topic) s = Ret (s, inl (Some (visible P))) ∧
  ∃ s', NewOperationRepo topic s = Ret (s', inl (repo_of topic)) ∧
    GetOperations (repo_of topic) s' = Ret (s', inl (Some ∅)) ∧
    getDeletedOperations (repo_of topic) s' = Ret (s', inl (Some ∅)).
Proof.
  intros Hh. split; [by apply GetOperations_ok|].
  destruct (NewOperationRepo_ok topic s (ho_ready _ _ _ Hh)) as (s' & Hnew & Hh').
  exists s'. split; [done|]. rewrite (GetOperations_ok _ _ _ Hh').
  by rewrite (getDeletedOperations_ok _ _ _ Hh').
Qed.
End pool.

(** ** A pool in memory *)

Module Sample.
Import MemDB.

#[local] Existing Instance map_json.
#[local] Existing Instance map_json_map.

Definition op (id : string) : Operation := mk_Operation id "type" "payload" [] 1000 "round" "" "" "".

(** The state on an empty disk. *)
Definition empty_disk : LevelDBState string * Disk := (mk_LevelDBState "db" "topic" "db", ∅).

Lemma operation_pool_refines_witness :
  ∃ s1 s2, NewOperationRepo "topic" empty_disk = Ret (s1, inl (repo_of "topic")) ∧
    repo_run (repo_of "topic") [CPut (op "a"); CPut (op "b"); CPut (op "a"); CDelete (op "a")] s1 =
      Ret (s2, inl [inl tt; inl tt; inr (Err "operation already exists"); inl tt]) ∧
    GetOperations (repo_of "topic") s2 = Ret (s2, inl (Some {["b" := Some (op "b")]})).
Proof.
  destruct (operation_pool_refines "topic"
    [CPut (op "a"); CPut (op "b"); CPut (op "a"); CDelete (op "a")] empty_disk)
    as (s1 & s2 & H1 & H2 & H3); [exact I|repeat constructor|].
  exists s1, s2. split; [exact H1|]. split; [exact H2|]. rewrite H3. reflexivity.
Defined.

(** The repository with one operation. *)
Definition one_op : Pool := mk_Pool {["a" := Some (op "a")]} ∅.
Definition one_op_disk : LevelDBState string * Disk :=
  (mk_LevelDBState "db" "topic" "db",
   {["db" := {["topic_operations" :=
                 default "" (marshal (A := Operations) (Some {["a" := Some (op "a")]}));
               "topic_deleted_operations" := "{}"]}]}).

Lemma one_op_holds : holds (repo_of "topic") one_op one_op_disk.
Proof.
  split; [exact I|discriminate| | | |].
  - eexists. split; [reflexivity|]. vm_compute. reflexivity.
  - eexists. split; [reflexivity|]. vm_compute. reflexivity.
  - apply map_Forall_singleton. exact I.
  - apply map_Forall_empty.
Qed.

Lemma deleted_operation_stays_hidden_witness :
  ∃ s1 s2 xs, DeleteOperation (repo_of "topic") (Some (op "a")) one_op_disk = Ret (s1, inl tt) ∧
    repo_run (repo_of "topic") [CPut (op "a")] s1 = Ret (s2, inl xs) ∧
    GetOperationByID (repo_of "topic") "a" s2 = Ret (s2, inr (Err "operation not found")).
Proof.
  destruct (DeleteOperation_ok _ _ _ (op "a") one_op_holds I) as (s1 & Hd & _).
  destruct (deleted_operation_stays_hidden (repo_of "topic") one_op one_op_disk (op "a") s1 [CPut (op "a")]
    one_op_holds I) as (s2 & xs & H1 & H2); [repeat constructor|exact Hd|].
  exists s1, s2, xs. split; [exact Hd|]. split; [exact H1|exact H2].
Defined.

Lemma restart_forgets_operations_witness :
  GetOperations (repo_of "topic") one_op_disk =
    Ret (one_op_disk, inl (Some {["a" := Some (op "a")]})) ∧
  ∃ s', NewOperationRepo "topic" one_op_disk = Ret (s', inl (repo_of "topic")) ∧
    GetOperations (repo_of "topic") s' = Ret (s', inl (Some ∅)).
Proof.
  destruct (restart_forgets_operations "topic" one_op one_op_disk one_op_holds)
    as (H1 & s' & H2 & H3 & _).
  split; [exact H1|]. exists s'. split; [exact H2|exact H3].
Defined.
End Sample.
