(* ===== verification/SignatureRepo.v ===== *)
(** * Reconstructed signatures, [client/repositories/signature/signature.go]

    For every round one JSON object in the node's state: batches, their
    messages, and for a message the signatures that the participants
    reconstructed, one for each user name. *)

From S2P Require Import Prelude LevelState ClientTypes Codec.

Definition SignaturesKeyPrefix : string := "signatures".

(** [map[string]map[string][]types.ReconstructedSignature] *)
Abbreviation Batch := (gomap string (list ReconstructedSignature)) (only parsing).
Abbreviation SignaturesStorage := (gomap string (gomap string (list ReconstructedSignature))) (only parsing).

(** The loop over [signs], which replaces the first entry of the user and
    stops, and the [append] when there is none. *)
Fixpoint upsert (signs : list ReconstructedSignature) (x : ReconstructedSignature)
  : list ReconstructedSignature :=
  match signs with
  | [] => [x]
  | s :: signs => if rec_Username s =s? rec_Username x then x :: signs else s :: upsert signs x
  end.

Definition AddReconstructedSignature (s : SignaturesStorage) (x : ReconstructedSignature)
  : Go SignaturesStorage :=
  let '(batchSignatures, signs) :=
    match gomap_lookup s (rec_BatchID x) with
    | Some batchSignatures =>
        (batchSignatures, default [] (gomap_lookup batchSignatures (rec_MessageID x)))
    | None => (Some ∅, [])
    end in
  batchSignatures ← gomap_insert batchSignatures (rec_MessageID x) (upsert signs x);
  gomap_insert s (rec_BatchID x) batchSignatures.

Section signatures.
Context {S : Type} {st : NodeState S} {ord : MapOrder} {json_sigs : JSON SignaturesStorage}.

Definition GetSignatures (dkgID : string) : IO S SignaturesStorage :=
  let key := MakeCompositeKeyString SignaturesKeyPrefix dkgID in
  bz ← wrap "failed to get signatures for dkgID" (state_Get key);
  match bz with
  | None => mret None
  | Some bz => json_res "failed to unmarshal signature" (unmarshal bz)
  end.

Definition GetSignaturesByBatchID (dkgID batchID : string) : IO S Batch :=
  signatures ← wrap "failed to getSignatures" (GetSignatures dkgID);
  mret (default None (gomap_lookup signatures batchID)).

(** The first batch, in the order of the map, that has the message. *)
Fixpoint first_with (signatureID : string) (batches : list (string * Batch))
  : option (list ReconstructedSignature) :=
  match batches with
  | [] => None
  | (_, batchSignatures) :: batches =>
      match gomap_lookup batchSignatures signatureID with
      | Some signature => Some signature
      | None => first_with signatureID batches
      end
  end.

Definition GetSignatureByID (dkgID signatureID : string) : IO S (list ReconstructedSignature) :=
  allSignatures ← wrap "failed to getSignatures" (GetSignatures dkgID);
  match first_with signatureID (range (default ∅ allSignatures)) with
  | Some signature => mret signature
  | None => throw (Err "signature not found")
  end.

Definition SaveSignatures (signaturesToSave : list ReconstructedSignature) : IO S unit :=
  match signaturesToSave with
  | [] => throw (Err "nothing to save")
  | first :: _ =>
      storedSignatures ← wrap "failed to getSignatures" (GetSignatures (rec_DKGRoundID first));
      let storedSignatures := if storedSignatures is None then Some ∅ else storedSignatures in
      storedSignatures ← lift (foldM AddReconstructedSignature storedSignatures signaturesToSave);
      signaturesJSON ← json_res "failed to marshal signatures" (marshal storedSignatures);
      wrap "failed to save signatures"
        (state_Set (MakeCompositeKeyString SignaturesKeyPrefix (rec_DKGRoundID first)) signaturesJSON)
  end.

Definition GetBatches (dkgID : string) : IO S (list string) :=
  let key := MakeCompositeKeyString SignaturesKeyPrefix dkgID in
  allSignaturesbz ← wrap "failed to read batch state from storage" (state_Get key);
  allSignatures ←
    match allSignaturesbz with
    | Some bz => json_res "failed to unmarshal batch state" (unmarshal bz)
    | None => mret (Some ∅)
    end;
  mret ((range (default ∅ allSignatures)).*1).
End signatures.

(** ** The storage as a table *)

(** The signature of a user in a list. *)
Definition by_user (u : string) (l : list ReconstructedSignature) : option ReconstructedSignature :=
  snd <$> list_find (fun x => rec_Username x = u) l.

(** A storage without [nil] batches in which a user has at most one signature
    of a message. *)
Definition storage_ok (m : gmap string Batch) : Prop :=
  ∀ batch b, m !! batch = Some b →
    ∃ msgs, b = Some msgs ∧ ∀ msg l, msgs !! msg = Some l → NoDup (rec_Username <$> l).

Definition message_signs (m : gmap string Batch) (batch msg : string) : list ReconstructedSignature :=
  default [] (m !! batch ≫= fun b => gomap_lookup b msg).

(** The signature that a user contributed to a message of a batch. *)
Definition signature_of (m : gmap string Batch) (batch msg u : string) : option ReconstructedSignature :=
  by_user u (message_signs m batch msg).

Lemma upsert_users l x :
  rec_Username <$> upsert l x =
    if decide (rec_Username x ∈ rec_Username <$> l) then rec_Username <$> l
    else (rec_Username <$> l) ++ [rec_Username x].
Proof.
  induction l as [|y l IH]; cbn; [by rewrite decide_False by set_solver|].
  destruct (rec_Username y =s? rec_Username x) eqn:He; boolify; cbn.
  - rewrite decide_True by set_solver. by rewrite He.
  - rewrite IH. repeat case_decide; set_solver.
Qed.

Lemma upsert_NoDup l x : NoDup (rec_Username <$> l) → NoDup (rec_Username <$> upsert l x).
Proof.
  intros H. rewrite upsert_users. case_decide as Hx; [done|].
  apply NoDup_app. split_and!; [done| |apply NoDup_singleton]. set_solver.
Qed.

Lemma by_user_cons u y l : by_user u (y :: l) = if decide (rec_Username y = u) then Some y else by_user u l.
Proof.
  unfold by_user. cbn. case_decide; [done|]. by destruct (list_find _ l) as [[]|].
Qed.

Lemma upsert_by_user u l x :
  by_user u (upsert l x) = if decide (rec_Username x = u) then Some x else by_user u l.
Proof.
  induction l as [|y l IH]; cbn [upsert]; rewrite ?by_user_cons; [done|].
  destruct (rec_Username y =s? rec_Username x) eqn:He; boolify; rewrite ?by_user_cons.
  - rewrite He. by case_decide.
  - rewrite IH. repeat case_decide; congruence.
Qed.

(** Adding a signature never panics on such a storage, and changes exactly the
    entry of its batch, message and user. *)
Lemma AddReconstructedSignature_ok m x :
  storage_ok m → ∃ m', AddReconstructedSignature (Some m) x = Ret (Some m') ∧ storage_ok m' ∧
    ∀ batch msg, message_signs m' batch msg =
      if decide (batch = rec_BatchID x ∧ msg = rec_MessageID x)
      then upsert (message_signs m batch msg) x else message_signs m batch msg.
Proof.
  intros Hok. unfold AddReconstructedSignature. cbn [gomap_lookup mbind option_bind].
  assert (∃ msgs, (match m !! rec_BatchID x with
                   | Some b => (b, default [] (gomap_lookup b (rec_MessageID x)))
                   | None => (Some ∅, []) end) = (Some msgs, default [] (msgs !! rec_MessageID x)) ∧
            (∀ msg, default [] (msgs !! msg) = message_signs m (rec_BatchID x) msg) ∧
            ∀ msg l, msgs !! msg = Some l → NoDup (rec_Username <$> l)) as (msgs & Hms & Hd & Hnd).
  { unfold message_signs. destruct (m !! rec_BatchID x) as [b|] eqn:Hb; cbn.
    - destruct (Hok _ _ Hb) as (msgs & -> & Hnd). by exists msgs.
    - exists ∅. split; [by rewrite lookup_empty|]. split; intros msg; by rewrite lookup_empty. }
  cbn [gomap_lookup mbind option_bind] in Hms. rewrite Hms. cbn.
  eexists. split; [reflexivity|]. split.
  - intros batch b. destruct (decide (rec_BatchID x = batch)) as [<-|Hne].
    + rewrite lookup_insert_eq. intros [= <-]. eexists. split; [done|]. intros msg l.
      destruct (decide (rec_MessageID x = msg)) as [<-|Hm].
      * rewrite lookup_insert_eq. intros [= <-]. apply upsert_NoDup.
        destruct (msgs !! rec_MessageID x) eqn:Hl; [by eapply Hnd|constructor].
      * rewrite lookup_insert_ne by done. apply Hnd.
    + rewrite lookup_insert_ne by done. apply Hok.
  - intros batch msg. unfold message_signs at 1. destruct (decide (rec_BatchID x = batch)) as [<-|Hne].
    + rewrite lookup_insert_eq. cbn. destruct (decide (rec_MessageID x = msg)) as [<-|Hm].
      * rewrite lookup_insert_eq, decide_True by done. cbn. by rewrite Hd.
      * rewrite lookup_insert_ne, decide_False by naive_solver. by apply Hd.
    + rewrite lookup_insert_ne, decide_False by naive_solver. done.
Qed.

(** Whether a signature is for a batch, message and user. *)
Definition placed_at (batch msg u : string) (x : ReconstructedSignature) : bool :=
  (rec_BatchID x =s? batch) && (rec_MessageID x =s? msg) && (rec_Username x =s? u).

(** The last signature of a list for that place, or the old one. *)
Definition latest (batch msg u : string) (l : list ReconstructedSignature)
    (old : option ReconstructedSignature) : option ReconstructedSignature :=
  foldl (fun acc x => if placed_at batch msg u x then Some x else acc) old l.

(** Every signature of the storage satisfies [fits]. *)
Definition all_signs (fits : ReconstructedSignature → Prop) (m : gmap string Batch) : Prop :=
  ∀ batch msg, Forall fits (message_signs m batch msg).

Lemma upsert_Forall (fits : ReconstructedSignature → Prop) l x :
  fits x → Forall fits l → Forall fits (upsert l x).
Proof.
  intros Hx. induction 1 as [|y l Hy Hl IH]; cbn; [by repeat constructor|].
  destruct (_ =s? _); by constructor.
Qed.

Lemma foldM_Add_ok l m :
  storage_ok m → ∃ m', foldM AddReconstructedSignature (Some m) l = Ret (Some m') ∧ storage_ok m' ∧
    (∀ fits, Forall fits l → all_signs fits m → all_signs fits m') ∧
    ∀ batch msg u, signature_of m' batch msg u = latest batch msg u l (signature_of m batch msg u).
Proof.
  induction l as [|x l IH] in m |- *; intros Hok; [by exists m|].
  destruct (AddReconstructedSignature_ok m x Hok) as (m1 & Hadd & Hok1 & Hs1).
  destruct (IH m1 Hok1) as (m2 & Hf & Hok2 & Hfits2 & Hs2). exists m2.
  simpl foldM. rewrite Hadd. split; [exact Hf|]. split; [done|]. split.
  { intros fits [Hx Hl]%Forall_cons Hm. apply Hfits2; [done|]. intros batch msg. rewrite Hs1.
    case_decide; [by apply upsert_Forall|apply Hm]. }
  intros batch msg u. rewrite Hs2. unfold latest. cbn [foldl]. f_equal.
  unfold signature_of. rewrite Hs1. unfold placed_at.
  case_decide as Hd.
  - destruct Hd as [-> ->]. rewrite !seqb_refl. cbn. rewrite upsert_by_user.
    unfold seqb. repeat case_decide; repeat case_bool_decide; done.
  - unfold seqb. repeat case_bool_decide; try done. naive_solver.
Qed.

(** What the repository relies on from [encoding/json]: a storage of acceptable
    signatures is encoded without loss. *)
Class SignaturesJSON {json_sigs : JSON SignaturesStorage} {jmap : JSONMap Batch} : Type := {
  sign_fits : ReconstructedSignature → Prop;
  signs_fit : ∀ m, storage_ok m → all_signs sign_fits m → map_Forall entry_fits m
}.

Section signature_repo.
Context {S : Type} {st : NodeState S} {lerr : LevelDBErr} {spec : NodeStateSpec S} {ord : MapOrder}
  {json_sigs : JSON SignaturesStorage} {jmap : JSONMap Batch} {sjson : SignaturesJSON}.
Implicit Types (s : S).

Definition signatures_key (dkgID : string) : string := MakeCompositeKeyString SignaturesKeyPrefix dkgID.

(** The state has a storage for a round; before the first signature, an empty
    one. *)
Definition has_signatures (dkgID : string) (m : gmap string Batch) (s : S) : Prop :=
  ready s ∧ storage_ok m ∧ all_signs sign_fits m ∧
  match stored s !! signatures_key dkgID with
  | Some b => unmarshal b = Some (Some m)
  | None => m = ∅
  end.

Lemma GetSignatures_ok dkgID m s :
  has_signatures dkgID m s →
  ∃ o, GetSignatures dkgID s = Ret (s, inl o) ∧ default ∅ o = m ∧
    (if o is None then Some ∅ else o) = Some m.
Proof.
  intros (Hr & _ & _ & Hs). unfold GetSignatures. fold (signatures_key dkgID).
  io_step (state_Get_ready s (signatures_key dkgID) Hr).
  destruct (stored s !! signatures_key dkgID) as [b|].
  - rewrite Hs. by exists (Some m).
  - subst. by exists None.
Qed.

(** Saving signatures updates the round of the first one: afterwards the
    signature of a user for a message is the last one given for it, or the one
    it had, at most one for each user; the other rounds are as they were. *)
Theorem save_signatures_spec x l m s :
  has_signatures (rec_DKGRoundID x) m s →
  Forall sign_fits (x :: l) →
  ∃ s' m', SaveSignatures (x :: l) s = Ret (s', inl tt) ∧
    has_signatures (rec_DKGRoundID x) m' s' ∧
    (∀ batch msg u, signature_of m' batch msg u =
       latest batch msg u (x :: l) (signature_of m batch msg u)) ∧
    ∀ dkgID m0, dkgID ≠ rec_DKGRoundID x → has_signatures dkgID m0 s → has_signatures dkgID m0 s'.
Proof.
  intros Hh Hfit. pose proof Hh as (Hr & Hok & Hall & _).
  destruct (GetSignatures_ok _ _ _ Hh) as (o & Hget & _ & Ho).
  destruct (foldM_Add_ok (x :: l) m Hok) as (m' & Hf & Hok' & Hall' & Hs').
  specialize (Hall' _ Hfit Hall).
  destruct (map_roundtrip m' (signs_fit m' Hok' Hall')) as (b & Hb & _ & Hu).
  destruct (state_Set_ready s (signatures_key (rec_DKGRoundID x)) b Hr) as (s' & Hset & Hr' & Hst).
  exists s', m'. split.
  { unfold SaveSignatures. io_step Hget. rewrite Ho.
    unfold lift. unfold mbind at 1, IO_bind at 1. rewrite Hf, Hb. by apply wrap_ret. }
  split; [|split; [done|]].
  - split_and!; [done..|]. by rewrite Hst, lookup_insert_eq.
  - intros dkgID m0 Hne (_ & Hok0 & Hall0 & H0). split_and!; [done..|].
    rewrite Hst, lookup_insert_ne; [done|]. by intros ?%MakeCompositeKeyString_inj.
Qed.

Lemma first_with_Some id l sigs :
  first_with id l = Some sigs → ∃ batch b, (batch, b) ∈ l ∧ gomap_lookup b id = Some sigs.
Proof.
  induction l as [|[batch b] l IH]; cbn; [done|].
  destruct (gomap_lookup b id) eqn:Hb.
  - intros [= ->]. exists batch, b. split; [by left|done].
  - intros (batch' & b' & ? & ?)%IH. exists batch', b'. split; [by right|done].
Qed.

Lemma first_with_None id l :
  first_with id l = None → ∀ batch b, (batch, b) ∈ l → gomap_lookup b id = None.
Proof.
  induction l as [|[batch b] l IH]; cbn; [by intros _ ?? ?%not_elem_of_nil|].
  destruct (gomap_lookup b id) eqn:Hb; [done|].
  intros H batch' b' [[= -> ->]|Hin]%elem_of_cons; [done|by eapply IH].
Qed.

(** Looking a message up by its identifier alone: a result is what some
    batch has for it, and an error means that no batch has it. A message that
    only one batch has is found there, whatever the order of the map. *)
Theorem signature_by_id_spec dkgID m s id :
  has_signatures dkgID m s →
  (∃ r, GetSignatureByID dkgID id s = Ret (s, r) ∧
    match r with
    | inl sigs => ∃ batch b, m !! batch = Some b ∧ gomap_lookup b id = Some sigs
    | inr err => err = Err "signature not found" ∧
        ∀ batch b, m !! batch = Some b → gomap_lookup b id = None
    end) ∧
  ∀ batch b sigs, m !! batch = Some b → gomap_lookup b id = Some sigs →
    (∀ batch' b', m !! batch' = Some b' → is_Some (gomap_lookup b' id) → batch' = batch) →
    GetSignatureByID dkgID id s = Ret (s, inl sigs).
Proof.
  intros Hh. destruct (GetSignatures_ok _ _ _ Hh) as (o & Hget & Ho & _).
  unfold GetSignatureByID. io_step Hget. rewrite Ho.
  destruct (first_with id (range m)) as [sigs|] eqn:Hf.
  - apply first_with_Some in Hf as (batch & b & Hb%elem_of_range & Hl). split.
    { eexists. split; [reflexivity|]. by exists batch, b. }
    intros batch0 b0 sigs0 Hb0 Hl0 Huniq. assert (batch = batch0) as -> by (eapply Huniq; eauto).
    by simplify_eq.
  - split.
    { eexists. split; [reflexivity|]. split; [done|]. intros batch b Hb.
      eapply first_with_None; [exact Hf|]. by apply elem_of_range. }
    intros batch b sigs Hb Hl _. rewrite (first_with_None _ _ Hf batch b) in Hl; [done|].
    by apply elem_of_range.
Qed.

(** The batches of a round, in some order. *)
Lemma GetBatches_ok dkgID m s :
  has_signatures dkgID m s → ∃ l, GetBatches dkgID s = Ret (s, inl l) ∧ l ≡ₚ (map_to_list m).*1.
Proof.
  intros (Hr & _ & _ & Hs). unfold GetBatches. fold (signatures_key dkgID).
  io_step (state_Get_ready s (signatures_key dkgID) Hr).
  destruct (stored s !! signatures_key dkgID) as [b|].
  - rewrite Hs. eexists. split; [reflexivity|]. by rewrite range_perm.
  - subst. eexists. split; [reflexivity|]. by rewrite range_perm.
Qed.
End signature_repo.

(** ** Signatures in memory *)

Module SigSample.
Import MemDB.

#[local] Existing Instance map_json.
#[local] Existing Instance map_json_map.
#[local] Existing Instance source_order.

#[local] Program Instance all_fit : SignaturesJSON := { sign_fits := fun _ => True }.
Next Obligation. intros m _ _ i x _. exact I. Qed.

Definition sig_by (u value : string) : ReconstructedSignature :=
  mk_ReconstructedSignature "" "batch" "m1" "payload" value u "round" 0.
Definition empty_disk : LevelDBState string * Disk := (mk_LevelDBState "db" "topic" "db", ∅).

Lemma empty_disk_signatures : has_signatures "round" ∅ empty_disk.
Proof.
  split; [exact I|]. split; [intros batch b Hb; by rewrite lookup_empty in Hb|]. split; [|reflexivity].
  intros batch msg. unfold message_signs. rewrite lookup_empty. constructor.
Qed.

Lemma save_signatures_spec_witness :
  ∃ s' m', SaveSignatures [sig_by "alice" "1"; sig_by "bobby" "2"; sig_by "alice" "3"] empty_disk =
      Ret (s', inl tt) ∧ has_signatures "round" m' s' ∧
    signature_of m' "batch" "m1" "alice" = Some (sig_by "alice" "3").
Proof.
  destruct (save_signatures_spec (sig_by "alice" "1") [sig_by "bobby" "2"; sig_by "alice" "3"] ∅ empty_disk
    empty_disk_signatures) as (s' & m' & H1 & H2 & H3 & _); [repeat constructor|].
  exists s', m'. split; [exact H1|]. split; [exact H2|]. rewrite H3. reflexivity.
Defined.

Definition one_batch : gmap string Batch := {["batch" := Some {["m1" := [sig_by "alice" "1"]]}]}.
Definition one_batch_disk : LevelDBState string * Disk :=
  (mk_LevelDBState "db" "topic" "db",
   {["db" := {["signatures_round" := default "" (marshal (A := SignaturesStorage) (Some one_batch))]}]}).

Lemma one_batch_signatures : has_signatures "round" one_batch one_batch_disk.
Proof.
  split; [exact I|]. split; [|split].
  - unfold one_batch. intros batch b [_ <-]%lookup_singleton_Some. eexists. split; [reflexivity|].
    intros msg l [_ <-]%lookup_singleton_Some. apply NoDup_singleton.
  - intros batch msg. apply Forall_true. done.
  - vm_compute. reflexivity.
Qed.

Lemma signature_by_id_spec_witness :
  GetSignatureByID "round" "m1" one_batch_disk = Ret (one_batch_disk, inl [sig_by "alice" "1"]).
Proof.
  destruct (signature_by_id_spec "round" one_batch one_batch_disk "m1" one_batch_signatures) as [_ H].
  apply (H "batch" (Some {["m1" := [sig_by "alice" "1"]]})); [reflexivity..|].
  unfold one_batch. intros batch' b' [Hb _]%lookup_singleton_Some _. by symmetry.
Defined.
End SigSample.
