(* ===== verification/FsmService.v ===== *)
(** * The FSM service, [client/services/fsmservice/fsmservice.go]

    The dumps of all rounds, one JSON object in the node's state. An instance
    is loaded from its dump for every event and saved as a dump afterwards. *)

From S2P Require Import Prelude GoFsm Requests Payload FsmPool.
From S2P Require Import SignatureProposal DkgProposal SigningProposal StateMachines Protocol.
From S2P Require Import LevelState ClientTypes Codec Samples.

(** ** The interface [storage.Storage] *)

(** [Send] returns the caller's slice as the call leaves it: the file storage
    writes the identifiers and offsets into it. [SetConsumerGroup] is a method
    of the Kafka storage only: the type switch of [ResetFSMState] is the
    option. *)
Class Storage (S : Type) : Type := {
  storage_Send : list Message → IO S (list Message);
  storage_GetMessages : Z → IO S (list Message);
  storage_Close : IO S unit;
  storage_IgnoreMessages : list string → bool → IO S unit;
  storage_UnignoreMessages : IO S unit;
  storage_SetConsumerGroup : option (string → IO S unit)
}.

Definition FSMStateKey : string := "fsm_state".

(** The service; the state and the storage it points to are in [S]. *)
Record FSMService : Type := mk_FSMService { stateKey : string }.

Definition NewFSMService (stateNamespace : string) : FSMService :=
  mk_FSMService (stateNamespace +:+ "_" +:+ FSMStateKey).

Definition getStateKey (fsm : FSMService) : string := stateKey fsm.

Record ResetStateDTO : Type := mk_ResetStateDTO {
  NewStateDBDSN : string;
  UseOffset : bool;
  KafkaConsumerGroup : string;
  Messages : list string
}.

(** [map[string][]byte] *)
Abbreviation Dumps := (gomap string bytes) (only parsing).

Section service.
Context {S : Type} {st : NodeState S} {lerr : LevelDBErr} {stg : Storage S}.
Context {ord : MapOrder} {json_tasks : JSON (list SigningTask)} {json_dump : JSON FSMDump}
  {json_dumps : JSON Dumps}.
Implicit Types (fsm : FSMService).

Definition getAllFSMData fsm : IO S Dumps :=
  bz ← wrap "failed to get FSM instances" (state_Get (getStateKey fsm));
  if 0 <? olen bz then
    json_res "failed to unmarshal FSM instances" (unmarshal (default "" bz))
  else mret (Some ∅).

(** The instance and whether it was found. *)
Definition loadFSM fsm (dkgRoundID : string) : IO S (option FSMInstance * bool) :=
  fsmInstances ← wrap "failed to get fsm instances" (getAllFSMData fsm);
  match gomap_lookup fsmInstances dkgRoundID with
  | None => mret (None, false)
  | Some fsmInstanceBz =>
      fsmInstance ← wrap "failed to restore FSM instance from dump" (lift_res (FromDump fsmInstanceBz));
      mret (Some fsmInstance, true)
  end.

Definition SaveFSM fsm (dkgRoundID : string) (dump : bytes) : IO S unit :=
  fsmInstances ← wrap "failed to get fsm instances" (getAllFSMData fsm);
  fsmInstances ← lift (gomap_insert fsmInstances dkgRoundID dump);
  fsmInstancesBz ← json_res "failed to marshal FSM instances" (marshal fsmInstances);
  wrap "failed to save fsm state" (state_Set (getStateKey fsm) fsmInstancesBz).

Definition GetFSMInstance fsm (dkgRoundID : string) (createIfMissing : bool)
  : IO S (option FSMInstance) :=
  '(fsmInstance, ok) ← wrap "failed to LoadFSM" (loadFSM fsm dkgRoundID);
  if negb ok then
    if negb createIfMissing then throw (Err "no FSM instance found for the given dkgID")
    else
      fsmInstance ← wrap "failed to create FSM instance" (lift_res (Create dkgRoundID));
      bz ← wrap "failed to Dump FSM instance" (lift_res (Ret (FSMInstance_Dump fsmInstance)));
      _ ← wrap "failed to SaveFSM" (SaveFSM fsm dkgRoundID bz);
      mret (Some fsmInstance)
  else mret fsmInstance.

Definition GetFSMDump fsm (DkgID : string) : IO S (option FSMDump) :=
  fsmInstance ← wrap "failed to get FSM instance" (GetFSMInstance fsm DkgID false);
  i ← lift (deref fsmInstance);
  mret (dump i).

(** The loop over the dumps; an error ends it. *)
Definition load_all (acc : gmap string FSMInstance + error) (kv : string * bytes)
  : Go (gmap string FSMInstance + error) :=
  match acc with
  | inr err => Ret (inr err)
  | inl fsmInstances =>
      r ← FromDump kv.2;
      match r with
      | inr err => Ret (inr (Wrap "failed to restore FSM instance from dump" err))
      | inl i => Ret (inl (<[kv.1 := i]> fsmInstances))
      end
  end.

Definition GetAllFSM fsm : IO S (gmap string FSMInstance) :=
  fsmInstancesBz ← wrap "failed to get fsm instances" (getAllFSMData fsm);
  lift_res (foldM load_all (inl ∅) (range (default ∅ fsmInstancesBz))).

Definition list_state (acc : gmap string string + error) (kv : string * FSMInstance)
  : Go (gmap string string + error) :=
  match acc with
  | inr err => Ret (inr err)
  | inl states =>
      match FSMInstance_State kv.2 with
      | inr err => Ret (inr (Wrap "failed to get FSM state" err))
      | inl fsmState => Ret (inl (<[kv.1 := fsmState]> states))
      end
  end.

Definition GetFSMList fsm : IO S (gmap string string) :=
  fsmInstances ← wrap "failed to get all FSM instances" (GetAllFSM fsm);
  lift_res (foldM list_state (inl ∅) (range fsmInstances)).

Definition ResetFSMState (unixNow : Z) (dto : ResetStateDTO) : IO S string :=
  _ ← wrap "failed to ignore messages while resetting state"
        (storage_IgnoreMessages (Messages dto) (UseOffset dto));
  _ ← match storage_SetConsumerGroup with
      | Some setConsumerGroup =>
          wrap "failed to set consumer group while reseting state"
            (setConsumerGroup (KafkaConsumerGroup dto))
      | None => mret tt
      end;
  '(newstatepath, err) ← state_Reset unixNow (NewStateDBDSN dto);
  match err with
  | Some err => throw (Wrap "failed to create new state from old" err)
  | None => mret newstatepath
  end.

Definition IsExist fsm (dkgRoundID : string) : IO S bool :=
  r ← try (state_GetOrError (getStateKey fsm));
  match r with
  | inr err => if errors_Is ErrNotFound err then mret false else throw err
  | inl bz =>
      fsmInstances ←
        (if 0 <? slen bz then json_res "failed to unmarshal FSM instances" (unmarshal bz)
         else mret (Some ∅));
      match gomap_lookup fsmInstances dkgRoundID with
      | Some _ => mret true
      | None => mret false
      end
  end.
End service.

(** ** The rounds of a state *)

Section rounds_store.
Context {S : Type} {st : NodeState S} {lerr : LevelDBErr} {spec : NodeStateSpec S}.
Context {ord : MapOrder} {json_tasks : JSON (list SigningTask)} {json_dump : JSON FSMDump}
  {json_spec : JSONSpec FSMDump} {json_dumps : JSON Dumps} {jmap : JSONMap bytes}.
Implicit Types (fsm : FSMService) (s : S) (m : gmap string bytes).

(** The state has the dumps [m]; before the first round, none. *)
Definition has_rounds fsm m s : Prop :=
  ready s ∧ map_Forall entry_fits m ∧
  match stored s !! stateKey fsm with
  | Some b => 0 < slen b ∧ unmarshal b = Some (Some m)
  | None => m = ∅
  end.

Lemma getAllFSMData_ok fsm m s : has_rounds fsm m s → getAllFSMData fsm s = Ret (s, inl (Some m)).
Proof.
  intros (Hr & _ & Hs). unfold getAllFSMData, getStateKey.
  io_step (state_Get_ready s (stateKey fsm) Hr).
  destruct (stored s !! stateKey fsm) as [b|]; cbn.
  - destruct Hs as [Hl Hu]. by rewrite (proj2 (Z.ltb_lt _ _) Hl), Hu.
  - by subst.
Qed.

Lemma SaveFSM_ok fsm m s id b :
  has_rounds fsm m s → entry_fits id b →
  ∃ s', SaveFSM fsm id b s = Ret (s', inl tt) ∧ has_rounds fsm (<[id := b]> m) s'.
Proof.
  intros Hh Hb. pose proof Hh as (Hr & Hf & _). unfold SaveFSM.
  io_step (getAllFSMData_ok fsm m s Hh). unfold mbind, IO_bind, lift. cbn.
  assert (map_Forall entry_fits (<[id := b]> m)) as Hf' by by apply map_Forall_insert_2.
  destruct (map_roundtrip _ Hf') as (bz & Hbz & Hlen & Hu). rewrite Hbz. cbn.
  destruct (state_Set_ready s (stateKey fsm) bz Hr) as (s' & Hset & Hr' & Hst).
  exists s'. unfold getStateKey. rewrite (wrap_ret _ _ _ _ _ Hset). split; [done|].
  split_and!; [done..|]. rewrite Hst, lookup_insert_eq. split; [lia|done].
Qed.

Lemma loadFSM_ok fsm m s id :
  has_rounds fsm m s →
  loadFSM fsm id s =
    match m !! id with
    | None => Ret (s, inl (None, false))
    | Some b =>
        match FromDump b with
        | Ret (inl i) => Ret (s, inl (Some i, true))
        | Ret (inr err) => Ret (s, inr (Wrap "failed to restore FSM instance from dump" err))
        | Panic w => Panic w
        end
    end.
Proof.
  intros Hh. unfold loadFSM. io_step (getAllFSMData_ok fsm m s Hh). cbn.
  destruct (m !! id) as [b|]; [|done]. unfold mbind, IO_bind, wrap, lift_res.
  by destruct (FromDump b) as [[]|].
Qed.

(** A saved dump is the one the round is loaded from afterwards, and the
    other rounds are loaded as before. *)
Theorem saved_round_is_loaded fsm m s id b i createIfMissing :
  has_rounds fsm m s → entry_fits id b → FromDump b = Ret (inl i) →
  ∃ s', SaveFSM fsm id b s = Ret (s', inl tt) ∧
    GetFSMInstance fsm id createIfMissing s' = Ret (s', inl (Some i)) ∧
    ∀ id', id' ≠ id → loadFSM fsm id' s' =
      match loadFSM fsm id' s with Ret (_, r) => Ret (s', r) | Panic w => Panic w end.
Proof.
  intros Hh Hb Hi. destruct (SaveFSM_ok fsm m s id b Hh Hb) as (s' & Hsave & Hh').
  exists s'. split; [done|]. split.
  - unfold GetFSMInstance. pose proof (loadFSM_ok fsm _ s' id Hh') as Hl.
    rewrite lookup_insert_eq, Hi in Hl. by io_step Hl.
  - intros id' Hne. pose proof (loadFSM_ok fsm _ s' id' Hh') as Hl.
    rewrite lookup_insert_ne in Hl by done. rewrite Hl, (loadFSM_ok fsm m s id' Hh).
    destruct (m !! id') as [b'|]; [|done]. by destruct (FromDump b') as [[]|].
Qed.

(** Creating a missing round. *)
Lemma GetFSMInstance_missing fsm m s id i d b :
  has_rounds fsm m s → m !! id = None →
  Create id = Ret (inl i) → dump i = Some d → marshal d = Some b → entry_fits id b →
  ∃ s', GetFSMInstance fsm id true s = Ret (s', inl (Some i)) ∧
    has_rounds fsm (<[id := b]> m) s'.
Proof.
  intros Hh Hnone Hc Hd Hm Hf. unfold GetFSMInstance.
  pose proof (loadFSM_ok fsm m s id Hh) as Hl. rewrite Hnone in Hl. io_step Hl.
  destruct (SaveFSM_ok fsm m s id b Hh Hf) as (s' & Hsave & Hh'). exists s'. split; [|done].
  unfold lift_res, FSMInstance_Dump, FSMDump_Marshal. cbn [negb].
  unfold mbind, IO_bind, wrap. rewrite Hc, Hd, Hm, Hsave. done.
Qed.

(** A round that is missing is created on request and kept: the instance
    returned is the new one, and loading the round again gives an instance with
    the same dump in the same state. *)
Theorem missing_round_is_created fsm m s id :
  has_rounds fsm m s → m !! id = None → TrimSpace id ≠ "" →
  encodable (mk_FSMDump (TrimSpace id) StateGlobalIdle (Some (fresh_payload (TrimSpace id)))) →
  (∀ b, entry_fits id b) →
  ∃ i i' s', GetFSMInstance fsm id true s = Ret (s', inl (Some i)) ∧
    GetFSMInstance fsm id false s' = Ret (s', inl (Some i')) ∧
    dump i = Some (mk_FSMDump (TrimSpace id) StateGlobalIdle (Some (fresh_payload (TrimSpace id)))) ∧
    dump i' = dump i ∧ FSMInstance_State i' = FSMInstance_State i.
Proof.
  intros Hh Hnone Hne Henc Hf. destruct (Create_ok id Hne) as (mach & (f & _ & ->) & Hc).
  destruct (marshal_roundtrip _ Henc) as (b & Hb & Hlen & Hu).
  destruct (GetFSMInstance_missing fsm m s id _ _ b Hh Hnone Hc eq_refl Hb (Hf b)) as (s' & Hget & Hh').
  destruct (FromDump_handled _ b Sig Hu Hlen) as (m' & Hfd & st' & (f' & _ & ->) & _).
  { apply handles_states. by left. }
  do 3 eexists. split; [exact Hget|]. pose proof (loadFSM_ok fsm _ s' id Hh') as Hl.
  rewrite lookup_insert_eq, Hfd in Hl. unfold GetFSMInstance. io_step Hl.
  split; [reflexivity|]. split; [reflexivity|]. split; reflexivity.
Qed.

(** What [Create] can do. *)
Lemma create_spec_dump id :
  (∃ i d, Create id = Ret (inl i) ∧ dump i = Some d) ∨ ∃ err, Create id = Ret (inr err).
Proof.
  destruct (decide (TrimSpace id = "")) as [He|Hne].
  - right. eexists. exact (Create_empty id He).
  - left. destruct (Create_ok id Hne) as (mach & _ & Hc). do 2 eexists. split; [exact Hc|reflexivity].
Qed.

(** The dumps of reachable instances. *)
Definition rounds_ok m : Prop :=
  ∀ id b, m !! id = Some b →
    ∃ i d, reachable i ∧ dump i = Some d ∧ encodable d ∧ FSMInstance_Dump i = inl b.

Lemma loaded_reachable m id b i :
  rounds_ok m → m !! id = Some b → FromDump b = Ret (inl i) → reachable i.
Proof.
  intros Hok Hb Hf. destruct (Hok id b Hb) as (i0 & d & Hre & Hd & Henc & Hdump).
  by eapply reach_reload.
Qed.

(** An instance the service hands out is reachable, and the rounds it has
    stored remain those of reachable instances. *)
Lemma GetFSMInstance_reachable fsm m s id create s1 o :
  has_rounds fsm m s → rounds_ok m →
  (∀ i d, Create id = Ret (inl i) → dump i = Some d → encodable d ∧ ∀ b, entry_fits id b) →
  GetFSMInstance fsm id create s = Ret (s1, inl o) →
  ∃ i m1, o = Some i ∧ reachable i ∧ has_rounds fsm m1 s1 ∧ rounds_ok m1.
Proof.
  intros Hh Hok Hnew Hget. unfold GetFSMInstance in Hget. pose proof (loadFSM_ok fsm m s id Hh) as Hl.
  destruct (m !! id) as [b|] eqn:Hb.
  - destruct (FromDump b) as [[i|err]|] eqn:Hf; unfold mbind, IO_bind, wrap in Hget;
      rewrite Hl in Hget; [|done..]. cbn in Hget. injection Hget as <- <-.
    exists i, m. split_and!; [done|by eapply loaded_reachable|done..].
  - unfold mbind, IO_bind, wrap in Hget. rewrite Hl in Hget. cbn in Hget.
    destruct create; [|done]. cbn in Hget. unfold lift_res in Hget.
    destruct (create_spec_dump id) as [(i & d & Hc & Hd)|[err Hc]]; rewrite Hc in Hget; [|done].
    destruct (Hnew i d Hc Hd) as [Henc Hfit]. destruct (marshal_roundtrip d Henc) as (b & Hm & _ & _).
    destruct (SaveFSM_ok fsm m s id b Hh (Hfit b)) as (s' & Hsave & Hh').
    unfold FSMInstance_Dump, FSMDump_Marshal in Hget. rewrite Hd, Hm, Hsave in Hget.
    injection Hget as <- <-. exists i, (<[id := b]> m).
    assert (reachable i) as Hre by by eapply reach_create.
    split_and!; [done..|]. intros id' b' [[<- <-]|[_ Hb']]%lookup_insert_Some; [|by eapply Hok].
    exists i, d. split_and!; [done..|]. unfold FSMInstance_Dump, FSMDump_Marshal. by rewrite Hd, Hm.
Qed.

(** The dump an accepted event returns is the dump of the instance. *)
Lemma Do_dump i e args i' resp b d' :
  inst_ok i → FSMInstance_Do i e args = Ret (i', (resp, b, None)) → dump i' = Some d' → encodable d' →
  FSMInstance_Dump i' = inl b.
Proof.
  intros Hi HDo Hd' Henc.
  destruct (inst_Do i e args Hi) as (st0 & f & d & p & Hf & Hm & Hd & Hp & Hinv & Heq).
  rewrite Heq in HDo. go_inv. destruct a as [[s' p'] [resp' err]]. cbv zeta in HDo.
  injection HDo as <- <- <- ->.
  destruct (spec_do_response _ _ _ _ _ _ _ _ _ Ha) as (r & -> & Hr).
  cbn [dump] in Hd'. injection Hd' as <-. destruct (marshal_roundtrip _ Henc) as (b & Hb & _ & _).
  unfold FSMInstance_Dump, FSMDump_Marshal. cbn [dump]. by rewrite Hb.
Qed.

(** The rounds a node keeps are rounds of the protocol: fetching a round,
    sending it an event that is accepted and saving the dump that comes back,
    again and again, leaves only dumps of reachable instances in the state. *)
Theorem stored_rounds_are_reachable fsm m s id create s1 i e args i' d' resp b s2 :
  has_rounds fsm m s → rounds_ok m →
  (∀ i0 d0, Create id = Ret (inl i0) → dump i0 = Some d0 → encodable d0) → (∀ b, entry_fits id b) →
  GetFSMInstance fsm id create s = Ret (s1, inl (Some i)) →
  FSMInstance_Do i e args = Ret (i', (resp, b, None)) → dump i' = Some d' → encodable d' →
  SaveFSM fsm id b s1 = Ret (s2, inl tt) →
  reachable i ∧ reachable i' ∧ ∃ m2, has_rounds fsm m2 s2 ∧ rounds_ok m2 ∧ m2 !! id = Some b.
Proof.
  intros Hh Hok Henc0 Hfit Hget HDo Hd' Henc Hsave.
  destruct (GetFSMInstance_reachable fsm m s id create s1 (Some i) Hh Hok) as (i0 & m1 & Heq & Hre & Hh1 & Hok1);
    [by eauto|exact Hget|]. injection Heq as <-.
  assert (reachable i') as Hre' by by eapply reach_do.
  split; [done|]. split; [done|]. exists (<[id := b]> m1).
  destruct (SaveFSM_ok fsm m1 s1 id b Hh1 (Hfit b)) as (s2' & Hsave' & Hh2).
  rewrite Hsave in Hsave'. injection Hsave' as <-. split; [done|]. rewrite lookup_insert_eq. split; [|done].
  intros id' b' [[<- <-]|[_ Hb']]%lookup_insert_Some; [|by eapply Hok1].
  exists i', d'. split_and!; [done..|]. apply (Do_dump i e args i' resp b d'); [by apply reachable_inst_ok|exact HDo|done..].
Qed.
End rounds_store.

(** ** Rounds in memory *)

Module RoundSample.
Import MemDB.

#[local] Existing Instance map_json.
#[local] Existing Instance map_json_map.

(** The idle round and the round after a proposal, and an encoder for them. *)
Definition propose : Event * list Request := (EventInitProposal, [RqParticipantsList sample_proposal]).
Definition d_proposed : FSMDump := continue Sig d_idle [propose].
#[local] Instance two_dumps : JSON FSMDump := table_json [d_idle; d_proposed].
#[local] Instance two_dumps_spec : JSONSpec FSMDump := table_json_spec [d_idle; d_proposed].

Definition svc : FSMService := NewFSMService "topic".
Definition empty_disk : LevelDBState string * Disk := (mk_LevelDBState "db" "topic" "db", ∅).

Lemma empty_rounds : has_rounds svc ∅ empty_disk.
Proof. split; [exact I|]. split; [apply map_Forall_empty|reflexivity]. Qed.

Lemma saved_round_is_loaded_witness :
  ∃ s' i, SaveFSM svc "dkg" (code 0) empty_disk = Ret (s', inl tt) ∧
    GetFSMInstance svc "dkg" false s' = Ret (s', inl (Some i)) ∧ dump i = Some d_idle.
Proof.
  destruct (FromDump_handled d_idle (code 0) Sig) as (m & Hf & _); [reflexivity|vm_compute; discriminate| |].
  { apply handles_states. by left. }
  destruct (saved_round_is_loaded svc ∅ empty_disk "dkg" (code 0) _ false empty_rounds I Hf)
    as (s' & H1 & H2 & _).
  eexists s', _. split; [exact H1|]. split; [exact H2|reflexivity].
Defined.

Lemma missing_round_is_created_witness :
  ∃ i i' s', GetFSMInstance svc "dkg" true empty_disk = Ret (s', inl (Some i)) ∧
    GetFSMInstance svc "dkg" false s' = Ret (s', inl (Some i')) ∧ dump i' = Some d_idle.
Proof.
  destruct (missing_round_is_created svc ∅ empty_disk "dkg" empty_rounds) as (i & i' & s' & H1 & H2 & H3 & H4 & _).
  - reflexivity.
  - vm_compute. discriminate.
  - by left.
  - intros b. exact I.
  - exists i, i', s'. split; [exact H1|]. split; [exact H2|]. rewrite H4. exact H3.
Defined.

Lemma stored_rounds_are_reachable_witness :
  ∃ i i' s1 s2 m2 b, GetFSMInstance svc "dkg" true empty_disk = Ret (s1, inl (Some i)) ∧
    SaveFSM svc "dkg" b s1 = Ret (s2, inl tt) ∧ dump i' = Some d_proposed ∧
    has_rounds svc m2 s2 ∧ rounds_ok m2 ∧ m2 !! "dkg" = Some b.
Proof.
  destruct (Create_ok "dkg" ltac:(vm_compute; discriminate)) as (mach & Hr & Hc).
  change (TrimSpace "dkg") with "dkg" in Hc.
  assert (marshal d_idle = Some (code 0)) as Hm by (vm_compute; reflexivity).
  destruct (GetFSMInstance_missing svc ∅ empty_disk "dkg" _ d_idle (code 0) empty_rounds eq_refl Hc
    eq_refl Hm I) as (s1 & Hget & Hh1).
  destruct (sample_Do (mk_FSMInstance (Some mach) (Some d_idle)) Sig d_idle StateGlobalIdle (fresh_payload "dkg")
    propose StateAwaitParticipantsConfirmations) as (i' & resp & b & HDo & Hd').
  { exists mach. split; [reflexivity|]. split; [exact Hr|reflexivity]. }
  { apply sig_inv_idle. unfold fresh, later_none. split_and!; reflexivity. }
  { reflexivity. }
  { vm_compute. reflexivity. }
  destruct (SaveFSM_ok svc _ s1 "dkg" b Hh1 I) as (s2 & Hsave & _).
  destruct (stored_rounds_are_reachable svc ∅ empty_disk "dkg" true s1
    (mk_FSMInstance (Some mach) (Some d_idle)) propose.1 propose.2 i' d_proposed resp b s2 empty_rounds) as (_ & _ & m2 & H1 & H2 & H3).
  - intros id b0 Hb. by rewrite lookup_empty in Hb.
  - intros i0 d0 Hc0 Hd0. rewrite Hc in Hc0. injection Hc0 as <-. injection Hd0 as <-. by left.
  - intros b0. exact I.
  - exact Hget.
  - exact HDo.
  - exact Hd'.
  - by right; left.
  - exact Hsave.
  - do 6 eexists. split; [exact Hget|]. split; [exact Hsave|]. split; [exact Hd'|]. split; [exact H1|].
    split; [exact H2|exact H3].
Defined.
End RoundSample.
