(* ===== verification/JsonText.v ===== *)
(** * What [encoding/json] represents without loss

    Strings must be valid UTF-8, and the year of a time must lie between 0 and
    9999. The trimming of [InitDump] keeps the first. *)

From S2P Require Import Prelude LevelState.

(** ** Valid UTF-8, [utf8.ValidString] *)

Definition byte_of (c : ascii) : Z := Z.of_N (N_of_ascii c).

Definition between (lo hi : Z) (c : ascii) : bool := (lo <=? byte_of c) && (byte_of c <=? hi).

(** A continuation byte. *)
Definition cont : ascii → bool := between 128 191.

(** The multi-byte encodings: none that is longer than needed, no surrogate, and
    nothing beyond U+10FFFF. *)
Definition two (a b : ascii) : bool := between 194 223 a && cont b.
Definition three (a b c : ascii) : bool :=
  between 224 239 a && cont b && cont c &&
  (if byte_of a =? 224 then 160 <=? byte_of b else true) &&
  (if byte_of a =? 237 then byte_of b <=? 159 else true).
Definition four (a b c d : ascii) : bool :=
  between 240 244 a && cont b && cont c && cont d &&
  (if byte_of a =? 240 then 144 <=? byte_of b else true) &&
  (if byte_of a =? 244 then byte_of b <=? 143 else true).

Fixpoint valid_text (s : string) : bool :=
  match s with
  | EmptyString => true
  | String a s1 =>
      if byte_of a <? 128 then valid_text s1
      else
        match s1 with
        | EmptyString => false
        | String b s2 =>
            if two a b then valid_text s2
            else
              match s2 with
              | EmptyString => false
              | String c s3 =>
                  if three a b c then valid_text s3
                  else
                    match s3 with
                    | EmptyString => false
                    | String d s4 => four a b c d && valid_text s4
                    end
              end
        end
  end.

(** ** Times

    A time is an instant; its year is read in a zone less than a day away from
    UTC, so the instants from the zero time up to the last day of the year 9999
    have a year that JSON takes, whatever the zone. *)
Definition json_end : Time := (315537897600 - 24 * 3600) * 1000000000.
Definition time_ok (t : Time) : bool := (0 <=? t) && (t <? json_end).

(** The deadlines of the three stages are a week away. *)
Definition dated (t : Time) : bool := time_ok t && time_ok (Add t (Hour * 24 * 7)).

Lemma dated_time_ok t : dated t = true → time_ok t = true.
Proof. unfold dated. by intros [H _]%andb_true_iff. Qed.

Lemma dated_deadline t : dated t = true → time_ok (Add t (Hour * 24 * 7)) = true.
Proof. unfold dated. by intros [_ H]%andb_true_iff. Qed.

Lemma early_dated t : 0 ≤ t < 1000000 → dated t = true.
Proof.
  intros Ht. unfold dated, time_ok, Add, Hour, json_end.
  rewrite !andb_true_iff, !Z.leb_le, !Z.ltb_lt. lia.
Qed.

(** ** Trimming *)

(** A byte that starts a character. *)
Definition lead (c : ascii) : bool := negb (cont c).

Lemma lead_not_cont a : lead a = true → cont a = false.
Proof. apply negb_true_iff. Qed.

#[local] Arguments byte_of : simpl never.
#[local] Arguments cont : simpl never.
#[local] Arguments between : simpl never.

(** Text that is cut before the start of a character remains text. *)
Lemma valid_text_cut a t s : lead a = true → valid_text (s +:+ String a t) = true → valid_text s = true.
Proof.
  intros Ha%lead_not_cont.
  induction s as [s IH'] using (induction_ltof1 _ String.length). unfold ltof in IH'.
  destruct s as [|x s1]; [done|].
  assert (∀ s, (String.length s ≤ String.length s1)%nat → valid_text (s +:+ String a t) = true → valid_text s = true) as IH.
  { intros s Hs. apply IH'. cbn. lia. }
  clear IH'. change (String x s1 +:+ String a t) with (String x (s1 +:+ String a t)).
  cbn [valid_text]. destruct (byte_of x <? 128); [apply IH; cbn; lia|].
  destruct s1 as [|y s2].
  { change (EmptyString +:+ String a t) with (String a t). cbn iota. unfold two, three, four. rewrite Ha, !andb_false_r. cbn [andb].
    destruct t as [|? [|]]; rewrite ?andb_false_r; done. }
  change (String y s2 +:+ String a t) with (String y (s2 +:+ String a t)). cbn iota.
  destruct (two x y); [apply IH; cbn; lia|].
  destruct s2 as [|z s3].
  { change (EmptyString +:+ String a t) with (String a t). cbn iota. unfold three, four. rewrite Ha, !andb_false_r. cbn [andb]. destruct t; rewrite ?andb_false_r; done. }
  change (String z s3 +:+ String a t) with (String z (s3 +:+ String a t)). cbn iota.
  destruct (three x y z); [apply IH; cbn; lia|].
  destruct s3 as [|w s4].
  { change (EmptyString +:+ String a t) with (String a t). cbn iota. unfold four. by rewrite Ha, !andb_false_r. }
  change (String w s4 +:+ String a t) with (String w (s4 +:+ String a t)). cbn iota.
  intros [-> H]%andb_true_iff. apply IH; [cbn; lia|exact H].
Qed.

(** A white-space character in front of text. *)
Lemma valid_text_space p s : p ∈ spaces → valid_text (p +:+ s) = valid_text s.
Proof.
  intros Hp. unfold spaces in Hp. cbn in Hp.
  repeat (apply elem_of_cons in Hp as [->|Hp]; [reflexivity|]). by apply not_elem_of_nil in Hp.
Qed.

Lemma space_lead p : p ∈ spaces → ∃ a t, p = String a t ∧ lead a = true.
Proof.
  intros Hp. unfold spaces in Hp. cbn in Hp.
  repeat (apply elem_of_cons in Hp as [->|Hp]; [by do 2 eexists|]). by apply not_elem_of_nil in Hp.
Qed.

Lemma prefix_split p s : String.prefix p s = true → s = p +:+ sdrop (String.length p) s.
Proof.
  induction p as [|a p IH] in s |- *; [done|]. destruct s as [|c s]; cbn; [done|].
  destruct (ascii_dec a c) as [-> |]; [|done]. intros H. rewrite sapp_cons.
  by rewrite <-IH.
Qed.

Lemma srev_app_spec s acc : srev_app s acc = srev s +:+ acc.
Proof.
  unfold srev. induction s as [|c s IH] in acc |- *; [done|]. cbn [srev_app].
  rewrite IH, (IH (String c "")). by rewrite sapp_assoc.
Qed.

Lemma srev_cons c s : srev (String c s) = srev s +:+ String c "".
Proof. unfold srev at 1. cbn. apply srev_app_spec. Qed.

Lemma append_empty (a : string) : a +:+ "" = a.
Proof. induction a as [|x a IH]; [done|]. by rewrite sapp_cons, IH. Qed.

Lemma srev_append a b : srev (a +:+ b) = srev b +:+ srev a.
Proof.
  induction a as [|c a IH].
  - change (srev b = srev b +:+ ""). by rewrite append_empty.
  - change (String c a +:+ b) with (String c (a +:+ b)). by rewrite !srev_cons, IH, sapp_assoc.
Qed.

Lemma srev_involutive s : srev (srev s) = s.
Proof. induction s as [|c s IH]; [done|]. by rewrite srev_cons, srev_append, IH. Qed.

Lemma strip_all_keeps (J : string → Prop) l :
  (∀ p s, p ∈ l → J (p +:+ s) → J s) → ∀ n s, J s → J (strip_all n l s).
Proof.
  intros Hl. induction n as [|n IH]; intros s Hs; [done|]. cbn. unfold strip_one.
  destruct (list_find _ l) as [[i p]|] eqn:Hf; [|done].
  apply list_find_Some in Hf as (Hp & Hpre & _). apply IH, (Hl p).
  - by eapply list_elem_of_lookup_2.
  - by rewrite <-(prefix_split _ _ Hpre).
Qed.

(** Trimmed text is text. *)
Lemma TrimSpace_text s : valid_text s = true → valid_text (TrimSpace s) = true.
Proof.
  intros Hs. unfold TrimSpace.
  assert (valid_text (strip_all (String.length s) spaces s) = true) as Hl.
  { apply (strip_all_keeps (fun s => valid_text s = true)); [|done].
    intros p s' Hp. by rewrite valid_text_space. }
  apply (strip_all_keeps (fun s => valid_text (srev s) = true)); [|by rewrite srev_involutive].
  intros p s' (q & -> & Hq)%list_elem_of_fmap. rewrite srev_append, srev_involutive.
  destruct (space_lead q Hq) as (a & t & -> & Ha). by apply valid_text_cut.
Qed.
