(* ===== verification/Representable.v ===== *)
(** * The dumps that JSON takes

    A dump is encoded without loss when its strings are valid UTF-8 and its
    times are dated within the years of JSON. The machines keep this, as long
    as the requests they are given have it and are dated a week before the end;
    so every round a node builds from such messages can be saved and loaded. *)

From S2P Require Import Prelude LevelState ClientTypes JsonText.
From S2P Require Import GoFsm Requests Payload FsmPool.
From S2P Require Import SignatureProposal DkgProposal SigningProposal StateMachines Protocol.

(** ** Values *)

(** What is absent is represented. *)
Definition oall {A} (P : A → Prop) (o : option A) : Prop := match o with Some a => P a | None => True end.

Definition text (s : string) : Prop := valid_text s = true.
Definition timely (t : Time) : Prop := time_ok t = true.
Definition error_rep (e : option FSMError) : Prop := oall (fun e => text (ErrorMsg e)) e.
Definition keys_rep {V} (m : gomap string V) : Prop := oall (map_Forall (fun k _ => text k)) m.
Definition quorum_rep {X} (P : X → Prop) (q : gomap Z X) : Prop := oall (map_Forall (fun _ x => P x)) q.

Definition sgp_rep (x : SignatureProposalParticipant) : Prop :=
  text (sgp_Username x) ∧ text (sgp_InvitationSecret x) ∧ timely (sgp_UpdatedAt x).
Definition sc_rep (c : SignatureConfirmation) : Prop :=
  quorum_rep sgp_rep (sc_Quorum c) ∧ timely (sc_CreatedAt c) ∧ timely (sc_UpdatedAt c) ∧ timely (sc_ExpiresAt c).

Definition dp_rep (x : DKGProposalParticipant) : Prop :=
  text (dp_Username x) ∧ error_rep (dp_Error x) ∧ timely (dp_UpdatedAt x).
Definition dc_rep (c : DKGConfirmation) : Prop :=
  quorum_rep dp_rep (dc_Quorum c) ∧ timely (dc_CreatedAt c) ∧ timely (dc_UpdatedAt c) ∧ timely (dc_ExpiresAt c).

Definition np_rep (x : SigningProposalParticipant) : Prop :=
  text (np_Username x) ∧ keys_rep (np_PartialSigns x) ∧ error_rep (np_Error x) ∧ timely (np_UpdatedAt x).
Definition nc_rep (c : SigningConfirmation) : Prop :=
  text (nc_BatchID c) ∧ quorum_rep np_rep (nc_Quorum c) ∧
  timely (nc_CreatedAt c) ∧ timely (nc_UpdatedAt c) ∧ timely (nc_ExpiresAt c).

Record payload_rep (p : DumpedMachineStatePayload) : Prop := {
  pr_id : text (pay_DkgId p);
  pr_signature : oall sc_rep (pay_SignatureProposalPayload p);
  pr_dkg : oall dc_rep (pay_DKGProposalPayload p);
  pr_signing : oall nc_rep (pay_SigningProposalPayload p);
  pr_keys : keys_rep (pay_PubKeys p);
  pr_ids : keys_rep (pay_IDs p)
}.

Definition representable (d : FSMDump) : Prop :=
  text (TransactionId d) ∧ text (dump_State d) ∧ oall payload_rep (dump_Payload d).

(** A request whose strings and times are represented; the deadline of a stage
    is computed from the time of the request that begins it. *)
Definition representable_request (r : Request) : Prop :=
  match r with
  | RqDefault r => dated (dr_CreatedAt r) = true
  | RqParticipantsList r =>
      dated (pl_CreatedAt r) = true ∧ Forall (oall (fun e => text (pe_Username e))) (pl_Participants r)
  | RqParticipant r => timely (pr_CreatedAt r)
  | RqSignatureError r => timely (se_CreatedAt r) ∧ error_rep (se_Error r)
  | RqCommit r => timely (cr_CreatedAt r)
  | RqDeal r => timely (de_CreatedAt r)
  | RqResponse r => timely (rr_CreatedAt r)
  | RqMasterKey r => timely (mr_CreatedAt r)
  | RqDkgError r => timely (er_CreatedAt r) ∧ error_rep (er_Error r)
  | RqSigningStart r => timely (bs_CreatedAt r) ∧ text (bs_BatchID r)
  | RqPartialSigns r => timely (bp_CreatedAt r) ∧ Forall (fun s => text (ps_MessageID s)) (bp_PartialSigns r)
  | RqOther => True
  end.

(** ** Callbacks that keep an invariant of the payload *)

Section act.
Context {P D : Type} (J : P → Prop).

(** Started where [J] holds, the body ends where [J] holds, and what it
    returns satisfies [Q]. *)
Definition act_post {B} (m : Act P D B) (Q : B → Prop) : Prop :=
  ∀ p p' r, J p → m p = Ret (p', r) → J p' ∧ match r with inl b => Q b | inr _ => True end.

Lemma act_ret {B} (b : B) (Q : B → Prop) : Q b → act_post (mret b) Q.
Proof. intros Hb p p' r Hp [= <- <-]. done. Qed.

Lemma act_bind {B C} (m : Act P D B) (k : B → Act P D C) (R : B → Prop) (Q : C → Prop) :
  act_post m R → (∀ b, R b → act_post (k b) Q) → act_post (m ≫= k) Q.
Proof.
  intros Hm Hk p p' r Hp H. unfold mbind, Act_bind in H.
  destruct (m p) as [[p1 [b|e]]|] eqn:Hmp; cbn in H; [..|done].
  - destruct (Hm _ _ _ Hp Hmp) as [Hp1 Hb]. by eapply Hk.
  - injection H as <- <-. split; [|done]. by apply (Hm _ _ _ Hp Hmp).
Qed.

Lemma act_lift {B} (g : Go B) (Q : B → Prop) : (∀ b, g = Ret b → Q b) → act_post (lift g) Q.
Proof.
  intros Hg p p' r Hp H. unfold lift in H. destruct g as [b|]; [|done]. injection H as <- <-. auto.
Qed.

Lemma act_fail {B} e (Q : B → Prop) : act_post (fail e) Q.
Proof. intros p p' r Hp [= <- <-]. done. Qed.

Lemma act_require b e : act_post (require b e) (fun _ => b = true).
Proof. unfold require. destruct b; [by apply act_ret|apply act_fail]. Qed.

Lemma act_check o : act_post (check o) (fun _ => o = None).
Proof. unfold check. destruct o; [apply act_fail|by apply act_ret]. Qed.

Lemma act_put p : J p → act_post (put p) (fun _ => True).
Proof. intros Hp p0 p' r _ [= <- <-]. done. Qed.

Lemma act_get : act_post get J.
Proof. intros p p' r Hp [= <- <-]. done. Qed.

Lemma act_arg0 {A B} (cast : A → option B) m1 m2 args :
  act_post (arg0 cast m1 m2 args) (fun b => ∃ a, a ∈ args ∧ cast a = Some b).
Proof.
  unfold arg0. destruct args as [|a [|]]; try apply act_fail. destruct (cast a) as [b|] eqn:Hc; [|apply act_fail].
  apply act_ret. exists a. split; [by left|done].
Qed.

(** A callback that keeps [J] when its arguments satisfy [K]. *)
Definition cb_keeps {A} (K : A → Prop) (cb : Callback P A D) : Prop :=
  ∀ e args p p' r, Forall K args → J p → cb e args p = Ret (p', r) → J p'.

Lemma run_action_keeps (m : Act P D (CbRet D)) p p' r :
  act_post m (fun _ => True) → J p → run_action m p = Ret (p', r) → J p'.
Proof.
  intros Hm Hp H. unfold run_action in H. destruct (m p) as [[p1 r1]|] eqn:Hmp; [|done].
  injection H as <- _. by apply (Hm _ _ _ Hp Hmp).
Qed.

Context {A : Type} (K : A → Prop) (events : list EventDesc) (cbs : list (Event * Callback P A D)).
Context (Hcbs : Forall (fun ec => cb_keeps K ec.2) cbs).

Lemma call_keeps_payload e args p p' r : Forall K args → J p → call cbs e args p = Ret (p', r) → J p'.
Proof using Hcbs.
  intros Ha Hp H. unfold call, find_cb in H.
  destruct (List.find _ (reverse cbs)) as [[e' cb]|] eqn:Hf; cbn in H; [|by injection H as <- _].
  apply find_some in Hf as [Hin%list_elem_of_In _]. rewrite elem_of_reverse in Hin.
  rewrite Forall_forall in Hcbs. by apply (Hcbs _ Hin e args p p' r).
Qed.

Lemma spec_auto_keeps s args p data s' p' r :
  Forall K args → J p → spec_auto events cbs s args p data = Ret (s', p', r) → J p'.
Proof using Hcbs.
  intros Ha Hp H. unfold spec_auto in H. destruct (find_auto events s) as [d|]; [|by injection H as _ <- _].
  destruct (call cbs (Name d) args p) as [[p1 [[out data'] err]]|] eqn:Hc; [|done]. cbn in H.
  pose proof (call_keeps_payload _ _ _ _ _ Ha Hp Hc) as Hp1.
  destruct err; [by injection H as _ <- _|]. by destruct (find_desc events s _); injection H as _ <- _.
Qed.

(** A run of the machine keeps [J], whatever the callbacks answer. *)
Lemma spec_do_keeps s e args p s' p' r :
  Forall K args → J p → spec_do events cbs s e args p = Ret (s', p', r) → J p'.
Proof using Hcbs.
  intros Ha Hp H. unfold spec_do in H. destruct (find_desc events s e) as [d|]; [|by injection H as _ <- _].
  destruct (IsInternal d); [by injection H as _ <- _|].
  destruct (call cbs e args p) as [[p1 [[out data] err]]|] eqn:Hc; [|done]. cbn in H.
  pose proof (call_keeps_payload _ _ _ _ _ Ha Hp Hc) as Hp1.
  destruct err; [by injection H as _ <- _|]. unfold finish in H.
  destruct (find_desc events s _) as [d'|]; [|by injection H as _ <- _].
  destruct (spec_auto events cbs (DstState d') args p1 data) as [[[s2 p2] [resp err]]|] eqn:Hau; [|done].
  injection H as _ <- _. by apply (spec_auto_keeps _ _ _ _ _ _ _ Ha Hp1 Hau).
Qed.
End act.

(** ** Quorums and payloads *)

Lemma text_literal s : valid_text s = true → text s.
Proof. done. Qed.

Lemma zero_timely : timely 0.
Proof. done. Qed.

Create HintDb rep.
#[export] Hint Resolve zero_timely dated_time_ok dated_deadline : rep.

Section quorums.
Context {X : Type} (P : X → Prop).

Lemma quorum_rep_lookup q id x : quorum_rep P q → gomap_lookup q id = Some x → P x.
Proof. destruct q as [m|]; [|done]. intros Hq Hx. exact (Hq id x Hx). Qed.

Lemma quorum_rep_update q id x : quorum_rep P q → P x → quorum_rep P (quorum_update q id x).
Proof. destruct q as [m|]; [|done]. intros Hq Hx. by apply map_Forall_insert_2. Qed.

Lemma quorum_rep_insert q id x q' : quorum_rep P q → P x → gomap_insert q id x = Ret q' → quorum_rep P q'.
Proof. destruct q as [m|]; [|done]. intros Hq Hx [= <-]. by apply map_Forall_insert_2. Qed.

Lemma quorum_rep_fmap (f : X → X) q :
  (∀ x, P x → P (f x)) → quorum_rep P q → quorum_rep P (fmap (M := gmap Z) f <$> q).
Proof. intros Hf. destruct q as [m|]; [|done]. intros Hq k y (x & <- & Hx)%lookup_fmap_Some. apply Hf, (Hq k x Hx). Qed.

Lemma quorum_rep_ordered `{!MapOrder} (set_id : Z → X → X) q :
  (∀ id x, P x → P (set_id id x)) → quorum_rep P q →
  quorum_rep P (GetOrdered set_id q).1 ∧ Forall P (GetOrdered set_id q).2.
Proof.
  intros Hid. destruct q as [m|]; [|by repeat constructor]. intros Hq. rewrite GetOrdered_spec. cbn. split.
  - intros k y Hy. rewrite lookup_with_ids in Hy. apply fmap_Some in Hy as (x & Hx & ->). apply Hid, (Hq k x Hx).
  - apply Forall_forall. intros y (k & x & Hx & ->)%elem_of_in_id_order. apply Hid, (Hq k x Hx).
Qed.

Lemma quorum_rep_range `{!MapOrder} (m : gmap Z X) : map_Forall (fun _ x => P x) m → Forall (fun kx => P kx.2) (range m).
Proof.
  intros Hm. apply Forall_forall. intros [k x] Hx. unfold range in Hx. rewrite shuffle_perm, elem_of_map_to_list in Hx.
  exact (Hm k x Hx).
Qed.
End quorums.

Lemma payload_rep_sig c p : payload_rep p → sc_rep c → payload_rep (pay_set_sig c p).
Proof. intros [] ?. by constructor. Qed.
Lemma payload_rep_dkg c p : payload_rep p → dc_rep c → payload_rep (pay_set_dkg c p).
Proof. intros [] ?. by constructor. Qed.
Lemma payload_rep_signing c p : payload_rep p → nc_rep c → payload_rep (pay_set_signing c p).
Proof. intros [] ?. by constructor. Qed.
Lemma payload_rep_threshold t p : payload_rep p → payload_rep (pay_set_threshold t p).
Proof. intros []. by constructor. Qed.

Lemma keys_rep_insert {V} (m : gomap string V) k v : text k → keys_rep m → keys_rep (Some (<[k := v]> (default ∅ m))).
Proof.
  intros Hk Hm. apply map_Forall_insert_2; [done|]. destruct m; [exact Hm|apply map_Forall_empty].
Qed.

Lemma payload_rep_directory u id k p :
  text u → payload_rep p → payload_rep (SetIDUsername u id (SetPubKeyUsername u k p)).
Proof. intros Hu []. constructor; cbn; try done; by apply keys_rep_insert. Qed.
#[export] Hint Resolve payload_rep_sig payload_rep_dkg payload_rep_signing payload_rep_threshold : rep.

(** ** The bodies of the callbacks *)

Abbreviation body_keeps := (act_post (D := RespData) (oall payload_rep)).

Lemma payload_keeps : body_keeps payload payload_rep.
Proof.
  unfold payload. eapply act_bind; [apply act_get|]. intros o Ho. apply act_lift.
  intros p Hp. destruct o; [|done]. by injection Hp as <-.
Qed.

Lemma set_payload_keeps p : payload_rep p → body_keeps (set_payload p) (fun _ => True).
Proof. intros Hp. by apply act_put. Qed.

(** A field that is dereferenced. *)
Lemma deref_keeps {A} (P : A → Prop) (o : option A) : oall P o → body_keeps (lift (deref o)) P.
Proof. intros Ho. apply act_lift. intros a Ha. destruct o; [|done]. by injection Ha as <-. Qed.

(** A lookup of a quorum, when nothing is asked of the result. *)
Lemma lift_keeps {A} (g : Go A) : body_keeps (lift g) (fun _ => True).
Proof. by apply act_lift. Qed.

(** The lookups and updates of the three quorums. *)
Lemma SigQuorumGet_keeps p id : payload_rep p → body_keeps (lift (SigQuorumGet p id)) (oall sgp_rep).
Proof.
  intros Hp. apply act_lift. intros o Ho. unfold SigQuorumGet in Ho. pose proof (pr_signature p Hp) as Hs.
  destruct (pay_SignatureProposalPayload p) as [c|]; [|done]. injection Ho as <-.
  destruct (gomap_lookup (sc_Quorum c) id) as [x|] eqn:Hx; [|done].
  by apply (quorum_rep_lookup _ _ _ _ (proj1 Hs) Hx).
Qed.

Lemma SigQuorumUpdate_keeps p id x :
  payload_rep p → sgp_rep x → body_keeps (lift (SigQuorumUpdate p id x)) payload_rep.
Proof.
  intros Hp Hx. apply act_lift. intros p' Ho. unfold SigQuorumUpdate in Ho. pose proof (pr_signature p Hp) as Hs.
  destruct (pay_SignatureProposalPayload p) as [c|]; [|done]. injection Ho as <-. destruct Hs as [Hq Ht].
  apply payload_rep_sig; [done|]. split; [by apply quorum_rep_update|exact Ht].
Qed.

Lemma DKGQuorumGet_keeps p id : payload_rep p → body_keeps (lift (DKGQuorumGet p id)) (oall dp_rep).
Proof.
  intros Hp. apply act_lift. intros o Ho. unfold DKGQuorumGet in Ho. pose proof (pr_dkg p Hp) as Hs.
  destruct (pay_DKGProposalPayload p) as [c|]; [|done]. injection Ho as <-.
  destruct (gomap_lookup (dc_Quorum c) id) as [x|] eqn:Hx; [|done].
  by apply (quorum_rep_lookup _ _ _ _ (proj1 Hs) Hx).
Qed.

Lemma DKGQuorumUpdate_keeps p id x :
  payload_rep p → dp_rep x → body_keeps (lift (DKGQuorumUpdate p id x)) payload_rep.
Proof.
  intros Hp Hx. apply act_lift. intros p' Ho. unfold DKGQuorumUpdate in Ho. pose proof (pr_dkg p Hp) as Hs.
  destruct (pay_DKGProposalPayload p) as [c|]; [|done]. injection Ho as <-. destruct Hs as [Hq Ht].
  apply payload_rep_dkg; [done|]. split; [by apply quorum_rep_update|exact Ht].
Qed.

Lemma SigningQuorumGet_keeps p id :
  payload_rep p → body_keeps (lift (SigningQuorumGet p id)) (fun po => payload_rep po.1 ∧ oall np_rep po.2).
Proof.
  intros Hp. apply act_lift. intros [p' o] Ho. unfold SigningQuorumGet in Ho. pose proof (pr_signing p Hp) as Hs.
  destruct (pay_SigningProposalPayload p) as [c|]; [|done]. cbn in Ho. destruct Hs as (Hb & Hq & Ht).
  destruct (nc_Quorum c) as [q|] eqn:Heq; [|by injection Ho as <- <-].
  destruct (q !! id) as [x|] eqn:Hx; [|done]. cbn in Ho. pose proof (Hq id x Hx) as Hrx.
  destruct (np_PartialSigns x) eqn:Hps; injection Ho as <- <-; [done|].
  assert (np_rep (np_set_signs (Some ∅) x)) as Hrx'.
  { destruct Hrx as (? & _ & ?). split; [done|]. split; [apply map_Forall_empty|done]. }
  split; [|done]. apply payload_rep_signing; [done|]. split; [done|]. split; [by apply map_Forall_insert_2|done].
Qed.

Lemma SigningQuorumUpdate_keeps p id x :
  payload_rep p → np_rep x → body_keeps (lift (SigningQuorumUpdate p id x)) payload_rep.
Proof.
  intros Hp Hx. apply act_lift. intros p' Ho. unfold SigningQuorumUpdate in Ho. pose proof (pr_signing p Hp) as Hs.
  destruct (pay_SigningProposalPayload p) as [c|]; [|done]. injection Ho as <-. destruct Hs as (Hb & Hq & Ht).
  apply payload_rep_signing; [done|]. split; [done|]. split; [by apply quorum_rep_update|exact Ht].
Qed.

Lemma touch_signature_keeps t p : payload_rep p → timely t → body_keeps (lift (touch_signature t p)) payload_rep.
Proof.
  intros Hp Ht. apply act_lift. intros p' Ho. unfold touch_signature in Ho. pose proof (pr_signature p Hp) as Hs.
  destruct (pay_SignatureProposalPayload p) as [c|]; [|done]. injection Ho as <-. destruct Hs as (Hq & ? & _ & ?).
  by apply payload_rep_sig.
Qed.

(** The next statement of a body. *)
Ltac act_next :=
  cbv zeta;
  eapply act_bind;
  [first
    [ apply act_arg0 | apply act_check | apply act_require | apply payload_keeps
    | apply SigQuorumGet_keeps; assumption | apply DKGQuorumGet_keeps; assumption
    | apply SigningQuorumGet_keeps; assumption
    | apply SigQuorumUpdate_keeps | apply DKGQuorumUpdate_keeps | apply SigningQuorumUpdate_keeps
    | apply touch_signature_keeps | apply set_payload_keeps
    | eapply deref_keeps; eauto using pr_signature, pr_dkg, pr_signing; fail
    | apply lift_keeps ]|].

(** A callback that keeps the dump representable. *)
Definition action_rep (cb : Action) : Prop := cb_keeps (oall payload_rep) representable_request cb.

Lemma action_rep_intro (body : Event → list Request → Body (GoFsm.CbRet RespData)) :
  (∀ e args, Forall representable_request args → body_keeps (body e args) (fun _ => True)) →
  action_rep (fun e args => run_action (body e args)).
Proof. intros H e args p p' r Ha Hp Hr. by apply (run_action_keeps _ _ _ _ _ (H e args Ha) Hp Hr). Qed.

(** The request of the arguments. *)
Lemma request_rep {B} (cast : Request → option B) (mk : B → Request) args b :
  (∀ a b, cast a = Some b → a = mk b) → Forall representable_request args →
  (∃ a, a ∈ args ∧ cast a = Some b) → representable_request (mk b).
Proof. intros Hc Ha (a & Hin & Hab). rewrite <-(Hc a b Hab). rewrite Forall_forall in Ha. by apply Ha. Qed.

(** *** The signature proposal *)

Section signature.
Context {ord : MapOrder}.

Lemma add_participant_rep r p io p' :
  timely (pl_CreatedAt r) → oall (fun e => text (pe_Username e)) io.2 → payload_rep p →
  SignatureProposal.add_participant r p io = Ret p' → payload_rep p'.
Proof.
  destruct io as [i o]. unfold SignatureProposal.add_participant. intros Ht Ho Hp H.
  destruct o as [e|]; [|done]. cbn [deref mbind Go_bind] in H. pose proof (pr_signature p Hp) as Hs.
  destruct (pay_SignatureProposalPayload p) as [c|]; [|done]. cbn [deref mbind Go_bind] in H. destruct Hs as [Hq Hts].
  destruct (gomap_insert (sc_Quorum c) i (proposed r e)) as [q|] eqn:Hi; [|done]. injection H as <-.
  apply payload_rep_directory; [done|]. apply payload_rep_sig; [done|]. split; [|done].
  eapply quorum_rep_insert; [exact Hq| |exact Hi]. done.
Qed.

Lemma foldM_add_participant_rep r l p p' :
  timely (pl_CreatedAt r) → Forall (fun io : Z * _ => oall (fun e => text (pe_Username e)) io.2) l → payload_rep p →
  foldM (SignatureProposal.add_participant r) p l = Ret p' → payload_rep p'.
Proof.
  intros Ht Hl. induction Hl as [|io l Ho _ IH] in p |- *; intros Hp H; [by injection H as <-|].
  cbn [foldM] in H. destruct (SignatureProposal.add_participant r p io) as [p1|] eqn:Ha; [|done].
  cbn [mbind Go_bind] in H. by eapply IH, H; eapply add_participant_rep.
Qed.

Lemma init_signature_rep : action_rep actionInitSignatureProposal.
Proof.
  apply action_rep_intro. intros e args Ha. act_next.
  intros request Hreq%(request_rep _ RqParticipantsList); [|by intros [] ? [= <-]|done]. destruct Hreq as [Hd Hps].
  do 2 (act_next; intros ? _). act_next. intros p Hp.
  eapply act_bind with (R := payload_rep).
  { apply act_lift. intros p' Hf. eapply foldM_add_participant_rep, Hf; [by apply dated_time_ok| |].
    - apply Forall_forall. intros io (i & o & -> & Ho)%elem_of_lookup_imap_1. cbn.
      rewrite Forall_forall in Hps. apply Hps. by eapply list_elem_of_lookup_2.
    - apply payload_rep_sig; [done|]. split; [apply map_Forall_empty|]. split_and!; auto with rep.
      + by apply dated_time_ok.
      + by apply dated_deadline. }
  intros p1 Hp1. act_next; [done|]. intros _ _. do 2 (act_next; intros ? _).
  eapply act_bind; [eapply deref_keeps, (pr_signature (pay_set_threshold _ p1)); by apply payload_rep_threshold|].
  intros c [Hq Hts]. pose proof (quorum_rep_ordered sgp_rep sgp_set_id (sc_Quorum c) (fun _ _ H => H) Hq) as [Hq' _].
  destruct (GetOrdered sgp_set_id (sc_Quorum c)) as [q l]. act_next.
  - apply payload_rep_sig; [by apply payload_rep_threshold|]. by split.
  - intros _ _. by apply act_ret.
Qed.

Lemma reply_rep : action_rep actionProposalResponseByParticipant.
Proof.
  apply action_rep_intro. intros e args Ha. act_next.
  intros request Hreq%(request_rep _ RqParticipant); [|by intros [] ? [= <-]|done].
  act_next; intros _ _. act_next. intros p Hp. act_next; intros ? _. act_next; intros _ _.
  act_next. intros o Ho. act_next. intros x (Hu & Hs & _). destruct (Before _ _); [by apply act_ret|].
  act_next; intros _ _. eapply act_bind with (R := fun _ => True).
  { destruct (_ =s? _); [by apply act_ret|]. destruct (_ =s? _); [by apply act_ret|]. apply act_fail. }
  intros status _. act_next. intros c (Hq & Hc & _ & He). act_next; [by apply payload_rep_sig|done|].
  intros p' Hp'. act_next; [done|]. intros _ _. by apply act_ret.
Qed.

Lemma validate_signature_rep : action_rep actionValidateSignatureProposal.
Proof.
  apply action_rep_intro. intros e args Ha. act_next. intros p Hp. act_next. intros c Hc.
  destruct (SignatureConfirmation_IsExpired c); [by apply act_ret|]. act_next. intros n _.
  destruct (foldl _ _ _) as [u []]; [by apply act_ret|]. by destruct (0 <? u); apply act_ret.
Qed.

Lemma signature_callbacks_rep : Forall (fun ec => action_rep ec.2) SignatureProposal.callbacks.
Proof.
  repeat constructor; cbn [snd]; auto using init_signature_rep, reply_rep, validate_signature_rep.
Qed.
End signature.

(** *** The DKG *)

Section dkg.
Context {ord : MapOrder}.

Lemma enroll_rep l q :
  Forall (fun kx : Z * _ => sgp_rep kx.2) l → map_Forall (fun _ x => dp_rep x) q →
  map_Forall (fun _ x => dp_rep x) (foldl enroll q l).
Proof.
  intros Hl. induction Hl as [|[k x] l (Hu & _ & Ht) _ IH] in q |- *; intros Hq; [done|].
  cbn [foldl]. apply IH. by apply map_Forall_insert_2.
Qed.

Lemma init_dkg_rep : action_rep actionInitDKGProposal.
Proof.
  apply action_rep_intro. intros e args Ha. act_next. intros p Hp.
  destruct (pay_DKGProposalPayload p); [by apply act_ret|]. act_next.
  intros request Hd%(request_rep _ RqDefault); [|by intros [] ? [= <-]|done]. cbn in Hd.
  assert (timely (dr_CreatedAt request) ∧ timely 0 ∧ timely (Add (dr_CreatedAt request) DkgConfirmationDeadline)) as Hts.
  { split_and!; [by apply dated_time_ok|done|by apply dated_deadline]. }
  act_next; [apply payload_rep_dkg; [done|]; split; [apply map_Forall_empty|exact Hts]|]. intros _ _.
  act_next. intros sc [Hq _].
  pose proof (quorum_rep_ordered dp_rep dp_set_id (Some (foldl enroll ∅ (range (default ∅ (sc_Quorum sc)))))
    (fun _ _ H => H)) as Ho.
  destruct (GetOrdered dp_set_id _) as [q l]. destruct Ho as [Hq' _].
  { apply enroll_rep; [|apply map_Forall_empty]. apply quorum_rep_range.
    destruct (sc_Quorum sc); [exact Hq|apply map_Forall_empty]. }
  act_next; [apply payload_rep_dkg; [done|]; by split|]. intros _ _. act_next. intros ? _. by apply act_ret.
Qed.

Lemma received_rep {R} (cast : Request → option R) mk validate get_id get_time await confirmed store touch m1 m2 m3 :
  (∀ a b, cast a = Some b → a = mk b) → (∀ r, representable_request (mk r) → timely (get_time r)) →
  (∀ r x, dp_rep x → dp_rep (store r x)) →
  (∀ r c, timely (get_time r) → dc_rep c → dc_rep (touch r c)) →
  action_rep (confirmationReceived cast validate get_id get_time await confirmed store touch m1 m2 m3).
Proof.
  intros Hcast Htime Hstore Htouch. apply action_rep_intro. intros e args Ha. act_next.
  intros request Hreq%(request_rep _ mk); [|done..]. apply Htime in Hreq.
  act_next; intros _ _. act_next. intros p Hp. act_next; intros ? _. act_next; intros _ _.
  act_next. intros o Ho. act_next. intros x Hx. act_next; intros _ _. act_next. intros c Hc.
  act_next.
  - apply payload_rep_dkg; [done|]. by apply Htouch.
  - destruct (Hstore request x Hx) as (? & ? & _). done.
  - intros p' Hp'. act_next; [done|]. intros _ _. by apply act_ret.
Qed.

Lemma dc_rep_updated t c : timely t → dc_rep c → dc_rep (dc_set_updated t c).
Proof. intros Ht (? & ? & _ & ?). done. Qed.

Lemma commit_rep : action_rep actionCommitConfirmationReceived.
Proof. apply (received_rep _ RqCommit); [by intros [] ? [= <-]|done|done|]. intros. by apply dc_rep_updated. Qed.
Lemma deal_rep : action_rep actionDealConfirmationReceived.
Proof. apply (received_rep _ RqDeal); [by intros [] ? [= <-]|done|done|]. intros. by apply dc_rep_updated. Qed.
Lemma response_rep : action_rep actionResponseConfirmationReceived.
Proof. apply (received_rep _ RqResponse); [by intros [] ? [= <-]|done|done|]. intros. by apply dc_rep_updated. Qed.
Lemma masterkey_rep : action_rep actionMasterKeyConfirmationReceived.
Proof. apply (received_rep _ RqMasterKey); [by intros [] ? [= <-]|done|done|]. intros. by apply dc_rep_updated. Qed.

(** Every participant changed, in a way that keeps it representable. *)
Lemma remapped_rep (f : DKGProposalParticipant → DKGProposalParticipant) c p :
  (∀ x, dp_rep x → dp_rep (f x)) → payload_rep p → dc_rep c →
  payload_rep (pay_set_dkg (dc_set_quorum (fmap (M := gmap Z) f <$> dc_Quorum c) c) p).
Proof.
  intros Hf Hp [Hq Hts]. apply payload_rep_dkg; [done|]. split; [|exact Hts]. by apply quorum_rep_fmap.
Qed.

Lemma validateAwait_rep error confirmed next by_timeout by_error done_ respond :
  action_rep (validateAwait error confirmed next by_timeout by_error done_ respond).
Proof.
  apply action_rep_intro. intros e args Ha. act_next. intros p Hp. act_next. intros c Hc.
  destruct (DKGConfirmation_IsExpired c); [by apply act_ret|]. act_next. intros n _.
  destruct (foldl _ _ _) as [u []]; [by apply act_ret|]. destruct (0 <? u); [by apply act_ret|]. cbv zeta.
  pose proof (quorum_rep_fmap dp_rep (dp_set_status next) (dc_Quorum c) (fun _ H => H) (proj1 Hc)) as Hq.
  pose proof (quorum_rep_ordered dp_rep dp_set_id _ (fun _ _ H => H) Hq) as [Hq' _].
  destruct (GetOrdered dp_set_id _) as [q l]. act_next; [|intros _ _; by apply act_ret].
  apply payload_rep_dkg; [done|]. split; [exact Hq'|apply Hc].
Qed.

Lemma validate_masterkey_rep : action_rep actionValidateDkgProposalAwaitMasterKey.
Proof.
  apply action_rep_intro. intros e args Ha. act_next. intros p Hp. act_next. intros c Hc.
  destruct (DKGConfirmation_IsExpired c); [by apply act_ret|]. act_next. intros n _. cbv zeta.
  destruct (foldl _ _ _) as [u []]; [by apply act_ret|]. destruct (mismatched _).
  { act_next; [|intros _ _; by apply act_ret]. apply remapped_rep; [|done..]. by intros x (? & _ & ?). }
  destruct (0 <? u); [by apply act_ret|]. act_next; [|intros _ _; by apply act_ret]. by apply remapped_rep.
Qed.

Lemma dkg_error_rep : action_rep DkgProposal.actionConfirmationError.
Proof.
  apply action_rep_intro. intros e args Ha. act_next.
  intros request Hreq%(request_rep _ RqDkgError); [|by intros [] ? [= <-]|done]. destruct Hreq as [Ht He].
  act_next; intros _ _. act_next. intros p Hp. act_next; intros ? _. act_next; intros _ _.
  act_next. intros o Ho. act_next. intros x (Hu & _). destruct (confirmation_error _ _); [|by apply act_ret].
  act_next. intros c Hc. act_next; [by apply payload_rep_dkg, dc_rep_updated|done|].
  intros p' Hp'. act_next; [done|]. intros _ _. by apply act_ret.
Qed.

Lemma dkg_callbacks_rep : Forall (fun ec => action_rep ec.2) DkgProposal.callbacks.
Proof.
  repeat constructor; cbn [snd];
    first [apply init_dkg_rep | apply commit_rep | apply deal_rep | apply response_rep | apply masterkey_rep
          | apply validateAwait_rep | apply validate_masterkey_rep | apply dkg_error_rep].
Qed.
End dkg.

(** *** The signing *)

Section signing.
Context {ord : MapOrder} {json : JSON (list SigningTask)}.

Lemma init_signing_rep : action_rep actionInitSigningProposal.
Proof.
  apply action_rep_intro. intros e args Ha. act_next.
  intros request Hd%(request_rep _ RqDefault); [|by intros [] ? [= <-]|done]. cbn in Hd.
  act_next; intros _ _. act_next. intros p Hp. act_next; [|intros _ _; by apply act_ret].
  apply payload_rep_signing; [done|]. split; [done|]. split; [apply map_Forall_empty|].
  split_and!; [by apply dated_time_ok|done|by apply dated_deadline].
Qed.

Lemma add_signers_rep r l q :
  timely (bs_CreatedAt r) → Forall dp_rep l → map_Forall (fun _ x => np_rep x) q →
  map_Forall (fun _ x => np_rep x) (foldl (add_signer r) q l).
Proof.
  intros Ht Hl. induction Hl as [|x l (Hu & _) _ IH] in q |- *; intros Hq; [done|].
  cbn [foldl]. apply IH. by apply map_Forall_insert_2.
Qed.

Lemma start_signing_rep : action_rep actionStartSigningProposal.
Proof.
  apply action_rep_intro. intros e args Ha. act_next.
  intros request Hreq%(request_rep _ RqSigningStart); [|by intros [] ? [= <-]|done]. destruct Hreq as [Ht Hb].
  act_next; intros _ _. eapply act_bind with (R := fun _ => True).
  { destruct (marshal _); [by apply act_ret|apply act_fail]. }
  intros src _. act_next. intros p Hp. act_next. intros c (_ & _ & _ & Hu & He). act_next. intros dc [Hdq Hdt].
  pose proof (quorum_rep_ordered dp_rep dp_set_id _ (fun _ _ H => H) Hdq) as [Hdq' Hl].
  destruct (GetOrdered dp_set_id _) as [dq l]. cbv zeta.
  assert (quorum_rep np_rep (Some (foldl (add_signer request) ∅ l))) as Hq.
  { apply add_signers_rep; [done..|apply map_Forall_empty]. }
  pose proof (quorum_rep_ordered np_rep np_set_id _ (fun _ _ H => H) Hq) as [Hq' _].
  destruct (GetOrdered np_set_id _) as [q ps]. act_next; [|intros _ _; by apply act_ret].
  apply payload_rep_signing; [by apply payload_rep_dkg|]. by split_and!.
Qed.

Lemma add_partial_signs_rep l m m' :
  Forall (fun s => text (ps_MessageID s)) l → keys_rep m → foldM add_partial_sign m l = Ret m' → keys_rep m'.
Proof.
  intros Hl. induction Hl as [|s l Hs _ IH] in m |- *; intros Hm H; [by injection H as <-|].
  cbn [foldM] in H. unfold add_partial_sign at 1 in H. destruct m as [m|]; [|done]. cbn in H.
  eapply IH, H. by apply map_Forall_insert_2.
Qed.

Lemma partial_sign_rep : action_rep actionPartialSignConfirmationReceived.
Proof.
  apply action_rep_intro. intros e args Ha. act_next.
  intros request Hreq%(request_rep _ RqPartialSigns); [|by intros [] ? [= <-]|done]. destruct Hreq as [Ht Hm].
  act_next; intros _ _. act_next. intros p Hp. act_next; intros ? _. act_next; intros _ _.
  act_next. intros [p1 o] [Hp1 Ho]. act_next; [done|]. intros _ _. act_next. intros x (Hu & Hs & He & _).
  act_next; intros _ _. eapply act_bind with (R := keys_rep).
  { apply act_lift. intros signs Hf. by eapply add_partial_signs_rep. }
  intros signs Hsigns. act_next; [done|by split_and!|]. intros p2 Hp2. act_next; [done..|]. intros p3 Hp3.
  act_next; [done|]. intros _ _. by apply act_ret.
Qed.

Lemma validate_signing_rep : action_rep actionValidateSigningPartialSignsAwaitConfirmations.
Proof.
  apply action_rep_intro. intros e args Ha. act_next. intros p Hp. act_next. intros c (Hb & Hc & Hts).
  destruct (SigningConfirmation_IsExpired c); [by apply act_ret|]. act_next. intros n _.
  destruct (foldl _ _ _) as [f u]. destruct (_ <? f); [by apply act_ret|]. destruct (_ <? u); [by apply act_ret|].
  cbv zeta.
  pose proof (quorum_rep_fmap np_rep (np_set_status SigningProcess) (nc_Quorum c) (fun _ H => H) Hc) as Hq.
  pose proof (quorum_rep_ordered np_rep np_set_id _ (fun _ _ H => H) Hq) as [Hq' _].
  destruct (GetOrdered np_set_id _) as [q l]. act_next; [|intros _ _; by apply act_ret].
  by apply payload_rep_signing.
Qed.

Lemma signing_error_rep : action_rep SigningProposal.actionConfirmationError.
Proof.
  apply action_rep_intro. intros e args Ha. act_next.
  intros request Hreq%(request_rep _ RqSignatureError); [|by intros [] ? [= <-]|done]. destruct Hreq as [Ht He].
  act_next; intros _ _. act_next. intros p Hp. act_next; intros ? _. act_next; intros _ _.
  act_next. intros [p1 o] [Hp1 Ho]. act_next; [done|]. intros _ _. act_next. intros x (Hu & Hs & _).
  destruct (signing_error _ _); [|by apply act_ret].
  act_next; [done|by split_and!|]. intros p2 Hp2. act_next; [done..|]. intros p3 Hp3.
  act_next; [done|]. intros _ _. by apply act_ret.
Qed.

Lemma restart_rep : action_rep actionSigningRestart.
Proof. apply action_rep_intro. intros e args Ha. by apply act_ret. Qed.

Lemma signing_callbacks_rep : Forall (fun ec => action_rep ec.2) SigningProposal.callbacks.
Proof.
  repeat constructor; cbn [snd];
    first [apply init_signing_rep | apply start_signing_rep | apply partial_sign_rep | apply validate_signing_rep
          | apply signing_error_rep | apply restart_rep].
Qed.
End signing.

(** ** Instances *)

#[local] Opaque SignatureProposal.New DkgProposal.New SigningProposal.New.

Section instances.
Context {ord : MapOrder} {json_tasks : JSON (list SigningTask)} {json_dump : JSON FSMDump}
  {json_spec : JSONSpec FSMDump} {json_dumps : JSON (gomap string bytes)} {jmap : JSONMap bytes}.

(** What [encoding/json] promises of dumps and of the map that holds them. *)
Definition dumps_faithful : Prop :=
  (∀ d, representable d → encodable d) ∧ ∀ id b, text id → entry_fits id b.

Lemma stage_callbacks_rep st : Forall (fun ec => action_rep ec.2) (stage_callbacks st).
Proof.
  destruct st; cbn [stage_callbacks];
    [apply signature_callbacks_rep | apply dkg_callbacks_rep | apply signing_callbacks_rep].
Qed.

(** The names of the states are text. *)
Lemma texts_spec (l : list State) s : forallb valid_text l = true → s ∈ l → text s.
Proof. rewrite forallb_forall. intros Hl Hs%list_elem_of_In. by apply Hl. Qed.

Lemma stage_state_text st p s : stage_inv st p s → text s.
Proof.
  destruct st; cbn [stage_inv].
  - intros [Hs|Hs]%sig_inv_states; revert Hs; apply texts_spec; vm_compute; reflexivity.
  - intros [Hs|Hs]%dkg_inv_states; revert Hs; apply texts_spec; vm_compute; reflexivity.
  - intros Hs%signing_inv_states. revert Hs. apply texts_spec. vm_compute. reflexivity.
Qed.

(** A reachable instance whose dump JSON takes. *)
Definition kept (i : FSMInstance) : Prop := reachable i ∧ ∀ d, dump i = Some d → representable d.

Lemma kept_dump i : kept i → ∃ d, dump i = Some d ∧ representable d.
Proof. intros [(_ & _ & d & _ & _ & Hd & _)%reachable_inst_ok Hr]. eauto. Qed.

(** An event that is accepted. *)
Lemma kept_do i e args i' resp b :
  kept i → Forall representable_request args → FSMInstance_Do i e args = Ret (i', (resp, b, None)) → kept i'.
Proof.
  intros [Hre Hrep] Ha HDo. split; [by eapply reach_do|]. intros d' Hd'.
  pose proof (reachable_inst_ok i Hre) as Hi. pose proof (do_inst_ok i e args i' resp b Hi HDo) as Hi'.
  destruct Hi' as (st' & m' & d1 & p1 & _ & Hd1 & Hp1 & _ & Hinv). rewrite Hd1 in Hd'. injection Hd' as ->.
  destruct (inst_Do i e args Hi) as (st & f & d & p & _ & _ & Hd & Hp & _ & Heq). rewrite Heq in HDo.
  destruct (Hrep d Hd) as (Hid & _ & Hpay).
  destruct (spec_do _ _ _ _ _ _) as [[[s' p'] [r err]]|] eqn:Hspec; [|done]. cbn in HDo.
  injection HDo as <- _ _ _. cbn in Hd1. injection Hd1 as <-. split; [exact Hid|].
  split; [by eapply stage_state_text|]. cbn [dump_Payload].
  refine (spec_do_keeps (oall payload_rep) representable_request _ _ (stage_callbacks_rep st) _ _ _ _ _ _ _ Ha _ Hspec).
  by rewrite Hp in Hpay.
Qed.

(** A new round. *)
Lemma kept_create id i : text id → Create id = Ret (inl i) → kept i.
Proof.
  intros Hid Hc. split; [by eapply reach_create|]. intros d Hd.
  destruct (decide (TrimSpace id = "")) as [He|Hne]; [by rewrite (Create_empty _ He) in Hc|].
  destruct (Create_ok id Hne) as (m & _ & Hc'). rewrite Hc' in Hc. injection Hc as <-. cbn in Hd. injection Hd as <-.
  assert (text (TrimSpace id)) by by apply TrimSpace_text. split; [done|]. split; [done|]. by constructor.
Qed.

Context (Hfaithful : dumps_faithful).

(** A round that is loaded from the dump it was saved as. *)
Lemma kept_reload i b i' : kept i → FSMInstance_Dump i = inl b → FromDump b = Ret (inl i') → kept i'.
Proof using Hfaithful.
  intros Hk Hb Hf. destruct (kept_dump i Hk) as (d & Hd & Hr). destruct Hk as [Hre _].
  pose proof (proj1 Hfaithful d Hr) as Henc. split; [by eapply reach_reload|].
  destruct (reload_inst_ok i d b i' (reachable_inst_ok i Hre) Hd Henc Hb Hf) as [_ ->]. by intros ? [= <-].
Qed.

(** The dumps [m] are those of kept instances. *)
Definition rounds_kept (m : gmap string bytes) : Prop :=
  ∀ id b, m !! id = Some b → ∃ i, kept i ∧ FSMInstance_Dump i = inl b.

Lemma rounds_kept_insert m id i b :
  rounds_kept m → kept i → FSMInstance_Dump i = inl b → rounds_kept (<[id := b]> m).
Proof. intros Hm Hi Hb id' b' [[<- <-]|[_ Hb']]%lookup_insert_Some; [eauto|by eapply Hm]. Qed.

Lemma rounds_kept_load m id b i : rounds_kept m → m !! id = Some b → FromDump b = Ret (inl i) → kept i.
Proof using Hfaithful. intros Hm Hb Hf. destruct (Hm id b Hb) as (i0 & Hk & Hd). by eapply kept_reload. Qed.
End instances.

(** ** Messages *)

(** A message whose round and request JSON takes. *)
Definition representable_message `{!RequestsJSON} (m : Message) : Prop :=
  text (msg_DkgRoundID m) ∧ ∀ r, FSMRequestFromMessage m = inl r → representable_request r.
