(* ===== verification/Outcomes.v ===== *)
(** * What single events do

    The result of an event at a reachable instance, for the events that decide
    a stage: replies to a proposal, master keys, partial signatures; and what a
    message of the bulletin board can make a machine do. *)

From S2P Require Import Prelude GoFsm Requests Payload FsmPool.
From S2P Require Import SignatureProposal DkgProposal SigningProposal StateMachines Protocol.
From S2P Require Import LevelState ClientTypes Samples.

Section outcomes.
Context {ord : MapOrder} {json_tasks : JSON (list SigningTask)} {json_dump : JSON FSMDump}
  {json_spec : JSONSpec FSMDump}.

(** ** Instances within a stage *)

(** The states in which only the machine of the stage runs. *)
Definition inner_states (st : Stage) : list State :=
  match st with
  | Sig => [StateParticipantsConfirmationsInit; StateAwaitParticipantsConfirmations]
  | Dkg =>
      [StateDkgCommitsAwaitConfirmations; StateDkgDealsAwaitConfirmations;
       StateDkgResponsesAwaitConfirmations; StateDkgMasterKeyAwaitConfirmations]
  | Signing => [StateSigningIdle; StateSigningAwaitPartialSigns; StateSigningPartialSignsCollected]
  end.

(** Every state the machine of a stage can be in. *)
Definition all_states (st : Stage) : list State :=
  stage_states st ++
  match st with
  | Sig => [StateValidationCanceledByParticipant; StateValidationCanceledByTimeout; StateDkgInitial]
  | Dkg => [StateDkgCommitsAwaitCanceledByTimeout; StateDkgDealsAwaitCanceledByTimeout;
            StateDkgResponsesAwaitCanceledByTimeout; StateDkgMasterKeyAwaitCanceledByTimeout;
            StateSigningInitial]
  | Signing => []
  end.

Lemma stage_inv_all_states st p s : stage_inv st p s → s ∈ all_states st.
Proof.
  unfold all_states. destruct st; cbn [stage_inv]; rewrite elem_of_app.
  - apply sig_inv_states.
  - apply dkg_inv_states.
  - intros H%signing_inv_states. by left.
Qed.

Lemma inner_stage st st' p s : s ∈ inner_states st → stage_inv st' p s → st' = st.
Proof.
  intros Hs Hi%stage_inv_all_states.
  destruct st, st'; try reflexivity; exfalso; refine (disjointb_spec _ _ s _ Hs Hi); by vm_compute.
Qed.

(** An instance in a state of a stage answers as the stage's step function. *)
Lemma inst_Do_in st i d p e args :
  reachable i → dump i = Some d → dump_Payload d = Some p → dump_State d ∈ inner_states st →
  stage_inv st p (dump_State d) ∧ ∃ f, stage_New st = Ret f ∧
    FSMInstance_Do i e args =
      ('(s', p', (resp, err)) ←
         spec_do (stage_events st) (stage_callbacks st) (dump_State d) e args (Some p);
       let d' := mk_FSMDump (TransactionId d)
                   (match resp with Some r => rs_State r | None => dump_State d end) p' in
       Ret (mk_FSMInstance (Some (with_state f s')) (Some d'),
            (resp, match resp with Some _ => default "" (FSMDump_Marshal d') | None => "" end, err))).
Proof.
  intros Hre Hd Hp Hs.
  destruct (inst_Do i e args (reachable_inst_ok _ Hre)) as (st0 & f & d0 & p0 & Hf & _ & Hd0 & Hp0 & Hinv & HDo).
  assert (d0 = d) as -> by congruence. assert (p0 = p) as -> by congruence.
  pose proof (inner_stage _ _ _ _ Hs Hinv) as ->. split; [exact Hinv|]. exists f. split; [exact Hf|exact HDo].
Qed.

(** A step of the stage is an event of the instance. *)
Lemma inst_step st i d p e args s' p' resp :
  reachable i → dump i = Some d → dump_Payload d = Some p → dump_State d ∈ inner_states st →
  spec_do (stage_events st) (stage_callbacks st) (dump_State d) e args (Some p) =
    Ret (s', Some p', (Some resp, None)) →
  ∃ i' b, FSMInstance_Do i e args = Ret (i', (Some resp, b, None)) ∧ rs_State resp = s' ∧
    FSMInstance_State i' = inl s' ∧ dump i' = Some (mk_FSMDump (TransactionId d) s' (Some p')).
Proof.
  intros Hre Hd Hp Hs Hstep. destruct (inst_Do_in st i d p e args Hre Hd Hp Hs) as (_ & f & _ & HDo).
  rewrite Hstep in HDo. cbn [mbind Go_bind] in HDo. cbv zeta in HDo.
  destruct (spec_do_response _ _ _ _ _ _ _ _ _ Hstep) as (r & Hr & Hst). injection Hr as <-.
  do 2 eexists. split; [exact HDo|]. rewrite Hst. done.
Qed.

(** An event whose callback refuses leaves state and payload as they are. *)
Lemma inst_refused st i d p e args :
  reachable i → dump i = Some d → dump_Payload d = Some p → dump_State d ∈ inner_states st →
  args_present args →
  (∀ s' p' resp, spec_do (stage_events st) (stage_callbacks st) (dump_State d) e args (Some p) ≠
     Ret (s', p', (resp, None))) →
  ∃ i' resp b err, FSMInstance_Do i e args = Ret (i', (resp, b, Some err)) ∧
    FSMInstance_State i' = inl (dump_State d) ∧
    ∃ d', dump i' = Some d' ∧ same_payload (dump_Payload d') (Some p).
Proof.
  intros Hre Hd Hp Hs Hargs Hno. destruct (inst_Do_in st i d p e args Hre Hd Hp Hs) as (Hinv & f & _ & HDo).
  destruct (stage_progress st _ p e args Hinv Hargs) as (s' & p' & resp & [err|] & Hstep & Hcase);
    [|by destruct (Hno s' p' resp)].
  destruct Hcase as [-> Hsame]. rewrite Hstep in HDo. cbn [mbind Go_bind] in HDo. cbv zeta in HDo.
  do 4 eexists. split; [exact HDo|]. split; [reflexivity|]. eexists. split; [reflexivity|]. exact Hsame.
Qed.

(** ** Replies to a proposal *)

(** A valid reply of a participant that is still awaited, in time. *)
Record timely (r : SignatureProposalParticipantRequest) (x : SignatureProposalParticipant) : Prop := {
  ti_valid : SignatureProposalParticipantRequest_Validate r = None;
  ti_awaited : sgp_Status x = SigConfirmationAwaitConfirmation;
  ti_in_time : late_reply r x = false
}.

Lemma actionResponse_ok e r p c q x status :
  pay_SignatureProposalPayload p = Some c → sc_Quorum c = Some q → q !! pr_ParticipantId r = Some x →
  timely r x → reply_status e = Some status →
  actionProposalResponseByParticipant e [RqParticipant r] (Some p) =
    Ret (Some (replied r status x c q p), ("", None, None)).
Proof.
  intros Hc Hq Hx [Hv Ha Hl] He. unfold actionProposalResponseByParticipant, payload, set_payload,
    SigQuorumExists, SigQuorumGet, SigQuorumUpdate. act_run.
  rewrite Hv. simpl. rewrite Hc. simpl. rewrite Hq. simpl. rewrite Hx. simpl.
  unfold late_reply in Hl. rewrite Hl. rewrite Ha. simpl. unfold reply_status in He.
  destruct (e =s? EventConfirmSignatureProposal); simplify_eq/=; [done|].
  destruct (e =s? EventDeclineProposal); by simplify_eq/=.
Qed.

(** The confirmation and the quorum after a reply. *)
Definition replied_quorum (r : SignatureProposalParticipantRequest) status x
    (q : gmap Z SignatureProposalParticipant) :=
  <[pr_ParticipantId r := sgp_set_status status (pr_CreatedAt r) x]> q.

Lemma reply_step e r p c q x status :
  pay_SignatureProposalPayload p = Some c → sc_Quorum c = Some q → q !! pr_ParticipantId r = Some x →
  timely r x → reply_status e = Some status →
  ∃ d, spec_do SignatureProposal.events SignatureProposal.callbacks StateAwaitParticipantsConfirmations e
      [RqParticipant r] (Some p) =
    Ret (sig_outcome (sc_set_updated (pr_CreatedAt r) c) (replied_quorum r status x q),
         Some (replied r status x c q p),
         (Some (mk_Response (sig_outcome (sc_set_updated (pr_CreatedAt r) c) (replied_quorum r status x q)) d),
          None)).
Proof.
  intros Hc Hq Hx Ht He. pose proof (actionResponse_ok e r p c q x status Hc Hq Hx Ht He) as Ha.
  destruct (spec_auto_await [RqParticipant r] (replied r status x c q p) _ _ None eq_refl eq_refl)
    as (d & Hauto & _). exists d. unfold StateAwaitParticipantsConfirmations in Hauto.
  assert (e = EventConfirmSignatureProposal ∨ e = EventDeclineProposal) as [-> | ->].
  { unfold reply_status in He. destruct (e =s? EventConfirmSignatureProposal) eqn:H1; boolify; [by left|].
    destruct (e =s? EventDeclineProposal) eqn:H2; boolify; [by right|done]. }
  all: unfold spec_do; table_goal; rewrite ?call_confirm, ?call_decline, Ha; simpl;
    unfold finish; table_goal; rewrite Hauto; reflexivity.
Qed.

(** A timely reply to a proposal is counted: the participant is marked as
    the event says, and the round moves to the state that the tally decides:
    cancelled if the reply is past the proposal's expiry or someone declined,
    collected if everybody has confirmed, and waiting otherwise. *)
Theorem proposal_reply_outcome i d p c q x r e status :
  reachable i → dump i = Some d → dump_Payload d = Some p →
  dump_State d = StateAwaitParticipantsConfirmations →
  pay_SignatureProposalPayload p = Some c → sc_Quorum c = Some q → q !! pr_ParticipantId r = Some x →
  timely r x → reply_status e = Some status →
  ∃ i' resp b, FSMInstance_Do i e [RqParticipant r] = Ret (i', (Some resp, b, None)) ∧
    dump i' = Some (mk_FSMDump (TransactionId d) (rs_State resp) (Some (replied r status x c q p))) ∧
    rs_State resp =
      if sc_ExpiresAt c <? pr_CreatedAt r then StateValidationCanceledByTimeout
      else if qexists is_declined (replied_quorum r status x q) then StateValidationCanceledByParticipant
      else if qcount is_confirmed (replied_quorum r status x q) <? Z.of_nat (size q)
      then StateAwaitParticipantsConfirmations else StateSignatureProposalCollected.
Proof.
  intros Hre Hd Hp Hs Hc Hq Hx Ht He. destruct (reply_step e r p c q x status Hc Hq Hx Ht He) as [data Hstep].
  assert (dump_State d ∈ inner_states Sig) as Hin by (rewrite Hs; by right; left).
  rewrite <-Hs in Hstep.
  destruct (inst_step Sig i d p e _ _ _ _ Hre Hd Hp Hin Hstep) as (i' & b & HDo & Hst & _ & Hd').
  do 3 eexists. split; [exact HDo|]. split; [exact Hd'|]. cbn [rs_State]. unfold sig_outcome.
  unfold SignatureConfirmation_IsExpired, Before. cbn [sc_ExpiresAt sc_UpdatedAt sc_set_updated].
  unfold replied_quorum. by rewrite map_size_insert_Some by eauto.
Qed.

(** A participant answers once: a second reply, confirming or declining,
    is refused while it is in time, and changes nothing. *)
Theorem proposal_reply_once i d p c q x r e :
  reachable i → dump i = Some d → dump_Payload d = Some p →
  dump_State d = StateAwaitParticipantsConfirmations →
  pay_SignatureProposalPayload p = Some c → sc_Quorum c = Some q → q !! pr_ParticipantId r = Some x →
  sgp_Status x ≠ SigConfirmationAwaitConfirmation → late_reply r x = false →
  ∃ i' resp b err, FSMInstance_Do i e [RqParticipant r] = Ret (i', (resp, b, Some err)) ∧
    FSMInstance_State i' = inl (dump_State d) ∧
    ∃ d', dump i' = Some d' ∧ same_payload (dump_Payload d') (Some p).
Proof.
  intros Hre Hd Hp Hs Hc Hq Hx Hst Hl. apply (inst_refused Sig); [done..| |by intros ? ?|].
  { rewrite Hs. by right; left. }
  rewrite Hs. intros s' p' resp (de & o & out & data & Hde & Hi & Hcall & _)%spec_do_accepted.
  cbn [stage_events stage_callbacks] in *. desc_cases Hde; try discriminate Hi.
  - rewrite call_confirm in Hcall. apply actionResponse_inv in Hcall
      as (r' & c' & q' & x' & [= <-] & _ & Hc' & Hq' & Hx' & _ & [[Hl' _]|[_ [Ha' _]]]); congruence.
  - rewrite call_decline in Hcall. apply actionResponse_inv in Hcall
      as (r' & c' & q' & x' & [= <-] & _ & Hc' & Hq' & Hx' & _ & [[Hl' _]|[_ [Ha' _]]]); congruence.
Qed.

(** ** A proposal that everybody confirms *)

Definition answered (x : SignatureProposalParticipant) : Prop :=
  sgp_Status x = SigConfirmationAwaitConfirmation ∨ sgp_Status x = SigConfirmationConfirmed.

Lemma answered_not_declined q : map_Forall (fun _ x => answered x) q → qexists is_declined q = false.
Proof.
  intros Hall. apply qexists_false. intros k x Hx. unfold is_declined.
  destruct (Hall k x Hx) as [-> | ->]; done.
Qed.

Lemma outcome_await c q id x :
  SignatureConfirmation_IsExpired c = false → map_Forall (fun _ x => answered x) q →
  q !! id = Some x → sgp_Status x = SigConfirmationAwaitConfirmation →
  sig_outcome c q = StateAwaitParticipantsConfirmations.
Proof.
  intros He Hall Hx Hs. unfold sig_outcome. rewrite He, (answered_not_declined q Hall).
  destruct (Z.ltb_spec (qcount is_confirmed q) (Z.of_nat (size q))) as [|Hge]; [done|].
  exfalso. pose proof (qcount_bounds is_confirmed q).
  assert (qcount is_confirmed q = Z.of_nat (size q)) as Heq by lia.
  apply qcount_all in Heq. specialize (Heq id x Hx). unfold is_confirmed in Heq. simpl in Heq.
  by rewrite Hs in Heq.
Qed.

Lemma outcome_collected c q :
  SignatureConfirmation_IsExpired c = false →
  map_Forall (fun _ x => sgp_Status x = SigConfirmationConfirmed) q →
  sig_outcome c q = StateSignatureProposalCollected.
Proof.
  intros He Hall. unfold sig_outcome. rewrite He, answered_not_declined.
  - rewrite (proj2 (qcount_all is_confirmed q)); [by rewrite Z.ltb_irrefl|].
    intros k x Hx. unfold is_confirmed. by rewrite (Hall k x Hx).
  - intros k x Hx. right. by apply (Hall k x).
Qed.

(** The remaining replies: one from every awaited participant, in time. *)
Record remaining (c : SignatureConfirmation) (q : gmap Z SignatureProposalParticipant)
    (rs : list SignatureProposalParticipantRequest) : Prop := {
  re_once : NoDup (pr_ParticipantId <$> rs);
  re_awaited id : id ∈ pr_ParticipantId <$> rs ↔
    ∃ x, q !! id = Some x ∧ sgp_Status x = SigConfirmationAwaitConfirmation;
  re_timely r : r ∈ rs → SignatureProposalParticipantRequest_Validate r = None ∧
    pr_CreatedAt r ≤ sc_ExpiresAt c ∧
    ∀ x, q !! pr_ParticipantId r = Some x → late_reply r x = false
}.

Lemma remaining_step c q r rs x :
  remaining c q (r :: rs) → q !! pr_ParticipantId r = Some x →
  remaining (sc_set_quorum (Some (replied_quorum r SigConfirmationConfirmed x q))
               (sc_set_updated (pr_CreatedAt r) c))
    (replied_quorum r SigConfirmationConfirmed x q) rs.
Proof.
  intros [Hnd Haw Ht] Hx. apply NoDup_cons in Hnd as [Hr Hnd]. split; [done| |].
  - intros id. unfold replied_quorum. split.
    + intros Hid. assert (pr_ParticipantId r ≠ id) by by intros <-.
      rewrite lookup_insert_ne by done. apply Haw. by right.
    + intros (y & Hy & Hs). apply lookup_insert_Some in Hy as [[<- <-]|[Hne Hy]]; [done|].
      assert (id ∈ pr_ParticipantId <$> r :: rs) as Hin by (apply Haw; eauto).
      apply elem_of_cons in Hin as [->|?]; [done|done].
  - intros r' Hr'. destruct (Ht r') as (Hv & He & Hl); [by right|]. split; [done|]. split; [done|].
    intros y. unfold replied_quorum. rewrite lookup_insert_ne; [apply Hl|].
    intros Heq. apply Hr. rewrite Heq. by apply list_elem_of_fmap_2.
Qed.

Definition confirm_all (rs : list SignatureProposalParticipantRequest) : list (Event * list Request) :=
  (fun r => (EventConfirmSignatureProposal, [RqParticipant r])) <$> rs.

Lemma confirm_all_run rs p c q :
  rs ≠ [] → pay_SignatureProposalPayload p = Some c → sc_Quorum c = Some q →
  map_Forall (fun _ x => answered x) q → remaining c q rs →
  ∃ p', run_stage Sig StateAwaitParticipantsConfirmations p (confirm_all rs) =
    Some (StateSignatureProposalCollected, p').
Proof.
  induction rs as [|r rs IH] in p, c, q |- *; intros Hne Hc Hq Hall Hrem; [done|].
  destruct (proj1 (re_awaited _ _ _ Hrem (pr_ParticipantId r))) as (x & Hx & Hs); [by left|].
  destruct (re_timely _ _ _ Hrem r) as (Hv & He & Hl); [by left|].
  destruct (reply_step EventConfirmSignatureProposal r p c q x SigConfirmationConfirmed Hc Hq Hx)
    as [data Hstep]; [split; [done|done|by apply Hl]|done|].
  pose proof (remaining_step c q r rs x Hrem Hx) as Hrem'.
  assert (map_Forall (fun _ x => answered x) (replied_quorum r SigConfirmationConfirmed x q)) as Hall'.
  { apply map_Forall_insert_2; [by right|done]. }
  assert (SignatureConfirmation_IsExpired (sc_set_updated (pr_CreatedAt r) c) = false) as Hexp.
  { unfold SignatureConfirmation_IsExpired, Before. simpl. apply Z.ltb_ge. lia. }
  unfold confirm_all. cbn [fmap list_fmap run_stage stage_events stage_callbacks]. rewrite Hstep.
  destruct rs as [|r2 rs].
  - rewrite outcome_collected; [by eexists|done|]. intros k y Hy.
    destruct (Hall' k y Hy) as [Hw|]; [|done]. exfalso.
    apply (not_elem_of_nil k), (re_awaited _ _ _ Hrem'). eauto.
  - destruct (proj1 (re_awaited _ _ _ Hrem' (pr_ParticipantId r2))) as (y & Hy & Hys); [by left|].
    rewrite (outcome_await _ _ _ _ Hexp Hall' Hy Hys).
    refine (IH (replied r SigConfirmationConfirmed x c q p) _ _ _ eq_refl eq_refl Hall' Hrem').
    discriminate.
Qed.

(** C18. A proposal completes: when every participant that has not answered yet
    confirms in time, in whatever order, every confirmation is accepted and the
    last one moves the round to the collected state. *)
Theorem confirmed_proposal_completes i d p c q rs :
  reachable i → dump i = Some d → dump_Payload d = Some p →
  dump_State d = StateAwaitParticipantsConfirmations →
  pay_SignatureProposalPayload p = Some c → sc_Quorum c = Some q → remaining c q rs →
  ∃ i' p', run_stage Sig StateAwaitParticipantsConfirmations p (confirm_all rs) =
      Some (StateSignatureProposalCollected, p') ∧ reachable i' ∧
    dump i' = Some (mk_FSMDump (TransactionId d) StateSignatureProposalCollected (Some p')).
Proof.
  intros Hre Hd Hp Hs Hc Hq Hrem.
  assert (dump_State d ∈ inner_states Sig) as Hin by (rewrite Hs; by right; left).
  destruct (reachable_inst_ok _ Hre) as (st & m & d0 & p0 & Hm & Hd0 & Hp0 & Hr & Hinv).
  assert (d0 = d) as -> by congruence. assert (p0 = p) as -> by congruence.
  pose proof (inner_stage _ _ _ _ Hin Hinv) as ->. rewrite Hs in Hr, Hinv. cbn [stage_inv] in Hinv.
  assert (∃ q', sig_ok p q' ∧ map_Forall (fun _ x => answered x) q' ∧
    qcount is_confirmed q' < Z.of_nat (size q')) as (q' & Hok & Hall & Hlt).
  { inversion Hinv as [|q' ? ? ? ?| | |]; simplify_eq. by exists q'. }
  assert (q' = q) as ->.
  { pose proof (so_quorum _ _ Hok) as Hso. rewrite Hc in Hso. simpl in Hso. congruence. }
  assert (rs ≠ []) as Hne.
  { intros ->. assert (qcount is_confirmed q = Z.of_nat (size q)); [|lia]. apply qcount_all.
    intros k x Hx. unfold is_confirmed. destruct (Hall k x Hx) as [Hw|Hw]; [|by rewrite Hw].
    exfalso. apply (not_elem_of_nil k), (re_awaited _ _ _ Hrem). eauto. }
  destruct (confirm_all_run rs p c q Hne Hc Hq Hall Hrem) as [p' Hrun].
  assert (at_stage i Sig (TransactionId d) StateAwaitParticipantsConfirmations p) as Hat.
  { exists m. split; [exact Hm|]. split; [exact Hr|]. rewrite Hd. destruct d; cbn in *. congruence. }
  destruct (run_stage_reachable _ _ _ _ _ _ _ _ Hre Hat Hinv Hrun) as (i' & Hre' & (m' & _ & _ & Hd') & _).
  exists i', p'. split; [exact Hrun|]. split; [exact Hre'|exact Hd'].
Qed.

(** ** Master keys *)

Lemma confirmationReceived_ok {R} cast (validate : R → option error) get_id get_time await confirmed
    store touch m1 m2 m3 e a r p c q x :
  cast a = Some r → validate r = None → pay_DKGProposalPayload p = Some c → dc_Quorum c = Some q →
  q !! get_id r = Some x → dp_Status x = await → dc_Quorum (touch r c) = Some q →
  confirmationReceived cast validate get_id get_time await confirmed store touch m1 m2 m3 e [a] (Some p) =
    Ret (Some (pay_set_dkg (dc_set_quorum (Some (<[get_id r :=
           received_participant get_time confirmed store r x]> q)) (touch r c)) p), ("", None, None)).
Proof.
  intros Hcast Hv Hc Hq Hx Hs Ht. unfold confirmationReceived, payload, set_payload, DKGQuorumExists,
    DKGQuorumGet, DKGQuorumUpdate. act_run. rewrite Hcast. simpl. rewrite Hv. simpl. rewrite Hc. simpl. rewrite Hq. simpl.
  rewrite Hx. simpl. rewrite bool_decide_eq_true_2 by done. simpl. rewrite Ht. done.
Qed.

(** The quorum and the confirmation with one more master key. *)
Definition key_received (r : DKGProposalMasterKeyConfirmationRequest) x
    (q : gmap Z DKGProposalParticipant) : gmap Z DKGProposalParticipant :=
  <[mr_ParticipantId r := received_participant mr_CreatedAt MasterKeyConfirmed
      (fun r => dp_set_masterkey (mr_MasterKey r)) r x]> q.
Definition key_conf (r : DKGProposalMasterKeyConfirmationRequest) (c : DKGConfirmation)
    (q : gmap Z DKGProposalParticipant) : DKGConfirmation :=
  dc_set_quorum (Some q) (dc_set_pubpoly (mr_PubPolyBz r) (dc_set_updated (mr_CreatedAt r) c)).

(** Where a round goes with a master key, and what becomes of the quorum. *)
Definition key_outcome (r : DKGProposalMasterKeyConfirmationRequest) (c : DKGConfirmation)
    (q : gmap Z DKGProposalParticipant) : State * gmap Z DKGProposalParticipant :=
  if dc_ExpiresAt c <? mr_CreatedAt r then (StateDkgMasterKeyAwaitCanceledByTimeout, q)
  else if keys_differ q then (StateDkgMasterKeyAwaitCanceledByError, mark_mismatch <$> q)
  else if qcount (has_status MasterKeyConfirmed) q <? Z.of_nat (size q)
  then (StateDkgMasterKeyAwaitConfirmations, q)
  else (StateDkgMasterKeyCollected, dp_set_status MasterKeyConfirmed <$> q).

Lemma masterkey_step p c q x r :
  dkg_inv p StateDkgMasterKeyAwaitConfirmations →
  pay_DKGProposalPayload p = Some c → dc_Quorum c = Some q → q !! mr_ParticipantId r = Some x →
  DKGProposalMasterKeyConfirmationRequest_Validate r = None → dp_Status x = MasterKeyAwaitConfirmation →
  ∃ d, spec_do DkgProposal.events DkgProposal.callbacks StateDkgMasterKeyAwaitConfirmations
      EventDKGMasterKeyConfirmationReceived [RqMasterKey r] (Some p) =
    Ret ((key_outcome r c (key_received r x q)).1,
         Some (pay_set_dkg (key_conf r c (key_outcome r c (key_received r x q)).2) p),
         (Some (mk_Response (key_outcome r c (key_received r x q)).1 d), None)).
Proof.
  intros Hinv Hc Hq Hx Hv Hs. unfold spec_do. table_goal.
  change (call DkgProposal.callbacks EventDKGMasterKeyConfirmationReceived) with
    (actionMasterKeyConfirmationReceived EventDKGMasterKeyConfirmationReceived).
  unfold actionMasterKeyConfirmationReceived.
  rewrite (confirmationReceived_ok _ _ _ _ _ _ _ _ _ _ _ _ _ r p c q x) by done.
  fold (key_received r x q). cbn [mbind Go_bind].
  unfold finish. table_goal. unfold spec_auto. table_goal.
  change (call DkgProposal.callbacks _) with
    (actionValidateDkgProposalAwaitMasterKey eventAutoDKGValidateMasterKeyConfirmationInternal).
  rewrite (validateMasterKey_eq _ _ _ (key_conf r c (key_received r x q)) (key_received r x q)) by done.
  assert (qexists (has_status MasterKeyConfirmationError) (key_received r x q) = false) as ->.
  { assert (∃ q', phase_ok masterkeys p q') as [q' Hph] by (inversion Hinv; simplify_eq; eauto).
    destruct (phase_ok_quorum _ _ _ Hph) as (c' & Hc' & Hq'). assert (q' = q) as -> by congruence.
    pose proof (phase_ok_no_error masterkeys p q ltac:(done) ltac:(done) Hph) as Hne.
    apply qexists_false, map_Forall_insert_2; [done|]. by apply qexists_false in Hne. }
  unfold key_outcome, DKGConfirmation_IsExpired, Before. cbn [key_conf dc_set_quorum dc_set_pubpoly
    dc_set_updated dc_ExpiresAt dc_UpdatedAt].
  destruct (_ <? mr_CreatedAt r); [cbn beta iota; table_goal; by eexists|].
  destruct (keys_differ _); [cbn beta iota; table_goal; by eexists|].
  destruct (_ <? Z.of_nat _); cbn beta iota; table_goal; by eexists.
Qed.

(** C12. A valid master key of an awaited participant is compared with those
    already there: two different keys cancel the round and mark every
    participant with the mismatch; the last of equal keys completes the key
    generation; otherwise the round keeps waiting, unless the key comes after
    the expiry. *)
Theorem master_key_outcome i d p c q x r :
  reachable i → dump i = Some d → dump_Payload d = Some p →
  dump_State d = StateDkgMasterKeyAwaitConfirmations →
  pay_DKGProposalPayload p = Some c → dc_Quorum c = Some q → q !! mr_ParticipantId r = Some x →
  DKGProposalMasterKeyConfirmationRequest_Validate r = None → dp_Status x = MasterKeyAwaitConfirmation →
  ∃ i' resp b, FSMInstance_Do i EventDKGMasterKeyConfirmationReceived [RqMasterKey r] =
      Ret (i', (Some resp, b, None)) ∧
    rs_State resp = (key_outcome r c (key_received r x q)).1 ∧
    dump i' = Some (mk_FSMDump (TransactionId d) (rs_State resp)
      (Some (pay_set_dkg (key_conf r c (key_outcome r c (key_received r x q)).2) p))).
Proof.
  intros Hre Hd Hp Hs Hc Hq Hx Hv Hst.
  assert (dump_State d ∈ inner_states Dkg) as Hin by (rewrite Hs; by right; right; right; left).
  destruct (inst_Do_in Dkg i d p EventDKGMasterKeyConfirmationReceived [RqMasterKey r] Hre Hd Hp Hin) as [Hinv _].
  rewrite Hs in Hinv. destruct (masterkey_step p c q x r Hinv Hc Hq Hx Hv Hst) as [data Hstep].
  rewrite <-Hs in Hstep.
  destruct (inst_step Dkg i d p _ _ _ _ _ Hre Hd Hp Hin Hstep) as (i' & b & HDo & Hr & _ & Hd').
  do 3 eexists. split; [exact HDo|]. split; [exact Hr|]. rewrite Hr. exact Hd'.
Qed.

(** ** Partial signatures *)

(** The signatures of a request, over those already there: a later one of the
    same message replaces an earlier one. *)
Definition signs_received (r : SigningProposalBatchPartialSignRequests) (x : SigningProposalParticipant)
  : gmap string bytes :=
  foldl (fun m s => <[ps_MessageID s := ps_Sign s]> m) (default ∅ (np_PartialSigns x)) (bp_PartialSigns r).

(** The participant after its request. *)
Definition signer_received (r : SigningProposalBatchPartialSignRequests) (x : SigningProposalParticipant) :=
  np_set_updated (bp_CreatedAt r) (np_set_status SigningPartialSignsConfirmed
    (np_set_signs (Some (signs_received r x)) x)).

Lemma add_partial_signs_eq l m :
  foldM add_partial_sign (Some m) l = Ret (Some (foldl (fun m s => <[ps_MessageID s := ps_Sign s]> m) m l)).
Proof. induction l as [|s l IH] in m |- *; [done|]. apply IH. Qed.

Lemma actionPartialSign_ok e r p c q sc x :
  pay_SigningProposalPayload p = Some c → nc_Quorum c = Some q →
  pay_SignatureProposalPayload p = Some sc → q !! bp_ParticipantId r = Some x →
  SigningProposalBatchPartialSignRequests_Validate r = None → np_Status x = SigningAwaitPartialSigns →
  actionPartialSignConfirmationReceived e [RqPartialSigns r] (Some p) =
    Ret (Some (with_signer (bp_CreatedAt r) (bp_ParticipantId r) (signer_received r x) q c sc p),
         ("", None, None)).
Proof.
  intros Hc Hq Hsc Hx Hv Hs. unfold actionPartialSignConfirmationReceived, payload, set_payload,
    SigningQuorumExists, SigningQuorumGet, SigningQuorumUpdate, touch_signature. act_run.
  rewrite Hv. simpl. rewrite Hc. simpl. rewrite Hq. simpl. rewrite Hx. simpl.
  unfold signer_received, signs_received.
  destruct (np_PartialSigns x) as [m0|] eqn:Hm0; simpl; rewrite Hs; simpl.
  - rewrite Hm0, add_partial_signs_eq. simpl. rewrite Hc. simpl. by rewrite Hsc, Hq.
  - rewrite add_partial_signs_eq. simpl. rewrite Hsc.
    unfold with_signer, pay_set_signing, nc_set_quorum. simpl. by rewrite insert_insert_eq.
Qed.

(** The answer to a complete batch: the participants that have signed, in the
    order of their ids. *)
Definition batch_response (c : SigningConfirmation) (q : gmap Z SigningProposalParticipant) : RespData :=
  RdSigningProcess (mk_SigningProcessParticipantResponse (nc_BatchID c) (nc_SrcPayload c)
    (process_entry <$> filter (fun x => gomap_len (np_PartialSigns x) ≠ 0)
       (in_id_order np_set_id (np_set_status SigningProcess <$> q)))).

(** The step after a callback that changed the quorum to [q]. *)
Lemma signing_auto_outcome p c q args data :
  pay_SigningProposalPayload p = Some c → nc_Quorum c = Some q →
  qcount (has_signing_status SigningError) q ≤ Z.of_nat (size q) - pay_Threshold p →
  ∃ s' p' d, spec_auto SigningProposal.events SigningProposal.callbacks StateSigningAwaitPartialSigns args
      (Some p) data = Ret (s', Some p', (mk_Response s' d, None)) ∧
    s' = (if SigningConfirmation_IsExpired c then StateSigningPartialSignsAwaitCancelledByTimeout
          else if qcount (has_signing_status SigningPartialSignsConfirmed) q <? pay_Threshold p
          then StateSigningAwaitPartialSigns else StateSigningPartialSignsCollected) ∧
    (if decide (s' = StateSigningPartialSignsCollected) then d = Some (batch_response c q) else p' = p).
Proof.
  intros Hc Hq He. unfold spec_auto. table_goal.
  change (call SigningProposal.callbacks _) with (actionValidateSigningPartialSignsAwaitConfirmations
    eventAutoSigningValidatePartialSignInternal).
  rewrite (validateSigning_eq _ _ p c q) by assumption.
  destruct (SigningConfirmation_IsExpired c).
  { cbn beta iota. table_goal. do 3 eexists. split; [reflexivity|]. split; [reflexivity|]. by rewrite decide_False. }
  rewrite (proj2 (Z.ltb_ge _ _) He).
  destruct (_ <? pay_Threshold p); cbn beta iota; table_goal.
  - do 3 eexists. split; [reflexivity|]. split; [reflexivity|]. by rewrite decide_False.
  - do 3 eexists. split; [reflexivity|]. split; [reflexivity|]. by rewrite decide_True.
Qed.

(** C11. The valid partial signatures of an awaited participant are stored under
    their messages, over the ones it had, and the participant is counted; the
    one that makes the threshold completes the batch: the round is then
    collected, and the answer lists exactly the participants that have signed,
    the last one included, in the order of their ids, with their signatures.
    Before that the quorum is the old one with the participant's entry, unless
    the batch expired before the zero time. *)
Theorem partial_signature_outcome i d p c q x r :
  reachable i → dump i = Some d → dump_Payload d = Some p →
  dump_State d = StateSigningAwaitPartialSigns →
  pay_SigningProposalPayload p = Some c → nc_Quorum c = Some q → q !! bp_ParticipantId r = Some x →
  SigningProposalBatchPartialSignRequests_Validate r = None → np_Status x = SigningAwaitPartialSigns →
  let y := signer_received r x in
  ∃ i' resp b p', FSMInstance_Do i EventSigningPartialSignReceived [RqPartialSigns r] =
      Ret (i', (Some resp, b, None)) ∧
    np_Status y = SigningPartialSignsConfirmed ∧ np_PartialSigns y = Some (signs_received r x) ∧
    dump i' = Some (mk_FSMDump (TransactionId d) (rs_State resp) (Some p')) ∧
    rs_State resp =
      (if nc_ExpiresAt c <? 0 then StateSigningPartialSignsAwaitCancelledByTimeout
       else if qcount (has_signing_status SigningPartialSignsConfirmed) q + 1 <? pay_Threshold p
       then StateSigningAwaitPartialSigns else StateSigningPartialSignsCollected) ∧
    if decide (rs_State resp = StateSigningPartialSignsCollected)
    then rs_Data resp = Some (batch_response c (<[bp_ParticipantId r := y]> q))
    else pay_SigningProposalPayload p' = Some (nc_set_quorum (Some (<[bp_ParticipantId r := y]> q)) c).
Proof.
  intros Hre Hd Hp Hs Hc Hq Hx Hv Hst y.
  assert (dump_State d ∈ inner_states Signing) as Hin by (rewrite Hs; by right; left).
  destruct (inst_Do_in Signing i d p EventSigningPartialSignReceived [RqPartialSigns r] Hre Hd Hp Hin) as [Hinv _].
  rewrite Hs in Hinv. cbn [stage_inv] in Hinv.
  inversion Hinv as [| |sq dq key c' q' Hb Hq' _ _ [Hf _]| | |]; simplify_eq.
  pose proof (sb_conf _ _ _ _ _ Hb) as Hc'. assert (c' = c) as -> by congruence.
  assert (q' = q) as -> by congruence. destruct (signing_base_sig _ _ _ _ _ Hb) as [sc Hsc].
  assert (has_signing_status SigningError x = false ∧
          has_signing_status SigningPartialSignsConfirmed x = false) as [Hxe Hxs].
  { unfold has_signing_status. by rewrite Hst. }
  pose proof (actionPartialSign_ok EventSigningPartialSignReceived r p c q sc x Hc Hq Hsc Hx Hv Hst) as Ha.
  fold y in Ha.
  destruct (signing_auto_outcome (with_signer (bp_CreatedAt r) (bp_ParticipantId r) y q c sc p)
    (nc_set_quorum (Some (<[bp_ParticipantId r := y]> q)) c) (<[bp_ParticipantId r := y]> q)
    [RqPartialSigns r] None eq_refl eq_refl) as (s' & p' & data & Hauto & Hs' & Hdata).
  { rewrite (qcount_insert _ _ _ _ _ Hx), map_size_insert_Some by eauto.
    rewrite Hxe. change (has_signing_status SigningError y) with false.
    change (pay_Threshold (with_signer _ _ _ _ _ _ _)) with (pay_Threshold p). lia. }
  assert (spec_do SigningProposal.events SigningProposal.callbacks (dump_State d)
    EventSigningPartialSignReceived [RqPartialSigns r] (Some p) =
    Ret (s', Some p', (Some (mk_Response s' data), None))) as Hstep.
  { rewrite Hs. unfold spec_do. table_goal.
    change (call SigningProposal.callbacks EventSigningPartialSignReceived) with
      (actionPartialSignConfirmationReceived EventSigningPartialSignReceived).
    rewrite Ha. cbn [mbind Go_bind]. unfold finish. table_goal.
    unfold StateSigningAwaitPartialSigns in Hauto. rewrite Hauto. reflexivity. }
  destruct (inst_step Signing i d p _ _ _ _ _ Hre Hd Hp Hin Hstep) as (i' & b & HDo & _ & _ & Hd').
  exists i', (mk_Response s' data), b, p'. split; [exact HDo|]. split; [done|]. split; [done|].
  cbn [rs_State rs_Data]. split; [exact Hd'|]. split.
  2:{ destruct (decide _); [exact Hdata|]. by rewrite Hdata. }
  rewrite Hs'.
  unfold SigningConfirmation_IsExpired, Before. cbn [nc_set_quorum nc_ExpiresAt nc_UpdatedAt].
  rewrite (sb_updated _ _ _ _ _ Hb). rewrite (qcount_insert _ _ _ _ _ Hx).
  rewrite Hxs. change (has_signing_status SigningPartialSignsConfirmed y) with true.
  by rewrite Z.sub_0_r.
Qed.

(** ** Messages of the bulletin board *)

(** No callback of a board event accepts a value of an unknown type. *)
Lemma other_refused st s e p s' p' resp :
  e ∈ board_events →
  spec_do (stage_events st) (stage_callbacks st) s e [RqOther] (Some p) = Ret (s', p', (resp, None)) → False.
Proof.
  intros He (d & o & out & data & Hd & Hi & Hcall & _)%spec_do_accepted.
  destruct st; cbn [stage_events stage_callbacks] in *; desc_cases Hd; try discriminate Hi;
    first [ discriminate Hcall
          | revert He; apply (bool_decide_eq_false_1 (_ ∈ _)); vm_compute; reflexivity ].
Qed.

(** A message whose data do not decode changes nothing: its request is
    refused by every machine in every state. *)
Theorem undecodable_message_is_refused {jreq : RequestsJSON} i m :
  reachable i → FSMRequestFromMessage m = inl RqOther →
  ∃ i' resp b err, FSMInstance_Do i (msg_Event m) [RqOther] = Ret (i', (resp, b, Some err)) ∧
    FSMInstance_State i' = FSMInstance_State i ∧
    ∃ d d', dump i = Some d ∧ dump i' = Some d' ∧ same_payload (dump_Payload d') (dump_Payload d).
Proof.
  intros Hre Hm. pose proof (FSMRequestFromMessage_board m) as Hb. rewrite Hm in Hb.
  destruct (inst_Do i (msg_Event m) [RqOther] (reachable_inst_ok _ Hre))
    as (st & f & d & p & _ & Hmach & Hd & Hp & Hinv & HDo).
  destruct (stage_progress st _ p (msg_Event m) [RqOther] Hinv) as (s' & p' & resp & [err|] & Hs & Hcase).
  { intros r Hr. discriminate Hr. }
  2:{ destruct (other_refused _ _ _ _ _ _ _ Hb Hs). }
  destruct Hcase as [-> Hsame]. rewrite Hs in HDo. cbn [mbind Go_bind] in HDo. cbv zeta in HDo.
  do 4 eexists. split; [exact HDo|]. unfold FSMInstance_State. rewrite Hmach. split; [reflexivity|].
  do 2 eexists. split; [exact Hd|]. split; [reflexivity|]. cbn [dump_Payload]. by rewrite Hp.
Qed.

(** The internal events of the machines cannot come from outside: a
    message that carries one is rejected as an invalid event. *)
Theorem internal_events_not_on_board {jreq : RequestsJSON} st d m :
  d ∈ stage_events st → IsInternal d = true → msg_Event m = Name d →
  FSMRequestFromMessage m = inr (Err "invalid event").
Proof.
  intros Hd Hi Hm. pose proof (FSMRequestFromMessage_board m) as Hb.
  destruct (FSMRequestFromMessage m) as [r|err]; [exfalso|by destruct Hb as [_ ->]].
  rewrite Hm in Hb. revert Hd Hi Hb. clear.
  assert (forallb (fun d => negb (IsInternal d) || negb (bool_decide (Name d ∈ board_events)))
    (stage_events st) = true) as Hall by (destruct st; vm_compute; reflexivity).
  rewrite forallb_forall in Hall. intros Hd%list_elem_of_In Hi Hb. specialize (Hall d Hd).
  by rewrite Hi, bool_decide_eq_true_2 in Hall.
Qed.
End outcomes.

(** ** The sample round *)

(** The round after the proposal and one confirmation. *)
Definition d_one_confirmed : FSMDump := continue Sig d_idle (take 2 sig_script).

Lemma proposal_reply_outcome_witness :
  ∃ i i' resp b, reachable i ∧ dump i = Some d_one_confirmed ∧
    FSMInstance_Do i EventConfirmSignatureProposal
      [RqParticipant (mk_SignatureProposalParticipantRequest 1 1002)] = Ret (i', (Some resp, b, None)) ∧
    rs_State resp = StateSignatureProposalCollected.
Proof.
  destruct (reach_sig (take 2 sig_script) StateAwaitParticipantsConfirmations
    ltac:(vm_compute; reflexivity)) as (i & p & Hre & Hc & (m & _ & _ & Hd) & _).
  fold d_one_confirmed in Hc. rewrite <-Hc in Hd. clear Hc.
  destruct (proposal_reply_outcome i d_one_confirmed (payload_of d_one_confirmed) (sig_conf_of d_one_confirmed)
    (sig_quorum_of d_one_confirmed) (sig_member d_one_confirmed 1)
    (mk_SignatureProposalParticipantRequest 1 1002) EventConfirmSignatureProposal SigConfirmationConfirmed
    Hre Hd) as (i' & resp & b & HDo & _ & Hs); [vm_compute; reflexivity..| | |].
  - split; vm_compute; reflexivity.
  - reflexivity.
  - exists i, i', resp, b. split; [exact Hre|]. split; [exact Hd|]. split; [exact HDo|].
    rewrite Hs. vm_compute. reflexivity.
Defined.

Lemma proposal_reply_once_witness :
  ∃ i i' resp b err, reachable i ∧ dump i = Some d_one_confirmed ∧
    FSMInstance_Do i EventDeclineProposal
      [RqParticipant (mk_SignatureProposalParticipantRequest 0 1002)] = Ret (i', (resp, b, Some err)).
Proof.
  destruct (reach_sig (take 2 sig_script) StateAwaitParticipantsConfirmations
    ltac:(vm_compute; reflexivity)) as (i & p & Hre & Hc & (m & _ & _ & Hd) & _).
  fold d_one_confirmed in Hc. rewrite <-Hc in Hd. clear Hc.
  destruct (proposal_reply_once i d_one_confirmed (payload_of d_one_confirmed) (sig_conf_of d_one_confirmed)
    (sig_quorum_of d_one_confirmed) (sig_member d_one_confirmed 0)
    (mk_SignatureProposalParticipantRequest 0 1002) EventDeclineProposal
    Hre Hd) as (i' & resp & b & err & HDo & _); [vm_compute; first [reflexivity|discriminate]..|].
  exists i, i', resp, b, err. split; [exact Hre|]. split; [exact Hd|exact HDo].
Defined.

(** The round after the proposal. *)
Definition d_open : FSMDump := continue Sig d_idle (take 1 sig_script).

Lemma confirmed_proposal_completes_witness :
  ∃ i i' p', reachable i ∧ dump i = Some d_open ∧ reachable i' ∧
    dump i' = Some (mk_FSMDump "dkg" StateSignatureProposalCollected (Some p')).
Proof.
  destruct (reach_sig (take 1 sig_script) StateAwaitParticipantsConfirmations
    ltac:(vm_compute; reflexivity)) as (i & p & Hre & Hc & (m & _ & _ & Hd) & _).
  fold d_open in Hc. rewrite <-Hc in Hd. clear Hc.
  destruct (confirmed_proposal_completes i d_open (payload_of d_open) (sig_conf_of d_open) (sig_quorum_of d_open)
    [mk_SignatureProposalParticipantRequest 1 1001; mk_SignatureProposalParticipantRequest 0 1002] Hre Hd)
    as (i' & p' & _ & Hre' & Hd'); [vm_compute; reflexivity..| |].
  2:{ exists i, i', p'. split; [exact Hre|]. split; [exact Hd|]. split; [exact Hre'|exact Hd']. }
  assert (sig_quorum_of d_open = <[0 := sig_member d_open 0]> {[1 := sig_member d_open 1]}) as Hq
    by (vm_compute; reflexivity).
  split.
  - apply (bool_decide_eq_true_1 (NoDup _)). vm_compute. reflexivity.
  - intros id. rewrite Hq. cbn [fmap list_fmap pr_ParticipantId].
    rewrite !elem_of_cons, elem_of_nil. split.
    + intros [->|[->|[]]]; [exists (sig_member d_open 1)|exists (sig_member d_open 0)];
        (split; [reflexivity|vm_compute; reflexivity]).
    + intros (x & [[<- _]|[_ [<- _]%lookup_singleton_Some]]%lookup_insert_Some & _); auto.
  - intros r. rewrite !elem_of_cons, elem_of_nil.
    intros [->|[->|[]]]; (split; [vm_compute; reflexivity|]); (split; [vm_compute; discriminate|]);
      intros x; rewrite Hq; intros [= <-]; vm_compute; reflexivity.
Defined.

(** The round with one master key missing. *)
Definition d_one_key : FSMDump := continue Dkg d_sig (take 8 dkg_script).

Lemma master_key_outcome_witness :
  ∃ i i' resp b, reachable i ∧ dump i = Some d_one_key ∧
    FSMInstance_Do i EventDKGMasterKeyConfirmationReceived
      [RqMasterKey (mk_DKGProposalMasterKeyConfirmationRequest 1 "another" 1011 "poly")] =
      Ret (i', (Some resp, b, None)) ∧
    rs_State resp = StateDkgMasterKeyAwaitCanceledByError.
Proof.
  destruct (reach_dkg (take 8 dkg_script) StateDkgMasterKeyAwaitConfirmations
    ltac:(vm_compute; reflexivity)) as (i & p & Hre & Hc & (m & _ & _ & Hd) & _).
  fold d_one_key in Hc. rewrite <-Hc in Hd. clear Hc.
  destruct (master_key_outcome i d_one_key (payload_of d_one_key) (dkg_conf_of d_one_key)
    (dkg_quorum_of d_one_key) (dkg_member d_one_key 1)
    (mk_DKGProposalMasterKeyConfirmationRequest 1 "another" 1011 "poly") Hre Hd)
    as (i' & resp & b & HDo & Hs & _); [vm_compute; reflexivity..|].
  exists i, i', resp, b. split; [exact Hre|]. split; [exact Hd|]. split; [exact HDo|].
  rewrite Hs. vm_compute. reflexivity.
Defined.

(** A batch with one signature of the two that it needs. *)
Definition d_one_sign : FSMDump := continue Signing d_dkg (signing_script ++ [sign 0 1014]).

Lemma partial_signature_outcome_witness :
  ∃ i i' resp b y, reachable i ∧ dump i = Some d_one_sign ∧
    FSMInstance_Do i EventSigningPartialSignReceived (sign 1 1015).2 = Ret (i', (Some resp, b, None)) ∧
    rs_State resp = StateSigningPartialSignsCollected ∧ np_PartialSigns y = Some {["m1" := "partial"]} ∧
    rs_Data resp = Some (batch_response (signing_conf_of d_one_sign) (<[1 := y]> (signing_quorum_of d_one_sign))).
Proof.
  destruct (reach_signing (signing_script ++ [sign 0 1014]) StateSigningAwaitPartialSigns
    ltac:(vm_compute; reflexivity)) as (i & p & Hre & Hc & (m & _ & _ & Hd) & _).
  fold d_one_sign in Hc. rewrite <-Hc in Hd. clear Hc.
  destruct (partial_signature_outcome i d_one_sign (payload_of d_one_sign) (signing_conf_of d_one_sign)
    (signing_quorum_of d_one_sign) (signing_member d_one_sign 1)
    (mk_SigningProposalBatchPartialSignRequests "batch" 1 [mk_PartialSign "m1" "partial"] 1015) Hre Hd)
    as (i' & resp & b & p' & HDo & _ & Hy & _ & Hs & Hdata); [vm_compute; reflexivity..|].
  assert (rs_State resp = StateSigningPartialSignsCollected) as Hcol by (rewrite Hs; vm_compute; reflexivity).
  rewrite decide_True in Hdata by exact Hcol.
  eexists i, i', resp, b, _. split; [exact Hre|]. split; [exact Hd|]. split; [exact HDo|]. split; [exact Hcol|].
  split; [|exact Hdata]. rewrite Hy. vm_compute. reflexivity.
Defined.

Lemma undecodable_message_is_refused_witness :
  ∃ i i' resp b err, reachable i ∧
    @FSMRequestFromMessage log_json (log_message EventConfirmSignatureProposal "garbage") = inl RqOther ∧
    FSMInstance_Do i EventConfirmSignatureProposal [RqOther] = Ret (i', (resp, b, Some err)).
Proof.
  destruct (reach_sig (take 1 sig_script) StateAwaitParticipantsConfirmations
    ltac:(vm_compute; reflexivity)) as (i & p & Hre & _).
  destruct (@undecodable_message_is_refused _ _ _ _ log_json i
    (log_message EventConfirmSignatureProposal "garbage") Hre) as (i' & resp & b & err & HDo & _).
  { vm_compute. reflexivity. }
  exists i, i', resp, b, err. split; [exact Hre|]. split; [vm_compute; reflexivity|exact HDo].
Defined.

Lemma internal_events_not_on_board_witness :
  @FSMRequestFromMessage log_json (log_message eventAutoValidateProposalInternal "participant") =
    inr (Err "invalid event").
Proof.
  apply (@internal_events_not_on_board log_json Sig (auto_desc eventAutoValidateProposalInternal
    [StateAwaitParticipantsConfirmations] StateAwaitParticipantsConfirmations)); [|reflexivity..].
  do 4 right. by left.
Defined.
