(* ===== verification/OrderIndependence.v ===== *)
(** * The order of map iteration does not matter

    Every node runs the machines on its own, and Go's map iteration order
    differs from run to run. This file compares the machines under two orders:
    states, payloads and errors are the same, and so are the answers, up to the
    order of the entries of one status list. *)

From S2P Require Import Prelude GoFsm Requests Payload FsmPool.
From S2P Require Import SignatureProposal DkgProposal SigningProposal StateMachines.

(** ** Equivalence of answers *)

Definition same_data (d1 d2 : RespData) : Prop :=
  match d1, d2 with
  | RdStatuses l1, RdStatuses l2 => l1 ≡ₚ l2
  | _, _ => d1 = d2
  end.

#[export] Instance same_data_refl : Reflexive same_data.
Proof. intros []; simpl; reflexivity. Qed.

Definition same_response (r1 r2 : Response RespData) : Prop :=
  rs_State r1 = rs_State r2 ∧ option_Forall2 same_data (rs_Data r1) (rs_Data r2).

#[export] Instance same_response_refl : Reflexive same_response.
Proof. intros r. split; [done|]. reflexivity. Qed.

(** Two computations both panic, for the same reason, or return related
    results. *)
Definition same_go {A B} (R : A → B → Prop) (x : Go A) (y : Go B) : Prop :=
  match x, y with
  | Ret a, Ret b => R a b
  | Panic w1, Panic w2 => w1 = w2
  | _, _ => False
  end.

Lemma same_go_refl {A} (R : A → A → Prop) `{!Reflexive R} x : same_go R x x.
Proof. destruct x; simpl; reflexivity. Qed.

Lemma same_go_bind {A1 A2 B1 B2} (R : A1 → A2 → Prop) (Q : B1 → B2 → Prop) x y k1 k2 :
  same_go R x y → (∀ a b, R a b → same_go Q (k1 a) (k2 b)) → same_go Q (x ≫= k1) (y ≫= k2).
Proof. destruct x, y; simpl; auto; intros; by try congruence. Qed.

(** What a callback returns. *)
Definition same_ret {P} (x y : P * CbRet RespData) : Prop :=
  x.1 = y.1 ∧ x.2.1.1 = y.2.1.1 ∧ option_Forall2 same_data x.2.1.2 y.2.1.2 ∧ x.2.2 = y.2.2.

#[export] Instance same_ret_refl {P} : Reflexive (same_ret (P := P)).
Proof. intros [p [[o d] e]]. split_and!; try done. Qed.

(** What a step returns: state, payload, answer and error. *)
Definition same_result {P} (x y : State * P * (option (Response RespData) * option error)) : Prop :=
  x.1 = y.1 ∧ option_Forall2 same_response x.2.1 y.2.1 ∧ x.2.2 = y.2.2.

Section steps.
Context {P A : Type} (events : list EventDesc)
  (cbs1 cbs2 : list (Event * Callback P A RespData)).
Hypothesis Hcbs : ∀ e args p, same_go same_ret (call cbs1 e args p) (call cbs2 e args p).

Lemma spec_auto_same s args p d1 d2 :
  option_Forall2 same_data d1 d2 →
  same_go (fun x y => x.1 = y.1 ∧ same_response x.2.1 y.2.1 ∧ x.2.2 = y.2.2)
    (spec_auto events cbs1 s args p d1) (spec_auto events cbs2 s args p d2).
Proof.
  intros Hd. unfold spec_auto. destruct (find_auto events s) as [d|]; [|by split_and!; try split].
  eapply same_go_bind; [apply Hcbs|].
  intros [p1 [[out1 data1] err1]] [p2 [[out2 data2] err2]] (Hp & Ho & Hdata & He). simpl in *.
  subst. assert (option_Forall2 same_data (if data1 is Some _ then data1 else d1)
    (if data2 is Some _ then data2 else d2)) as Hd' by (destruct Hdata; [by constructor|done]).
  destruct err2; [by split_and!; try split|].
  destruct (find_desc events s (move_event (Name d) out2)); by split_and!; try split.
Qed.

Lemma spec_do_same s e args p :
  same_go same_result (spec_do events cbs1 s e args p) (spec_do events cbs2 s e args p).
Proof.
  unfold spec_do. destruct (find_desc events s e) as [d|]; [|by split_and!; try constructor].
  destruct (IsInternal d); [by split_and!; try constructor|].
  eapply same_go_bind; [apply Hcbs|].
  intros [p1 [[out1 data1] err1]] [p2 [[out2 data2] err2]] (Hp & Ho & Hdata & He). simpl in *.
  subst. destruct err2; [by split_and!; try (constructor; split)|].
  unfold finish. destruct (find_desc events s (move_event e out2)) as [d'|];
    [|by split_and!; try (constructor; split)].
  eapply same_go_bind; [by apply spec_auto_same|].
  intros [[s1 p1] [r1 e1]] [[s2 p2'] [r2 e2]] (Hsp & Hr & He). simpl in *. simplify_eq.
  split_and!; [done| |done]. by constructor.
Qed.
End steps.

(** Two lists of callbacks with the same names and equivalent functions. *)
Definition same_callbacks {P A} : relation (list (Event * Callback P A RespData)) :=
  Forall2 (fun x y => x.1 = y.1 ∧ ∀ e args p, same_go same_ret (x.2 e args p) (y.2 e args p)).

Lemma find_same {P A} (l1 l2 : list (Event * Callback P A RespData)) e args p :
  same_callbacks l1 l2 →
  same_go same_ret
    (match snd <$> List.find (fun ec => ec.1 =s? e) l1 with
     | Some callback => callback e args p | None => Ret (p, ("", None, None)) end)
    (match snd <$> List.find (fun ec => ec.1 =s? e) l2 with
     | Some callback => callback e args p | None => Ret (p, ("", None, None)) end).
Proof.
  induction 1 as [|[n1 c1] [n2 c2] l1 l2 [Hn Hc] _ IH]; [apply same_go_refl, _|].
  simpl in Hn. subst n2. simpl. destruct (n1 =s? e); [apply Hc|exact IH].
Qed.

Lemma call_same {P A} (cbs1 cbs2 : list (Event * Callback P A RespData)) e args p :
  same_callbacks cbs1 cbs2 → same_go same_ret (call cbs1 e args p) (call cbs2 e args p).
Proof. intros H. apply find_same. by apply Forall2_reverse. Qed.

(** ** Quorums *)

Section orders.
Context (o1 o2 : MapOrder).

Lemma range_empty {o : MapOrder} {V} : range (∅ : gmap Z V) = [].
Proof. apply Permutation_nil_r. rewrite range_perm, map_to_list_empty. done. Qed.

Lemma GetOrdered_order {X} (set_id : Z → X → X) q :
  @GetOrdered o1 X set_id q = @GetOrdered o2 X set_id q.
Proof. destruct q; [|done]. by rewrite !GetOrdered_spec. Qed.

(** ** Callbacks *)

(** Rewrite the loops of the first order into those of the second. *)
Lemma enroll_order q : foldl enroll ∅ (@range o1 _ _ _ _ q) = foldl enroll ∅ (@range o2 _ _ _ _ q).
Proof. by rewrite (@foldl_enroll_range o1), (@foldl_enroll_range o2). Qed.

Ltac same_branches :=
  repeat match goal with
  | |- ?x = ?x => reflexivity
  | |- context [@GetOrdered o1 ?X ?f ?q] => rewrite (@GetOrdered_order X f q)
  | |- context [foldl enroll ∅ (@range o1 _ _ _ _ ?q)] => rewrite (enroll_order q)
  | |- context [match ?x with _ => _ end] =>
      lazymatch x with context [match _ with _ => _ end] => fail | _ => idtac end;
      destruct x eqn:?; simpl
  end.

Lemma init_proposal_order e args p :
  @actionInitSignatureProposal o1 e args p = @actionInitSignatureProposal o2 e args p.
Proof. unfold actionInitSignatureProposal, payload, set_payload. act_run. same_branches. Qed.

Lemma init_dkg_order e args p : @actionInitDKGProposal o1 e args p = @actionInitDKGProposal o2 e args p.
Proof. unfold actionInitDKGProposal, payload, set_payload. act_run. same_branches. Qed.

Lemma start_signing_order {json : JSON (list SigningTask)} e args p :
  @actionStartSigningProposal o1 json e args p = @actionStartSigningProposal o2 json e args p.
Proof. unfold actionStartSigningProposal, payload, set_payload. act_run. same_branches. Qed.

(** The validations: without a payload they panic, with one they count. *)
Lemma validate_proposal_order e args p :
  same_go same_ret (@actionValidateSignatureProposal o1 e args p) (@actionValidateSignatureProposal o2 e args p).
Proof.
  destruct p as [p|]; [|apply same_go_refl, _].
  destruct (pay_SignatureProposalPayload p) as [c|] eqn:Hc.
  - destruct (sc_Quorum c) as [q|] eqn:Hq.
    + rewrite !(actionValidate_eq e args p c q) by done.
      destruct (SignatureConfirmation_IsExpired c); [apply same_go_refl, _|].
      destruct (qexists is_declined q); [apply same_go_refl, _|].
      destruct (_ <? _); [apply same_go_refl, _|].
      split_and!; try done. constructor. simpl. by rewrite !range_perm.
    + unfold actionValidateSignatureProposal, payload, SigQuorumCount. act_run. rewrite Hc. simpl.
      rewrite Hq. simpl. rewrite !range_empty. apply same_go_refl, _.
  - unfold actionValidateSignatureProposal, payload. act_run. rewrite Hc. done.
Qed.

Lemma validateAwait_order error confirmed next by_timeout by_error done respond e args p :
  error ≠ confirmed →
  @validateAwait o1 error confirmed next by_timeout by_error done respond e args p =
  @validateAwait o2 error confirmed next by_timeout by_error done respond e args p.
Proof.
  intros Hne. destruct p as [p|]; [|reflexivity].
  destruct (pay_DKGProposalPayload p) as [c|] eqn:Hc.
  - destruct (dc_Quorum c) as [q|] eqn:Hq.
    + by rewrite !(validateAwait_eq error confirmed next by_timeout by_error done respond e args p c q).
    + unfold validateAwait, payload, set_payload, DKGQuorumCount. act_run. rewrite Hc. simpl.
      rewrite Hq. simpl. by rewrite !range_empty.
  - unfold validateAwait, payload. act_run. by rewrite Hc.
Qed.

Lemma validate_masterkey_order e args p :
  @actionValidateDkgProposalAwaitMasterKey o1 e args p = @actionValidateDkgProposalAwaitMasterKey o2 e args p.
Proof.
  destruct p as [p|]; [|reflexivity]. destruct (pay_DKGProposalPayload p) as [c|] eqn:Hc.
  - destruct (dc_Quorum c) as [q|] eqn:Hq.
    + by rewrite !(validateMasterKey_eq e args p c q).
    + unfold actionValidateDkgProposalAwaitMasterKey, payload, set_payload, DKGQuorumCount. act_run.
      rewrite Hc. simpl. rewrite Hq. simpl. by rewrite !range_empty.
  - unfold actionValidateDkgProposalAwaitMasterKey, payload. act_run. by rewrite Hc.
Qed.

Lemma validate_signing_order e args p :
  @actionValidateSigningPartialSignsAwaitConfirmations o1 e args p =
  @actionValidateSigningPartialSignsAwaitConfirmations o2 e args p.
Proof.
  destruct p as [p|]; [|reflexivity]. destruct (pay_SigningProposalPayload p) as [c|] eqn:Hc.
  - destruct (nc_Quorum c) as [q|] eqn:Hq.
    + by rewrite !(validateSigning_eq e args p c q).
    + unfold actionValidateSigningPartialSignsAwaitConfirmations, payload, set_payload, SigningQuorumCount.
      act_run. rewrite Hc. simpl. rewrite Hq. simpl. by rewrite !range_empty.
  - unfold actionValidateSigningPartialSignsAwaitConfirmations, payload. act_run. by rewrite Hc.
Qed.
End orders.

(** ** Machines *)

Section machines.
Context (o1 o2 : MapOrder) {json : JSON (list SigningTask)}.

Lemma eq_same_go {A} (R : A → A → Prop) `{!Reflexive R} x y : x = y → same_go R x y.
Proof. intros ->. by apply same_go_refl. Qed.

Lemma stage_callbacks_same st : same_callbacks (@stage_callbacks o1 json st) (@stage_callbacks o2 json st).
Proof.
  destruct st; cbn [stage_callbacks];
    unfold SignatureProposal.callbacks, DkgProposal.callbacks, SigningProposal.callbacks;
    repeat (constructor; [split; [reflexivity|]; intros e args p; cbn [snd]|]);
    first [ apply same_go_refl, _
          | apply validate_proposal_order
          | apply eq_same_go; [apply _|];
            first [ apply init_proposal_order | apply init_dkg_order | apply start_signing_order
                  | apply validateAwait_order; done | apply validate_masterkey_order
                  | apply validate_signing_order ]
          | constructor ].
Qed.

(** C23. Two nodes whose maps iterate in different orders agree: on the same
    state, event, arguments and payload the machines reach the same state with
    the same payload and the same error, or panic alike, and answer the same up
    to the order of the entries in a list of statuses. *)
Theorem map_order_is_irrelevant st s e args p :
  ∃ f1 f2, @stage_New o1 json st = Ret f1 ∧ @stage_New o2 json st = Ret f2 ∧
    same_go (fun x y => currentState x.1.1 = currentState y.1.1 ∧ x.1.2 = y.1.2 ∧
                        option_Forall2 same_response x.2.1 y.2.1 ∧ x.2.2 = y.2.2)
      (Do (with_state f1 s) e args p) (Do (with_state f2 s) e args p).
Proof.
  destruct (@stage_New_ok o1 json st) as [f1 Hf1], (@stage_New_ok o2 json st) as [f2 Hf2].
  exists f1, f2. split; [exact Hf1|]. split; [exact Hf2|].
  pose proof (@stage_constructed o1 json st f1 Hf1) as Hc1. pose proof (@stage_constructed o2 json st f2 Hf2) as Hc2.
  rewrite (Do_refines_spec Hc1) by apply stage_autos_after.
  rewrite (Do_refines_spec Hc2) by apply stage_autos_after.
  eapply same_go_bind.
  - apply spec_do_same. intros e' args' p'. apply call_same, stage_callbacks_same.
  - intros [[s1 p1] [r1 e1]] [[s2 p2] [r2 e2]] (Hsp & Hr & He). simpl in *. by simplify_eq.
Qed.
End machines.
