(* ===== verification/IOLogic.v ===== *)
(** * Reasoning about computations with state and errors

    Triples for the monad [IO]: [post P m Q E] says that [m], started in a
    state that satisfies [P], ends with a value and a state in [Q], or with an
    error and a state in [E], or panics. The rules follow the combinators, so
    that an invariant of a long body is proved by the rules for its primitives;
    [keeps I m] is the case of an invariant. *)

From S2P Require Import Prelude LevelState.

(** ** Further combinators *)

(** [for _, x := range l { ... }] with a body that may fail or panic. *)
Fixpoint foldIO {S A B} (body : B → A → IO S B) (acc : B) (l : list A) : IO S B :=
  match l with
  | [] => mret acc
  | x :: l => acc' ← body acc x; foldIO body acc' l
  end.

(** A body that only has effects. *)
Definition iterIO {S A} (body : A → IO S unit) (l : list A) : IO S unit :=
  foldIO (fun _ => body) tt l.

(** [x, err := m], [err] given to the caller as a value. *)
Definition catch {S A} (m : IO S A) (handler : error → IO S A) : IO S A := fun s =>
  match m s with
  | Ret (s, inr e) => handler e s
  | r => r
  end.

(** Reading a field of the object. *)
Definition gets {S A} (f : S → A) : IO S A := fun s => Ret (s, inl (f s)).

Definition modify {S} (f : S → S) : IO S unit := fun s => Ret (f s, inl tt).

(** A value that is an error or not, as Go returns pairs. *)
Definition of_res {S A} (r : A + error) : IO S A := fun s => Ret (s, r).

(** A component [T] of the state [S], and computations on the component run on
    the whole. *)
Definition zoom {S T A} (get : S → T) (set : T → S → S) (m : IO T A) : IO S A := fun s =>
  match m (get s) with
  | Ret (t, r) => Ret (set t s, r)
  | Panic w => Panic w
  end.

(** ** Triples *)

Section triples.
Context {S : Type}.
Implicit Types (P E I : S → Prop).

Definition post {A} P (m : IO S A) (Q : A → S → Prop) E : Prop :=
  ∀ s, P s → match m s with
             | Ret (s', inl a) => Q a s'
             | Ret (s', inr _) => E s'
             | Panic _ => True
             end.

Definition keeps {A} I (m : IO S A) : Prop := post I m (fun _ => I) I.

Lemma post_run {A} P (m : IO S A) Q E s s' r :
  post P m Q E → P s → m s = Ret (s', r) →
  match r with inl a => Q a s' | inr _ => E s' end.
Proof. intros Hm Hs Hr. specialize (Hm s Hs). rewrite Hr in Hm. by destruct r. Qed.

Lemma post_conseq {A} P P' (m : IO S A) (Q Q' : A → S → Prop) E E' :
  post P m Q E → (∀ s, P' s → P s) → (∀ a s, Q a s → Q' a s) → (∀ s, E s → E' s) →
  post P' m Q' E'.
Proof.
  intros Hm HP HQ HE s Hs. specialize (Hm s (HP s Hs)).
  destruct (m s) as [[s' [a|e]]|]; auto.
Qed.

Lemma post_pre {A} P P' (m : IO S A) Q E : post P m Q E → (∀ s, P' s → P s) → post P' m Q E.
Proof. intros H HP. eapply post_conseq; eauto. Qed.

(** A pure part of the precondition. *)
Lemma post_pure {A} (φ : Prop) P (m : IO S A) Q E :
  (φ → post P m Q E) → post (fun s => φ ∧ P s) m Q E.
Proof. intros H s [Hφ Hs]. by apply H. Qed.

Lemma post_exists {A X} (P : X → S → Prop) (m : IO S A) Q E :
  (∀ x, post (P x) m Q E) → post (fun s => ∃ x, P x s) m Q E.
Proof. intros H s [x Hs]. by eapply H. Qed.

Lemma post_and {A} P P' (m : IO S A) (Q Q' : A → S → Prop) E E' :
  post P m Q E → post P' m Q' E' →
  post (fun s => P s ∧ P' s) m (fun a s => Q a s ∧ Q' a s) (fun s => E s ∧ E' s).
Proof.
  intros H H' s [Hs Hs']. specialize (H s Hs). specialize (H' s Hs').
  destruct (m s) as [[s' [a|e]]|]; auto.
Qed.

Lemma post_ret {A} P (a : A) (Q : A → S → Prop) E : (∀ s, P s → Q a s) → post P (mret a) Q E.
Proof. intros H s Hs. by apply H. Qed.

Lemma post_throw {A} P e (Q : A → S → Prop) E : (∀ s, P s → E s) → post P (throw e) Q E.
Proof. intros H s Hs. by apply H. Qed.

Lemma post_bind {A B} P (m : IO S A) (k : A → IO S B) R Q E :
  post P m R E → (∀ a, post (R a) (k a) Q E) → post P (m ≫= k) Q E.
Proof.
  intros Hm Hk s Hs. specialize (Hm s Hs). unfold mbind, IO_bind.
  destruct (m s) as [[s' [a|e]]|]; [|done..]. by apply Hk.
Qed.

Lemma post_wrap {A} P msg (m : IO S A) Q E : post P m Q E → post P (wrap msg m) Q E.
Proof. intros Hm s Hs. specialize (Hm s Hs). unfold wrap. by destruct (m s) as [[s' [a|e]]|]. Qed.

Lemma post_try {A} P (m : IO S A) (Q : A + error → S → Prop) E :
  post P m (fun a => Q (inl a)) (fun s => ∀ e, Q (inr e) s) → post P (try m) Q E.
Proof. intros Hm s Hs. specialize (Hm s Hs). unfold try. by destruct (m s) as [[s' [a|e]]|]. Qed.

Lemma post_catch {A} P (m : IO S A) h Q E E' :
  post P m Q E' → (∀ e, post E' (h e) Q E) → post P (catch m h) Q E.
Proof.
  intros Hm Hh s Hs. specialize (Hm s Hs). unfold catch.
  destruct (m s) as [[s' [a|e]]|]; [done| |done]. by apply Hh.
Qed.

(** Computations without effect: the result is a value of the computation. *)
Lemma post_lift {A} P (m : Go A) (Q : A → S → Prop) E :
  (∀ a, m = Ret a → ∀ s, P s → Q a s) → post P (lift m) Q E.
Proof. intros H s Hs. unfold lift. destruct m; [by apply H|done]. Qed.

Lemma post_lift_res {A} P (m : Go (A + error)) (Q : A → S → Prop) E :
  (∀ a, m = Ret (inl a) → ∀ s, P s → Q a s) → (∀ s, P s → E s) → post P (lift_res m) Q E.
Proof. intros H HE s Hs. unfold lift_res. destruct m as [[a|e]|]; [by apply H|by apply HE|done]. Qed.

Lemma post_json_res {A} P msg (o : option A) (Q : A → S → Prop) E :
  (∀ a, o = Some a → ∀ s, P s → Q a s) → (∀ s, P s → E s) → post P (json_res msg o) Q E.
Proof. intros H HE s Hs. destruct o; [by apply H|by apply HE]. Qed.

Lemma post_of_res {A} P (r : A + error) (Q : A → S → Prop) E :
  (∀ a, r = inl a → ∀ s, P s → Q a s) → (∀ s, P s → E s) → post P (of_res r) Q E.
Proof. intros H HE s Hs. destruct r; [by apply H|by apply HE]. Qed.

Lemma post_gets {A} P (f : S → A) (Q : A → S → Prop) E : (∀ s, P s → Q (f s) s) → post P (gets f) Q E.
Proof. intros H s Hs. by apply H. Qed.

Lemma post_modify P (f : S → S) (Q : unit → S → Prop) E : (∀ s, P s → Q tt (f s)) → post P (modify f) Q E.
Proof. intros H s Hs. by apply H. Qed.

Lemma post_fold {A B} (J : list A → B → S → Prop) (body : B → A → IO S B) b l E :
  (∀ pre x acc, post (J pre acc) (body acc x) (J (pre ++ [x])) E) →
  post (J [] b) (foldIO body b l) (J l) E.
Proof.
  intros Hb. rewrite <-(app_nil_l l) at 2. generalize (@nil A) as pre.
  induction l as [|x l IH] in b |- *; intros pre; cbn [foldIO].
  - apply post_ret. by rewrite app_nil_r.
  - apply post_bind with (R := J (pre ++ [x])); [apply Hb|]. intros acc.
    replace (pre ++ x :: l) with ((pre ++ [x]) ++ l) by by rewrite <-app_assoc. apply IH.
Qed.

(** ** Invariants *)

Lemma keeps_run {A} I (m : IO S A) s s' r : keeps I m → I s → m s = Ret (s', r) → I s'.
Proof. intros Hm Hs Hr. pose proof (post_run _ _ _ _ _ _ _ Hm Hs Hr). by destruct r. Qed.

Lemma keeps_ret {A} I (a : A) : keeps I (mret a).
Proof. by apply post_ret. Qed.
Lemma keeps_throw {A} I e : keeps I (throw (A := A) e).
Proof. by apply post_throw. Qed.
Lemma keeps_bind {A B} I (m : IO S A) (k : A → IO S B) :
  keeps I m → (∀ a, keeps I (k a)) → keeps I (m ≫= k).
Proof. intros Hm Hk. by eapply post_bind. Qed.
Lemma keeps_wrap {A} I msg (m : IO S A) : keeps I m → keeps I (wrap msg m).
Proof. apply post_wrap. Qed.
Lemma keeps_try {A} I (m : IO S A) : keeps I m → keeps I (try m).
Proof. intros Hm. apply post_try. by eapply post_conseq. Qed.
Lemma keeps_catch {A} I (m : IO S A) h : keeps I m → (∀ e, keeps I (h e)) → keeps I (catch m h).
Proof. intros Hm Hh. by eapply post_catch. Qed.
Lemma keeps_lift {A} I (m : Go A) : keeps I (lift m).
Proof. by apply post_lift. Qed.
Lemma keeps_lift_res {A} I (m : Go (A + error)) : keeps I (lift_res m).
Proof. by apply post_lift_res. Qed.
Lemma keeps_json_res {A} I msg (o : option A) : keeps I (json_res msg o).
Proof. by apply post_json_res. Qed.
Lemma keeps_of_res {A} I (r : A + error) : keeps I (of_res r).
Proof. by apply post_of_res. Qed.
Lemma keeps_gets {A} I (f : S → A) : keeps I (gets f).
Proof. by apply post_gets. Qed.
Lemma keeps_fold {A B} I (body : B → A → IO S B) b l :
  (∀ x acc, keeps I (body acc x)) → keeps I (foldIO body b l).
Proof. intros Hb. by apply (post_fold (fun _ _ => I)). Qed.
End triples.

(** A computation on a component keeps what it keeps of the component. *)
Lemma keeps_zoom {S T A} (get : S → T) (set : T → S → S) (J : T → Prop) (I : S → Prop) (m : IO T A) :
  (∀ s, I s → J (get s)) → (∀ t s, I s → J t → I (set t s)) → keeps J m → keeps I (zoom get set m).
Proof.
  intros Hget Hset Hm s Hs. specialize (Hm (get s) (Hget s Hs)). unfold zoom.
  destruct (m (get s)) as [[t [a|e]]|]; [by apply Hset..|done].
Qed.

Create HintDb keeps.
#[export] Hint Resolve keeps_ret keeps_throw keeps_wrap keeps_try keeps_catch keeps_lift
  keeps_lift_res keeps_json_res keeps_of_res keeps_gets keeps_fold : keeps.

(** Invariants by the structure of the body, down to the primitives of the
    hint database. *)
Ltac keeps_step :=
  first
    [ apply keeps_bind; [|intros]
    | apply keeps_wrap
    | apply keeps_try
    | apply keeps_catch; [|intros]
    | apply keeps_fold; intros
    | progress (intros; cbv zeta)
    | match goal with |- keeps _ (match ?x with _ => _ end) => destruct x end
    | match goal with |- keeps _ ((match ?x with _ => _ end) _) => destruct x end ].
Ltac keeps_tac := repeat first [ solve [eauto with keeps] | keeps_step ].
