(* ===== verification/Kyber.v ===== *)
(** * The cryptography as parameters

    The group, the polynomials, the Pedersen key generation and the threshold
    signatures of the package [kyber], and the symmetric encryption of the
    air-gapped machine's database, are third-party code: their types and
    functions are the fields of the classes of this file, with the names the
    source calls them by. What the source relies on are the laws of the classes
    [...Spec]. *)

From S2P Require Import Prelude LevelState.

(** ** Points, polynomials and signatures *)

Class Kyber : Type := {
  Point : Type;
  Scalar : Type;
  PriShare : Type;
  PubPoly : Type;
  Suite : Type;
  (** [bls12381.NewBLS12381Suite(seed)]; a [nil] seed is [None]. *)
  NewBLS12381Suite : option bytes → Suite;
  Point_Equal : Point → Point → bool;
  Point_MarshalBinary : Point → bytes + error;
  Point_UnmarshalBinary : bytes → Point + error;
  Scalar_MarshalBinary : Scalar → bytes + error;
  Scalar_UnmarshalBinary : bytes → Scalar + error;
  (** [suite.Point().Mul(secKey, nil)] *)
  Point_Mul : Scalar → Point;
  NewPubPoly : list Point → PubPoly;
  PubPoly_Info : PubPoly → list Point;
  PubPoly_Commit : PubPoly → Point;
  (** [encoding/gob] on a private share. *)
  gob_encode_share : PriShare → option bytes;
  gob_decode_share : bytes → option PriShare;
  tbls_Sign : Suite → PriShare → bytes → bytes + error;
  (** suite, polynomial, message, shares, threshold, participants *)
  tbls_Recover : Suite → PubPoly → bytes → list bytes → Z → Z → bytes + error;
  bls_Verify : Suite → Point → bytes → bytes → option error
}.

(** Encodings do not lose anything, and a polynomial is what it was made of. *)
Class KyberSpec `{!Kyber} : Prop := {
  Point_roundtrip p : ∃ b, Point_MarshalBinary p = inl b ∧ Point_UnmarshalBinary b = inl p;
  Scalar_roundtrip k : ∃ b, Scalar_MarshalBinary k = inl b ∧ Scalar_UnmarshalBinary b = inl k;
  share_roundtrip x : ∃ b, gob_encode_share x = Some b ∧ gob_decode_share b = Some x;
  PubPoly_Info_New l : PubPoly_Info (NewPubPoly l) = l;
  NewPubPoly_Info f : NewPubPoly (PubPoly_Info f) = f;
  Point_Equal_spec p q : Point_Equal p q = true ↔ p = q
}.

(** ** Pedersen's distributed key generation *)

(** [dkg.DistKeyGenerator] is a mutable object: its operations return the
    object as the call leaves it. *)
Class PedersenDKG `{!Kyber} : Type := {
  DistKeyGenerator : Type;
  Deal : Type;
  EncryptedDeal : Type;
  DkgResponse : Type;
  VssResponse : Type;
  VssDeal : Type;
  Verifier : Type;
  DistKeyShare : Type;
  deal_Index : Deal → Z;
  deal_Deal : Deal → EncryptedDeal;
  (** [cmp.Equal] on two encrypted deals *)
  cmp_Equal : EncryptedDeal → EncryptedDeal → bool;
  resp_Response : DkgResponse → option VssResponse;
  vss_Index : VssResponse → Z;
  vss_Status : VssResponse → bool;
  vss_Commitments : VssDeal → list Point;
  (** suite, secret key, public keys, threshold, seed of the reader *)
  NewDistKeyGenerator : Suite → option Scalar → list Point → Z → bytes → Go (DistKeyGenerator + error);
  Dealer_Commits : DistKeyGenerator → list Point;
  gen_Deals : DistKeyGenerator → DistKeyGenerator * (gmap Z Deal + error);
  gen_ProcessDeal : Deal → DistKeyGenerator → DistKeyGenerator * (DkgResponse + error);
  gen_Verifiers : DistKeyGenerator → gmap Z Verifier;
  DecryptDeal : Verifier → EncryptedDeal → VssDeal + error;
  gen_ProcessResponse : DkgResponse → DistKeyGenerator → DistKeyGenerator * option error;
  Certified : DistKeyGenerator → bool;
  gen_DistKeyShare : DistKeyGenerator → DistKeyShare + error;
  share_Public : DistKeyShare → Point;
  share_Commitments : DistKeyShare → list Point;
  share_PriShare : DistKeyShare → PriShare
}.

(** ** Randomness, clocks and symmetric encryption *)

(** What a process asks its environment for. *)
Class Env (S : Type) : Type := {
  time_Now : IO S Time;
  uuid_New : IO S string;
  (** [rand.Int(rand.Reader, big.NewInt(max))] *)
  rand_Int : Z → IO S Z;
  (** [rand.Read] of so many bytes *)
  rand_Bytes : Z → IO S bytes
}.

(** [golang.org/x/crypto/scrypt] and [crypto/cipher]: deriving a key from a
    password and a salt, and authenticated encryption under it. *)
Class SymmetricCrypto : Type := {
  scrypt_Key : bytes → bytes → bytes + error;
  NonceSize : Z;
  gcm_Seal : bytes → bytes → bytes → bytes;
  gcm_Open : bytes → bytes → bytes → bytes + error
}.

Class SymmetricSpec `{!SymmetricCrypto} : Prop := {
  NonceSize_nonneg : 0 ≤ NonceSize;
  (** The cost parameters are constants that [scrypt.Key] accepts. *)
  scrypt_ok password salt : ∃ key, scrypt_Key password salt = inl key;
  gcm_roundtrip k nonce data : gcm_Open k nonce (gcm_Seal k nonce data) = inl data
}.
