(* ===== verification/Dkg.v ===== *)
(** * The key-generation object, [dkg/types.go] and [dkg/dkg.go]

    The bookkeeping that the air-gapped machine keeps for a round around the
    key generator of [kyber]: the public keys sorted by participant, the
    commits, deals and responses received, and the BLS keyring that results. *)

From S2P Require Import Prelude LevelState IOLogic Kyber.

Section types.
Context {K : Kyber}.

(** ** [PKStore] *)

Record PK2Participant : Type := mk_PK2Participant {
  ParticipantID : Z;
  pk_Participant : string;
  PK : Point
}.

Abbreviation PKStore := (list PK2Participant) (only parsing).

(** The store after the call and the result. *)
Definition PKStore_Add (s : PKStore) (newPk : PK2Participant) : PKStore * bool :=
  if existsb (fun pk => (pk_Participant pk =s? pk_Participant newPk) && Point_Equal (PK pk) (PK newPk)) s
  then (s, false) else (s ++ [newPk], true).

Definition PKStore_Less (a b : PK2Participant) : Prop := ParticipantID a ≤ ParticipantID b.

(** [sort.Sort] by participant id: where ids coincide the order is
    unspecified. *)
Class PKSort : Type := {
  sort_Sort : PKStore → PKStore;
  sort_Sort_perm l : sort_Sort l ≡ₚ l;
  sort_Sort_sorted l : Sorted PKStore_Less (sort_Sort l)
}.

Definition GetPKs (s : PKStore) : list Point := PK <$> s.

Definition GetPKByParticipant (s : PKStore) (p : string) : Point + error :=
  match list_find (fun val => pk_Participant val = p) s with
  | Some (_, val) => inl (PK val)
  | None => inr (Err "participant does not exist")
  end.

(** The bound is off by one: at the length of the store the access panics. *)
Definition PKStore_at (s : PKStore) (index : Z) : Go (option PK2Participant) :=
  if (index <? 0) || (Z.of_nat (length s) <? index) then Ret None
  else match s !! Z.to_nat index with
       | Some val => Ret (Some val)
       | None => Panic "index out of range"
       end.
Definition PKStore_GetPKByIndex (s : PKStore) (index : Z) : Go (option Point) :=
  val ← PKStore_at s index; Ret (option_map PK val).
Definition PKStore_GetParticipantByIndex (s : PKStore) (index : Z) : Go string :=
  val ← PKStore_at s index; Ret (default "" (option_map pk_Participant val)).

(** ** [messageStore], of values of one type *)

Record messageStore (V : Type) : Type := mk_messageStore {
  messagesCount : Z;
  maxMessagesFromPeer : Z;
  addrToData : gmap string (list V);
  indexToData : gmap Z (list V)
}.
Arguments messagesCount {V}.
Arguments maxMessagesFromPeer {V}.
Arguments addrToData {V}.
Arguments indexToData {V}.

Definition newMessageStore {V} (n : Z) : messageStore V := mk_messageStore V 0 n ∅ ∅.

Definition messageStore_add {V} (ms : messageStore V) (addr : string) (index : Z) (val : V)
  : messageStore V :=
  let data := default [] (addrToData ms !! addr) in
  if Z.of_nat (length data) =? maxMessagesFromPeer ms then ms
  else
    mk_messageStore V (messagesCount ms + 1) (maxMessagesFromPeer ms)
      (<[addr := data ++ [val]]> (addrToData ms))
      (<[index := default [] (indexToData ms !! index) ++ [val]]> (indexToData ms)).

(** ** [BLSKeyring] *)

Record BLSKeyring : Type := mk_BLSKeyring {
  kr_PubPoly : PubPoly;
  kr_Share : option PriShare
}.

Record blsKeyringJSON : Type := mk_blsKeyringJSON {
  kj_Commitments : list bytes;
  kj_Share : bytes
}.

(** The loops that encode and decode the commitments stop at the first error. *)
Fixpoint all_res {A B} (f : A → B + error) (l : list A) : list B + error :=
  match l with
  | [] => inl []
  | x :: l =>
      match f x with
      | inr e => inr e
      | inl y => match all_res f l with inr e => inr e | inl ys => inl (y :: ys) end
      end
  end.

Definition wrap_res {A} (msg : string) (r : A + error) : A + error :=
  match r with inl a => inl a | inr e => inr (Wrap msg e) end.

Definition marshal_commitments (f : PubPoly) : list bytes + error :=
  all_res (fun c => wrap_res "failed to marshal commitment" (Point_MarshalBinary c)) (PubPoly_Info f).
Definition unmarshal_commitments (l : list bytes) : list Point + error :=
  all_res (fun b => wrap_res "failed to unmarshal commitment" (Point_UnmarshalBinary b)) l.

Context {json_keyring : JSON blsKeyringJSON}.

Definition marshal_keyring (j : blsKeyringJSON) : bytes + error :=
  match marshal j with Some b => inl b | None => inr (Err "json") end.

(** Encoding a [nil] share panics. The [gob] encoding of the commitments into
    a buffer that nothing reads cannot fail. *)
Definition BLSKeyring_Bytes (b : BLSKeyring) : Go (bytes + error) :=
  share ← (match kr_Share b with
           | Some share => Ret share
           | None => Panic "gob: cannot encode nil pointer"
           end);
  Ret (match gob_encode_share share with
       | None => inr (Wrap "failed to encode private key" (Err "gob"))
       | Some shareBuf =>
           match marshal_commitments (kr_PubPoly b) with
           | inr err => inr err
           | inl commitmentsBz => marshal_keyring (mk_blsKeyringJSON commitmentsBz shareBuf)
           end
       end).

Definition PubPolyBytes (b : BLSKeyring) : bytes + error :=
  match marshal_commitments (kr_PubPoly b) with
  | inr err => inr err
  | inl commitmentsBz => marshal_keyring (mk_blsKeyringJSON commitmentsBz "")
  end.

Definition LoadBLSKeyringFromBytes (data : bytes) : BLSKeyring + error :=
  match unmarshal data with
  | None => inr (Wrap "failed to unmarshal blsKeyringJson" (Err "json"))
  | Some j =>
      match unmarshal_commitments (kj_Commitments j) with
      | inr err => inr err
      | inl commitments =>
          match gob_decode_share (kj_Share j) with
          | None => inr (Wrap "failed to share" (Err "gob"))
          | Some priShare => inl (mk_BLSKeyring (NewPubPoly commitments) (Some priShare))
          end
      end
  end.

Definition LoadPubPolyBLSKeyringFromBytes (data : bytes) : BLSKeyring + error :=
  match unmarshal data with
  | None => inr (Wrap "failed to unmarshal blsKeyringJson" (Err "json"))
  | Some j =>
      match unmarshal_commitments (kj_Commitments j) with
      | inr err => inr err
      | inl commitments => inl (mk_BLSKeyring (NewPubPoly commitments) None)
      end
  end.
End types.
#[global] Arguments messagesCount {V}.
#[global] Arguments maxMessagesFromPeer {V}.
#[global] Arguments addrToData {V}.
#[global] Arguments indexToData {V}.

(** ** The object [DKG] *)

Section dkg.
Context {K : Kyber} {P : PedersenDKG} {sorter : PKSort} {ord : MapOrder}.

Record DKG : Type := mk_DKG {
  instance : option DistKeyGenerator;
  deals : gmap string Deal;
  commits : gmap string (list Point);
  responses : option (messageStore DkgResponse);
  pubKeys : list PK2Participant;
  dkg_pubKey : Point;
  dkg_secKey : option Scalar;
  suite : Suite;
  dkg_ParticipantID : Z;
  N : Z;
  Threshold : Z
}.

Definition Init (s : Suite) (pubKey : Point) (secKey : option Scalar) : DKG :=
  mk_DKG None ∅ ∅ None [] pubKey secKey s 0 0 0.

(** Assignments to the fields. *)
Definition set_instance i (d : DKG) : DKG :=
  mk_DKG i (deals d) (commits d) (responses d) (pubKeys d) (dkg_pubKey d) (dkg_secKey d) (suite d)
    (dkg_ParticipantID d) (N d) (Threshold d).
Definition set_deals x (d : DKG) : DKG :=
  mk_DKG (instance d) x (commits d) (responses d) (pubKeys d) (dkg_pubKey d) (dkg_secKey d) (suite d)
    (dkg_ParticipantID d) (N d) (Threshold d).
Definition set_commits x (d : DKG) : DKG :=
  mk_DKG (instance d) (deals d) x (responses d) (pubKeys d) (dkg_pubKey d) (dkg_secKey d) (suite d)
    (dkg_ParticipantID d) (N d) (Threshold d).
Definition set_responses x (d : DKG) : DKG :=
  mk_DKG (instance d) (deals d) (commits d) x (pubKeys d) (dkg_pubKey d) (dkg_secKey d) (suite d)
    (dkg_ParticipantID d) (N d) (Threshold d).
Definition set_pubKeys x (d : DKG) : DKG :=
  mk_DKG (instance d) (deals d) (commits d) (responses d) x (dkg_pubKey d) (dkg_secKey d) (suite d)
    (dkg_ParticipantID d) (N d) (Threshold d).
Definition set_ParticipantID x (d : DKG) : DKG :=
  mk_DKG (instance d) (deals d) (commits d) (responses d) (pubKeys d) (dkg_pubKey d) (dkg_secKey d)
    (suite d) x (N d) (Threshold d).
Definition set_sizes n t (d : DKG) : DKG :=
  mk_DKG (instance d) (deals d) (commits d) (responses d) (pubKeys d) (dkg_pubKey d) (dkg_secKey d)
    (suite d) (dkg_ParticipantID d) n t.

(** [commits[idx].Equal(otherCommits[idx])] for the indices of [commits]. *)
Fixpoint commits_equal (l other : list Point) : Go (option error) :=
  match l, other with
  | [], _ => Ret None
  | _ :: _, [] => Panic "index out of range"
  | c :: l, c' :: other =>
      if negb (Point_Equal c c') then Ret (Some (Err "commits are not equal")) else commits_equal l other
  end.

Definition first_difference {A} (cmp : A → Go (option error)) (acc : option error) (x : A)
  : Go (option error) :=
  match acc with Some err => Ret (Some err) | None => cmp x end.

Definition DKG_Equals (d other : DKG) : Go (option error) :=
  err ← foldM (first_difference (fun kv : string * list Point =>
          commits_equal kv.2 (default [] (commits other !! kv.1)))) None (range (commits d));
  match err with
  | Some err => Ret (Some err)
  | None =>
      foldM (first_difference (fun kv : string * Deal =>
        otherDeal ← deref (deals other !! kv.1);
        Ret (if negb (cmp_Equal (deal_Deal kv.2) (deal_Deal otherDeal))
             then Some (Err "deals are not equal") else None))) None (range (deals d))
  end.

Definition GetPubKeyByParticipant (d : DKG) (participant : string) : Point + error :=
  wrap_res "failed to get pk for participant" (GetPKByParticipant (pubKeys d) participant).

Definition GetParticipantByIndex (d : DKG) (index : Z) : Go string :=
  PKStore_GetParticipantByIndex (pubKeys d) index.

Definition GetPKByIndex (d : DKG) (index : Z) : Go (option Point) :=
  PKStore_GetPKByIndex (pubKeys d) index.

Definition StorePubKey (participant : string) (pid : Z) (pk : Point) : IO DKG bool := fun d =>
  let '(s, added) := PKStore_Add (pubKeys d) (mk_PK2Participant pid participant pk) in
  Ret (set_pubKeys s d, inl added).

Definition calcParticipantID (d : DKG) : Z :=
  match list_find (fun p => Point_Equal (PK p) (dkg_pubKey d) = true) (pubKeys d) with
  | Some (idx, _) => Z.of_nat idx
  | None => -1
  end.

(** [int(math.Pow(float64(participantsCount)-1, 2))], exact for any number of
    participants below two to the twenty-sixth. *)
Definition max_responses (participantsCount : Z) : Z := (participantsCount - 1) ^ 2.

Definition InitDKGInstance (seed : bytes) : IO DKG unit :=
  _ ← modify (fun d => set_pubKeys (sort_Sort (pubKeys d)) d);
  d ← gets id;
  let publicKeys := GetPKs (pubKeys d) in
  let participantsCount := Z.of_nat (length publicKeys) in
  let participantID := calcParticipantID d in
  if participantID <? 0 then throw (Err "failed to determine participant index")
  else
    _ ← modify (set_ParticipantID participantID);
    _ ← modify (set_responses (Some (newMessageStore (max_responses participantsCount))));
    r ← lift (NewDistKeyGenerator (suite d) (dkg_secKey d) publicKeys (Threshold d) seed);
    match r with
    | inr err => _ ← modify (set_instance None); throw err
    | inl i => modify (set_instance (Some i))
    end.

Definition the_instance : IO DKG DistKeyGenerator := i ← gets instance; lift (deref i).

Definition GetCommits : IO DKG (list Point) := i ← the_instance; mret (Dealer_Commits i).

Definition StoreCommits (participant : string) (l : list Point) : IO DKG unit :=
  modify (fun d => set_commits (<[participant := l]> (commits d)) d).

Definition GetDeals : IO DKG (gmap Z Deal) :=
  i ← the_instance;
  let '(i, r) := gen_Deals i in
  _ ← modify (set_instance (Some i));
  of_res r.

Definition StoreDeal (participant : string) (deal : Deal) : IO DKG unit :=
  modify (fun d => set_deals (<[participant := deal]> (deals d)) d).

(** [originalCommits[i].Equal(decryptedDeal.Commitments[i])] for lists of the
    same length. *)
Definition same_commits (l l' : list Point) : bool :=
  forallb (fun cc => Point_Equal cc.1 cc.2) (zip l l').

(** The receiver is a map entry that may be absent. *)
Definition processDealCommits (verifier : option Verifier) (deal : Deal) : IO DKG bool :=
  verifier ← lift (deref verifier);
  decryptedDeal ← of_res (DecryptDeal verifier (deal_Deal deal));
  d ← gets id;
  participant ← lift (PKStore_GetParticipantByIndex (pubKeys d) (deal_Index deal));
  match commits d !! participant with
  | None => mret false
  | Some originalCommits =>
      if negb (bool_decide (length originalCommits = length (vss_Commitments decryptedDeal))) then
        throw (Err "number of original commitments and number of commitments in the deal are not met")
      else if negb (same_commits originalCommits (vss_Commitments decryptedDeal)) then
        throw (Err "commits are different")
      else mret true
  end.

(** One deal of the loop. *)
Definition process_deal (acc : list DkgResponse) (deal : Deal) : IO DKG (list DkgResponse) :=
  d ← gets id;
  if deal_Index deal =? dkg_ParticipantID d mod 2 ^ 32 then mret acc
  else
    i ← the_instance;
    let '(i, r) := gen_ProcessDeal deal i in
    _ ← modify (set_instance (Some i));
    resp ← of_res r;
    commitsOK ← processDealCommits (gen_Verifiers i !! deal_Index deal) deal;
    response ← lift (deref (resp_Response resp));
    if negb (vss_Status response) || negb commitsOK then throw (Err "failed to process deals")
    else mret (acc ++ [resp]).

Definition ProcessDeals : IO DKG (list DkgResponse) :=
  d ← gets id;
  foldIO process_deal [] ((range (deals d)).*2).

(** The elements are pointers; the response store is a pointer too. *)
Definition store_response (participant : string) (resp : option DkgResponse) : IO DKG unit :=
  resp ← lift (deref resp);
  response ← lift (deref (resp_Response resp));
  d ← gets id;
  ms ← lift (deref (responses d));
  modify (set_responses (Some (messageStore_add ms participant (vss_Index response) resp))).

Definition StoreResponses (participant : string) (l : list (option DkgResponse)) : IO DKG unit :=
  iterIO (store_response participant) l.

Definition process_response (resp : DkgResponse) : IO DKG unit :=
  d ← gets id;
  response ← lift (deref (resp_Response resp));
  if vss_Index response =? dkg_ParticipantID d then mret tt
  else
    i ← the_instance;
    let '(i, err) := gen_ProcessResponse resp i in
    _ ← modify (set_instance (Some i));
    match err with Some err => throw (Wrap "failed to ProcessResponse" err) | None => mret tt end.

Definition ProcessResponses : IO DKG unit :=
  d ← gets id;
  ms ← lift (deref (responses d));
  _ ← iterIO process_response (mjoin ((range (indexToData ms)).*2));
  i ← the_instance;
  if negb (Certified i) then throw (Err "praticipant is not certified") else mret tt.

Definition GetDistKeyShare : IO DKG DistKeyShare := i ← the_instance; of_res (gen_DistKeyShare i).

Definition GetDistributedPublicKey : IO DKG Point :=
  i ← the_instance;
  match gen_DistKeyShare i with
  | inr _ => throw (Err "failed to get distKeyShare")
  | inl distKeyShare => mret (share_Public distKeyShare)
  end.

Definition GetBLSKeyring : IO DKG BLSKeyring :=
  i ← gets instance;
  match i with
  | None => throw (Err "dkg instance is not ready")
  | Some i =>
      if negb (Certified i) then throw (Err "dkg instance is not ready")
      else
        distKeyShare ← wrap "failed to get DistKeyShare" (of_res (gen_DistKeyShare i));
        mret (mk_BLSKeyring (NewPubPoly (share_Commitments distKeyShare))
                (Some (share_PriShare distKeyShare)))
  end.
End dkg.
