(* ===== verification/DkgSpec.v ===== *)
(** * The key generation, specified

    The deals that a participant accepts are the ones that agree with the
    commitments their dealer broadcast, and the bookkeeping of responses is
    bounded. *)

From S2P Require Import Prelude LevelState IOLogic Kyber Dkg.

Section spec.
Context {K : Kyber} {KS : KyberSpec} {P : PedersenDKG} {sorter : PKSort} {ord : MapOrder}.
Implicit Types (d : DKG).

(** Nothing but the key generator differs. *)
Definition same_round (d0 d : DKG) : Prop := d = set_instance (instance d) d0.

Lemma same_round_refl d : same_round d d.
Proof. by destruct d. Qed.
Lemma same_round_set d0 d i : same_round d0 d → same_round d0 (set_instance i d).
Proof. unfold same_round. intros ->. done. Qed.

(** The commitments that the deal carries are those that the dealer, the
    participant with the index of the deal, had broadcast. *)
Definition deal_agrees d (deal : Deal) : Prop :=
  ∃ verifier decrypted dealer, DecryptDeal verifier (deal_Deal deal) = inl decrypted ∧
    PKStore_GetParticipantByIndex (pubKeys d) (deal_Index deal) = Ret dealer ∧
    commits d !! dealer = Some (vss_Commitments decrypted).

Definition approves (resp : DkgResponse) : Prop :=
  ∃ r, resp_Response resp = Some r ∧ vss_Status r = true.

Lemma same_commits_spec l l' : length l = length l' → same_commits l l' = true → l = l'.
Proof.
  unfold same_commits. induction l as [|x l IH] in l' |- *; destruct l' as [|y l']; try done.
  cbn. intros [= Hlen] [Hxy Hl]%andb_prop. apply Point_Equal_spec in Hxy. subst. f_equal. by apply IH.
Qed.

Lemma processDealCommits_ok verifier deal d d' :
  processDealCommits verifier deal d = Ret (d', inl true) → d' = d ∧ deal_agrees d deal.
Proof.
  unfold processDealCommits, mbind, IO_bind, lift, of_res, gets. destruct verifier as [v|]; [|done]. cbn.
  destruct (DecryptDeal v (deal_Deal deal)) as [dec|e] eqn:Hdec; [|done]. cbn.
  destruct (PKStore_GetParticipantByIndex (pubKeys d) (deal_Index deal)) as [p|] eqn:Hp; [|done]. cbn.
  destruct (commits d !! p) as [orig|] eqn:Hc; [|done].
  destruct (bool_decide _) eqn:Hlen; [|done]. cbn. destruct (same_commits _ _) eqn:Hs; [|done]. cbn.
  intros [= <-]. split; [done|]. exists v, dec, p. split_and!; [done..|]. rewrite Hc. f_equal.
  apply same_commits_spec; [by apply bool_decide_eq_true in Hlen|done].
Qed.

Definition own_deal d (deal : Deal) : bool := deal_Index deal =? dkg_ParticipantID d mod 2 ^ 32.

Lemma process_deal_ok d0 acc deal d d' acc' :
  same_round d0 d → process_deal acc deal d = Ret (d', inl acc') →
  same_round d0 d' ∧
  if own_deal d0 deal then acc' = acc
  else deal_agrees d0 deal ∧ ∃ resp, acc' = acc ++ [resp] ∧ approves resp.
Proof.
  intros Hd. unfold process_deal, mbind, IO_bind, gets. cbn [id].
  assert (own_deal d deal = own_deal d0 deal) as Hown by (rewrite Hd; done). unfold own_deal in Hown at 1.
  rewrite Hown. destruct (own_deal d0 deal); [by intros [= <- <-]|].
  unfold the_instance, mbind, IO_bind, gets, lift. destruct (instance d) as [g|]; [|done]. cbn [deref].
  destruct (gen_ProcessDeal deal g) as [g' r]. unfold modify, of_res. destruct r as [resp|e]; [|done].
  match goal with |- context [processDealCommits ?v _ ?x] =>
    destruct (processDealCommits v deal x) as [[d2 [ok|e]]|] eqn:Hc; [|done..] end.
  destruct (resp_Response resp) as [r|] eqn:Hr; [|done]. cbn [deref].
  destruct (vss_Status r) eqn:Hst; [|done]. destruct ok; [|done]. cbn. intros [= <- <-].
  apply processDealCommits_ok in Hc as [-> Hag]. split; [by apply same_round_set|].
  split; [|by exists resp; split; [|exists r]]. unfold deal_agrees in *. by rewrite Hd in Hag.
Qed.

Lemma process_deals_ok d0 ds acc d d' resps :
  same_round d0 d → foldIO process_deal acc ds d = Ret (d', inl resps) →
  same_round d0 d' ∧ Forall (fun deal => own_deal d0 deal = false → deal_agrees d0 deal) ds ∧
  ∃ new, resps = acc ++ new ∧ Forall approves new ∧
    length new = length (filter (fun deal => own_deal d0 deal = false) ds).
Proof.
  induction ds as [|deal ds IH] in acc, d |- *; intros Hd; cbn [foldIO].
  - intros [= <- <-]. split_and!; [done|constructor|]. exists []. by rewrite app_nil_r.
  - unfold mbind at 1, IO_bind at 1. destruct (process_deal acc deal d) as [[d1 [acc1|e]]|] eqn:Hp; [|done..].
    intros Hrun. destruct (process_deal_ok d0 _ _ _ _ _ Hd Hp) as [Hd1 Hone].
    destruct (IH acc1 d1 Hd1 Hrun) as (Hd' & Hall & new & -> & Happ & Hlen). split; [done|].
    destruct (own_deal d0 deal) eqn:Hown.
    + subst acc1. split; [by constructor; [congruence|]|]. exists new. split_and!; [done..|].
      by rewrite filter_cons_False by congruence.
    + destruct Hone as [Hag (resp & -> & Hresp)]. split; [by constructor|].
      exists (resp :: new). rewrite <-app_assoc. split_and!; [done|by constructor|].
      rewrite filter_cons_True by done. cbn. by rewrite Hlen.
Qed.

(** C10. When the deals of a round are processed, then every deal of another
    participant agrees with what its dealer broadcast in the commitment phase:
    the commitments inside the decrypted deal are, one by one, the stored ones.
    Each of these deals has one response, and every response approves. The
    processing changes nothing but the key generator. *)
Theorem accepted_deals_match_commitments d d' resps :
  ProcessDeals d = Ret (d', inl resps) →
  same_round d d' ∧
  (∀ from deal, deals d !! from = Some deal → deal_Index deal ≠ dkg_ParticipantID d mod 2 ^ 32 →
    deal_agrees d deal) ∧
  Forall approves resps ∧
  length resps = length (filter (fun deal => deal_Index deal ≠ dkg_ParticipantID d mod 2 ^ 32)
                           (map_to_list (deals d)).*2).
Proof.
  unfold ProcessDeals, mbind, IO_bind, gets. cbn [id]. intros Hrun.
  destruct (process_deals_ok d _ [] d d' resps (same_round_refl d) Hrun) as (Hd & Hall & new & -> & Happ & Hlen).
  split; [done|]. split; [|split; [done|]].
  - intros from deal Hdeal Hown. rewrite Forall_forall in Hall. apply Hall.
    + apply list_elem_of_fmap. exists (from, deal). split; [done|]. rewrite range_perm. by apply elem_of_map_to_list.
    + unfold own_deal. by apply Z.eqb_neq.
  - cbn. rewrite Hlen. rewrite (range_perm (deals d)).
    f_equal. apply list_filter_iff. intros x. unfold own_deal. by rewrite Z.eqb_neq.
Qed.
End spec.
