(* ===== verification/SigningTasks.v ===== *)
(** * The messages of a signing batch

    [fsm/types/requests/signing_proposal.go] and [pkg/wc_rotation/rotation.go]:
    a task of a batch is a payload, or a range of the validators whose
    withdrawal credentials are rotated; the messages of the range are computed
    from the embedded list of validators. The list, which the build embeds, and
    the SSZ hasher are parameters. *)

From stdpp Require Import pretty.
From S2P Require Import Prelude Requests.

(** ** [strings.Split] and [strconv.ParseInt] *)

(** [strings.Split(s, sep)] for a separator of one byte. *)
Fixpoint split_on (sep : ascii) (s : string) : list string :=
  match s with
  | EmptyString => [""]
  | String c s =>
      if Ascii.eqb c sep then "" :: split_on sep s
      else match split_on sep s with
           | w :: l => String c w :: l
           | [] => [String c ""]
           end
  end.

Definition digit_value (c : ascii) : option Z :=
  let n := Z.of_N (N_of_ascii c) in
  if (48 <=? n) && (n <=? 57) then Some (n - 48) else None.

Fixpoint parse_digits (acc : Z) (s : string) : option Z :=
  match s with
  | EmptyString => Some acc
  | String c s => d ← digit_value c; parse_digits (acc * 10 + d) s
  end.

(** [strconv.ParseUint(s, 10, 64)] *)
Definition ParseUint (s : string) : option Z :=
  if s =s? "" then None
  else v ← parse_digits 0 s; if v <? 2 ^ 64 then Some v else None.

(** [strconv.ParseInt(s, 10, 64)]: an optional sign and digits, in range. *)
Definition ParseInt (s : string) : option Z :=
  match s with
  | String "-" s => v ← ParseUint s; if v <=? 2 ^ 63 then Some (- v) else None
  | String "+" s => v ← ParseUint s; if v <? 2 ^ 63 then Some v else None
  | s => v ← ParseUint s; if v <? 2 ^ 63 then Some v else None
  end.

(** ** [pkg/wc_rotation] *)

Definition byte_string (l : list nat) : bytes := foldr (fun n s => String (ascii_of_nat n) s) "" l.

Definition GenesisForkVersion : bytes := byte_string [0; 0; 0; 0]%nat.
Definition DomainBlsToExecutionChange : bytes := byte_string [10; 0; 0; 0]%nat.
Definition GenesisValidatorRoot : bytes := byte_string
  [75; 54; 61; 185; 78; 40; 97; 32; 215; 110; 185; 5; 52; 15; 221; 78; 84; 191; 233; 240; 107; 243;
   63; 246; 207; 90; 210; 127; 81; 27; 254; 149]%nat.
Definition LidoBlsPubKeyBB : bytes := byte_string
  [182; 122; 202; 113; 240; 75; 103; 48; 55; 181; 64; 9; 183; 96; 241; 150; 31; 56; 54; 229; 113;
   65; 65; 200; 146; 175; 219; 117; 236; 8; 52; 220; 230; 120; 77; 156; 114; 237; 138; 215; 219; 50;
   140; 255; 143; 233; 241; 62]%nat.
Definition ToExecutionAddress : bytes := byte_string
  [185; 215; 147; 72; 120; 181; 251; 150; 16; 179; 254; 138; 94; 68; 30; 143; 173; 126; 41; 63]%nat.

(** What [HashTreeRootWith] puts into the hasher, field by field, before it
    merkleizes; the root of it is the parameter. *)
Inductive ssz_field : Type := SszUint64 (v : Z) | SszBytes (b : bytes).

Class WcRotation : Type := {
  ValidatorsIndexes : string;
  ssz_root : list ssz_field → bytes + error
}.

Section rotation.
Context {wc : WcRotation}.

Definition ForkData_root (CurrentVersion GenesisValidatorsRoot : bytes) : bytes + error :=
  ssz_root [SszBytes CurrentVersion; SszBytes GenesisValidatorsRoot].
Definition BLSToExecutionChange_root (ValidatorIndex : Z) (FromBlsPubkey Address : bytes)
  : bytes + error :=
  ssz_root [SszUint64 ValidatorIndex; SszBytes FromBlsPubkey; SszBytes Address].
Definition SigningData_root (ObjectRoot Domain : bytes) : bytes + error :=
  ssz_root [SszBytes ObjectRoot; SszBytes Domain].

Definition computeForkDataRoot (forkVersion genesisValidatorsRoot : bytes) : bytes + error :=
  ForkData_root forkVersion genesisValidatorsRoot.

(** The arrays have a fixed length, so the guards for empty ones are dead. *)
Definition computeDomain (domainType forkVersion genesisValidatorsRoot : bytes) : bytes + error :=
  match computeForkDataRoot forkVersion genesisValidatorsRoot with
  | inr err => inr err
  | inl forkDataRoot => inl (domainType +:+ String.substring 0 28 forkDataRoot)
  end.

Definition GetSigningRoot (validatorIndex : Z) : bytes + error :=
  match computeDomain DomainBlsToExecutionChange GenesisForkVersion GenesisValidatorRoot with
  | inr err => inr err
  | inl domain =>
      match BLSToExecutionChange_root validatorIndex LidoBlsPubKeyBB ToExecutionAddress with
      | inr err => inr err
      | inl objRoot => SigningData_root objRoot domain
      end
  end.

(** ** [MessageToSign] *)

Record MessageToSign : Type := mk_MessageToSign {
  mts_MessageID : string;
  mts_File : string;
  mts_Payload : bytes;
  mts_BakedDataPayload : bool
}.

Definition MessageToSign_Validate (m : MessageToSign) : option error :=
  first_error
    [(mts_MessageID m =s? "", "{MessageID} cannot be empty");
     (slen (mts_Payload m) =? 0, "{Payload} cannot zero length")].

Definition newline : ascii := "010".
Definition validatorsIDS : list string := split_on newline ValidatorsIndexes.

(** A negative index passes the guard and panics. *)
Definition ReconstructBakedMessage (id : Z) : Go (MessageToSign + error) :=
  if Z.of_nat (length validatorsIDS) <=? id
  then Ret (inr (Err "index validator is out off the validator's list"))
  else if id <? 0 then Panic "index out of range"
  else
    let v := default "" (validatorsIDS !! Z.to_nat id) in
    Ret (match ParseInt v with
         | None => inr (Wrap "failed to parse int from str" (Err "strconv"))
         | Some vID =>
             match GetSigningRoot (vID mod 2 ^ 64) with
             | inr err => inr (Wrap "failed to get signed root" err)
             | inl root =>
                 inl (mk_MessageToSign v ("bakedrange" +:+ pretty id) root true)
             end
         end).

(** The loop [for i := i; i < m.RangeEnd; i++], of so many iterations. *)
Fixpoint baked_range (n : nat) (i : Z) (signData : list MessageToSign)
  : Go (list MessageToSign + error) :=
  match n with
  | O => Ret (inl signData)
  | S n =>
      r ← ReconstructBakedMessage i;
      match r with
      | inr err => Ret (inr (Wrap "failed to ReconstructBakedMessage" err))
      | inl data => baked_range n (i + 1) (signData ++ [data])
      end
  end.

Definition task_messages (signData : list MessageToSign) (m : SigningTask)
  : Go (list MessageToSign + error) :=
  match st_Payload m with
  | Some payload =>
      Ret (inl (signData ++ [mk_MessageToSign (st_MessageID m) (st_File m) payload false]))
  | None => baked_range (Z.to_nat (st_RangeEnd m - st_RangeStart m)) (st_RangeStart m) signData
  end.

Fixpoint tasks_loop (signData : list MessageToSign) (msgs : list SigningTask)
  : Go (list MessageToSign + error) :=
  match msgs with
  | [] => Ret (inl signData)
  | m :: msgs =>
      r ← task_messages signData m;
      match r with
      | inr err => Ret (inr err)
      | inl signData => tasks_loop signData msgs
      end
  end.

Definition TasksToMessages (msgs : list SigningTask) : Go (list MessageToSign + error) :=
  tasks_loop [] msgs.
End rotation.
