(* ===== verification/TaskSpec.v ===== *)
(** * The messages of a batch, specified

    What [TasksToMessages] makes of a batch, by a definition without loops and
    without panics: a payload is one message, a range is the embedded
    validators from its start up to its end. *)

From stdpp Require Import pretty.
From S2P Require Import Prelude Requests SigningTasks.

Section spec.
Context {wc : WcRotation}.

(** The message of a validator of the embedded list. *)
Definition baked_message (id : Z) : option MessageToSign :=
  match (if id <? 0 then None else validatorsIDS !! Z.to_nat id) with
  | None => None
  | Some v =>
      match ParseInt v with
      | None => None
      | Some vID =>
          match GetSigningRoot (vID mod 2 ^ 64) with
          | inl root => Some (mk_MessageToSign v ("bakedrange" +:+ pretty id) root true)
          | inr _ => None
          end
      end
  end.

Definition task_spec (t : SigningTask) : option (list MessageToSign) :=
  match st_Payload t with
  | Some payload => Some [mk_MessageToSign (st_MessageID t) (st_File t) payload false]
  | None => mapM baked_message (seqZ (st_RangeStart t) (st_RangeEnd t - st_RangeStart t))
  end.

Definition batch_spec (ts : list SigningTask) : option (list MessageToSign) :=
  mjoin <$> mapM task_spec ts.

(** A range that does not start before the list. *)
Definition starts_ok (t : SigningTask) : Prop :=
  is_Some (st_Payload t) ∨ 0 ≤ st_RangeStart t ∨ st_RangeEnd t ≤ st_RangeStart t.

(** The outcome: a result, or an error and then no result of the
    specification. *)
Definition meets {A} (m : Go (A + error)) (o : option A) : Prop :=
  match m with
  | Ret (inl a) => o = Some a
  | Ret (inr _) => o = None
  | Panic _ => False
  end.

Lemma ReconstructBakedMessage_ok id : 0 ≤ id → meets (ReconstructBakedMessage id) (baked_message id).
Proof.
  intros Hid. unfold ReconstructBakedMessage, baked_message. rewrite (proj2 (Z.ltb_ge id 0) Hid).
  destruct (Z.leb_spec (Z.of_nat (length validatorsIDS)) id) as [Hlen|Hlen].
  - by rewrite lookup_ge_None_2 by lia.
  - destruct (lookup_lt_is_Some_2 validatorsIDS (Z.to_nat id)) as [v ->]; [lia|]. cbn.
    destruct (ParseInt v); [|done]. by destruct (GetSigningRoot _).
Qed.

Lemma baked_range_ok n i acc :
  0 ≤ i → meets (baked_range n i acc) (app acc <$> mapM baked_message (seqZ i (Z.of_nat n))).
Proof.
  induction n as [|n IH] in i, acc |- *; intros Hi.
  { rewrite seqZ_nil by lia. unfold meets. cbn. by rewrite app_nil_r. }
  rewrite seqZ_cons, <-Nat2Z.inj_pred, Nat.pred_succ by lia. cbn [baked_range mapM].
  pose proof (ReconstructBakedMessage_ok i Hi) as Hm.
  destruct (ReconstructBakedMessage i) as [[m|e]|]; [|by rewrite Hm|done]. cbn. rewrite Hm. cbn.
  specialize (IH (Z.succ i) (acc ++ [m]) ltac:(lia)).
  destruct (mapM baked_message (seqZ (Z.succ i) (Z.of_nat n))) as [l|]; cbn in IH |- *; [|exact IH].
  by rewrite <-app_assoc in IH.
Qed.

Lemma task_messages_ok acc t :
  starts_ok t → meets (task_messages acc t) (app acc <$> task_spec t).
Proof.
  unfold starts_ok, task_messages, task_spec. destruct (st_Payload t) as [p|]; [done|].
  intros [[? [=]]|[H|H]].
  2:{ replace (Z.to_nat (st_RangeEnd t - st_RangeStart t)) with 0%nat by lia. rewrite seqZ_nil by lia.
      cbn. by rewrite app_nil_r. }
  pose proof (baked_range_ok (Z.to_nat (st_RangeEnd t - st_RangeStart t)) (st_RangeStart t) acc H) as Hb.
  destruct (decide (st_RangeEnd t ≤ st_RangeStart t)).
  - replace (Z.to_nat (st_RangeEnd t - st_RangeStart t)) with 0%nat in * by lia. rewrite seqZ_nil in * by lia. exact Hb.
  - by rewrite Z2Nat.id in Hb by lia.
Qed.

Lemma tasks_loop_ok acc ts :
  Forall starts_ok ts → meets (tasks_loop acc ts) (app acc <$> batch_spec ts).
Proof.
  unfold batch_spec. intros Hts. induction Hts as [|t ts Ht _ IH] in acc |- *; [cbn; by rewrite app_nil_r|].
  cbn [tasks_loop mapM]. pose proof (task_messages_ok acc t Ht) as Hm.
  destruct (task_messages acc t) as [[l|e]|]; [| |done]; destruct (task_spec t) as [l'|]; try done; cbn in Hm |- *.
  injection Hm as <-. specialize (IH (acc ++ l')). destruct (mapM task_spec ts) as [ls|]; cbn in IH |- *; [|exact IH].
  by rewrite <-app_assoc in IH.
Qed.

(** A range that starts before the list panics as soon as it is not empty. *)
Lemma negative_start_panics acc t :
  st_Payload t = None → st_RangeStart t < 0 → st_RangeStart t < st_RangeEnd t →
  ∃ why, task_messages acc t = Panic why.
Proof.
  intros Hp Hs He. unfold task_messages. rewrite Hp.
  destruct (Z.to_nat (st_RangeEnd t - st_RangeStart t)) as [|n] eqn:Hn; [lia|].
  cbn [baked_range]. unfold ReconstructBakedMessage.
  rewrite (proj2 (Z.leb_gt _ _)) by lia. rewrite (proj2 (Z.ltb_lt _ _) Hs). by eexists.
Qed.

(** C29. The messages of a batch are those of its tasks in order: a payload as it
    is, a range as the embedded validators from its start up to, not including,
    its end, each with the root to sign. A range that reaches past the list, a
    validator that is not a number or a root that cannot be computed is an
    error, and nothing panics but a non-empty range with a negative start, whatever
    follows it; an empty range adds nothing, wherever it starts. *)
Theorem batch_messages_spec ts :
  (Forall starts_ok ts →
    match TasksToMessages ts with
    | Ret (inl l) => batch_spec ts = Some l
    | Ret (inr _) => batch_spec ts = None
    | Panic _ => False
    end) ∧
  ∀ pre t post, ts = pre ++ t :: post → Forall starts_ok pre → is_Some (batch_spec pre) →
    st_Payload t = None → st_RangeStart t < 0 → st_RangeStart t < st_RangeEnd t →
    ∃ why, TasksToMessages ts = Panic why.
Proof.
  split.
  - intros Hts. pose proof (tasks_loop_ok [] ts Hts) as H. unfold TasksToMessages.
    assert (∀ o : option (list MessageToSign), app [] <$> o = o) as Hid by (by intros []). rewrite Hid in H. exact H.
  - intros pre t post -> Hpre [l Hl] Hp Hs He. unfold TasksToMessages.
    destruct (negative_start_panics l t Hp Hs He) as [why Hwhy]. exists why.
    assert (∀ acc l', batch_spec pre = Some l' → tasks_loop acc (pre ++ t :: post) = tasks_loop (acc ++ l') (t :: post)) as Hrun.
    { clear Hl Hwhy l. induction Hpre as [|x pre Hx _ IH]; intros acc l' Hl'.
      - injection Hl' as <-. by rewrite app_nil_r.
      - cbn [app tasks_loop]. pose proof (task_messages_ok acc x Hx) as Hm. unfold batch_spec in Hl'. cbn in Hl'.
        destruct (task_spec x) as [lx|]; [|done]. cbn in Hl'. destruct (mapM task_spec pre) as [ls|] eqn:Hls; [|done].
        injection Hl' as <-. destruct (task_messages acc x) as [[l2|e]|]; [|done..]. cbn in Hm. injection Hm as <-.
        cbn. rewrite (IH (acc ++ lx) (mjoin ls)) by (unfold batch_spec; by rewrite Hls). cbn. by rewrite <-app_assoc. }
    rewrite (Hrun [] l Hl). cbn [app tasks_loop]. by rewrite Hwhy.
Qed.
End spec.

(** ** A batch *)

Module TaskSample.
#[local] Instance three_validators : WcRotation := {
  ValidatorsIndexes := "393395" +:+ String newline ("393401" +:+ String newline "393407");
  ssz_root l := inl "root"
}.

Definition letter : SigningTask := mk_SigningTask "m1" "letter" (Some "text") 0 0.
Definition validators : SigningTask := mk_SigningTask "m2" "" None 1 3.
Definition nothing : SigningTask := mk_SigningTask "m4" "" None (-5) (-7).
Definition before_the_list : SigningTask := mk_SigningTask "m3" "" None (-1) 1.

Lemma batch_messages_spec_witness :
  TasksToMessages [letter; nothing; validators] =
    Ret (inl [mk_MessageToSign "m1" "letter" "text" false; mk_MessageToSign "393401" "bakedrange1" "root" true;
              mk_MessageToSign "393407" "bakedrange2" "root" true]) ∧
  batch_spec [letter; nothing; validators] =
    Some [mk_MessageToSign "m1" "letter" "text" false; mk_MessageToSign "393401" "bakedrange1" "root" true;
          mk_MessageToSign "393407" "bakedrange2" "root" true] ∧
  ∃ why, TasksToMessages [letter; before_the_list; validators] = Panic why.
Proof.
  assert (TasksToMessages [letter; nothing; validators] =
    Ret (inl [mk_MessageToSign "m1" "letter" "text" false; mk_MessageToSign "393401" "bakedrange1" "root" true;
              mk_MessageToSign "393407" "bakedrange2" "root" true])) as Hrun by (vm_compute; reflexivity).
  split; [exact Hrun|]. split.
  - pose proof (proj1 (batch_messages_spec [letter; nothing; validators])) as H. rewrite Hrun in H. apply H.
    constructor; [left; by eexists|]. constructor; [right; right; cbn; lia|].
    constructor; [right; left; cbn; lia|constructor].
  - apply (proj2 (batch_messages_spec [letter; before_the_list; validators]) [letter] before_the_list [validators]);
      [reflexivity|constructor; [left; by eexists|constructor]|by eexists|reflexivity|cbn; lia|cbn; lia].
Defined.
End TaskSample.
