(* ===== verification/KeyStore.v ===== *)
(** * The key store, [client/modules/keystore/keystore.go]

    The communication keys of the users of a node: one JSON object in a LevelDB
    database of its own. *)

From S2P Require Import Prelude LevelState ClientTypes Codec IOLogic.

(** [crypto/ed25519] for the side that signs. *)
Class SigningCrypto : Type := {
  ed25519_Sign : bytes → bytes → bytes;
  sha256_Sum256 : bytes → bytes;
  (** [ed25519.GenerateKey(nil)] from the bytes it reads: public, private *)
  ed25519_GenerateKey : bytes → bytes * bytes
}.

(** [ed25519.Sign] panics on a private key of another size than 64 bytes. *)
Definition PrivateKeySize : Z := 64.
Definition Sign `{!SigningCrypto} (privateKey message : bytes) : Go bytes :=
  if negb (slen privateKey =? PrivateKeySize) then Panic "ed25519: bad private key length"
  else Ret (ed25519_Sign privateKey message).

Record KeyPair : Type := mk_KeyPair { Pub : bytes; Priv : bytes }.

#[export] Instance KeyPair_eq_dec : EqDecision KeyPair.
Proof. solve_decision. Defined.
#[export] Instance KeyPair_countable : Countable KeyPair.
Proof.
  refine (inj_countable' (fun k => (Pub k, Priv k)) (fun '(a, b) => mk_KeyPair a b) _). by intros [].
Defined.

Definition NewKeyPair `{!SigningCrypto} (seed : bytes) : KeyPair :=
  let '(pub, priv) := ed25519_GenerateKey seed in mk_KeyPair pub priv.

Definition GetAddr (p : KeyPair) : string := hex_EncodeToString (Pub p).

Definition secretsKey : string := "secrets".

(** The interface [KeyStore]. Key pairs are pointers. *)
Class KeyStore (S : Type) : Type := {
  keystore_PutKeys : string → option KeyPair → IO S unit;
  keystore_LoadKeys : string → string → IO S (option KeyPair)
}.

(** [map[string]*KeyPair] *)
Abbreviation KeyPairs := (gomap string (option KeyPair)) (only parsing).

Section level_keystore.
Context {DB W : Type} {ldb : LevelDB DB W} {json_pairs : JSON KeyPairs}.

Record LevelDBKeyStore : Type := mk_LevelDBKeyStore { keystoreDb : DB }.

(** The object and the disk. *)
Abbreviation KS := (LevelDBKeyStore * W)%type (only parsing).

Definition ks_Get (key : bytes) : IO KS bytes := fun '(s, w) =>
  Ret ((s, w), leveldb_Get (keystoreDb s) key w).
Definition ks_Put (key value : bytes) : IO KS unit := fun '(s, w) =>
  match leveldb_Put (keystoreDb s) key value w with
  | (w, Some err) => Ret ((s, w), inr err)
  | (w, None) => Ret ((s, w), inl tt)
  end.

Definition keystore_initJsonKey (key : string) (data : KeyPairs) : IO KS unit :=
  r ← try (ks_Get key);
  match r with
  | inl _ => mret tt
  | inr _ =>
      dataBz ← json_res "failed to marshal storage structure" (marshal data);
      wrap "failed to init state" (ks_Put key dataBz)
  end.

(** The constructor; the database is opened at [keystorePath]. *)
Definition NewLevelDBKeyStore (username keystorePath : string) : IO W LevelDBKeyStore := fun w =>
  match leveldb_OpenFile keystorePath w with
  | (w, inr err) => Ret (w, inr (Wrap "failed to open keystore" err))
  | (w, inl db) =>
      let keystore := mk_LevelDBKeyStore db in
      match leveldb_Get db secretsKey w with
      | inl _ => Ret (w, inl keystore)
      | inr _ =>
          match wrap "failed to init storage" (keystore_initJsonKey secretsKey (Some ∅)) (keystore, w) with
          | Ret ((keystore, w), inl _) => Ret (w, inl keystore)
          | Ret ((keystore, w), inr err) => Ret (w, inr err)
          | Panic why => Panic why
          end
      end
  end.

Definition PutKeys (username : string) (keyPair : option KeyPair) : IO KS unit :=
  bz ← wrap "failed to read keystore" (ks_Get secretsKey);
  keyPairs ← json_res "failed to unmarshak key pairs" (unmarshal bz);
  keyPairs ← lift (gomap_insert keyPairs username keyPair);
  keyPairsBz ← json_res "failed to marshal key pair" (marshal keyPairs);
  wrap "failed to put key pairs" (ks_Put secretsKey keyPairsBz).

(** The password is not used. *)
Definition LoadKeys (userName password : string) : IO KS (option KeyPair) :=
  bz ← wrap "failed to read keystore" (ks_Get secretsKey);
  keyPairs ← json_res "failed to unmarshal key pairs" (unmarshal bz);
  match gomap_lookup keyPairs userName with
  | None => throw (Err "no key pair found for user")
  | Some keyPair => mret keyPair
  end.

#[export] Instance LevelDBKeyStore_KeyStore : KeyStore KS := {
  keystore_PutKeys := PutKeys;
  keystore_LoadKeys := LoadKeys
}.
End level_keystore.
Arguments LevelDBKeyStore DB : clear implicits.

(** ** What the node relies on *)

(** The keys a key store holds, and that loading reads them. *)
Class KeyStoreSpec (S : Type) `{!KeyStore S} : Type := {
  keys_ready : S → Prop;
  keys_of : S → gmap string (option KeyPair);
  LoadKeys_ready s u pw : keys_ready s →
    keystore_LoadKeys u pw s =
      Ret (s, match keys_of s !! u with Some k => inl k | None => inr (Err "no key pair found for user") end)
}.

(** A signature verifies under the public key of the pair that made it. *)
Definition key_pair_ok `{!Crypto, !SigningCrypto} (k : KeyPair) : Prop :=
  slen (Pub k) = PublicKeySize ∧ slen (Priv k) = PrivateKeySize ∧
  ∀ msg, ed25519_Verify (Pub k) msg (ed25519_Sign (Priv k) msg) = true.

(** ** The key store keeps keys *)

Section keystore_spec.
Context {DB W : Type} {ldb : LevelDB DB W} {lerr : LevelDBErr} {lspec : LevelDBSpec DB W}
  {json_pairs : JSON KeyPairs} {jmap : JSONMap (option KeyPair)}.
Implicit Types (x : LevelDBKeyStore DB * W) (m : gmap string (option KeyPair)).

(** The database works and holds the pairs [m]. *)
Definition holds_keys m x : Prop :=
  live (keystoreDb x.1) x.2 ∧ map_Forall entry_fits m ∧
  ∃ b, disk (path_of (keystoreDb x.1)) x.2 !! secretsKey = Some b ∧ unmarshal b = Some (Some m).

Lemma ks_Get_ok m x : holds_keys m x → ∃ b, ks_Get secretsKey x = Ret (x, inl b) ∧ unmarshal b = Some (Some m).
Proof.
  destruct x as [s w]. intros (Hl & _ & b & Hb & Hu). exists b. split; [|done].
  unfold ks_Get. by rewrite (leveldb_Get_live _ _ _ Hl), Hb.
Qed.

Lemma ks_Put_ok x b m :
  live (keystoreDb x.1) x.2 → map_Forall entry_fits m → unmarshal b = Some (Some m) →
  ∃ x', ks_Put secretsKey b x = Ret (x', inl tt) ∧ holds_keys m x' ∧ x'.1 = x.1.
Proof.
  destruct x as [s w]. intros Hl Hf Hu. cbn in Hl. unfold ks_Put.
  destruct (leveldb_Put_live _ secretsKey b _ Hl) as (w' & -> & Hl' & Hd & _).
  exists (s, w'). split_and!; [done| |done]. split_and!; [done..|]. exists b. cbn.
  by rewrite Hd, lookup_insert_eq.
Qed.

Lemma NewLevelDBKeyStore_ok m x w d name :
  holds_keys m x → leveldb_OpenFile (path_of (keystoreDb x.1)) x.2 = (w, inl d) →
  NewLevelDBKeyStore name (path_of (keystoreDb x.1)) x.2 = Ret (w, inl (mk_LevelDBKeyStore d)) ∧
  holds_keys m (mk_LevelDBKeyStore d, w).
Proof.
  intros (_ & Hf & b & Hb & Hu) Hopen. destruct (leveldb_OpenFile_live _ _ _ _ Hopen) as (Hl & Hp & Hd).
  assert (disk (path_of d) w !! secretsKey = Some b) as Hw by by rewrite Hp, Hd.
  split; [|split_and!; eauto].
  unfold NewLevelDBKeyStore. by rewrite Hopen, (leveldb_Get_live _ _ _ Hl), Hw.
Qed.

Lemma LoadKeys_ok m x u pw :
  holds_keys m x → LoadKeys u pw x =
    Ret (x, match m !! u with Some k => inl k | None => inr (Err "no key pair found for user") end).
Proof.
  intros Hx. destruct (ks_Get_ok m x Hx) as (b & Hg & Hu). unfold LoadKeys. io_step Hg.
  rewrite Hu. unfold mbind, IO_bind. cbn. destruct (m !! u); reflexivity.
Qed.

(** Keys that were put are loaded again, the other users' keys are as before,
    and a store that is opened again on the same path finds them all; opening
    never loses keys. *)
Theorem keystore_roundtrip m x u k pw :
  holds_keys m x → entry_fits u k →
  ∃ x', PutKeys u k x = Ret (x', inl tt) ∧ LoadKeys u pw x' = Ret (x', inl k) ∧
    (∀ u', u' ≠ u → ∀ pw', LoadKeys u' pw' x' =
       match LoadKeys u' pw' x with Ret (_, r) => Ret (x', r) | Panic w => Panic w end) ∧
    ∀ w d name, leveldb_OpenFile (path_of (keystoreDb x.1)) x'.2 = (w, inl d) →
      ∃ x2, NewLevelDBKeyStore name (path_of (keystoreDb x.1)) x'.2 = Ret (x2.2, inl x2.1) ∧
        ∀ u' pw', LoadKeys u' pw' x2 =
          match LoadKeys u' pw' x' with Ret (_, r) => Ret (x2, r) | Panic w => Panic w end.
Proof.
  intros Hx Hk. destruct (ks_Get_ok m x Hx) as (b & Hg & Hu).
  assert (map_Forall entry_fits (<[u := k]> m)) as Hf by (apply map_Forall_insert_2; [done|apply Hx]).
  destruct (map_roundtrip _ Hf) as (b' & Hb' & _ & Hu').
  destruct (ks_Put_ok x b' _ (proj1 Hx) Hf Hu') as (x' & Hput & Hx' & Hobj).
  exists x'. split_and!.
  - unfold PutKeys. io_step Hg. rewrite Hu. unfold mbind, IO_bind. cbn. rewrite Hb'. cbn.
    by rewrite (wrap_ret _ _ _ _ _ Hput).
  - by rewrite (LoadKeys_ok _ _ _ _ Hx'), lookup_insert_eq.
  - intros u' Hne pw'. by rewrite (LoadKeys_ok _ _ _ _ Hx'), (LoadKeys_ok _ _ _ _ Hx), lookup_insert_ne.
  - intros w d name Hopen. rewrite <-Hobj in Hopen.
    destruct (NewLevelDBKeyStore_ok _ _ _ _ name Hx' Hopen) as [Hnew Hx2]. rewrite Hobj in Hnew.
    exists (mk_LevelDBKeyStore d, w). split; [exact Hnew|]. intros u' pw'.
    by rewrite (LoadKeys_ok _ _ _ _ Hx2), (LoadKeys_ok _ _ _ _ Hx').
Qed.
End keystore_spec.

(** ** A key store in memory *)

Module KeySample.
Import MemDB.

#[local] Existing Instance map_json.
#[local] Existing Instance map_json_map.

Definition alice : KeyPair := mk_KeyPair "alice-pub" "alice-priv".

Definition new_keystore : (LevelDBKeyStore string * Disk) :=
  match NewLevelDBKeyStore "alice" "keys" (∅ : Disk) with
  | Ret (w, inl s) => (s, w)
  | _ => (mk_LevelDBKeyStore "keys", ∅)
  end.

Lemma keystore_roundtrip_witness :
  ∃ x' x2, PutKeys "alice" (Some alice) new_keystore = Ret (x', inl tt) ∧
    LoadKeys "alice" "pw" x' = Ret (x', inl (Some alice)) ∧
    NewLevelDBKeyStore "alice" "keys" x'.2 = Ret (x2.2, inl x2.1) ∧
    LoadKeys "alice" "" x2 = Ret (x2, inl (Some alice)).
Proof.
  assert (holds_keys (∅ : gmap string (option KeyPair)) new_keystore) as Hnew.
  { split_and!; [exact I|apply map_Forall_empty|]. eexists. split; vm_compute; reflexivity. }
  destruct (keystore_roundtrip _ new_keystore "alice" (Some alice) "pw" Hnew I) as (x' & H1 & H2 & _ & H3).
  destruct (H3 x'.2 "keys" "alice" eq_refl) as (x2 & H4 & H5).
  exists x', x2. split; [exact H1|]. split; [exact H2|]. split; [exact H4|].
  rewrite H5. assert (LoadKeys "alice" "" x' = LoadKeys "alice" "pw" x') as -> by reflexivity. by rewrite H2.
Defined.
End KeySample.
