(* ===== verification/FileStorage.v ===== *)
(** * The bulletin board in a file, [storage/file_storage/fileStorage.go]

    An append-only file of JSON messages, a line each. The operating system's
    file and lock are a class with the laws of a file that works; the scanner of
    [bufio] is modelled with its limit on the length of a line. *)

From S2P Require Import Prelude LevelState ClientTypes Codec IOLogic Kyber SigningTasks FsmService.

(** ** The file *)

(** [file_ReadAll] is what a reader gets from the current position until the
    end of the file or an error. *)
Class DataFile (F : Type) : Type := {
  fslock_Lock : IO F unit;
  file_Seek0 : IO F unit;
  file_ReadAll : IO F (bytes * option error);
  file_Write : bytes → IO F unit;
  file_Close : IO F unit
}.

(** [json.Marshal] of a message, and [json.Unmarshal] into a variable that
    holds a message already: the variable afterwards, and whether it went
    well. *)
Class MessageCodec : Type := {
  msg_marshal : Message → option bytes;
  msg_unmarshal : Message → bytes → Message * bool
}.

(** [storage.Message{}] *)
Definition empty_message : Message := mk_Message "" "" 0 "" "" "" "" "".

(** ** [bufio.Scanner] with [ScanLines] *)

(** A carriage return before the end of the line is dropped. *)
Fixpoint drop_cr (s : string) : string :=
  match s with
  | EmptyString => EmptyString
  | String "013" EmptyString => EmptyString
  | String c s => String c (drop_cr s)
  end.

(** The lines of a text: the text after the last newline is a line unless it is
    empty. *)
Fixpoint drop_last_empty (l : list string) : list string :=
  match l with
  | [] => []
  | [w] => if w =s? "" then [] else [w]
  | w :: l => w :: drop_last_empty l
  end.
Definition lines (s : string) : list string := drop_last_empty (split_on newline s).

(** The tokens up to the first line that does not fit into a buffer of
    [maxTokenSize] bytes, and whether there was one. *)
Fixpoint scan (maxTokenSize : Z) (l : list string) : list string * bool :=
  match l with
  | [] => ([], false)
  | w :: l =>
      if maxTokenSize <=? slen w then ([], true)
      else let '(tokens, tooLong) := scan maxTokenSize l in (drop_cr w :: tokens, tooLong)
  end.

Definition MaxScanTokenSize : Z := 64 * 1024.

(** [countLines] ignores the scanner's error. *)
Definition countLines (content : bytes) : Z :=
  Z.of_nat (length (scan MaxScanTokenSize (lines content)).1).

(** ** The storage *)

Section storage.
Context {F : Type} {file : DataFile F} {env : Env F} {codec : MessageCodec}.

Record FileStorage : Type := mk_FileStorage {
  dataFile : F;
  idIgnoreList : gset string;
  offsetIgnoreList : gset Z
}.

Definition set_dataFile (f : F) (fs : FileStorage) : FileStorage :=
  mk_FileStorage f (idIgnoreList fs) (offsetIgnoreList fs).
Definition on_file {A} (m : IO F A) : IO FileStorage A := zoom dataFile set_dataFile m.

(** The opened file is the argument. *)
Definition NewFileStorage (f : F + error) : FileStorage + error :=
  match f with
  | inr err => inr (Wrap "failed to open a data file" err)
  | inl f => inl (mk_FileStorage f ∅ ∅)
  end.

Definition with_ID (id : string) (m : Message) : Message :=
  mk_Message id (msg_DkgRoundID m) (msg_Offset m) (msg_Event m) (msg_Data m) (msg_Signature m)
    (msg_SenderAddr m) (msg_RecipientAddr m).
Definition with_Offset (o : Z) (m : Message) : Message :=
  mk_Message (msg_ID m) (msg_DkgRoundID m) o (msg_Event m) (msg_Data m) (msg_Signature m)
    (msg_SenderAddr m) (msg_RecipientAddr m).

Definition send (m : Message) : IO FileStorage Message :=
  _ ← wrap "failed to lock a file" (on_file fslock_Lock);
  id ← on_file uuid_New;
  let m := with_ID id m in
  _ ← wrap "failed to seek a offset to the start of a data file" (on_file file_Seek0);
  '(content, _) ← on_file file_ReadAll;
  let m := with_Offset (countLines content) m in
  data ← json_res "failed to marshal a message" (msg_marshal m);
  _ ← wrap "failed to write a message to a data file" (on_file (file_Write (data +:+ String newline "")));
  mret m.

(** The slice after the call. *)
Definition Send (msgs : list Message) : IO FileStorage (list Message) :=
  foldIO (fun sent m => m ← send m; mret (sent ++ [m])) [] msgs.

Definition not_ignored (fs : FileStorage) (data : Message) : bool :=
  negb (bool_decide (msg_ID data ∈ idIgnoreList fs)) &&
  negb (bool_decide (msg_Offset data ∈ offsetIgnoreList fs)).

(** The loop over the rows; [data] is one variable for all of them. *)
Fixpoint read_rows (fs : FileStorage) (offset : Z) (data : Message) (msgs : list Message)
    (rows : list bytes) : list Message + error :=
  match rows with
  | [] => inl msgs
  | row :: rows =>
      if 0 <? offset then read_rows fs (offset - 1) data msgs rows
      else
        match msg_unmarshal data row with
        | (_, false) => inr (Wrap "failed to unmarshal a message" (Err "json"))
        | (data, true) =>
            read_rows fs offset data (if not_ignored fs data then msgs ++ [data] else msgs) rows
        end
  end.

Definition GetMessages (offset : Z) : IO FileStorage (list Message) :=
  _ ← wrap "failed to seek a offset to the start of a data file" (on_file file_Seek0);
  '(content, readErr) ← on_file file_ReadAll;
  let '(rows, tooLong) := scan (1024 * 1024) (lines content) in
  fs ← gets id;
  msgs ← of_res (read_rows fs offset empty_message [] rows);
  if tooLong then throw (Wrap "failed to read a data file" (Err "bufio.Scanner: token too long"))
  else match readErr with
       | Some err => throw (Wrap "failed to read a data file" err)
       | None => mret msgs
       end.

Definition Close : IO FileStorage unit := on_file file_Close.

(** One entry of the list of messages to ignore. *)
Definition ignore_message (useOffset : bool) (msg : string) : IO FileStorage unit :=
  if useOffset then
    match ParseUint msg with
    | None => throw (Wrap "failed to parse message offset" (Err "strconv"))
    | Some offset =>
        modify (fun fs => mk_FileStorage (dataFile fs) (idIgnoreList fs) ({[offset]} ∪ offsetIgnoreList fs))
    end
  else modify (fun fs => mk_FileStorage (dataFile fs) ({[msg]} ∪ idIgnoreList fs) (offsetIgnoreList fs)).

Definition IgnoreMessages (messages : list string) (useOffset : bool) : IO FileStorage unit :=
  iterIO (ignore_message useOffset) messages.

Definition UnignoreMessages : IO FileStorage unit :=
  modify (fun fs => mk_FileStorage (dataFile fs) ∅ ∅).

#[export] Instance FileStorage_Storage : Storage FileStorage := {
  storage_Send := Send;
  storage_GetMessages := GetMessages;
  storage_Close := Close;
  storage_IgnoreMessages := IgnoreMessages;
  storage_UnignoreMessages := UnignoreMessages;
  storage_SetConsumerGroup := None
}.
End storage.
Arguments FileStorage F : clear implicits.

(** ** Texts of lines *)

Definition text (rows : list string) : string :=
  foldr (fun r t => r +:+ String newline t) "" rows.

Lemma text_cons r rows : text (r :: rows) = r +:+ String newline (text rows).
Proof. reflexivity. Qed.

Lemma text_snoc rows r : text (rows ++ [r]) = text rows +:+ (r +:+ String newline "").
Proof.
  induction rows as [|r' rows IH]; [done|]. cbn [app]. rewrite !text_cons, IH, sapp_assoc. done.
Qed.

Lemma split_on_line r s :
  no_char newline r → split_on newline (r +:+ String newline s) = r :: split_on newline s.
Proof.
  induction r as [|c r IH]; intros Hr; [reflexivity|]. apply no_char_cons in Hr as [Hc Hr].
  change (String c r +:+ String newline s) with (String c (r +:+ String newline s)). cbn [split_on].
  by rewrite (proj2 (Ascii.eqb_neq _ _) Hc), IH by done.
Qed.

Lemma drop_last_empty_snoc l : drop_last_empty (l ++ [""]) = l.
Proof. induction l as [|w [|w' l] IH]; cbn in *; [done|done|by f_equal]. Qed.

Lemma lines_text rows : Forall (no_char newline) rows → lines (text rows) = rows.
Proof.
  intros Hall. unfold lines. rewrite <-(drop_last_empty_snoc rows) at 2. f_equal.
  induction Hall as [|r rows Hr _ IH]; [done|]. by rewrite text_cons, split_on_line, IH.
Qed.

Lemma drop_cr_id s : no_char "013" s → drop_cr s = s.
Proof.
  induction s as [|c s IH]; [done|]. intros [Hc Hs]%no_char_cons.
  specialize (IH Hs). cbn [drop_cr]. rewrite IH.
  destruct (decide (c = "013"%char)) as [|Hne]; [done|].
  destruct c as [[] [] [] [] [] [] [] []]; try reflexivity. done.
Qed.

Lemma scan_all k rows :
  Forall (fun r => no_char "013" r ∧ slen r < k) rows → scan k rows = (rows, false).
Proof.
  induction 1 as [|r rows [Hr Hl] _ IH]; cbn [scan]; [done|].
  by rewrite (proj2 (Z.leb_gt _ _) Hl), IH, drop_cr_id.
Qed.

(** ** The file refines a list of messages *)

Class DataFileSpec (F : Type) `{!DataFile F, !Env F} : Type := {
  works : F → Prop;
  at_start : F → Prop;
  content : F → bytes;
  is_uuid : string → Prop;
  Lock_works f : works f → ∃ f', fslock_Lock f = Ret (f', inl tt) ∧ works f' ∧ content f' = content f;
  Seek_works f : works f →
    ∃ f', file_Seek0 f = Ret (f', inl tt) ∧ works f' ∧ at_start f' ∧ content f' = content f;
  ReadAll_works f : works f → at_start f →
    ∃ f', file_ReadAll f = Ret (f', inl (content f, None)) ∧ works f' ∧ content f' = content f;
  Write_works f b : works f →
    ∃ f', file_Write b f = Ret (f', inl tt) ∧ works f' ∧ content f' = content f +:+ b;
  uuid_works f : works f →
    ∃ f' id, uuid_New f = Ret (f', inl id) ∧ is_uuid id ∧ works f' ∧ content f' = content f
}.

(** A JSON object is one line; it fits into the scanner's default buffer, and it
    sets every field of the variable it is decoded into. *)
Class MessageCodecSpec `{!MessageCodec} : Type := {
  msg_fits : Message → Prop;
  msg_roundtrip m : msg_fits m →
    ∃ b, msg_marshal m = Some b ∧ no_char newline b ∧ no_char "013" b ∧ slen b < MaxScanTokenSize ∧
      ∀ old, msg_unmarshal old b = (m, true)
}.

Section refinement.
Context {F : Type} {file : DataFile F} {env : Env F} {codec : MessageCodec}
  {fspec : DataFileSpec F} {cspec : MessageCodecSpec}.
Implicit Types (fs : FileStorage F) (l : list Message).

(** The row that encodes a message. *)
Definition row_of (m : Message) (b : bytes) : Prop :=
  msg_marshal m = Some b ∧ no_char newline b ∧ no_char "013" b ∧ slen b < MaxScanTokenSize ∧
  ∀ old, msg_unmarshal old b = (m, true).

(** The file holds the log [l]. *)
Definition file_log l fs : Prop :=
  works (dataFile fs) ∧ ∃ rows, Forall2 row_of l rows ∧ content (dataFile fs) = text rows.

Lemma elem_row l rows : Forall2 row_of l rows → ∀ r, r ∈ rows → ∃ m, row_of m r.
Proof. induction 1; intros r Hr; [by apply elem_of_nil in Hr|]. set_solver. Qed.

Lemma rows_scan l rows k :
  Forall2 row_of l rows → MaxScanTokenSize ≤ k → scan k (lines (text rows)) = (rows, false).
Proof.
  intros Hl Hk. rewrite lines_text.
  - apply scan_all. apply Forall_forall. intros r [m Hr]%(elem_row l rows Hl).
    destruct Hr as (_ & _ & ? & ? & _). split; [done|lia].
  - apply Forall_forall. intros r [m Hr]%(elem_row l rows Hl). apply Hr.
Qed.

Lemma on_file_ret {A} (m : IO F A) fs f r :
  m (dataFile fs) = Ret (f, r) → on_file m fs = Ret (set_dataFile f fs, r).
Proof. intros H. unfold on_file, zoom. by rewrite H. Qed.

Lemma file_log_set l fs f :
  file_log l fs → works f → content f = content (dataFile fs) → file_log l (set_dataFile f fs).
Proof. intros (_ & rows & Hr & Hc) Hw Hf. split; [done|]. exists rows. cbn. by rewrite Hf. Qed.

(** Reading the whole file. *)
Lemma read_file l fs :
  file_log l fs → ∃ f1 f2, on_file file_Seek0 fs = Ret (set_dataFile f1 fs, inl tt) ∧
    on_file file_ReadAll (set_dataFile f1 fs) =
      Ret (set_dataFile f2 fs, inl (content (dataFile fs), None)) ∧ file_log l (set_dataFile f2 fs).
Proof.
  intros Hl. pose proof Hl as [Hw _].
  destruct (Seek_works _ Hw) as (f1 & H1 & Hw1 & Ha1 & Hc1).
  destruct (ReadAll_works _ Hw1 Ha1) as (f2 & H2 & Hw2 & Hc2).
  exists f1, f2. split; [by apply on_file_ret|]. split.
  - rewrite <-Hc1. exact (on_file_ret file_ReadAll (set_dataFile f1 fs) _ _ H2).
  - apply file_log_set; [done..|]. by rewrite Hc2, Hc1.
Qed.

Lemma countLines_log l fs : file_log l fs → countLines (content (dataFile fs)) = Z.of_nat (length l).
Proof.
  intros (_ & rows & Hr & ->). unfold countLines. rewrite (rows_scan l rows) by done. cbn.
  by rewrite (Forall2_length _ _ _ Hr).
Qed.

(** The rows from an offset on, ignored messages left out. *)
Lemma read_rows_log fs l rows offset data acc :
  Forall2 row_of l rows → 0 ≤ offset →
  read_rows fs offset data acc rows =
    inl (acc ++ filter (fun m => not_ignored fs m = true) (drop (Z.to_nat offset) l)).
Proof.
  intros Hr. revert offset data acc. induction Hr as [|m b l rows (_ & _ & _ & _ & Hm) _ IH];
    intros offset data acc Ho; cbn [read_rows].
  { by rewrite drop_nil, app_nil_r. }
  destruct (Z.ltb_spec 0 offset) as [Hlt|Hge].
  - rewrite IH by lia. by replace (Z.to_nat offset) with (S (Z.to_nat (offset - 1))) by lia.
  - assert (offset = 0) as -> by lia. rewrite Hm, IH by lia. change (Z.to_nat 0) with 0%nat.
    rewrite !drop_0, filter_cons. destruct (not_ignored fs m) eqn:Hi; [rewrite decide_True by done|rewrite decide_False by done];
      [by rewrite <-app_assoc|done].
Qed.

Lemma GetMessages_ok l fs offset :
  file_log l fs → 0 ≤ offset →
  ∃ f, GetMessages offset fs = Ret (set_dataFile f fs,
         inl (filter (fun m => not_ignored fs m = true) (drop (Z.to_nat offset) l))) ∧
    file_log l (set_dataFile f fs).
Proof.
  intros Hl Ho. destruct (read_file l fs Hl) as (f1 & f2 & H1 & H2 & Hl2). exists f2. split; [|done].
  pose proof Hl as (_ & rows & Hr & Hc). rewrite Hc in H2.
  unfold GetMessages. io_step H1. io_step H2. rewrite (rows_scan l rows) by done.
  unfold mbind, IO_bind, gets, of_res. rewrite (read_rows_log _ l) by done. reflexivity.
Qed.

Lemma send_ok l fs m :
  file_log l fs → (∀ id, is_uuid id → msg_fits (with_Offset (Z.of_nat (length l)) (with_ID id m))) →
  ∃ f id, let m' := with_Offset (Z.of_nat (length l)) (with_ID id m) in
    send m fs = Ret (set_dataFile f fs, inl m') ∧ file_log (l ++ [m']) (set_dataFile f fs).
Proof.
  intros Hl Hf. pose proof Hl as [Hw _].
  destruct (Lock_works _ Hw) as (f1 & H1 & Hw1 & Hc1).
  destruct (uuid_works _ Hw1) as (f2 & id & H2 & Hid & Hw2 & Hc2).
  assert (file_log l (set_dataFile f2 fs)) as Hl2 by (apply file_log_set; [done..|by rewrite Hc2, Hc1]).
  destruct (read_file _ _ Hl2) as (f3 & f4 & H3 & H4 & Hl4).
  destruct (msg_roundtrip _ (Hf id Hid)) as (b & Hb & Hrow).
  pose proof Hl4 as [Hw4 (rows & Hr & Hc4)].
  destruct (Write_works _ (b +:+ String newline "") Hw4) as (f5 & H5 & Hw5 & Hc5).
  exists f5, id. cbv zeta. split.
  - unfold send. io_step (on_file_ret _ fs _ _ H1).
    io_step (on_file_ret uuid_New (set_dataFile f1 fs) _ _ H2). io_step H3. io_step H4.
    rewrite (countLines_log l (set_dataFile f2 fs) Hl2). unfold json_res. rewrite Hb.
    erewrite IO_bind_ret by reflexivity.
    erewrite IO_bind_ret by (apply wrap_ret; exact (on_file_ret _ (set_dataFile f4 fs) _ _ H5)). reflexivity.
  - split; [done|]. exists (rows ++ [b]). cbn. rewrite Hc5, Hc4, text_snoc. split; [|done].
    apply Forall2_app; [done|]. constructor; [|constructor]. by split.
Qed.

(** The messages of [msgs] can be written behind a log of [n] messages. *)
Definition writable (n : nat) (msgs : list Message) : Prop :=
  ∀ m id off, m ∈ msgs → is_uuid id → 0 ≤ off < Z.of_nat (n + length msgs) →
    msg_fits (with_Offset off (with_ID id m)).

(** A message as the board stores it. *)
Definition stored_as (m m' : Message) : Prop :=
  m' = with_Offset (msg_Offset m') (with_ID (msg_ID m') m).

Lemma Send_ok l fs acc msgs :
  file_log l fs → writable (length l) msgs →
  ∃ f sent, foldIO (fun sent m => m ← send m; mret (sent ++ [m])) acc msgs fs =
      Ret (set_dataFile f fs, inl (acc ++ sent)) ∧
    file_log (l ++ sent) (set_dataFile f fs) ∧ Forall2 stored_as msgs sent ∧
    ∀ i m, sent !! i = Some m → msg_Offset m = Z.of_nat (length l + i).
Proof.
  revert l fs acc. induction msgs as [|m msgs IH]; intros l fs acc Hl Hf; cbn [foldIO].
  - exists (dataFile fs), []. rewrite !app_nil_r. destruct fs. split_and!; [done..|constructor|done].
  - destruct (send_ok l fs m Hl) as (f & id & Hs & Hl1). { intros id Hid. apply Hf; [set_solver|done|cbn; lia]. }
    destruct (IH _ _ (acc ++ [with_Offset (Z.of_nat (length l)) (with_ID id m)]) Hl1) as (f2 & sent & H2 & Hl2 & Hst & Hoff).
    { intros m' id' off Hm' Hid' Hoff. apply Hf; [set_solver|done|]. rewrite length_app in Hoff. cbn in *. lia. }
    exists f2. eexists (_ :: sent). split_and!.
    + erewrite IO_bind_ret; [|by io_step Hs]. rewrite H2, <-app_assoc. done.
    + rewrite <-app_assoc in Hl2. exact Hl2.
    + constructor; [done|exact Hst].
    + intros [|i] m'; cbn; [intros [= <-]; cbn; lia|]. intros Hi%Hoff. rewrite length_app in Hi. cbn in Hi. lia.
Qed.

(** C26. As long as every line of the file is shorter than the 64 KiB that its
    scanner takes, those of the new messages included, and holds a message that
    JSON represents: the file is an append-only log. [Send] appends the messages
    in order, each with the number of its line as offset, and [GetMessages]
    returns the log from the offset on, without the messages to ignore. *)
Theorem file_storage_refines_log l fs msgs offset :
  file_log l fs → 0 ≤ offset → writable (length l) msgs →
  ∃ f f' sent, Send msgs fs = Ret (set_dataFile f fs, inl sent) ∧
    Forall2 stored_as msgs sent ∧ file_log (l ++ sent) (set_dataFile f fs) ∧
    (∀ i m, sent !! i = Some m → msg_Offset m = Z.of_nat (length l + i)) ∧
    GetMessages offset (set_dataFile f fs) = Ret (set_dataFile f' fs,
      inl (filter (fun m => not_ignored fs m = true) (drop (Z.to_nat offset) (l ++ sent)))).
Proof.
  intros Hl Ho Hf. destruct (Send_ok l fs [] msgs Hl Hf) as (f & sent & Hs & Hl' & Hst & Hoff).
  destruct (GetMessages_ok _ _ offset Hl' Ho) as (f' & Hg & _).
  exists f, f', sent. split_and!; [exact Hs|done..|exact Hg].
Qed.
End refinement.

(** ** A file in memory *)

Module MemFile.

(** The contents of the file; every identifier is the same. *)
Record File : Type := mk_File { text_of : string }.

#[export] Instance mem_file : DataFile File := {
  fslock_Lock := mret tt;
  file_Seek0 := mret tt;
  file_ReadAll := fun f => Ret (f, inl (text_of f, None));
  file_Write b := modify (fun f => mk_File (text_of f +:+ b));
  file_Close := mret tt
}.

#[export] Instance mem_env : Env File := {
  time_Now := mret 1000;
  uuid_New := mret "uuid";
  rand_Int _ := mret 0;
  rand_Bytes _ := mret ""
}.

#[export] Program Instance mem_file_spec : DataFileSpec File := {
  works _ := True;
  at_start _ := True;
  content := text_of;
  is_uuid id := id = "uuid"
}.
Solve All Obligations with (intros; repeat eexists).

(** A message is written as the bits of its number. *)
#[export] Instance bits_codec : MessageCodec := {
  msg_marshal m := Some (bits (encode m));
  msg_unmarshal old b :=
    match unbits b ≫= decode with Some m => (m, true) | None => (old, false) end
}.

Lemma bits_no_char c p : c ≠ "0"%char → c ≠ "1"%char → c ≠ "H"%char → no_char c (bits p).
Proof. intros H0 H1 H2. induction p; cbn [bits]; rewrite ?no_char_cons; split_and?; auto. by intros []. Qed.

#[export] Program Instance bits_codec_spec : MessageCodecSpec := {
  msg_fits m := slen (bits (encode m)) < MaxScanTokenSize
}.
Next Obligation.
  intros m Hm. eexists. split; [done|]. split_and!; [by apply bits_no_char..|done|].
  intros old. cbn. rewrite unbits_bits. cbn. by rewrite decode_encode.
Qed.

Definition board_message : Message := mk_Message "" "r" 0 "e" "d" "s" "u" "".

Lemma file_storage_refines_log_witness :
  ∃ f f', Send [board_message; board_message] (mk_FileStorage (mk_File "") ∅ {[ 0 ]}) =
      Ret (set_dataFile f (mk_FileStorage (mk_File "") ∅ {[ 0 ]}),
        inl [with_ID "uuid" board_message; with_Offset 1 (with_ID "uuid" board_message)]) ∧
    GetMessages 0 (set_dataFile f (mk_FileStorage (mk_File "") ∅ {[ 0 ]})) =
      Ret (set_dataFile f' (mk_FileStorage (mk_File "") ∅ {[ 0 ]}),
        inl [with_Offset 1 (with_ID "uuid" board_message)]).
Proof.
  destruct (file_storage_refines_log [] (mk_FileStorage (mk_File "") ∅ {[ 0 ]})
    [board_message; board_message] 0) as (f & f' & sent & H1 & _ & _ & _ & H2).
  - split; [exact I|]. exists []. split; [constructor|reflexivity].
  - lia.
  - intros m id off Hm -> Hoff. assert (m = board_message) as -> by set_solver.
    assert (off = 0 ∨ off = 1) as [-> | ->] by (cbn in Hoff; lia); vm_compute; reflexivity.
  - assert (sent = [with_ID "uuid" board_message; with_Offset 1 (with_ID "uuid" board_message)]) as Hsent.
    { pose proof H1 as H1'. vm_compute in H1'. injection H1' as _ <-. vm_compute. reflexivity. }
    exists f, f'. rewrite <-Hsent. split; [exact H1|]. rewrite Hsent in H2. exact H2.
Defined.
End MemFile.
