(* ===== verification/Services.v ===== *)
(** * The services between the node and its repositories

    [client/services/operation], [client/services/signature], the parsing of
    the messages to ignore in [client/services/provider.go], and the DTOs of
    [client/api/dto] that the node service takes. *)

From S2P Require Import Prelude GoFsm LevelState ClientTypes OperationRepo SignatureRepo IOLogic SigningTasks.

(** ** DTOs *)

Record MessageDTO : Type := mk_MessageDTO {
  dto_ID : string;
  dto_DkgRoundID : string;
  dto_Offset : Z;
  dto_Event : string;
  dto_Data : bytes;
  dto_Signature : bytes;
  dto_SenderAddr : string;
  dto_RecipientAddr : string
}.

Record OperationDTO : Type := mk_OperationDTO {
  od_ID : string;
  od_Type : string;
  od_Payload : bytes;
  od_ResultMsgs : list Message;
  od_CreatedAt : Time;
  od_DkgID : string;
  od_To : string;
  od_Event : Event;
  od_ExtraData : bytes
}.

Record Range : Type := mk_Range { Start : Z; End_ : Z }.

(** A payload of the map may be [nil]. *)
Record ProposeSignBatchMessagesDTO : Type := mk_ProposeSignBatchMessagesDTO {
  pd_DkgID : bytes;
  pd_Data : gomap string (option bytes);
  pd_Range : option Range
}.

Record ReInitDKGDTO : Type := mk_ReInitDKGDTO { rd_ID : string; rd_Payload : bytes }.

(** ** The operation service *)

Section operation_service.
Context {S : Type} {st : NodeState S} {json_ops : JSON Operations}.
Implicit Types (r : BaseOperationRepo).

Definition op_GetOperations r : IO S Operations := GetOperations r.
Definition op_GetOperationByID r (operationID : string) : IO S (option Operation) :=
  wrap "failed to get operation" (GetOperationByID r operationID).
Definition op_PutOperation r (operation : option Operation) : IO S unit :=
  wrap "failed to put operation" (PutOperation r operation).
Definition op_DeleteOperation r (operation : option Operation) : IO S unit :=
  wrap "failed to delete operation" (DeleteOperation r operation).
End operation_service.

(** ** The signature service; the fields of its DTOs are the arguments *)

Section signature_service.
Context {S : Type} {st : NodeState S} {ord : MapOrder} {json_sigs : JSON SignaturesStorage}.

Definition sig_GetSignatures (DkgID : string) : IO S SignaturesStorage := GetSignatures DkgID.
Definition sig_GetSignatureByID (DkgID ID : string) : IO S (list ReconstructedSignature) :=
  GetSignatureByID DkgID ID.
Definition sig_GetSignaturesByBatchID (DkgID BatchID : string) : IO S Batch :=
  GetSignaturesByBatchID DkgID BatchID.
Definition sig_GetBatches (DkgID : string) : IO S (list string) := GetBatches DkgID.
Definition sig_SaveSignatures (signature : list ReconstructedSignature) : IO S unit :=
  SaveSignatures signature.
End signature_service.

(** ** [parseMessagesToIgnore] *)

(** The fields of [config.KafkaStorageConfig] that it reads. *)
Record IgnoreConfig : Type := mk_IgnoreConfig {
  IgnoredMessages : string;
  UseOffsetInsteadId : bool
}.

Definition parseMessagesToIgnore (cfg : option IgnoreConfig) : list string + error :=
  match cfg with
  | None => inl []
  | Some cfg =>
      if slen (IgnoredMessages cfg) =? 0 then inl []
      else
        let msgs := split_on "," (IgnoredMessages cfg) in
        if UseOffsetInsteadId cfg && negb (forallb (fun msg => bool_decide (is_Some (ParseUint msg))) msgs)
        then inr (Wrap "values provided should be parsable into uint64" (Err "strconv"))
        else inl msgs
  end.
