(* ===== verification/NodeService.v ===== *)
(** * The node service: operations and requests of the operator

    [client/services/node/node_service.go], the part that the operator drives:
    signing and sending messages, starting a key generation, proposing a batch,
    confirming participation, and handing in the result of an operation. The
    processing of messages of the board is in [ProcessMessage]. *)

From S2P Require Import Prelude GoFsm Requests Payload.
From S2P Require Import SignatureProposal DkgProposal SigningProposal StateMachines.
From S2P Require Import LevelState ClientTypes OperationRepo SignatureRepo FsmService.
From S2P Require Import IOLogic Kyber SigningTasks KeyStore Services.

(** ** The JSON of responses *)

(** The three lists of [DKGProposalParticipantEntry] differ in the names of the
    JSON fields, so each has its own encoding. *)
Class ResponsesJSON : Type := {
  #[global] json_invitations :: JSON (list SignatureProposalParticipantInvitationEntry);
  #[global] json_statuses :: JSON (list SignatureProposalParticipantStatusEntry);
  #[global] json_pubkeys :: JSON (list DKGProposalPubKeysParticipantEntry);
  json_commits : JSON (list DKGProposalParticipantEntry);
  json_deals : JSON (list DKGProposalParticipantEntry);
  json_responses : JSON (list DKGProposalParticipantEntry);
  #[global] json_signing_invitations :: JSON SigningPartialSignsParticipantInvitationsResponse;
  #[global] json_signing_process :: JSON SigningProcessParticipantResponse
}.

Definition marshal_data `{!ResponsesJSON} (d : RespData) : option bytes :=
  match d with
  | RdInvitations l => marshal l
  | RdStatuses l => marshal l
  | RdPubKeys l => marshal l
  | RdCommits l => @marshal _ json_commits l
  | RdDeals l => @marshal _ json_deals l
  | RdResponses l => @marshal _ json_responses l
  | RdSigningInvitations r => marshal r
  | RdSigningProcess r => marshal r
  end.

(** ** The object *)

(** [deps] is everything behind the pointers of the object: state, storage, key
    store, and what the process asks its environment for. *)
Record BaseNodeService (S : Type) : Type := mk_Node {
  userName : string;
  pubKey : bytes;
  fsmService : FSMService;
  opService : BaseOperationRepo;
  SkipCommKeysVerification : bool;
  deps : S
}.
Arguments mk_Node {S}.
Arguments userName {S}.
Arguments pubKey {S}.
Arguments fsmService {S}.
Arguments opService {S}.
Arguments SkipCommKeysVerification {S}.
Arguments deps {S}.

Section node.
Context {S : Type} {st : NodeState S} {lerr : LevelDBErr} {stg : Storage S} {keys : KeyStore S}
  {env : Env S}.
Context {crypto : Crypto} {scrypto : SigningCrypto}.
Context {ord : MapOrder} {json_tasks : JSON (list SigningTask)} {json_dump : JSON FSMDump}
  {json_dumps : JSON Dumps} {json_ops : JSON Operations} {jreq : RequestsJSON} {jresp : ResponsesJSON}.

Abbreviation Node := (BaseNodeService S) (only parsing).

Definition set_deps (s : S) (n : Node) : Node :=
  mk_Node (userName n) (pubKey n) (fsmService n) (opService n) (SkipCommKeysVerification n) s.
Definition set_skip (b : bool) (n : Node) : Node :=
  mk_Node (userName n) (pubKey n) (fsmService n) (opService n) b (deps n).

(** A call of a dependency. *)
Definition call {A} (m : IO S A) : IO Node A := zoom deps set_deps m.

(** The object points to the services from then on: [deps] is their state. *)
Definition NewNode (username : string) (fsm : FSMService) (ops : BaseOperationRepo) : IO S Node :=
  keyPair ← wrap "failed to LoadKeys" (keystore_LoadKeys username "");
  keyPair ← lift (deref keyPair);
  s ← gets id;
  mret (mk_Node username (Pub keyPair) fsm ops false s).

Definition SetSkipCommKeysVerification (b : bool) : IO Node unit := modify (set_skip b).
Definition GetSkipCommKeysVerification : IO Node bool := gets SkipCommKeysVerification.
Definition GetStateOffset : IO Node Z := call state_LoadOffset.

Definition SendMessage (dto : MessageDTO) : IO Node unit :=
  _ ← wrap "failed to post message" (call (storage_Send
        [mk_Message (dto_ID dto) (dto_DkgRoundID dto) (dto_Offset dto) (dto_Event dto) (dto_Data dto)
           (dto_Signature dto) (dto_SenderAddr dto) (dto_RecipientAddr dto)]));
  mret tt.

Definition SaveOffset (Offset : Z) : IO Node unit :=
  wrap "failed to save offset" (call (state_SaveOffset Offset)).

(** ** Signing *)

Definition signMessage (message : bytes) : IO Node bytes :=
  userName ← gets userName;
  keyPair ← wrap "failed to LoadKeys" (call (keystore_LoadKeys userName ""));
  keyPair ← lift (deref keyPair);
  lift (Sign (Priv keyPair) message).

Definition with_Signature (sig : bytes) (m : Message) : Message :=
  mk_Message (msg_ID m) (msg_DkgRoundID m) (msg_Offset m) (msg_Event m) (msg_Data m) sig
    (msg_SenderAddr m) (msg_RecipientAddr m).
Definition with_SenderAddr (sender : string) (m : Message) : Message :=
  mk_Message (msg_ID m) (msg_DkgRoundID m) (msg_Offset m) (msg_Event m) (msg_Data m) (msg_Signature m)
    sender (msg_RecipientAddr m).

Definition buildMessage (dkgRoundID : string) (event : Event) (data : bytes) : IO Node Message :=
  id ← call uuid_New;
  userName ← gets userName;
  let message := mk_Message id dkgRoundID 0 event data "" userName "" in
  signature ← wrap "failed to sign message" (signMessage (Message_Bytes message));
  mret (with_Signature signature message).

Definition verifyMessage (fsmInstance : FSMInstance) (message : Message) : IO Node unit :=
  skip ← GetSkipCommKeysVerification;
  if (skip : bool) then mret tt
  else
    senderPubKey ← wrap "failed to GetPubKeyByUsername"
      (lift_res (FSMInstance_GetPubKeyByUsername fsmInstance (msg_SenderAddr message)));
    ok ← lift (Verify senderPubKey (Message_Bytes message) (msg_Signature message));
    if negb ok then throw (Err "signature is corrupt") else mret tt.

(** ** Requests of the operator *)

Definition StartDKG (Payload : bytes) : IO Node unit :=
  message ← buildMessage (hex_EncodeToString (sha256_Sum256 Payload)) EventInitProposal Payload;
  _ ← call (storage_Send [message]);
  mret tt.

Definition ReInitDKG (dto : ReInitDKGDTO) : IO Node unit :=
  message ← wrap "failed to build message" (buildMessage (rd_ID dto) ReinitDKG (rd_Payload dto));
  _ ← wrap "failed to send message" (call (storage_Send [message]));
  mret tt.

Definition letterBytes : string := "abcdefghijklmnopqrstuvwxyzABCDEFGHIJKLMNOPQRSTUVWXYZ".

(** [strings.Replace(s, " ", "-", -1)] *)
Fixpoint dashes (s : string) : string :=
  match s with
  | EmptyString => EmptyString
  | String c s => String (if Ascii.eqb c " " then "-" else c)%char (dashes s)
  end.

Definition random_letter (tail : string) (_ : nat) : IO Node string :=
  idx ← wrap "failed to get rand int" (call (rand_Int (slen letterBytes)));
  mret (tail +:+ String (char_at letterBytes idx) "").

Definition createSignID (rawID : string) : IO Node string :=
  tail ← foldIO random_letter "" (seq 0 5);
  mret (dashes rawID +:+ "_" +:+ tail).

Definition task_of_file (messagesToSign : list SigningTask) (fm : string * option bytes)
  : IO Node (list SigningTask) :=
  signID ← catch (createSignID fm.1) (fun _ => throw (Err "failed to create SignID for file"));
  mret (messagesToSign ++ [mk_SigningTask signID fm.1 fm.2 0 0]).

Definition extractTasksFromDTO (dtoMsg : ProposeSignBatchMessagesDTO) : IO Node (list SigningTask) :=
  match pd_Data dtoMsg with
  | Some data => foldIO task_of_file [] (range data)
  | None =>
      match pd_Range dtoMsg with
      | Some r =>
          id ← call uuid_New;
          mret [mk_SigningTask id "" None (Start r) (End_ r)]
      | None => throw (Err "neither data tosign nor range were provided")
      end
  end.

Definition ProposeSignMessages (dtoMsg : ProposeSignBatchMessagesDTO) : IO Node unit :=
  signingTasks ← wrap "failed to extract messages from DTO" (extractTasksFromDTO dtoMsg);
  let encodedDkgID := hex_EncodeToString (pd_DkgID dtoMsg) in
  fsm ← gets fsmService;
  fsmInstance ← wrap "failed to get FSM instance" (call (GetFSMInstance fsm encodedDkgID false));
  fsmInstance ← lift (deref fsmInstance);
  fsmState ← wrap "failed to determine FSM instance state" (of_res (FSMInstance_State fsmInstance));
  if negb (fsmState =s? StateSigningIdle) then throw (Err "required FSM state is state_signing_idle")
  else
    userName ← gets userName;
    participantID ← wrap "failed to get participantID"
      (lift_res (FSMInstance_GetIDByUsername fsmInstance userName));
    batchID ← call uuid_New;
    now ← call time_Now;
    batchBz ← json_res "failed to marshal SigningBatchProposalStartRequest"
      (marshal (mk_SigningBatchProposalStartRequest batchID participantID now signingTasks));
    message ← wrap "failed to build message" (buildMessage encodedDkgID EventSigningStart batchBz);
    _ ← wrap "failed to send message" (call (storage_Send [message]));
    mret tt.

(** ** Operations *)

(** The entry of the map is a pointer. *)
Definition getOperation (operationID : string) : IO Node (option Operation) :=
  ops ← gets opService;
  operations ← wrap "failed to get operations" (call (op_GetOperations ops));
  match gomap_lookup operations operationID with
  | None => throw (Err "failed to get operation")
  | Some operation => mret operation
  end.

Definition with_result (event : Event) (msgs : list Message) (o : Operation) : Operation :=
  mk_Operation (op_ID o) (op_Type o) (op_Payload o) msgs (op_CreatedAt o) (op_DKGIdentifier o)
    (op_To o) event (op_ExtraData o).

(** One message of the result: sender and signature are the node's. *)
Definition sign_result (signed : list Message) (message : Message) : IO Node (list Message) :=
  userName ← gets userName;
  let message := with_SenderAddr userName message in
  sig ← wrap "failed to sign a message" (signMessage (Message_Bytes message));
  mret (signed ++ [with_Signature sig message]).

(** [fsm.FSMDump().Payload.DKGProposalPayload.PubPolyBz = extraData] *)
Definition set_PubPoly (extraData : bytes) (i : FSMInstance) : Go FSMInstance :=
  d ← deref (dump i);
  p ← deref (dump_Payload d);
  c ← deref (pay_DKGProposalPayload p);
  Ret (mk_FSMInstance (machine i)
         (Some (mk_FSMDump (TransactionId d) (dump_State d)
            (Some (pay_set_dkg (dc_set_pubpoly extraData c) p))))).

(** The operation with the messages as they were sent. *)
Definition send_results (operation : Operation) : IO Node Operation :=
  signed ← foldIO sign_result [] (op_ResultMsgs operation);
  sent ← wrap "failed to post messages" (call (storage_Send signed));
  mret (with_result (op_Event operation) sent operation).

Definition apply_processed (operation : Operation) : IO Node unit :=
  fsm ← gets fsmService;
  i ← wrap "failed to get fsm instance during operation processing"
    (call (GetFSMInstance fsm (op_DKGIdentifier operation) false));
  i ← lift (deref i);
  i ← lift (set_PubPoly (op_ExtraData operation) i);
  dump ← wrap "failed to dump fsm instance during operation processing" (of_res (FSMInstance_Dump i));
  wrap "failed to save fsm dump during operation processing"
    (call (SaveFSM fsm (op_DKGIdentifier operation) dump)).

Definition executeOperation (operation : Operation) : IO Node unit :=
  if IsEmpty (op_Event operation) then
    throw (Err "operation is request operation, provide result operation instead")
  else
    ops ← gets opService;
    storedOperation ← wrap "failed to find matching operation"
      (call (op_GetOperationByID ops (op_ID operation)));
    storedOperation ← lift (deref storedOperation);
    match Operation_Equal storedOperation operation with
    | Some err => throw (Wrap "processed operation does not match stored operation" err)
    | None =>
        operation ←
          (if negb (op_Event operation =s? OperationProcessed) then send_results operation
           else _ ← apply_processed operation; mret operation);
        wrap "failed to DeleteOperation" (call (op_DeleteOperation ops (Some operation)))
    end.

Definition ProcessOperation (dto : OperationDTO) : IO Node unit :=
  executeOperation
    {| op_ID := od_ID dto; op_Type := od_Type dto; op_Payload := od_Payload dto;
       op_ResultMsgs := od_ResultMsgs dto; op_CreatedAt := od_CreatedAt dto;
       op_DKGIdentifier := od_DkgID dto; op_To := od_To dto; op_Event := od_Event dto;
       op_ExtraData := od_ExtraData dto |}.

Definition emptyParticipantId : Z := -1.

(** The id of the first entry with the node's key. *)
Definition own_entry (pubKey : bytes) (payload : list SignatureProposalParticipantInvitationEntry) : Z :=
  match list_find (fun p => pubKey = ie_PubKey p) payload with
  | Some (_, p) => ie_ParticipantId p
  | None => emptyParticipantId
  end.

Definition ApproveParticipation (operationID : string) : IO Node unit :=
  operation ← getOperation operationID;
  operation ← lift (deref operation);
  if negb (op_Type operation =s? StateAwaitParticipantsConfirmations) then
    throw (Err "cannot approve participation with operationID")
  else
    payload ← json_res "failed to unmarshal payload" (unmarshal (op_Payload operation));
    pubKey ← gets pubKey;
    let pid := own_entry pubKey payload in
    if pid =? emptyParticipantId then throw (Err "failed to determine participant id")
    else
      reqBz ← json_res "failed to generate FSM request"
        (marshal (mk_SignatureProposalParticipantRequest pid (op_CreatedAt operation)));
      let result := mk_Message "" (op_DKGIdentifier operation) 0 EventConfirmSignatureProposal reqBz ""
                      "" (op_To operation) in
      executeOperation
        (with_result EventConfirmSignatureProposal (op_ResultMsgs operation ++ [result]) operation).
End node.
