(* ===== verification/ProcessMessage.v ===== *)
(** * The node service: messages of the board

    [client/services/node/node_service.go], the part that the board drives:
    polling, the processing of a message, the reconstruction and broadcast of
    signatures, and the reinitialisation of a round; and
    [client/services/node/adapt_dkg.go]. Log lines are not modelled, the
    pointers they dereference are. *)

From S2P Require Import Prelude GoFsm Requests Payload.
From S2P Require Import SignatureProposal DkgProposal SigningProposal StateMachines.
From S2P Require Import LevelState ClientTypes OperationRepo SignatureRepo FsmService.
From S2P Require Import IOLogic Kyber Dkg SigningTasks KeyStore Services NodeService.

Section node.
Context {S : Type} {st : NodeState S} {lerr : LevelDBErr} {stg : Storage S} {keys : KeyStore S}
  {env : Env S}.
Context {crypto : Crypto} {scrypto : SigningCrypto} {kyber : Kyber} {wc : WcRotation}.
Context {ord : MapOrder} {json_tasks : JSON (list SigningTask)} {json_dump : JSON FSMDump}
  {json_dumps : JSON Dumps} {json_ops : JSON Operations} {json_sigs : JSON SignaturesStorage}
  {json_recs : JSON (list ReconstructedSignature)} {json_oplist : JSON (list Operation)}
  {json_redkg : JSON ReDKG} {json_keyring : JSON blsKeyringJSON}
  {jreq : RequestsJSON} {jresp : ResponsesJSON}.

Abbreviation Node := (BaseNodeService S) (only parsing).

(** ** Signatures *)

Definition own_signature (message : Message) (r : ReconstructedSignature) : ReconstructedSignature :=
  mk_ReconstructedSignature (rec_File r) (rec_BatchID r) (rec_MessageID r) (rec_SrcPayload r)
    (rec_Signature r) (msg_SenderAddr message) (msg_DkgRoundID message) (rec_ValIdx r).

Definition processSignature (message : Message) : IO Node unit :=
  signatures ← json_res "failed to unmarshal reconstructed signature" (unmarshal (msg_Data message));
  call (sig_SaveSignatures (own_signature message <$> signatures)).

(** The record that a proposed message starts with. *)
Definition proposed_signature (message : Message) (BatchID : string) (msg : MessageToSign)
  : ReconstructedSignature + error :=
  let sig := fun valIdx =>
    mk_ReconstructedSignature (mts_File msg) BatchID (mts_MessageID msg) (mts_Payload msg) ""
      (msg_SenderAddr message) (msg_DkgRoundID message) valIdx in
  if mts_BakedDataPayload msg then
    match ParseInt (mts_MessageID msg) with
    | None => inr (Wrap "failed to parse int from str" (Err "strconv"))
    | Some ValIdx => inl (sig ValIdx)
    end
  else inl (sig 0).

Definition processSignatureProposal (message : Message) : IO Node unit :=
  proposal ← json_res "failed to unmarshal reconstructed signature"
    (@unmarshal SigningBatchProposalStartRequest _ (msg_Data message));
  messagesToSign ← wrap "failed to extract messages from tasks"
    (lift_res (TasksToMessages (bs_SigningTasks proposal)));
  signatures ← of_res (all_res (proposed_signature message (bs_BatchID proposal)) messagesToSign);
  wrap "failed to save signature" (call (sig_SaveSignatures signatures)).

(** ** Reconstruction *)

(** The partial signatures by message: the loop over the participants and, for
    each of them, over the map of its signatures. *)
Definition add_partial (b : gomap string (list bytes)) (ms : string * bytes)
  : Go (gomap string (list bytes)) :=
  AddPartialSignature b ms.1 ms.2.
Definition add_participant (b : gomap string (list bytes)) (p : SigningProcessParticipantEntry)
  : Go (gomap string (list bytes)) :=
  foldM add_partial b (range (default ∅ (sp_PartialSigns p))).
Definition batch_partial_signatures (payload : SigningProcessParticipantResponse)
  : Go (gomap string (list bytes)) :=
  foldM add_participant (Some ∅) (sq_Participants payload).

(** [messages[m.MessageID] = m] for the messages in order. *)
Definition messages_by_id (l : list MessageToSign) : gmap string MessageToSign :=
  foldl (fun messages m => <[mts_MessageID m := m]> messages) ∅ l.

(** [MessageToSign{}], what an absent key of the map reads as. *)
Definition no_message : MessageToSign := mk_MessageToSign "" "" "" false.

Definition recoverFullSign (p : DumpedMachineStatePayload) (msg : bytes) (sigShares : list bytes)
    (t n : Z) : Go (bytes + error) :=
  c ← deref (pay_DKGProposalPayload p);
  Ret (match LoadPubPolyBLSKeyringFromBytes (dc_PubPolyBz c) with
       | inr _ => inr (Err "failed to unmarshal BLSKeyring's PubPoly")
       | inl blsKeyring => tbls_Recover (NewBLS12381Suite None) (kr_PubPoly blsKeyring) msg sigShares t n
       end).

(** One message of the loop. *)
Definition reconstruct_message (p : DumpedMachineStatePayload) (BatchID : string)
    (messages : gmap string MessageToSign) (response : list ReconstructedSignature + error)
    (ms : string * list bytes) : Go (list ReconstructedSignature + error) :=
  match response with
  | inr err => Ret (inr err)
  | inl response =>
      let '(messageID, messagePartialSignatures) := ms in
      let m := default no_message (messages !! messageID) in
      r ← recoverFullSign p (mts_Payload m) messagePartialSignatures (pay_Threshold p)
            (gomap_len (pay_PubKeys p));
      Ret (match r with
           | inr err => inr (Wrap "failed to reconstruct full signature for msg" err)
           | inl reconstructedSignature =>
               let sig := fun valIdx =>
                 mk_ReconstructedSignature (mts_File m) BatchID messageID (mts_Payload m)
                   reconstructedSignature "" (pay_DkgId p) valIdx in
               if mts_BakedDataPayload m then
                 match ParseInt (mts_MessageID m) with
                 | None => inr (Wrap "failed to parse int from str" (Err "strconv"))
                 | Some ValIdx => inl (response ++ [sig ValIdx])
                 end
               else inl (response ++ [sig 0])
           end)
  end.

Definition reconstructThresholdSignature (signingFSM : FSMInstance)
    (payload : SigningProcessParticipantResponse) : Go (list ReconstructedSignature + error) :=
  batchPartialSignatures ← batch_partial_signatures payload;
  match unmarshal (sq_SrcPayload payload) with
  | None => Ret (inr (Wrap "failed to unmarshal signingTasks" (Err "json")))
  | Some signingTasks =>
      r ← TasksToMessages signingTasks;
      match r with
      | inr err => Ret (inr (Wrap "failed to extract messages from signingTasks" err))
      | inl messagesPayload =>
          let messages := messages_by_id messagesPayload in
          match batchPartialSignatures with
          | None => Ret (inl [])
          | Some batch =>
              if bool_decide (batch = ∅) then Ret (inl [])
              else
                d ← deref (dump signingFSM);
                p ← deref (dump_Payload d);
                foldM (reconstruct_message p (sq_BatchID payload) messages) (inl []) (range batch)
          end
      end
  end.

Definition broadcastReconstructedSignatures (message : Message) (sigs : list ReconstructedSignature)
  : IO Node unit :=
  data ← json_res "failed to marshal reconstructed signatures" (marshal sigs);
  m ← wrap "failed to build reconstructed signatures message"
        (buildMessage (msg_DkgRoundID message) SignatureReconstructed data);
  _ ← wrap "failed to send reconstructed signatures message" (call (storage_Send [m]));
  mret tt.

(** ** [processMessage] *)

(** [fsmInstance.Do(event, arg)], its error reported as the callers do. *)
Definition do_event (i : FSMInstance) (event : Event) (arg : Request)
  : IO Node (FSMInstance * option (GoFsm.Response RespData) * bytes) :=
  '(i, (resp, fsmDump, err)) ← lift (FSMInstance_Do i event [arg]);
  match err with
  | Some err => throw (Wrap "failed to Do operation in FSM" err)
  | None => mret (i, resp, fsmDump)
  end.

Definition do_now (i : FSMInstance) (event : Event)
  : IO Node (FSMInstance * option (GoFsm.Response RespData) * bytes) :=
  now ← call time_Now;
  do_event i event (RqDefault (mk_DefaultRequest now)).

Definition save_round (dkgRoundID : string) (fsmDump : bytes) : IO Node unit :=
  fsm ← gets fsmService;
  wrap "failed to SaveFSM" (call (SaveFSM fsm dkgRoundID fsmDump)).

(** A new signing procedure is started and saved. *)
Definition restart_signing (message : Message) (i : FSMInstance) : IO Node FSMInstance :=
  '(i, _, fsmDump) ← do_now i EventSigningRestart;
  _ ← save_round (msg_DkgRoundID message) fsmDump;
  mret i.

(** [fsmInstance.FSMDump().State] and [.Payload] *)
Definition the_state (i : FSMInstance) : IO Node State := d ← lift (deref (dump i)); mret (dump_State d).
Definition the_payload (i : FSMInstance) : IO Node DumpedMachineStatePayload :=
  d ← lift (deref (dump i)); lift (deref (dump_Payload d)).

Definition dkg_failed (c : DKGConfirmation) : bool :=
  existsb (fun kx => bool_decide (is_Some (dp_Error kx.2))) (range (default ∅ (dc_Quorum c))).

(** A round that goes on is the result; a round that was aborted is [None], and
    the message is dropped. *)
Definition handle_errors (message : Message) (i : FSMInstance) : IO Node (option FSMInstance) :=
  s ← the_state i;
  if negb (HasSuffix s "_error") then mret (Some i)
  else
    p ← the_payload i;
    if match pay_DKGProposalPayload p with Some c => dkg_failed c | None => false end then mret None
    else
      match pay_SigningProposalPayload p with
      | None => mret (Some i)
      | Some _ => i ← restart_signing message i; mret (Some i)
      end.

Definition handle_timeouts (message : Message) (i : FSMInstance) : IO Node (option FSMInstance) :=
  s ← the_state i;
  if negb (HasSuffix s "_timeout") then mret (Some i)
  else if HasPrefix s "state_sig_" || HasPrefix s "state_dkg" then
    _ ← the_payload i; mret None
  else if HasPrefix s "state_signing_" then
    p ← the_payload i;
    _ ← lift (deref (pay_SigningProposalPayload p));
    i ← restart_signing message i; mret (Some i)
  else mret (Some i).

(** The instance of the next stage takes over and is sent its first event. *)
Definition hand_over (fsmDump : bytes) (event : Event)
  : IO Node (FSMInstance * option (GoFsm.Response RespData) * bytes) :=
  i ← wrap "failed get state_machines from dump" (lift_res (FromDump fsmDump));
  do_now i event.

Definition hand_over_when (s : State) (event : Event)
    (r : FSMInstance * option (GoFsm.Response RespData) * bytes)
  : IO Node (FSMInstance * option (GoFsm.Response RespData) * bytes) :=
  let '(i, resp, fsmDump) := r in
  response ← lift (deref resp);
  if rs_State response =s? s then hand_over fsmDump event else mret (i, resp, fsmDump).

Definition awaits_operation (s : State) : bool :=
  bool_decide (s ∈ [StateAwaitParticipantsConfirmations; StateDkgCommitsAwaitConfirmations;
                    StateDkgDealsAwaitConfirmations; StateDkgResponsesAwaitConfirmations;
                    StateDkgMasterKeyAwaitConfirmations; StateSigningAwaitPartialSigns]).

(** The operation for the air-gapped machine, or the signatures of a batch that
    is complete. *)
Definition act_on (message : Message) (i : FSMInstance) (resp : GoFsm.Response RespData)
  : IO Node (option Operation) :=
  if awaits_operation (rs_State resp) then
    match rs_Data resp with
    | None => mret None
    | Some data =>
        operationPayloadBz ← json_res "failed to marshal FSM response" (marshal_data data);
        now ← call time_Now;
        mret (Some (NewOperation now (msg_DkgRoundID message) operationPayloadBz (rs_State resp)))
    end
  else if rs_State resp =s? StateSigningPartialSignsCollected then
    match rs_Data resp with
    | Some (RdSigningProcess signingProcessResponse) =>
        reconstructedSignatures ← wrap "failed to reconstruct signatures"
          (lift_res (reconstructThresholdSignature i signingProcessResponse));
        _ ← wrap "failed to broadcast reconstructed signature"
              (broadcastReconstructedSignatures message reconstructedSignatures);
        mret None
    | _ => throw (Err "failed to cast fsm response payload to responses.SigningProcessParticipantResponse")
    end
  else mret None.

(** The message as an event of the round's machine. *)
Definition process_event (message : Message) (i : FSMInstance) : IO Node (option Operation) :=
  fsmReq ← wrap "failed to get FSMRequestFromMessage" (of_res (FSMRequestFromMessage message));
  r ← do_event i (msg_Event message) fsmReq;
  r ← hand_over_when StateSignatureProposalCollected EventDKGInitProcess r;
  '(i, resp, fsmDump) ← hand_over_when StateDkgMasterKeyCollected EventSigningInit r;
  resp ← lift (deref resp);
  operation ← act_on message i resp;
  fsmDump ←
    (if rs_State resp =s? StateSigningPartialSignsCollected then
       '(_, _, fsmDump) ← hand_over fsmDump EventSigningRestart; mret fsmDump
     else mret fsmDump);
  _ ← (if msg_Event message =s? EventSigningStart
       then wrap "failed to process signature" (processSignatureProposal message) else mret tt);
  _ ← save_round (msg_DkgRoundID message) fsmDump;
  mret operation.

Definition processMessage (message : Message) : IO Node (option Operation) :=
  fsm ← gets fsmService;
  i ← wrap "failed to getFSMInstance" (call (GetFSMInstance fsm (msg_DkgRoundID message) true));
  i ← lift (deref i);
  _ ← (if msg_Event message =s? EventInitProposal then mret tt
       else wrap "failed to verifyMessage" (verifyMessage i message));
  if msg_Event message =s? SignatureReconstructed then
    _ ← wrap "failed to process signature" (processSignature message); mret None
  else if msg_Event message =s? SignatureReconstructionFailed then
    errorRequest ← wrap "failed to get FSMRequestFromMessage" (of_res (FSMRequestFromMessage message));
    match as_SignatureError errorRequest with
    | None => throw (Err "failed to convert request to SignatureProposalConfirmationErrorRequest")
    | Some _ => mret None
    end
  else
    i ← handle_errors message i;
    match i with
    | None => mret None
    | Some i =>
        i ← handle_timeouts message i;
        match i with
        | None => mret None
        | Some i => process_event message i
        end
    end.

(** The message as the node takes it from the board; the cause of an error of
    [reinitDKG] is dropped. *)
Definition put_operation (operation : option Operation) : IO Node unit :=
  match operation with
  | None => mret tt
  | Some _ =>
      ops ← gets opService;
      wrap "failed to PutOperation" (call (op_PutOperation ops operation))
  end.

(** ** [reinitDKG] *)

Definition intended_for (user : string) (m : Message) : bool :=
  (msg_RecipientAddr m =s? "") || (msg_RecipientAddr m =s? user).

(** The loop over the messages of the request, which an error does not end. *)
Fixpoint reinit_loop (operations : list Operation) (messages : list Message)
  : IO Node (list Operation) :=
  match messages with
  | [] => mret operations
  | msg :: messages =>
      if msg_Event msg =s? EventSigningStart then mret operations
      else
        userName ← gets userName;
        operations ←
          (if intended_for userName msg then
             r ← try (processMessage msg);
             mret (match r with inl (Some operation) => operations ++ [operation] | _ => operations end)
           else mret operations);
        reinit_loop operations messages
  end.

(** [fsmInstance.FSMDump().Payload.SetPubKeyUsername(...)] *)
Definition set_comm_key (i : FSMInstance) (p : Participant) : Go FSMInstance :=
  d ← deref (dump i);
  payload ← deref (dump_Payload d);
  Ret (mk_FSMInstance (machine i)
         (Some (mk_FSMDump (TransactionId d) (dump_State d)
            (Some (SetPubKeyUsername (pt_Name p) (pt_NewCommPubKey p) payload))))).

(** The body after the flag is set. *)
Definition reinit_round (message : Message) (req : ReDKG) : IO Node unit :=
  operations ← reinit_loop [] (re_Messages req);
  operationsBz ← catch (json_res "" (marshal operations)) (fun _ => throw (Err "failed to marshall operations"));
  now ← call time_Now;
  let o := NewOperation now (re_DKGID req) operationsBz ReinitDKG in
  hash ← wrap "failed to calculat reinitDKG message hash"
           (of_res (CalcStartReInitDKGMessageHash (msg_Data message)));
  let operation := mk_Operation (op_ID o) (op_Type o) (op_Payload o) (op_ResultMsgs o) (op_CreatedAt o)
                     (op_DKGIdentifier o) (op_To o) (op_Event o) hash in
  _ ← put_operation (Some operation);
  fsm ← gets fsmService;
  i ← wrap "failed to get FSM instance" (call (GetFSMInstance fsm (re_DKGID req) true));
  i ← lift (deref i);
  i ← lift (foldM set_comm_key i (re_Participants req));
  fsmDump ← catch (of_res (FSMInstance_Dump i)) (fun _ => throw (Err "failed to get FSM dump"));
  save_round (msg_DkgRoundID message) fsmDump.

(** [SetSkipCommKeysVerification(true)] with the deferred reset, which runs on
    every return. *)
Definition skipping_verification {A} (m : IO Node A) : IO Node A := fun n =>
  if SkipCommKeysVerification n then m n
  else
    match m (set_skip true n) with
    | Ret (n, r) => Ret (set_skip false n, r)
    | Panic w => Panic w
    end.

Definition reinitDKG (message : Message) : IO Node unit :=
  req ← json_res "failed to umarshal request" (@unmarshal ReDKG _ (msg_Data message));
  fsm ← gets fsmService;
  roundExist ← call (IsExist fsm (re_DKGID req));
  if (roundExist : bool) then mret tt
  else skipping_verification (reinit_round message req).

Definition ProcessMessage (message : Message) : IO Node unit :=
  if msg_Event message =s? ReinitDKG then
    catch (reinitDKG message) (fun _ => throw (Err "failed to reinitDKG"))
  else
    operation ← processMessage message;
    put_operation operation.

(** ** [Poll] *)

(** A message of a tick. Errors are logged; the offset is a 64-bit word. *)
Definition poll_message (message : Message) : IO Node unit :=
  userName ← gets userName;
  _ ← (if intended_for userName message then _ ← try (ProcessMessage message); mret tt else mret tt);
  _ ← try (call (state_SaveOffset ((msg_Offset message + 1) mod 2 ^ 64)));
  mret tt.

Definition poll_tick : IO Node unit :=
  offset ← wrap "failed to LoadOffset" (call state_LoadOffset);
  messages ← wrap "failed to GetMessages" (call (storage_GetMessages offset));
  iterIO poll_message messages.

(** What the [select] of the loop receives: a tick, or the end of the context.
    The result of a list of receptions is whether [Poll] has returned. *)
Inductive Reception : Type := Tick | Done.

Fixpoint Poll (receptions : list Reception) : IO Node bool :=
  match receptions with
  | [] => mret false
  | Done :: _ => mret true
  | Tick :: receptions => _ ← poll_tick; Poll receptions
  end.

(** ** [GetAdaptedReDKG] *)

Definition createMessage (id : string) (origMesage : Message) : Message + error :=
  match FSMRequestFromMessage origMesage with
  | inr err => inr (Wrap "failed to get FSMRequestFromMessage" err)
  | inl fsmReq =>
      match as_Deal fsmReq with
      | None => inr (Err "cannot cast message request to type {DKGProposalDealConfirmationRequest}")
      | Some request =>
          let req := mk_DKGProposalDealConfirmationRequest (de_ParticipantId request) "self-confirm"
                       (de_CreatedAt request) in
          match marshal req with
          | None => inr (Wrap "failed to encode FSMRequest" (Err "json"))
          | Some data =>
              inl (mk_Message id (msg_DkgRoundID origMesage) 0 EventDKGDealConfirmationReceived data ""
                     (msg_SenderAddr origMesage) (msg_SenderAddr origMesage))
          end
      end
  end.

Definition at_offset (o : Z) (m : Message) : Message :=
  mk_Message (msg_ID m) (msg_DkgRoundID m) o (msg_Event m) (msg_Data m) (msg_Signature m)
    (msg_SenderAddr m) (msg_RecipientAddr m).

(** The loop, with the identifiers that [uuid.New] gives in turn. *)
Fixpoint adapt_loop (uuid : nat → string) (newOffset : Z) (fixedSenders : gset string)
    (out : list Message) (messages : list Message) : list Message + error :=
  match messages with
  | [] => inl out
  | m :: messages =>
      if bool_decide (msg_SenderAddr m ∉ fixedSenders) &&
         (msg_Event m =s? EventDKGDealConfirmationReceived) then
        match createMessage (uuid (length out)) m with
        | inr err => inr (Wrap "failed to construct new message for adapted reinit DKG message" err)
        | inl workAroundMessage =>
            adapt_loop uuid (newOffset + 2) ({[msg_SenderAddr m]} ∪ fixedSenders)
              (out ++ [at_offset newOffset workAroundMessage; at_offset (newOffset + 1) m]) messages
        end
      else
        adapt_loop uuid (newOffset + 1) fixedSenders (out ++ [at_offset newOffset m]) messages
  end.

Definition GetAdaptedReDKG (uuid : nat → string) (originalDKG : ReDKG) : ReDKG + error :=
  match adapt_loop uuid 0 ∅ [] (re_Messages originalDKG) with
  | inr err => inr err
  | inl messages =>
      inl (mk_ReDKG (re_DKGID originalDKG) (re_Threshold originalDKG) (re_Participants originalDKG) messages)
  end.
End node.
