(* ===== verification/AdaptSpec.v ===== *)
(** * The adapted log, specified

    [client/services/node/adapt_dkg.go]: a log recorded by an older version has
    no deal of a participant to itself; the adapted log has one, in front of the
    first deal that each participant sent. *)

From S2P Require Import Prelude GoFsm Requests Payload.
From S2P Require Import SignatureProposal DkgProposal SigningProposal StateMachines.
From S2P Require Import LevelState ClientTypes OperationRepo SignatureRepo FsmService.
From S2P Require Import IOLogic Kyber Dkg SigningTasks KeyStore Services NodeService ProcessMessage.

#[local] Opaque SignatureProposal.New DkgProposal.New SigningProposal.New.

Section adapt.
Context {json_tasks : JSON (list SigningTask)} {jreq : RequestsJSON} {scrypto : SigningCrypto}.

Definition is_deal (m : Message) : bool := msg_Event m =s? EventDKGDealConfirmationReceived.

(** The first deal of its sender, after the messages [pre]. *)
Definition first_deal (pre : list Message) (m : Message) : bool :=
  is_deal m && forallb (fun m' => negb (is_deal m' && (msg_SenderAddr m' =s? msg_SenderAddr m))) pre.

(** The deal a participant sends itself: everything but the deal is taken from
    the message it precedes. *)
Definition self_confirm (m w : Message) : Prop :=
  ∃ req fsmReq data, FSMRequestFromMessage m = inl fsmReq ∧ as_Deal fsmReq = Some req ∧
    marshal (mk_DKGProposalDealConfirmationRequest (de_ParticipantId req) "self-confirm" (de_CreatedAt req)) = Some data ∧
    msg_DkgRoundID w = msg_DkgRoundID m ∧ msg_Event w = EventDKGDealConfirmationReceived ∧
    msg_Data w = data ∧ msg_SenderAddr w = msg_SenderAddr m ∧ msg_RecipientAddr w = msg_SenderAddr m.

(** What becomes of a message. *)
Definition adapted_block (pre : list Message) (m : Message) (block : list Message) : Prop :=
  if first_deal pre m then ∃ w, self_confirm m w ∧ block = [w; m] else block = [m].

(** The blocks of a log. *)
Inductive adapted : list Message → list Message → list Message → Prop :=
  | adapted_nil pre : adapted pre [] []
  | adapted_cons pre m ms block out :
      adapted_block pre m block → adapted (pre ++ [m]) ms out → adapted pre (m :: ms) (block ++ out).

(** Offsets count from [o] on. *)
Definition renumber (o : Z) (l : list Message) : list Message :=
  imap (fun i m => at_offset (o + Z.of_nat i) m) l.

Lemma renumber_cons o m l : renumber o (m :: l) = at_offset o m :: renumber (o + 1) l.
Proof.
  unfold renumber. rewrite imap_cons. f_equal; [by rewrite Z.add_0_r|].
  apply imap_ext. intros i x _. cbn. f_equal. lia.
Qed.

Lemma createMessage_ok id m w : createMessage id m = inl w → self_confirm m w.
Proof.
  unfold createMessage, self_confirm. destruct (FSMRequestFromMessage m) as [r|e] eqn:Hr; [|done].
  destruct (as_Deal r) as [req|] eqn:Ha; [|done]. destruct (marshal _) as [data|] eqn:Hm; [|done].
  intros [= <-]. exists req, r, data. by split_and!.
Qed.

(** The senders whose first deal has been seen. *)
Definition seen (pre : list Message) (s : gset string) : Prop :=
  ∀ a, a ∈ s ↔ ∃ m, m ∈ pre ∧ is_deal m = true ∧ msg_SenderAddr m = a.

Lemma first_deal_seen pre s m :
  seen pre s → first_deal pre m = bool_decide (msg_SenderAddr m ∉ s) && is_deal m.
Proof.
  intros Hs. unfold first_deal. rewrite andb_comm. f_equal. apply eq_true_iff_eq.
  rewrite forallb_forall, bool_decide_eq_true, (Hs (msg_SenderAddr m)). split.
  - intros H (m' & Hin & Hd & Ha). apply list_elem_of_In in Hin. specialize (H m' Hin). cbn in H.
    by rewrite Hd, (proj2 (seqb_true _ _) Ha) in H.
  - intros H m' Hin. apply list_elem_of_In in Hin. destruct (is_deal m') eqn:Hd; [|done]. cbn.
    apply negb_true_iff, seqb_false. intros Ha. apply H. eauto.
Qed.

Lemma seen_snoc pre s m :
  seen pre s → seen (pre ++ [m]) (if is_deal m then {[msg_SenderAddr m]} ∪ s else s).
Proof.
  intros Hs a. specialize (Hs a).
  assert ((∃ m', m' ∈ pre ++ [m] ∧ is_deal m' = true ∧ msg_SenderAddr m' = a) ↔
    a ∈ s ∨ is_deal m = true ∧ msg_SenderAddr m = a) as ->.
  { rewrite Hs. setoid_rewrite elem_of_app. setoid_rewrite list_elem_of_singleton. naive_solver. }
  destruct (is_deal m); set_solver.
Qed.

Lemma seen_later pre s m : seen pre s → first_deal pre m = false → seen (pre ++ [m]) s.
Proof.
  intros Hs Hf. pose proof (seen_snoc pre s m Hs) as Hs'. rewrite (first_deal_seen pre s m Hs) in Hf.
  destruct (is_deal m); [|done]. rewrite andb_true_r in Hf. apply bool_decide_eq_false, dec_stable in Hf.
  by replace ({[msg_SenderAddr m]} ∪ s) with s in Hs' by set_solver.
Qed.

Lemma adapt_loop_ok uuid o s out pre ms res :
  seen pre s → adapt_loop uuid o s out ms = inl res →
  ∃ new, res = out ++ renumber o new ∧ adapted pre ms new.
Proof.
  induction ms as [|m ms IH] in o, s, out, pre |- *; intros Hs; cbn [adapt_loop].
  - intros [= <-]. exists []. split; [by rewrite app_nil_r|constructor].
  - pose proof (first_deal_seen pre s m Hs) as Hf. pose proof (seen_snoc pre s m Hs) as Hs'.
    fold (is_deal m). rewrite <-Hf. destruct (first_deal pre m) eqn:Hfd.
    + symmetry in Hf. apply andb_prop in Hf as [_ Hd]. rewrite Hd in Hs'.
      destruct (createMessage (uuid (length out)) m) as [w|e] eqn:Hw; [|done]. intros Hres.
      destruct (IH _ _ _ _ Hs' Hres) as (new & -> & Hnew). exists ([w; m] ++ new).
      split; [|constructor; [|done]; unfold adapted_block; rewrite Hfd; eauto using createMessage_ok].
      cbn [app]. rewrite !renumber_cons, <-app_assoc. cbn. by rewrite <-Z.add_assoc.
    + intros Hres. destruct (IH _ _ _ _ (seen_later pre s m Hs Hfd) Hres) as (new & -> & Hnew). exists ([m] ++ new).
      split; [|constructor; [|done]; unfold adapted_block; by rewrite Hfd].
      cbn [app]. by rewrite renumber_cons, <-app_assoc.
Qed.

Lemma createMessage_fails id m e w : createMessage id m = inr e → ¬ self_confirm m w.
Proof.
  unfold createMessage. intros Hc (req & r & data & Hr & Ha & Hm & _). by rewrite Hr, Ha, Hm in Hc.
Qed.

Lemma adapt_loop_fails uuid o s out pre ms e :
  seen pre s → adapt_loop uuid o s out ms = inr e →
  ∃ mid m post, ms = mid ++ m :: post ∧ first_deal (pre ++ mid) m = true ∧ ¬ ∃ w, self_confirm m w.
Proof.
  induction ms as [|m ms IH] in o, s, out, pre |- *; intros Hs; cbn [adapt_loop]; [done|].
  assert (∀ o s out, seen (pre ++ [m]) s → adapt_loop uuid o s out ms = inr e →
    ∃ mid m' post, m :: ms = mid ++ m' :: post ∧ first_deal (pre ++ mid) m' = true ∧ ¬ ∃ w, self_confirm m' w) as Hrec.
  { intros o' s' out' Hs' Hl. destruct (IH o' s' out' _ Hs' Hl) as (mid & m' & post & -> & Hf & Hno).
    exists (m :: mid), m', post. by rewrite <-app_assoc in Hf. }
  pose proof (first_deal_seen pre s m Hs) as Hf. fold (is_deal m). rewrite <-Hf. destruct (first_deal pre m) eqn:Hfd.
  - destruct (createMessage (uuid (length out)) m) as [w|err] eqn:Hw.
    + apply Hrec. symmetry in Hf. apply andb_prop in Hf as [_ Hd]. pose proof (seen_snoc pre s m Hs) as Hs'.
      by rewrite Hd in Hs'.
    + intros _. exists [], m, ms. rewrite app_nil_r. split_and!; [done..|]. intros [w Hsc].
      by eapply createMessage_fails.
  - apply Hrec. by apply seen_later.
Qed.

(** Without the self-deals the log is the original one. *)
Lemma adapted_length pre ms out :
  adapted pre ms out → (length ms ≤ length out ≤ 2 * length ms)%nat.
Proof.
  induction 1 as [|pre m ms block out Hb _ IH]; [done|]. rewrite length_app. cbn [length].
  unfold adapted_block in Hb. destruct (first_deal pre m); [destruct Hb as (w & _ & ->)|subst]; cbn; lia.
Qed.

(** An adapted log has the round, threshold and participants of the original
    one. Its messages are the original ones in their order, each sender's first
    deal preceded by a deal of the sender to itself that is new; offsets count
    from zero. It is refused only if such a first deal does not decode or the
    new one is not encoded. *)
Theorem adapted_log_spec uuid original :
  match GetAdaptedReDKG uuid original with
  | inl r => re_DKGID r = re_DKGID original ∧ re_Threshold r = re_Threshold original ∧
      re_Participants r = re_Participants original ∧
      ∃ l, re_Messages r = renumber 0 l ∧ adapted [] (re_Messages original) l
  | inr _ => ∃ pre m post, re_Messages original = pre ++ m :: post ∧ first_deal pre m = true ∧
      ¬ ∃ w, self_confirm m w
  end.
Proof.
  assert (seen [] ∅) as Hs by (intros a; set_solver). unfold GetAdaptedReDKG.
  destruct (adapt_loop uuid 0 ∅ [] (re_Messages original)) as [res|e] eqn:Hl.
  - destruct (adapt_loop_ok _ _ _ _ _ _ _ Hs Hl) as (l & -> & Hl'). split_and!; [done..|]. by exists l.
  - by eapply (adapt_loop_fails _ _ _ _ []).
Qed.
End adapt.
