(* ===== verification/KafkaStorage.v ===== *)
(** * The bulletin board in Kafka, [storage/kafka_storage/kafka_storage.go]

    The client library is a class; what the storage does with it, the messages
    it converts, the loop that reads until the deadline and the lists of ignored
    messages are modelled. The connections are opened by the library. *)

From S2P Require Import Prelude LevelState ClientTypes IOLogic SigningTasks FsmService FileStorage.

(** ** The library *)

Record KafkaMessage : Type := mk_KafkaMessage {
  km_Key : bytes;
  km_Value : bytes;
  km_Offset : Z
}.

(** [plain.Mechanism] *)
Record Mechanism : Type := mk_Mechanism { Username : string; Password : string }.

(** [tls.Config]: the certificates of the pool, if there is one. *)
Abbreviation TLSConfig := (option bytes) (only parsing).

(** What the reader and the writer are configured with. *)
Record Connection : Type := mk_Connection {
  cn_Broker : string;
  cn_GroupID : string;
  cn_Topic : string;
  cn_Timeout : Z;
  cn_TLS : TLSConfig;
  cn_Creds : option Mechanism
}.

(** Why [ReadMessage] stops: the deadline or the cancellation of its context, or
    an error of the connection. *)
Inductive ReadEnd : Type := DeadlineOrCanceled | ReadError (err : error).

Class KafkaClient (W : Type) : Type := {
  Reader : Type;
  Writer : Type;
  kafka_NewReader : Connection → W → W * Reader;
  kafka_NewWriter : Connection → W → W * Writer;
  (** The context of the reader is cancelled before it is closed. *)
  reader_Close : Reader → W → W * option error;
  writer_Close : Writer → W → W * option error;
  writer_WriteMessages : Writer → list KafkaMessage → W → W * option error;
  (** [ReadMessage] called until it returns an error, under a context with a
      deadline: the messages it returned and the error. *)
  reader_ReadMessages : Reader → Z → W → W * (list KafkaMessage * ReadEnd);
  (** [ioutil.ReadFile] *)
  ReadFile : string → W → bytes + error
}.

(** ** Configuration *)

(** [strings.SplitN(creds, ":", 2)] *)
Fixpoint split_first (sep : ascii) (s : string) : option (string * string) :=
  match s with
  | EmptyString => None
  | String c s =>
      if Ascii.eqb c sep then Some ("", s)
      else '(a, b) ← split_first sep s; Some (String c a, b)
  end.

Definition parseKafkaSaslPlain (creds : string) : Mechanism + error :=
  match split_first ":" creds with
  | None => inr (Err "failed to parse credentials")
  | Some (username, password) => inl (mk_Mechanism username password)
  end.

(** The two durations come as [time.ParseDuration] gives them. *)
Record KafkaStorageConfig : Type := mk_KafkaStorageConfig {
  DBDSN : string;
  cfg_Topic : string;
  ConsumerGroup : string;
  TlsConfig : string;
  ProducerCredentials : string;
  ConsumerCredentials : string;
  ReadDuration : Z + error;
  cfg_Timeout : Z + error
}.

Section kafka.
Context {W : Type} {kafka : KafkaClient W} {codec : MessageCodec}.

Definition GetTLSConfig (trustStorePath : string) (w : W) : TLSConfig + error :=
  if trustStorePath =s? "" then inl None
  else match ReadFile trustStorePath w with
       | inr err => inr (Wrap "failed to read trustStorePath" err)
       | inl caCert => inl (Some caCert)
       end.

(** ** The object, with the world behind its connections *)

Record KafkaStorage : Type := mk_KafkaStorage {
  readDuration : Z;
  reader : option Reader;
  writer : option Writer;
  tlsConfig : TLSConfig;
  producerCreds : Mechanism;
  consumerCreds : Mechanism;
  brokerEndpoint : string;
  consumerGroup : string;
  ks_topic : string;
  timeout : Z;
  ks_idIgnoreList : gset string;
  ks_offsetIgnoreList : gset Z;
  ks_world : W
}.

Definition ks_set_world w (ks : KafkaStorage) : KafkaStorage :=
  mk_KafkaStorage (readDuration ks) (reader ks) (writer ks) (tlsConfig ks) (producerCreds ks)
    (consumerCreds ks) (brokerEndpoint ks) (consumerGroup ks) (ks_topic ks) (timeout ks)
    (ks_idIgnoreList ks) (ks_offsetIgnoreList ks) w.
Definition ks_set_connections r w' w (ks : KafkaStorage) : KafkaStorage :=
  mk_KafkaStorage (readDuration ks) r w' (tlsConfig ks) (producerCreds ks) (consumerCreds ks)
    (brokerEndpoint ks) (consumerGroup ks) (ks_topic ks) (timeout ks) (ks_idIgnoreList ks)
    (ks_offsetIgnoreList ks) w.
Definition ks_set_group g (ks : KafkaStorage) : KafkaStorage :=
  mk_KafkaStorage (readDuration ks) (reader ks) (writer ks) (tlsConfig ks) (producerCreds ks)
    (consumerCreds ks) (brokerEndpoint ks) g (ks_topic ks) (timeout ks)
    (ks_idIgnoreList ks) (ks_offsetIgnoreList ks) (ks_world ks).
Definition ks_set_ignored ids offsets (ks : KafkaStorage) : KafkaStorage :=
  mk_KafkaStorage (readDuration ks) (reader ks) (writer ks) (tlsConfig ks) (producerCreds ks)
    (consumerCreds ks) (brokerEndpoint ks) (consumerGroup ks) (ks_topic ks) (timeout ks)
    ids offsets (ks_world ks).

(** A call of the library that may return an error. *)
Definition client (f : W → W * option error) : IO KafkaStorage unit := fun ks =>
  let '(w, err) := f (ks_world ks) in
  Ret (ks_set_world w ks, match err with Some err => inr err | None => inl tt end).

Definition kafka_Close : IO KafkaStorage unit :=
  ks ← gets id;
  _ ← (match reader ks with
       | Some r => wrap "failed to Close reader" (client (reader_Close r))
       | None => mret tt
       end);
  match writer ks with
  | Some w => wrap "failed to Close writer" (client (writer_Close w))
  | None => mret tt
  end.

Definition connect (ks : KafkaStorage) : KafkaStorage :=
  let conn group creds :=
    mk_Connection (brokerEndpoint ks) group (ks_topic ks) (timeout ks) (tlsConfig ks) (Some creds) in
  let '(w, r) := kafka_NewReader (conn (consumerGroup ks) (consumerCreds ks)) (ks_world ks) in
  let '(w, wr) := kafka_NewWriter (conn "" (producerCreds ks)) w in
  ks_set_connections (Some r) (Some wr) w ks.

Definition reset : IO KafkaStorage unit :=
  _ ← wrap "failed to Close connections" kafka_Close;
  modify connect.

Definition NewKafkaStorage (cfg : option KafkaStorageConfig) : IO W KafkaStorage := fun w =>
  match cfg with
  | None => Ret (w, inr (Err "kafka cfg should not be nil value"))
  | Some cfg =>
      match parseKafkaSaslPlain (ProducerCredentials cfg) with
      | inr err => Ret (w, inr (Wrap "failed to parse producer credentials" err))
      | inl producer =>
      match parseKafkaSaslPlain (ConsumerCredentials cfg) with
      | inr err => Ret (w, inr (Wrap "failed to parse consumer credentials" err))
      | inl consumer =>
      match GetTLSConfig (TlsConfig cfg) w with
      | inr err => Ret (w, inr (Wrap "failed to init tsl config" err))
      | inl tls =>
      match ReadDuration cfg with
      | inr err => Ret (w, inr (Wrap "failed to parse read duration" err))
      | inl duration =>
      match cfg_Timeout cfg with
      | inr err => Ret (w, inr (Wrap "failed to parse timeout duration" err))
      | inl timeout =>
          match wrap "failed to create a NewKafkaStorage" reset
                  (mk_KafkaStorage duration None None tls producer consumer (DBDSN cfg)
                     (ConsumerGroup cfg) (cfg_Topic cfg) timeout ∅ ∅ w) with
          | Ret (ks, inl _) => Ret (ks_world ks, inl ks)
          | Ret (ks, inr err) => Ret (ks_world ks, inr err)
          | Panic why => Panic why
          end
      end end end end end
  end.

(** ** Messages *)

Definition kafka_message (m : Message) : KafkaMessage + error :=
  match msg_marshal m with
  | None => inr (Wrap "failed to marshal a message" (Err "json"))
  | Some data => inl (mk_KafkaMessage (msg_ID m) data 0)
  end.

Fixpoint storageToKafkaMessages (messages : list Message) : list KafkaMessage + error :=
  match messages with
  | [] => inl []
  | m :: messages =>
      match kafka_message m with
      | inr err => inr err
      | inl k =>
          match storageToKafkaMessages messages with
          | inr err => inr err
          | inl ks => inl (k :: ks)
          end
      end
  end.

(** The slice of the caller is not changed. *)
Definition kafka_Send (messages : list Message) : IO KafkaStorage (list Message) :=
  kafkaMessages ← wrap "failed to storageToKafkaMessages" (of_res (storageToKafkaMessages messages));
  ks ← gets id;
  w ← lift (deref (writer ks));
  _ ← wrap "failed to WriteMessages" (client (writer_WriteMessages w kafkaMessages));
  mret messages.

Definition kafka_not_ignored (ks : KafkaStorage) (message : Message) : bool :=
  negb (bool_decide (msg_ID message ∈ ks_idIgnoreList ks)) &&
  negb (bool_decide (msg_Offset message ∈ ks_offsetIgnoreList ks)).

(** The body of the loop; [message] is one variable for all messages, and what
    cannot be decoded is skipped. *)
Fixpoint read_messages (ks : KafkaStorage) (message : Message) (messages : list Message)
    (l : list KafkaMessage) : list Message :=
  match l with
  | [] => messages
  | k :: l =>
      match msg_unmarshal message (km_Value k) with
      | (message, false) => read_messages ks message messages l
      | (message, true) =>
          let message := with_Offset (km_Offset k mod 2 ^ 64) message in
          read_messages ks message
            (if kafka_not_ignored ks message then messages ++ [message] else messages) l
      end
  end.

(** The offset of the caller is not used: the consumer group has its own. *)
Definition kafka_GetMessages (_ : Z) : IO KafkaStorage (list Message) := fun ks =>
  match reader ks with
  | None => Panic "invalid memory address or nil pointer dereference"
  | Some r =>
      let '(w, (l, end_)) := reader_ReadMessages r (readDuration ks) (ks_world ks) in
      let ks := ks_set_world w ks in
      match end_ with
      | ReadError err => Ret (ks, inr (Wrap "failed to ReadMessage" err))
      | DeadlineOrCanceled => Ret (ks, inl (read_messages ks empty_message [] l))
      end
  end.

Definition kafka_ignore_message (useOffset : bool) (msg : string) : IO KafkaStorage unit :=
  if useOffset then
    match ParseUint msg with
    | None => throw (Wrap "failed to parse message offset" (Err "strconv"))
    | Some offset =>
        modify (fun ks => ks_set_ignored (ks_idIgnoreList ks) ({[offset]} ∪ ks_offsetIgnoreList ks) ks)
    end
  else modify (fun ks => ks_set_ignored ({[msg]} ∪ ks_idIgnoreList ks) (ks_offsetIgnoreList ks) ks).

Definition kafka_IgnoreMessages (messages : list string) (useOffset : bool) : IO KafkaStorage unit :=
  iterIO (kafka_ignore_message useOffset) messages.

Definition kafka_UnignoreMessages : IO KafkaStorage unit := modify (ks_set_ignored ∅ ∅).

Definition SetConsumerGroup (cg : string) : IO KafkaStorage unit :=
  _ ← modify (ks_set_group cg);
  wrap "failed to reset kafka storage after setting consumer group" reset.

#[export] Instance KafkaStorage_Storage : Storage KafkaStorage := {
  storage_Send := kafka_Send;
  storage_GetMessages := kafka_GetMessages;
  storage_Close := kafka_Close;
  storage_IgnoreMessages := kafka_IgnoreMessages;
  storage_UnignoreMessages := kafka_UnignoreMessages;
  storage_SetConsumerGroup := Some SetConsumerGroup
}.
End kafka.
