(* ===== verification/MachineStore.v ===== *)
(** * The air-gapped machine: keys and storage

    [airgapped/airgapped.go] (construction and keys), [airgapped/storage.go],
    [airgapped/types.go] and [airgapped/encryption.go]. The machine keeps its
    seed, its encrypted keys, the encrypted keyrings of its rounds and the log
    of its operations in a LevelDB database; what it asks the world for besides
    are random bytes and a file for the result. The handlers of the operations
    are in [Airgapped]. *)

From S2P Require Import Prelude GoFsm Requests LevelState ClientTypes IOLogic Kyber Dkg SigningTasks KeyStore.

(** ** Third-party code *)

(** LevelDB transactions and prefix iterators. *)
Class LevelDBTx (DB W : Type) : Type := {
  Tx : Type;
  leveldb_OpenTransaction : DB → W → W * (Tx + error);
  tx_Put : Tx → bytes → bytes → W → W * option error;
  tx_Commit : Tx → W → W * option error;
  tx_Discard : Tx → W → W;
  (** The pairs that [Next] visits, and [Error] after them. *)
  leveldb_Iterate : DB → bytes → W → list (bytes * bytes) * option error
}.

(** [bip39], [pbkdf2], [ecies] and the sampling of a scalar. *)
Class MachineCrypto (W : Type) `{!Kyber} : Type := {
  bip39_NewEntropy : Z → IO W bytes;
  bip39_NewMnemonic : bytes → string + error;
  bip39_EntropyFromMnemonic : string → bytes + error;
  pbkdf2_Key : bytes → bytes → bytes;
  (** [suite.Scalar().Pick(suite.RandomStream())] *)
  Scalar_Pick : Suite → IO W Scalar;
  ecies_Encrypt : Suite → Point → bytes → IO W bytes;
  (** The key of a machine whose sensitive data was dropped is [nil]. *)
  ecies_Decrypt : Suite → option Scalar → bytes → Go (bytes + error);
  (** What [UnmarshalBinary] leaves in the receiver when it fails. *)
  Point_leftover : bytes → Point;
  Scalar_leftover : bytes → Scalar
}.

(** The result files: [os.OpenFile] with [O_WRONLY|O_CREATE], and [Write] from
    the start of the file. *)
Class ResultFiles (W : Type) : Type := {
  os_OpenFile : string → IO W unit;
  os_Write : string → bytes → IO W unit
}.

(** ** [encryption.go] *)

Section encryption.
Context {W : Type} {env : Env W} {sym : SymmetricCrypto}.

(** The derived key has the 32 bytes that AES-256 takes, so [aes.NewCipher] and
    [cipher.NewGCM] do not fail. [Seal] appends to the nonce. *)
Definition encrypt (key salt data : bytes) : IO W bytes :=
  derivedKey ← of_res (scrypt_Key key salt);
  nonce ← rand_Bytes NonceSize;
  mret (nonce +:+ gcm_Seal derivedKey nonce data).

Definition decrypt (key salt data : bytes) : bytes + error :=
  match scrypt_Key key salt with
  | inr err => inr err
  | inl derivedKey =>
      if slen data <? NonceSize then inr (Err "invalid data length")
      else gcm_Open derivedKey (String.substring 0 (Z.to_nat NonceSize) data)
             (sdrop (Z.to_nat NonceSize) data)
  end.
End encryption.

(** ** [Machine] *)

Section machine.
Context {DB W : Type} {ldb : LevelDB DB W} {ltx : LevelDBTx DB W} {lerr : LevelDBErr} {env : Env W}.
Context {kyber : Kyber} {dkg : PedersenDKG} {sym : SymmetricCrypto} {mc : MachineCrypto W}.
Context {json_log : JSON (gomap string (list Operation))} {json_keyring : JSON blsKeyringJSON}.

Record Machine : Type := mk_Machine {
  ResultFolder : string;
  dkgInstances : gmap string DKG;
  encryptionKey : bytes;
  am_pubKey : option Point;
  am_secKey : option Scalar;
  baseSuite : option Suite;
  baseSeed : bytes;
  am_db : DB
}.

(** Assignments to the fields. *)
Definition am_set_folder x (am : Machine) : Machine :=
  mk_Machine x (dkgInstances am) (encryptionKey am) (am_pubKey am) (am_secKey am) (baseSuite am)
    (baseSeed am) (am_db am).
Definition am_set_instances x (am : Machine) : Machine :=
  mk_Machine (ResultFolder am) x (encryptionKey am) (am_pubKey am) (am_secKey am) (baseSuite am)
    (baseSeed am) (am_db am).
Definition am_set_key x (am : Machine) : Machine :=
  mk_Machine (ResultFolder am) (dkgInstances am) x (am_pubKey am) (am_secKey am) (baseSuite am)
    (baseSeed am) (am_db am).
Definition am_set_pubKey x (am : Machine) : Machine :=
  mk_Machine (ResultFolder am) (dkgInstances am) (encryptionKey am) x (am_secKey am) (baseSuite am)
    (baseSeed am) (am_db am).
Definition am_set_secKey x (am : Machine) : Machine :=
  mk_Machine (ResultFolder am) (dkgInstances am) (encryptionKey am) (am_pubKey am) x (baseSuite am)
    (baseSeed am) (am_db am).
Definition am_set_seed seed (am : Machine) : Machine :=
  mk_Machine (ResultFolder am) (dkgInstances am) (encryptionKey am) (am_pubKey am) (am_secKey am)
    (Some (NewBLS12381Suite (Some seed))) seed (am_db am).

(** The object and the world. *)
Abbreviation M := (Machine * W)%type (only parsing).

Definition on_machine (f : Machine → Machine) : IO M unit := modify (fun x => (f x.1, x.2)).
Definition field {A} (f : Machine → A) : IO M A := gets (fun x => f x.1).
Definition on_world {A} (m : IO W A) : IO M A := zoom snd (fun w x => (x.1, w)) m.
Definition db_Get (key : bytes) : IO M bytes := fun '(am, w) =>
  Ret ((am, w), leveldb_Get (am_db am) key w).
Definition db_Put (key value : bytes) : IO M unit := fun '(am, w) =>
  let '(w, err) := leveldb_Put (am_db am) key value w in
  Ret ((am, w), match err with Some err => inr err | None => inl tt end).

(** [if errors.Is(err, leveldb.ErrNotFound) { return err }], any other error
    with a message. *)
Definition wrap_other {A} (msg : string) (m : IO M A) : IO M A :=
  catch m (fun err => throw (if errors_Is err ErrNotFound then err else Wrap msg err)).

Definition the_suite : IO M Suite := s ← field baseSuite; lift (deref s).

(** *** [storage.go] *)

Definition seedSize : Z := 32.
Definition pubKeyDBKey : string := "public_key".
Definition privateKeyDBKey : string := "private_key".
Definition saltDBKey : string := "salt_key".
Definition baseSeedKey : string := "base_seed_key".
Definition operationsLogDBKey : string := "operations_log".
Definition mnemonicSalt : string := "mnemonic".

Definition storeBaseSeed (seed : bytes) : IO M unit := wrap "failed to put baseSeed" (db_Put baseSeedKey seed).
Definition getBaseSeed : IO M bytes := wrap "failed to get baseSeed" (db_Get baseSeedKey).

Definition new_seed : IO M bytes :=
  entropy ← wrap "failed to generate bip39 entropy" (on_world (bip39_NewEntropy 256));
  mnemonic ← wrap "failed to generate new mnemonic form entropy" (of_res (bip39_NewMnemonic entropy));
  let seed := pbkdf2_Key mnemonic mnemonicSalt in
  _ ← wrap "failed to storeBaseSeed" (storeBaseSeed seed);
  mret seed.

Definition loadBaseSeed : IO M unit :=
  r ← try getBaseSeed;
  seed ← (match r with
          | inl seed => mret seed
          | inr err =>
              if errors_Is err ErrNotFound then new_seed else throw (Wrap "failed to getBaseSeed" err)
          end);
  on_machine (am_set_seed seed).

Definition SetBaseSeed (mnemonic : string) : IO M unit :=
  _ ← wrap "failed to validate mnemonic" (of_res (bip39_EntropyFromMnemonic mnemonic));
  let seed := pbkdf2_Key mnemonic mnemonicSalt in
  _ ← wrap "failed to storeBaseSeed" (storeBaseSeed seed);
  on_machine (am_set_seed seed).

(** The log of a round is a slice; an absent round is a [nil] one. *)
Definition getRoundOperationLog : IO M (gomap string (list Operation)) :=
  operationsLogBz ← db_Get operationsLogDBKey;
  json_res "failed to unmarshal stored operationsLog" (unmarshal operationsLogBz).

Definition putRoundOperationLog (log : gomap string (list Operation)) : IO M unit :=
  roundOperationsLogBz ← json_res "failed to marshal operationsLog" (marshal log);
  wrap "failed to put updated operationsLog" (db_Put operationsLogDBKey roundOperationsLogBz).

(** Reading the log, the change of a round's entry, and writing it back. *)
Definition change_log (dkgIdentifier : string) (f : list Operation → list Operation) : IO M unit :=
  roundOperationsLog ← wrap_other "failed to get operationsLogBz from db" getRoundOperationLog;
  let operationsLog := default [] (gomap_lookup roundOperationsLog dkgIdentifier) in
  roundOperationsLog ← lift (gomap_insert roundOperationsLog dkgIdentifier (f operationsLog));
  putRoundOperationLog roundOperationsLog.

Definition storeOperation (o : Operation) : IO M unit :=
  change_log (op_DKGIdentifier o) (fun operationsLog => operationsLog ++ [o]).

Definition getOperationsLog (dkgIdentifier : string) : IO M (list Operation) :=
  roundOperationsLog ← wrap_other "failed to get operationsLogBz from db" getRoundOperationLog;
  match gomap_lookup roundOperationsLog dkgIdentifier with
  | None => throw (Err "operation log not found")
  | Some operationsLog => mret operationsLog
  end.

Definition clearOperationsLog (dkgIdentifier : string) (remove : Operation → bool) : IO M unit :=
  change_log dkgIdentifier (List.filter (fun o => negb (remove o))).

Definition dropRoundOperationLog (dkgIdentifier : string) : IO M unit :=
  change_log dkgIdentifier (fun _ => []).

Definition LoadKeysFromDB : IO M unit :=
  pubKeyBz ← wrap_other "failed to get public key from db" (db_Get pubKeyDBKey);
  privateKeyBz ← wrap_other "failed to get private key from db" (db_Get privateKeyDBKey);
  salt ← wrap_other "failed to read salt from db" (db_Get saltDBKey);
  encryptionKey ← field encryptionKey;
  decryptedPubKey ← of_res (decrypt encryptionKey salt pubKeyBz);
  decryptedPrivateKey ← of_res (decrypt encryptionKey salt privateKeyBz);
  _ ← the_suite;
  match Point_UnmarshalBinary decryptedPubKey with
  | inr err =>
      _ ← on_machine (am_set_pubKey (Some (Point_leftover decryptedPubKey)));
      throw (Wrap "failed to unmarshal public key" err)
  | inl pubKey =>
      _ ← on_machine (am_set_pubKey (Some pubKey));
      match Scalar_UnmarshalBinary decryptedPrivateKey with
      | inr err =>
          _ ← on_machine (am_set_secKey (Some (Scalar_leftover decryptedPrivateKey)));
          throw (Wrap "failed to unmarshal private key" err)
      | inl secKey => on_machine (am_set_secKey (Some secKey))
      end
  end.

(** The three writes of the transaction; [Discard] is deferred. *)
Definition tx_put (tx : Tx) (msg : string) (key value : bytes) : IO M unit := fun '(am, w) =>
  let '(w, err) := tx_Put tx key value w in
  Ret ((am, w), match err with Some err => inr (Wrap msg err) | None => inl tt end).
Definition tx_commit (tx : Tx) : IO M unit := fun '(am, w) =>
  let '(w, err) := tx_Commit tx w in
  Ret ((am, w), match err with
                | Some err => inr (Wrap "failed to commit tx for saving keys into db" err)
                | None => inl tt
                end).
Definition deferring_discard {A} (tx : Tx) (m : IO M A) : IO M A := fun s =>
  match m s with
  | Ret ((am, w), r) => Ret ((am, tx_Discard tx w), r)
  | Panic why => Panic why
  end.
Definition open_transaction : IO M Tx := fun '(am, w) =>
  let '(w, r) := leveldb_OpenTransaction (am_db am) w in
  Ret ((am, w), match r with
                | inr err => inr (Wrap "failed to open transcation for db" err)
                | inl tx => inl tx
                end).

Definition SaveKeysToDB : IO M unit :=
  pubKey ← field am_pubKey; pubKey ← lift (deref pubKey);
  pubKeyBz ← wrap "failed to marshal pub key" (of_res (Point_MarshalBinary pubKey));
  secKey ← field am_secKey; secKey ← lift (deref secKey);
  privateKeyBz ← wrap "failed to marshal private key" (of_res (Scalar_MarshalBinary secKey));
  salt ← wrap "failed to generate salt" (on_world (rand_Bytes 32));
  encryptionKey ← field encryptionKey;
  encryptedPubKey ← on_world (encrypt encryptionKey salt pubKeyBz);
  encryptedPrivateKey ← on_world (encrypt encryptionKey salt privateKeyBz);
  tx ← open_transaction;
  deferring_discard tx (
    _ ← tx_put tx "failed to put pub key into db" pubKeyDBKey encryptedPubKey;
    _ ← tx_put tx "failed to put private key into db" privateKeyDBKey encryptedPrivateKey;
    _ ← tx_put tx "failed to put salt into db" saltDBKey salt;
    tx_commit tx).

(** *** [airgapped.go]: construction and keys *)

(** [errors.Is(err, leveldb.ErrNotFound)] after a read of the log. The log that
    is marshalled is an empty map. *)
Definition init_log : IO M unit :=
  r ← try (db_Get operationsLogDBKey);
  match r with
  | inl _ => mret tt
  | inr err =>
      if errors_Is err ErrNotFound then
        wrap "failed to init Operation log"
          (db_Put operationsLogDBKey (default "" (marshal (Some (∅ : gmap string (list Operation))))))
      else throw (Wrap "failed to init Operation log (fatal)" err)
  end.

Definition NewMachine (dbPath : string) : IO W Machine := fun w =>
  match leveldb_OpenFile dbPath w with
  | (w, inr err) => Ret (w, inr (Wrap "failed to open db file for keys" err))
  | (w, inl db) =>
      match (_ ← wrap "failed to loadBaseSeed" loadBaseSeed; init_log)
              (mk_Machine "" ∅ "" None None None "" db, w) with
      | Ret ((am, w), inl _) => Ret (w, inl am)
      | Ret ((_, w), inr err) => Ret (w, inr err)
      | Panic why => Panic why
      end
  end.

Definition SetResultFolder (resultFolder : string) : IO M unit := on_machine (am_set_folder resultFolder).

Definition GenerateKeys : IO M unit :=
  suite ← the_suite;
  secKey ← on_world (Scalar_Pick suite);
  _ ← on_machine (am_set_secKey (Some secKey));
  _ ← on_machine (am_set_pubKey (Some (Point_Mul secKey)));
  wrap "failed to SaveKeysToDB" SaveKeysToDB.

Definition InitKeys : IO M unit :=
  catch LoadKeysFromDB (fun err =>
    if errors_Is err ErrNotFound then GenerateKeys else throw (Wrap "failed to load keys from db" err)).

Definition SetEncryptionKey (key : bytes) : IO M unit := on_machine (am_set_key key).
Definition SensitiveDataRemoved : IO M bool := field (fun am => slen (encryptionKey am) =? 0).
Definition DropSensitiveData : IO M unit :=
  on_machine (fun am => am_set_key "" (am_set_pubKey None (am_set_secKey None am))).

(** *** [types.go]: keyrings *)

Definition blsKeyringPrefix : string := "bls_keyring".
Definition makeBLSKeyKeyringDBKey (key : string) : string := blsKeyringPrefix +:+ "_" +:+ key.

Definition saveBLSKeyring (dkgID : string) (blsKeyring : BLSKeyring) : IO M unit :=
  salt ← wrap "failed to read salt from db" (db_Get saltDBKey);
  blsKeyringBz ← wrap "failed to encode bls keyring" (lift_res (BLSKeyring_Bytes blsKeyring));
  encryptionKey ← field encryptionKey;
  encryptedKeyring ← wrap "failed to encrypt BLS keyring" (on_world (encrypt encryptionKey salt blsKeyringBz));
  wrap "failed to save BLSKeyring into db" (db_Put (makeBLSKeyKeyringDBKey dkgID) encryptedKeyring).

Definition loadBLSKeyring (dkgID : string) : IO M BLSKeyring :=
  salt ← wrap "failed to read salt from db" (db_Get saltDBKey);
  blsKeyringBz ← wrap "failed to get bls keyring" (db_Get (makeBLSKeyKeyringDBKey dkgID));
  encryptionKey ← field encryptionKey;
  decryptedKeyring ← wrap "failed to decrypt BLS keyring" (of_res (decrypt encryptionKey salt blsKeyringBz));
  catch (of_res (LoadBLSKeyringFromBytes decryptedKeyring)) (fun _ => throw (Err "failed to decode bls keyring")).

(** [strings.TrimPrefix] *)
Definition TrimPrefix (s prefix : string) : string :=
  if HasPrefix s prefix then sdrop (String.length prefix) s else s.

Definition load_keyring (encryptionKey salt : bytes) (keyrings : gmap string BLSKeyring)
    (kv : bytes * bytes) : gmap string BLSKeyring + error :=
  match decrypt encryptionKey salt kv.2 with
  | inr err => inr (Wrap "failed to decrypt BLS keyring" err)
  | inl decryptedKeyring =>
      match LoadBLSKeyringFromBytes decryptedKeyring with
      | inr err => inr (Wrap "failed to decode bls keyring" err)
      | inl blsKeyring => inl (<[TrimPrefix kv.1 (blsKeyringPrefix +:+ "_") := blsKeyring]> keyrings)
      end
  end.

(** An error of the iterator is returned next to the keyrings read before it;
    the callers only look at the error. *)
Definition GetBLSKeyrings : IO M (gmap string BLSKeyring) :=
  salt ← wrap "failed to read salt from db" (db_Get saltDBKey);
  encryptionKey ← field encryptionKey;
  '(entries, err) ← gets (fun '(am, w) => leveldb_Iterate (am_db am) blsKeyringPrefix w);
  keyrings ← foldIO (fun keyrings kv => of_res (load_keyring encryptionKey salt keyrings kv)) ∅ entries;
  match err with Some err => throw err | None => mret keyrings end.
End machine.
Arguments Machine DB {kyber dkg}.
