(* ===== verification/Airgapped.v ===== *)
(** * The air-gapped machine: operations

    [airgapped/airgapped.go], [airgapped/dkg.go] and [airgapped/bls.go]: an
    operation of the node is handled by the handler of its type, which writes
    the result, or a request that reports the error, into the operation. The
    object of a round is reached through a pointer of the map, so what a handler
    does to it before it fails stays done. *)

From stdpp Require Import pretty.
From S2P Require Import Prelude GoFsm Requests Payload.
From S2P Require Import SignatureProposal DkgProposal SigningProposal StateMachines.
From S2P Require Import LevelState ClientTypes IOLogic Kyber Dkg SigningTasks KeyStore NodeService MachineStore.

(** ** Payloads of operations

    The entries of a response are pointers, which are [nil] for a [null] of the
    payload. *)
Class PayloadJSON : Type := {
  unmarshal_pubkeys : bytes → option (list (option DKGProposalPubKeysParticipantEntry));
  unmarshal_commits : bytes → option (list (option DKGProposalParticipantEntry));
  unmarshal_deals : bytes → option (list (option DKGProposalParticipantEntry));
  unmarshal_responses : bytes → option (list (option DKGProposalParticipantEntry))
}.

(** The elements of [[]*dkg.Response] are pointers. *)
Class DealJSON `{!Kyber, !PedersenDKG} : Type := {
  #[global] json_dkg_deal :: JSON Deal;
  #[global] json_dkg_responses :: JSON (list (option DkgResponse))
}.

(** The text of an error. *)
Fixpoint error_text (e : error) : string :=
  match e with
  | Err msg => msg
  | Wrap msg cause => msg +:+ ": " +:+ error_text cause
  end.
Definition NewFSMError (err : error) : FSMError := mk_FSMError (error_text err).

(** ** [filepath.Join] of two elements *)

(** The components that remain of a path; [..] removes the one before it. *)
Definition clean_step (rooted : bool) (stack : list string) (c : string) : list string :=
  if (c =s? "") || (c =s? ".") then stack
  else if c =s? ".." then
    match stack with
    | top :: rest => if top =s? ".." then ".." :: stack else rest
    | [] => if rooted then [] else [".."]
    end
  else c :: stack.

Fixpoint join_with (sep : string) (l : list string) : string :=
  match l with
  | [] => ""
  | [c] => c
  | c :: l => c +:+ sep +:+ join_with sep l
  end.

Definition filepath_Clean (path : string) : string :=
  let rooted := HasPrefix path "/" in
  let components := reverse (foldl (clean_step rooted) [] (split_on "/" path)) in
  let body := join_with "/" components in
  if rooted then "/" +:+ body else if body =s? "" then "." else body.

Definition filepath_Join (dir file : string) : string :=
  if (dir =s? "") && (file =s? "") then ""
  else if dir =s? "" then filepath_Clean file
  else if file =s? "" then filepath_Clean dir
  else filepath_Clean (dir +:+ "/" +:+ file).

Section machine.
Context {DB W : Type} {ldb : LevelDB DB W} {ltx : LevelDBTx DB W} {lerr : LevelDBErr} {env : Env W}.
Context {kyber : Kyber} {dkg : PedersenDKG} {sorter : PKSort} {ord : MapOrder} {sym : SymmetricCrypto}
  {mc : MachineCrypto W} {files : ResultFiles W} {scrypto : SigningCrypto} {wc : WcRotation}.
Context {json_log : JSON (gomap string (list Operation))} {json_keyring : JSON blsKeyringJSON}
  {json_ops : JSON (list Operation)} {json_op : JSON Operation} {json_bytes : JSON (list bytes)}
  {json_tasks : JSON (list SigningTask)}
  {jpay : PayloadJSON} {jdeal : DealJSON} {jreq : RequestsJSON} {jresp : ResponsesJSON}.

Abbreviation M := (Machine DB * W)%type (only parsing).
(** A handler works on the machine and on the operation it was given. *)
Abbreviation H := (M * Operation)%type (only parsing).

Definition machine {A} (m : IO M A) : IO H A := zoom fst (fun x s => (x, s.2)) m.
Definition the_op : IO H Operation := gets snd.
Definition set_op (f : Operation → Operation) : IO H unit := modify (fun s => (s.1, f s.2)).

Definition op_set_To (to : string) (o : Operation) : Operation :=
  mk_Operation (op_ID o) (op_Type o) (op_Payload o) (op_ResultMsgs o) (op_CreatedAt o)
    (op_DKGIdentifier o) to (op_Event o) (op_ExtraData o).
Definition op_set_ExtraData (data : bytes) (o : Operation) : Operation :=
  mk_Operation (op_ID o) (op_Type o) (op_Payload o) (op_ResultMsgs o) (op_CreatedAt o)
    (op_DKGIdentifier o) (op_To o) (op_Event o) data.

Definition createMessage (o : Operation) (data : bytes) : Message :=
  mk_Message "" (op_DKGIdentifier o) 0 (op_Event o) data "" "" (op_To o).

(** [o.Event = event; o.ResultMsgs = append(o.ResultMsgs, createMessage(o, reqBz))] *)
Definition respond (event : Event) (reqBz : bytes) (o : Operation) : Operation :=
  let o := with_result event (op_ResultMsgs o) o in
  with_result event (op_ResultMsgs o ++ [createMessage o reqBz]) o.

(** [json.Marshal(req)] and the result with it. *)
Definition answer {A} {json : JSON A} (event : Event) (req : A) : IO H unit :=
  reqBz ← json_res "failed to generate fsm request" (marshal req);
  set_op (respond event reqBz).

(** ** Rounds *)

Definition getParticipantID (dkgIdentifier : string) : IO M Z :=
  instances ← field dkgInstances;
  match instances !! dkgIdentifier with
  | None => throw (Err "invalid dkg identifier")
  | Some dkgInstance => mret (dkg_ParticipantID dkgInstance)
  end.

(** The object of the round. *)
Definition the_round (dkgIdentifier : string) : IO M DKG :=
  instances ← field dkgInstances;
  match instances !! dkgIdentifier with
  | None => throw (Err "dkg instance with identifier does not exist")
  | Some dkgInstance => mret dkgInstance
  end.

(** A method of the object, which the pointer of the map refers to. *)
Definition on_round {A} (dkgIdentifier : string) (m : IO DKG A) : IO M A := fun '(am, w) =>
  match dkgInstances am !! dkgIdentifier with
  | None => Panic "invalid memory address or nil pointer dereference"
  | Some d =>
      match m d with
      | Ret (d, r) => Ret ((am_set_instances (<[dkgIdentifier := d]> (dkgInstances am)) am, w), r)
      | Panic why => Panic why
      end
  end.

Definition encryptDataForParticipant (dkgIdentifier to : string) (data : bytes) : IO M bytes :=
  instances ← field dkgInstances;
  match instances !! dkgIdentifier with
  | None => throw (Err "invalid dkg identifier")
  | Some dkgInstance =>
      pk ← wrap "failed to get pk for participant" (of_res (GetPubKeyByParticipant dkgInstance to));
      suite ← the_suite;
      wrap "failed to encrypt data" (on_world (ecies_Encrypt suite pk data))
  end.

Definition decryptDataFromParticipant (data : bytes) : IO M bytes :=
  suite ← the_suite;
  secKey ← field am_secKey;
  wrap "failed to decrypt data" (lift_res (ecies_Decrypt suite secKey data)).

(** [baseSuite.Point()] and [UnmarshalBinary] *)
Definition decode_point (msg : string) (b : bytes) : IO M Point :=
  _ ← the_suite;
  wrap msg (of_res (Point_UnmarshalBinary b)).

(** ** [handleStateDkgCommitsAwaitConfirmations] *)

(** The loop that looks for the machine's own key. *)
Fixpoint own_pid (payload : list (option DKGProposalPubKeysParticipantEntry)) : IO M Z :=
  match payload with
  | [] => mret (-1)
  | r :: payload =>
      _ ← the_suite;
      r ← lift (deref r);
      pubkey ← decode_point "failed to unmarshal dkg pubkey" (ke_DkgPubKey r);
      own ← field am_pubKey;
      own ← lift (deref own);
      if Point_Equal own pubkey then mret (ke_ParticipantId r) else own_pid payload
  end.

(** The new object until it is put into the map. *)
Definition on_new_round {A} (d : DKG) (m : IO DKG A) : IO M (A * DKG) := fun s =>
  match m d with
  | Ret (d, inl a) => Ret (s, inl (a, d))
  | Ret (_, inr err) => Ret (s, inr err)
  | Panic why => Panic why
  end.

Definition store_pubkey (d : DKG) (entry : option DKGProposalPubKeysParticipantEntry) : IO M DKG :=
  entry ← lift (deref entry);
  pubKey ← decode_point "failed to unmarshal pubkey" (ke_DkgPubKey entry);
  '(_, d) ← on_new_round d (StorePubKey (ke_Username entry) (ke_ParticipantId entry) pubKey);
  mret d.

Definition marshal_commits (l : list Point) : IO M bytes :=
  marshaledCommits ←
    of_res (all_res (fun c => wrap_res "failed to marshal commits" (Point_MarshalBinary c)) l);
  json_res "failed to marshal marshaledCommits" (marshal marshaledCommits).

Definition handleStateDkgCommitsAwaitConfirmations : IO H unit :=
  o ← the_op;
  payload ← json_res "failed to unmarshal payload" (unmarshal_pubkeys (op_Payload o));
  pid ← machine (own_pid payload);
  if pid <? 0 then throw (Err "failed to determine participant id for DKG")
  else
    instances ← machine (field dkgInstances);
    if bool_decide (is_Some (instances !! op_DKGIdentifier o)) then throw (Err "dkg instance already exists")
    else
      seed ← machine (field baseSeed);
      let dkgSeed := sha256_Sum256 (op_DKGIdentifier o +:+ seed) in
      pubKey ← machine (field am_pubKey);
      pubKey ← lift (deref pubKey);
      secKey ← machine (field am_secKey);
      first ← lift (deref (mjoin (head payload)));
      let dkgInstance := set_sizes (Z.of_nat (length payload)) (ke_Threshold first)
                           (Init (NewBLS12381Suite (Some dkgSeed)) pubKey secKey) in
      dkgInstance ← machine (foldIO store_pubkey dkgInstance payload);
      '(_, dkgInstance) ← wrap "failed to init dkg instance"
                            (machine (on_new_round dkgInstance (InitDKGInstance seed)));
      '(dkgCommits, dkgInstance) ← machine (on_new_round dkgInstance GetCommits);
      commitsBz ← machine (marshal_commits dkgCommits);
      _ ← machine (on_machine (fun am =>
            am_set_instances (<[op_DKGIdentifier o := dkgInstance]> (dkgInstances am)) am));
      answer EventDKGCommitConfirmationReceived
        (mk_DKGProposalCommitConfirmationRequest (dkg_ParticipantID dkgInstance) commitsBz (op_CreatedAt o)).

(** ** [handleStateDkgDealsAwaitConfirmations] *)

Definition store_commits (dkgIdentifier : string) (entry : option DKGProposalParticipantEntry) : IO M unit :=
  entry ← lift (deref entry);
  commitsBz ← json_res "failed to unmarshal commits" (unmarshal (dk_Data entry));
  dkgCommits ← foldIO (fun l commitBz =>
                   commit ← decode_point "failed to unmarshal commit" commitBz; mret (l ++ [commit]))
                 [] commitsBz;
  on_round dkgIdentifier (StoreCommits (dk_Username entry) dkgCommits).

Definition selfConfirm : bytes := "self-confirm".

(** The request for one participant: the deal, encrypted for it. *)
Definition send_deal (index_deal : Z * Deal) : IO H unit :=
  o ← the_op;
  dealBz ← json_res "failed to marshal deal" (marshal index_deal.2);
  dkgInstance ← machine (the_round (op_DKGIdentifier o));
  toParticipant ← lift (GetParticipantByIndex dkgInstance index_deal.1);
  encryptedDeal ← wrap "failed to encrypt deal"
    (machine (encryptDataForParticipant (op_DKGIdentifier o) toParticipant dealBz));
  _ ← set_op (op_set_To toParticipant);
  answer EventDKGDealConfirmationReceived
    (mk_DKGProposalDealConfirmationRequest (dkg_ParticipantID dkgInstance) encryptedDeal (op_CreatedAt o)).

Definition confirm_self : IO H unit :=
  o ← the_op;
  dkgInstance ← machine (the_round (op_DKGIdentifier o));
  toParticipant ← lift (GetParticipantByIndex dkgInstance (dkg_ParticipantID dkgInstance));
  _ ← set_op (op_set_To toParticipant);
  answer EventDKGDealConfirmationReceived
    (mk_DKGProposalDealConfirmationRequest (dkg_ParticipantID dkgInstance) selfConfirm (op_CreatedAt o)).

Definition handleStateDkgDealsAwaitConfirmations : IO H unit :=
  o ← the_op;
  let id := op_DKGIdentifier o in
  _ ← machine (the_round id);
  payload ← json_res "failed to unmarshal payload" (unmarshal_commits (op_Payload o));
  _ ← machine (iterIO (store_commits id) payload);
  deals ← wrap "failed to get deals" (machine (on_round id GetDeals));
  _ ← iterIO send_deal (range deals);
  confirm_self.

(** ** [handleStateDkgResponsesAwaitConfirmations] *)

Definition store_deal (dkgIdentifier : string) (entry : option DKGProposalParticipantEntry) : IO M unit :=
  entry ← lift (deref entry);
  dkgInstance ← the_round dkgIdentifier;
  if dk_ParticipantId entry =? dkg_ParticipantID dkgInstance then mret tt
  else
    decryptedDealBz ← wrap "failed to decrypt deal" (decryptDataFromParticipant (dk_Data entry));
    deal ← catch (json_res "" (unmarshal decryptedDealBz)) (fun _ => throw (Err "failed to unmarshal deal"));
    on_round dkgIdentifier (StoreDeal (dk_Username entry) deal).

Definition handleStateDkgResponsesAwaitConfirmations : IO H unit :=
  o ← the_op;
  let id := op_DKGIdentifier o in
  _ ← machine (the_round id);
  payload ← json_res "failed to unmarshal payload" (unmarshal_deals (op_Payload o));
  _ ← machine (iterIO (store_deal id) payload);
  processedResponses ← wrap "failed to process deals" (machine (on_round id ProcessDeals));
  responsesBz ← catch (json_res "" (marshal (Some <$> processedResponses)))
                  (fun _ => throw (Err "failed to marshal deals"));
  dkgInstance ← machine (the_round id);
  answer EventDKGResponseConfirmationReceived
    (mk_DKGProposalResponseConfirmationRequest (dkg_ParticipantID dkgInstance) responsesBz (op_CreatedAt o)).

(** ** [handleStateDkgMasterKeyAwaitConfirmations] *)

Definition store_responses (dkgIdentifier : string) (entry : option DKGProposalParticipantEntry) : IO M unit :=
  entry ← lift (deref entry);
  entryResponses ← json_res "failed to unmarshal responses" (unmarshal (dk_Data entry));
  on_round dkgIdentifier (StoreResponses (dk_Username entry) entryResponses).

Definition handleStateDkgMasterKeyAwaitConfirmations : IO H unit :=
  o ← the_op;
  let id := op_DKGIdentifier o in
  _ ← machine (the_round id);
  payload ← json_res "failed to unmarshal payload" (unmarshal_responses (op_Payload o));
  _ ← machine (iterIO (store_responses id) payload);
  _ ← wrap "failed to process responses" (machine (on_round id ProcessResponses));
  pubKey ← wrap "failed to get master pub key" (machine (on_round id GetDistributedPublicKey));
  masterPubKeyBz ← wrap "failed to marshal master pub key" (of_res (Point_MarshalBinary pubKey));
  blsKeyring ← wrap "failed to get BLSKeyring" (machine (on_round id GetBLSKeyring));
  _ ← wrap "failed to save BLSKeyring" (machine (saveBLSKeyring id blsKeyring));
  pubPolyBz ← wrap "failed to marshal BLSKeyring's PubPoly" (of_res (PubPolyBytes blsKeyring));
  dkgInstance ← machine (the_round id);
  answer EventDKGMasterKeyConfirmationReceived
    (mk_DKGProposalMasterKeyConfirmationRequest (dkg_ParticipantID dkgInstance) masterPubKeyBz
       (op_CreatedAt o) pubPolyBz).

(** ** [bls.go] *)

Definition createPartialSign (msg : bytes) (dkgIdentifier : string) : IO M bytes :=
  blsKeyring ← wrap "failed to load blsKeyring" (loadBLSKeyring dkgIdentifier);
  suite ← the_suite;
  share ← lift (deref (kr_Share blsKeyring));
  of_res (tbls_Sign suite share msg).

Definition partial_sign (dkgIdentifier : string) (signs : list PartialSign) (s : MessageToSign)
  : IO M (list PartialSign) :=
  partialSign ← wrap "failed to create partialSign for msg" (createPartialSign (mts_Payload s) dkgIdentifier);
  mret (signs ++ [mk_PartialSign (mts_MessageID s) partialSign]).

Definition handleStateSigningAwaitPartialSigns : IO H unit :=
  o ← the_op;
  payload ← json_res "failed to unmarshal payload"
    (@unmarshal SigningPartialSignsParticipantInvitationsResponse _ (op_Payload o));
  signingTasks ← json_res "failed to unmarshal messages to sign" (unmarshal (sr_SrcPayload payload));
  participantID ← wrap "failed to get paricipant id" (machine (getParticipantID (op_DKGIdentifier o)));
  messagesToSign ← wrap "failed to extract messages from tasks" (lift_res (TasksToMessages signingTasks));
  signs ← machine (foldIO (partial_sign (op_DKGIdentifier o)) [] messagesToSign);
  answer EventSigningPartialSignReceived
    (mk_SigningProposalBatchPartialSignRequests (sr_BatchID payload) participantID signs (op_CreatedAt o)).

Definition VerifySign (msg fullSignature : bytes) (dkgIdentifier : string) : IO M unit :=
  blsKeyring ← wrap "failed to load blsKeyring" (loadBLSKeyring dkgIdentifier);
  suite ← the_suite;
  match bls_Verify suite (PubPoly_Commit (kr_PubPoly blsKeyring)) msg fullSignature with
  | Some err => throw err
  | None => mret tt
  end.

(** ** [GetOperationResult] *)

(** [eventToErrorMap]; a type that is not in the map has the empty event. *)
Definition errorEvent (type : State) : Event :=
  if type =s? StateAwaitParticipantsConfirmations then EventDeclineProposal
  else if type =s? StateDkgCommitsAwaitConfirmations then EventDKGCommitConfirmationError
  else if type =s? StateDkgDealsAwaitConfirmations then EventDKGDealConfirmationError
  else if type =s? StateDkgResponsesAwaitConfirmations then EventDKGResponseConfirmationError
  else if type =s? StateDkgMasterKeyAwaitConfirmations then EventDKGMasterKeyConfirmationError
  else if type =s? StateSigningAwaitPartialSigns then EventSigningPartialSignError
  else if type =s? StateSigningPartialSignsCollected then SignatureReconstructionFailed
  else "".

Definition writeErrorRequestToOperation (handlerError : error) : IO H unit :=
  o ← the_op;
  pid ← wrap "failed to get participant id" (machine (getParticipantID (op_DKGIdentifier o)));
  answer (errorEvent (op_Type o))
    (mk_DKGProposalConfirmationErrorRequest pid (Some (NewFSMError handlerError)) (op_CreatedAt o)).

(** A handler on a copy of the operation, with its error written into it. *)
Definition result_of (handler : IO H unit) (operation : Operation) : IO M Operation := fun s =>
  match catch handler (fun err =>
          wrap "failed to write error request to an operation" (writeErrorRequestToOperation err))
          (s, operation) with
  | Ret ((s, operation), inl _) => Ret (s, inl operation)
  | Ret ((s, _), inr err) => Ret (s, inr err)
  | Panic why => Panic why
  end.

Definition skipped (o : Operation) : bool :=
  negb (IsEmpty (op_Event o)) || (op_Type o =s? StateAwaitParticipantsConfirmations).

(** [GetOperationResult] is the argument: the operations of the payload are
    handled like any other. *)
Definition handleReinitDKG (rec : Operation → IO M Operation) : IO H unit :=
  operation ← the_op;
  operations ← json_res "failed to unmarshal operation payload"
    (@unmarshal (list Operation) _ (op_Payload operation));
  _ ← machine (iterIO (fun o =>
        if skipped o then mret tt
        else _ ← wrap "failed to process operation" (rec o); mret tt) operations);
  blsKeyring ← wrap "failed to load bls keyring during ReinitDKG"
    (machine (loadBLSKeyring (op_DKGIdentifier operation)));
  pubPolyBz ← wrap "failed to marshal BLSKeyring's PubPoly during ReinitDKG"
    (of_res (PubPolyBytes blsKeyring));
  set_op (fun o => op_set_ExtraData pubPolyBz (with_result OperationProcessed (op_ResultMsgs o) o)).

Definition handle (rec : Operation → IO M Operation) : IO H unit :=
  o ← the_op;
  let type := op_Type o in
  if type =s? ReinitDKG then handleReinitDKG rec
  else if type =s? StateDkgCommitsAwaitConfirmations then handleStateDkgCommitsAwaitConfirmations
  else if type =s? StateDkgDealsAwaitConfirmations then handleStateDkgDealsAwaitConfirmations
  else if type =s? StateDkgResponsesAwaitConfirmations then handleStateDkgResponsesAwaitConfirmations
  else if type =s? StateDkgMasterKeyAwaitConfirmations then handleStateDkgMasterKeyAwaitConfirmations
  else if type =s? StateSigningAwaitPartialSigns then handleStateSigningAwaitPartialSigns
  else throw (Err "invalid operation type").

(** The recursion through [handleReinitDKG], to a depth. *)
Fixpoint GetOperationResult_fuel (fuel : nat) (operation : Operation) : IO M Operation :=
  match fuel with
  | O => lift (Panic "out of fuel")
  | S fuel => result_of (handle (GetOperationResult_fuel fuel)) operation
  end.

(** An operation inside a payload is shorter than the payload, so the length of
    the payload bounds the depth. *)
Definition GetOperationResult (operation : Operation) : IO M Operation :=
  GetOperationResult_fuel (S (String.length (op_Payload operation))) operation.

(** ** [ProcessOperation] *)

Definition ProcessOperation (operation : Operation) (storeOperation_ : bool) : IO M string :=
  resultOperation ← wrap "failed to HandleOperation (this error is fatal)" (GetOperationResult operation);
  _ ← (if storeOperation_ && negb (IsSigningState (Some operation))
       then wrap "failed to storeOperation" (storeOperation operation) else mret tt);
  operationBz ← json_res "failed to marshal operation" (marshal resultOperation);
  folder ← field ResultFolder;
  filename ← lift (Filename operation);
  let path := filepath_Join folder (filename +:+ "_result.json") in
  _ ← wrap "failed to open file" (on_world (os_OpenFile path));
  _ ← wrap "failed to write file" (on_world (os_Write path operationBz));
  mret path.

Definition ReplayOperationsLog (dkgIdentifier : string) : IO M unit :=
  operationsLog ← wrap "failed to getOperationsLog" (getOperationsLog dkgIdentifier);
  iterIO (fun operation =>
    _ ← wrap "failed to ProcessOperation" (ProcessOperation operation false); mret tt) operationsLog.

Definition DropOperationsLog (dkgIdentifier : string) : IO M unit := dropRoundOperationLog dkgIdentifier.
End machine.
