(* ===== verification/NodeSpec.v ===== *)
(** * What the node service relies on

    The dependencies of the node as one world: the key-value state, the board,
    the keys, clocks and randomness, with the laws that keep them apart. Every
    law speaks of a world that is [ready]. *)

From S2P Require Import Prelude LevelState ClientTypes OperationRepo SignatureRepo FsmService.
From S2P Require Import IOLogic Kyber KeyStore Services NodeService.

(** A message as the board stores it: identifier and offset are the board's. *)
Definition sent_as (m m' : Message) : Prop :=
  msg_DkgRoundID m' = msg_DkgRoundID m ∧ msg_Event m' = msg_Event m ∧ msg_Data m' = msg_Data m ∧
  msg_Signature m' = msg_Signature m ∧ msg_SenderAddr m' = msg_SenderAddr m ∧
  msg_RecipientAddr m' = msg_RecipientAddr m.

(** The parts of the world beside the key-value state. *)
Record Rest : Type := mk_Rest {
  board : list Message;
  keyring : gmap string (option KeyPair);
  rest_key : string
}.

Definition push (sent : list Message) (r : Rest) : Rest :=
  mk_Rest (board r ++ sent) (keyring r) (rest_key r).

Class WorldSpec (S : Type) `{!NodeState S, !LevelDBErr, !NodeStateSpec S, !Storage S, !KeyStore S, !Env S}
  : Type := {
  rest : S → Rest;
  Set_rest k v s s' : ready s → state_Set k v s = Ret (s', inl tt) → rest s' = rest s;
  (** The offset is an entry of the key-value state. *)
  SaveOffset_ready o s : ready s →
    ∃ s', state_SaveOffset o s = Ret (s', inl tt) ∧ ready s' ∧
      stored s' = <[rest_key (rest s) := PutUint64 o]> (stored s) ∧ rest s' = rest s;
  LoadOffset_ready o s : ready s → 0 ≤ o < 2 ^ 64 →
    stored s !! rest_key (rest s) = Some (PutUint64 o) → state_LoadOffset s = Ret (s, inl o);
  (** Reading the offset writes nothing. *)
  LoadOffset_reads s : ready s →
    match state_LoadOffset s with Ret (s', _) => s' = s | Panic _ => True end;
  (** A failed [Send] may have written a prefix. *)
  Send_ready ms s : ready s →
    ∃ s' r sent pre, storage_Send ms s = Ret (s', r) ∧ ready s' ∧ stored s' = stored s ∧
      rest s' = push sent (rest s) ∧ pre `prefix_of` ms ∧ Forall2 sent_as pre sent ∧
      match r with inl out => out = sent ∧ pre = ms | inr _ => True end;
  GetMessages_ready o s : ready s →
    ∃ s' r, storage_GetMessages o s = Ret (s', r) ∧ ready s' ∧ stored s' = stored s ∧ rest s' = rest s;
  LoadKeys_ready u pw s : ready s →
    keystore_LoadKeys u pw s =
      Ret (s, match keyring (rest s) !! u with
              | Some k => inl k
              | None => inr (Err "no key pair found for user")
              end);
  time_ready s : ready s →
    ∃ s' t, time_Now s = Ret (s', inl t) ∧ ready s' ∧ stored s' = stored s ∧ rest s' = rest s;
  uuid_ready s : ready s →
    ∃ s' id, uuid_New s = Ret (s', inl id) ∧ ready s' ∧ stored s' = stored s ∧ rest s' = rest s;
  rand_ready k s : ready s →
    ∃ s' r, rand_Int k s = Ret (s', r) ∧ ready s' ∧ stored s' = stored s ∧ rest s' = rest s
}.

(** ** Invariants of the world *)

Section frames.
Context {S : Type} {st : NodeState S} {lerr : LevelDBErr} {spec : NodeStateSpec S}
  {stg : Storage S} {keys : KeyStore S} {env : Env S} {world : WorldSpec S}.

(** An invariant of the stored map, in a world whose offset has the key [k0]. *)
Definition on_store (k0 : string) (J : gmap string bytes → Prop) (s : S) : Prop :=
  ready s ∧ rest_key (rest s) = k0 ∧ J (stored s).

Lemma on_store_same k0 J s s' :
  on_store k0 J s → ready s' → stored s' = stored s → rest_key (rest s') = rest_key (rest s) →
  on_store k0 J s'.
Proof. intros (_ & Hk & HJ) Hr Hs Ho. split; [done|]. by rewrite Hs, Ho. Qed.

Lemma Send_store k0 J ms : keeps (on_store k0 J) (storage_Send ms).
Proof.
  intros s Hs. destruct (Send_ready ms s (proj1 Hs)) as (s' & r & sent & pre & -> & Hr' & Hst & Hrest & _).
  assert (on_store k0 J s') by (by apply (on_store_same k0 J s); [..|rewrite Hrest]). by destruct r.
Qed.
Lemma GetMessages_store k0 J o : keeps (on_store k0 J) (storage_GetMessages o).
Proof.
  intros s Hs. destruct (GetMessages_ready o s (proj1 Hs)) as (s' & r & -> & Hr' & Hst & Hrest).
  assert (on_store k0 J s') by (by apply (on_store_same k0 J s); [..|rewrite Hrest]). by destruct r.
Qed.
Lemma time_store k0 J : keeps (on_store k0 J) time_Now.
Proof.
  intros s Hs. destruct (time_ready s (proj1 Hs)) as (s' & t & -> & Hr' & Hst & Hrest).
  by apply (on_store_same k0 J s); [..|rewrite Hrest].
Qed.
Lemma uuid_store k0 J : keeps (on_store k0 J) uuid_New.
Proof.
  intros s Hs. destruct (uuid_ready s (proj1 Hs)) as (s' & t & -> & Hr' & Hst & Hrest).
  by apply (on_store_same k0 J s); [..|rewrite Hrest].
Qed.
Lemma LoadKeys_store k0 J u pw : keeps (on_store k0 J) (keystore_LoadKeys u pw).
Proof. intros s Hs. rewrite LoadKeys_ready by apply Hs. by destruct (_ !! _). Qed.
Lemma Get_store k0 J k : keeps (on_store k0 J) (state_Get k).
Proof. intros s Hs. by rewrite state_Get_ready by apply Hs. Qed.
Lemma GetOrError_store k0 J k : keeps (on_store k0 J) (state_GetOrError k).
Proof. intros s Hs. rewrite state_GetOrError_ready by apply Hs. by destruct (_ !! _). Qed.
Lemma Set_store k0 J k v : (∀ m, J m → J (<[k := v]> m)) → keeps (on_store k0 J) (state_Set k v).
Proof.
  intros HJ s (Hr & Hk & Hs). destruct (state_Set_ready s k v Hr) as (s' & Heq & Hr' & Hst).
  rewrite Heq. split; [done|]. rewrite (Set_rest _ _ _ _ Hr Heq), Hst. auto.
Qed.
Lemma LoadOffset_store k0 J : keeps (on_store k0 J) state_LoadOffset.
Proof.
  intros s Hs. pose proof (LoadOffset_reads s (proj1 Hs)) as H.
  by destruct (state_LoadOffset s) as [[s' [a|e]]|]; subst.
Qed.
Lemma SaveOffset_store k0 J o :
  (∀ m v, J m → J (<[k0 := v]> m)) → keeps (on_store k0 J) (state_SaveOffset o).
Proof.
  intros HJ s (Hr & Hk & Hs). destruct (SaveOffset_ready o s Hr) as (s' & -> & Hr' & Hst & Hrest).
  split; [done|]. rewrite Hrest, Hst, Hk. auto.
Qed.
End frames.
#[export] Hint Resolve Send_store GetMessages_store time_store uuid_store LoadKeys_store Get_store
  GetOrError_store LoadOffset_store Set_store : keeps.
