(* ===== verification/NodeRounds.v ===== *)
(** * The rounds of a node stay rounds of the protocol

    Whatever message the node processes, the dumps it keeps are dumps of
    reachable instances; so what [Rounds] proves of reachable instances holds
    of everything the node loads. A reinitialisation is the exception: it
    replaces communication keys in a dump. The messages must be ones whose
    requests JSON takes, and the clock must not have come to the last week of
    the year 9999: a dump with a later time is not encoded, and the node saves
    an empty one in its place. *)

From S2P Require Import Prelude GoFsm Requests Payload.
From S2P Require Import SignatureProposal DkgProposal SigningProposal StateMachines Protocol.
From S2P Require Import LevelState ClientTypes OperationRepo SignatureRepo FsmService JsonText Representable.
From S2P Require Import IOLogic Kyber Dkg SigningTasks KeyStore Services NodeService NodeSpec ProcessMessage.

#[local] Opaque SignatureProposal.New DkgProposal.New SigningProposal.New.

(** ** A dependency call on the node *)

Lemma keeps_call {S A} (J : S → Prop) (m : IO S A) :
  keeps J m → keeps (fun n : BaseNodeService S => J (deps n)) (call m).
Proof. intros Hm. by apply (keeps_zoom _ _ J). Qed.
#[export] Hint Resolve keeps_call : keeps.

Section rounds.
Context {S : Type} {st : NodeState S} {lerr : LevelDBErr} {spec : NodeStateSpec S}
  {stg : Storage S} {keys : KeyStore S} {env : Env S} {world : WorldSpec S}.
Context {crypto : Crypto} {scrypto : SigningCrypto} {kyber : Kyber} {wc : WcRotation}.
Context {ord : MapOrder} {json_tasks : JSON (list SigningTask)} {json_dump : JSON FSMDump}
  {json_spec : JSONSpec FSMDump} {json_dumps : JSON Dumps} {jmap : JSONMap bytes}
  {json_ops : JSON Operations} {json_sigs : JSON SignaturesStorage}
  {json_recs : JSON (list ReconstructedSignature)} {json_oplist : JSON (list Operation)}
  {json_redkg : JSON ReDKG} {json_keyring : JSON blsKeyringJSON}
  {jreq : RequestsJSON} {jresp : ResponsesJSON}.

(** The clock is before the last week that JSON can date. *)
Definition clock_dated : Prop := ∀ (s s' : S) t, time_Now s = Ret (s', inl t) → dated t = true.

Definition rounds_in (fsm : FSMService) (store : gmap string bytes) : Prop :=
  ∃ m, map_Forall entry_fits m ∧ rounds_kept m ∧
    match store !! stateKey fsm with
    | Some b => 0 < slen b ∧ unmarshal b = Some (Some m)
    | None => m = ∅
    end.

Definition rounds_at (fsm : FSMService) (s : S) : Prop := ∃ m, has_rounds fsm m s ∧ rounds_kept m.

Lemma rounds_in_has k0 fsm s :
  on_store k0 (rounds_in fsm) s ↔ on_store k0 (fun _ => True) s ∧ rounds_at fsm s.
Proof. unfold on_store, rounds_in, rounds_at, has_rounds. naive_solver. Qed.

(** The two halves of the invariant are proved apart. *)
Lemma post_rounds {A} k0 fsm (m : IO S A) (Q : A → Prop) :
  keeps (on_store k0 (fun _ => True)) m →
  post (rounds_at fsm) m (fun a s => Q a ∧ rounds_at fsm s) (rounds_at fsm) →
  post (on_store k0 (rounds_in fsm)) m (fun a s => Q a ∧ on_store k0 (rounds_in fsm) s)
    (on_store k0 (rounds_in fsm)).
Proof.
  intros Hk Hm. eapply post_conseq; [apply (post_and _ _ _ _ _ _ _ Hk Hm)|..].
  - intros s. apply rounds_in_has.
  - intros a s (H1 & H2 & H3). split; [done|]. by apply rounds_in_has.
  - intros s. apply rounds_in_has.
Qed.

(** The keys of the state are distinct: the rounds have a key that is not one of
    the signatures, of the operation pool [ops], or of the offset. *)
Definition keys_apart (fsm : FSMService) (ops : BaseOperationRepo) (k0 : string) : Prop :=
  (∀ id, MakeCompositeKeyString SignaturesKeyPrefix id ≠ stateKey fsm) ∧
  operationsCompositeKey ops ≠ stateKey fsm ∧ deleteOperationsCompositeKey ops ≠ stateKey fsm ∧
  k0 ≠ stateKey fsm.

Lemma rounds_in_insert fsm k v store :
  k ≠ stateKey fsm → rounds_in fsm store → rounds_in fsm (<[k := v]> store).
Proof. intros Hk (m & H1 & H2 & H3). exists m. by rewrite lookup_insert_ne. Qed.

(** ** The service *)

Lemma getAllFSMData_key k0 fsm J : keeps (on_store k0 J) (getAllFSMData fsm).
Proof. unfold getAllFSMData. keeps_tac. Qed.
#[local] Hint Resolve getAllFSMData_key : keeps.

Lemma SaveFSM_key k0 fsm id b : keeps (on_store k0 (fun _ => True)) (SaveFSM fsm id b).
Proof. unfold SaveFSM. keeps_tac. Qed.
#[local] Hint Resolve SaveFSM_key : keeps.

Lemma GetFSMInstance_key k0 fsm id create :
  keeps (on_store k0 (fun _ => True)) (GetFSMInstance fsm id create).
Proof. unfold GetFSMInstance, loadFSM. keeps_tac. Qed.

Lemma GetFSMInstance_post k0 fsm id create :
  dumps_faithful → (create = true → text id) →
  post (on_store k0 (rounds_in fsm)) (GetFSMInstance fsm id create)
    (fun o s => (∃ i, o = Some i ∧ kept i) ∧ on_store k0 (rounds_in fsm) s)
    (on_store k0 (rounds_in fsm)).
Proof.
  intros Hjson Hid. apply (post_rounds k0 fsm _ _ (GetFSMInstance_key k0 fsm id create)).
  intros s (m & Hh & Hok). unfold GetFSMInstance. pose proof (loadFSM_ok fsm m s id Hh) as Hl.
  assert (rounds_at fsm s) as Hs by by exists m. unfold mbind, IO_bind, wrap. rewrite Hl.
  destruct (m !! id) as [b|] eqn:Hb.
  { destruct (FromDump b) as [[i|err]|] eqn:Hf; [|done..]. cbn. split; [|done].
    exists i. split; [done|]. by eapply rounds_kept_load. }
  cbn. destruct create; cbn; [|done]. unfold lift_res.
  destruct (create_spec_dump id) as [(i & d & Hc & Hd)|[err Hc]]; rewrite Hc; [|done].
  pose proof (kept_create id i (Hid eq_refl) Hc) as Hk.
  destruct (marshal_roundtrip d (proj1 Hjson d (proj2 Hk d Hd))) as (b & Hm & _ & _).
  assert (FSMInstance_Dump i = inl b) as Hdump by (unfold FSMInstance_Dump, FSMDump_Marshal; by rewrite Hd, Hm).
  destruct (SaveFSM_ok fsm m s id b Hh (proj2 Hjson id b (Hid eq_refl))) as (s' & Hsave & Hh').
  rewrite Hdump, Hsave. split; [by exists i|]. exists (<[id := b]> m). split; [done|].
  by eapply rounds_kept_insert.
Qed.

(** The dump of a kept instance may be saved. *)
Lemma SaveFSM_keeps k0 fsm id i b :
  dumps_faithful → text id → kept i → FSMInstance_Dump i = inl b →
  keeps (on_store k0 (rounds_in fsm)) (SaveFSM fsm id b).
Proof.
  intros Hjson Hid Hk Hb.
  eapply post_conseq; [apply (post_rounds k0 fsm _ (fun _ => True) (SaveFSM_key k0 fsm id b))|done|by intros a s []|done].
  intros s (m & Hh & Hok). destruct (SaveFSM_ok fsm m s id b Hh (proj2 Hjson id b Hid)) as (s' & -> & Hh').
  split; [done|]. exists (<[id := b]> m). split; [done|]. by eapply rounds_kept_insert.
Qed.

Lemma SaveSignatures_keeps k0 fsm ops l :
  keys_apart fsm ops k0 → keeps (on_store k0 (rounds_in fsm)) (sig_SaveSignatures l).
Proof.
  intros [Hk _]. unfold sig_SaveSignatures, SaveSignatures, GetSignatures. keeps_tac.
  apply Set_store. intros m. by apply rounds_in_insert.
Qed.

(** ** Instances *)

Context (fsm : FSMService) (ops : BaseOperationRepo) (k0 : string).
Context (Hjson : dumps_faithful) (Hclock : clock_dated) (Hapart : keys_apart fsm ops k0).

(** The invariant of the node. *)
Definition node_rounds (n : BaseNodeService S) : Prop :=
  fsmService n = fsm ∧ opService n = ops ∧ on_store k0 (rounds_in fsm) (deps n).

Lemma call_keeps {A} (m : IO S A) : keeps (on_store k0 (rounds_in fsm)) m → keeps node_rounds (call m).
Proof. apply keeps_zoom; unfold node_rounds; naive_solver. Qed.

Lemma call_post {A} (m : IO S A) (Q : A → Prop) :
  post (on_store k0 (rounds_in fsm)) m (fun a s => Q a ∧ on_store k0 (rounds_in fsm) s) (on_store k0 (rounds_in fsm)) →
  post node_rounds (call m) (fun a n => Q a ∧ node_rounds n) node_rounds.
Proof.
  intros Hm n (Hf & Ho & Hn). specialize (Hm (deps n) Hn). unfold call, zoom.
  destruct (m (deps n)) as [[s [a|e]]|]; [|done..]. destruct Hm. unfold node_rounds. cbn. naive_solver.
Qed.

(** An answer and a dump that belong to a kept instance. *)
Definition sound_result (r : FSMInstance * option (GoFsm.Response RespData) * bytes) : Prop :=
  kept r.1.1 ∧ FSMInstance_Dump r.1.1 = inl r.2.

Lemma do_event_post i e arg :
  kept i → representable_request arg →
  post node_rounds (do_event (S := S) i e arg) (fun r n => sound_result r ∧ node_rounds n) node_rounds.
Proof.
  intros Hk Harg. unfold do_event. eapply post_bind with
    (R := fun r n => FSMInstance_Do i e [arg] = Ret r ∧ node_rounds n); [by apply post_lift|].
  intros [i' [[resp b] err]]. apply post_pure. intros HDo.
  destruct err as [err|]; [by apply post_throw|]. apply post_ret. intros n Hn. split; [|done].
  assert (kept i') as Hk' by (eapply kept_do, HDo; [done|by constructor]).
  destruct (kept_dump i' Hk') as (d' & Hd' & Hr'). split; [done|].
  apply (Do_dump i e [arg] i' resp b d'); [apply reachable_inst_ok, Hk|exact HDo|exact Hd'|].
  by apply (proj1 Hjson).
Qed.

(** The time is read and an event without other data sent. *)
Lemma do_now_post i e :
  kept i →
  post node_rounds (do_now i e) (fun r n => sound_result r ∧ node_rounds n) node_rounds.
Proof.
  intros Hk. unfold do_now. eapply post_bind with (R := fun now n => dated now = true ∧ node_rounds n).
  - intros n Hn. pose proof (call_keeps time_Now (time_store k0 (rounds_in fsm)) n Hn) as Ht.
    unfold call, zoom in *. destruct (time_Now (deps n)) as [[s [t|e']]|] eqn:Hnow; [|done..].
    split; [by eapply Hclock|exact Ht].
  - intros now. apply post_pure. intros Hnow. by apply do_event_post.
Qed.

Lemma hand_over_post r e :
  sound_result r →
  post node_rounds (hand_over r.2 e) (fun r n => sound_result r ∧ node_rounds n) node_rounds.
Proof.
  intros [Hk Hb]. unfold hand_over. eapply post_bind with (R := fun i n => kept i ∧ node_rounds n).
  - apply post_wrap, post_lift_res; [|done]. intros i Hi n Hn. split; [|done]. by eapply kept_reload.
  - intros i. apply post_pure. apply do_now_post.
Qed.

Lemma hand_over_when_post s e r :
  sound_result r →
  post node_rounds (hand_over_when s e r) (fun r n => sound_result r ∧ node_rounds n) node_rounds.
Proof.
  intros Hr. destruct r as [[i resp] b]. unfold hand_over_when.
  eapply post_bind; [by apply keeps_lift|]. intros response. destruct (_ =s? _).
  - exact (hand_over_post (i, resp, b) e Hr).
  - by apply post_ret.
Qed.

Lemma save_round_keeps id i b :
  text id → kept i → FSMInstance_Dump i = inl b → keeps node_rounds (save_round id b).
Proof.
  intros Hid Hre Hb. unfold save_round.
  eapply post_bind with (R := fun f n => f = fsm ∧ node_rounds n).
  { apply post_gets. intros n Hn. split; [apply Hn|done]. }
  intros f. apply post_pure. intros ->. apply keeps_wrap, call_keeps. by eapply SaveFSM_keeps.
Qed.

Lemma restart_signing_post message i :
  text (msg_DkgRoundID message) → kept i →
  post node_rounds (restart_signing message i) (fun i n => kept i ∧ node_rounds n) node_rounds.
Proof.
  intros Hid Hre. unfold restart_signing. eapply post_bind; [by apply do_now_post|].
  intros [[i' resp] b]. apply post_pure. intros [Hre' Hb].
  eapply post_bind; [by eapply save_round_keeps|]. intros ?. by apply post_ret.
Qed.

(** ** The handlers *)

Definition sound_instance (o : option FSMInstance) : Prop :=
  match o with Some i => kept i | None => True end.

Lemma handle_errors_post message i :
  text (msg_DkgRoundID message) → kept i →
  post node_rounds (handle_errors message i) (fun o n => sound_instance o ∧ node_rounds n) node_rounds.
Proof.
  intros Hid Hre. assert (∀ n, node_rounds n → sound_instance (Some i) ∧ node_rounds n) as Hsame.
  { intros n Hn. by split. }
  unfold handle_errors, the_state, the_payload.
  eapply post_bind; [by keeps_tac|]. intros s. destruct (negb _); [by apply post_ret|].
  eapply post_bind; [by keeps_tac|]. intros p. destruct (match pay_DKGProposalPayload p with Some c => dkg_failed c | None => false end).
  { apply post_ret. intros n Hn. by split. }
  destruct (pay_SigningProposalPayload p); [|by apply post_ret].
  eapply post_bind; [by apply restart_signing_post|]. intros i'. apply post_pure. intros Hre'.
  apply post_ret. intros n Hn. by split.
Qed.

Lemma handle_timeouts_post message i :
  text (msg_DkgRoundID message) → kept i →
  post node_rounds (handle_timeouts message i) (fun o n => sound_instance o ∧ node_rounds n) node_rounds.
Proof.
  intros Hid Hre. assert (∀ n, node_rounds n → sound_instance (Some i) ∧ node_rounds n) as Hsame.
  { intros n Hn. by split. }
  unfold handle_timeouts, the_state, the_payload.
  eapply post_bind; [by keeps_tac|]. intros s. destruct (negb _); [by apply post_ret|].
  destruct (_ || _).
  { eapply post_bind; [by keeps_tac|]. intros p. apply post_ret. intros n Hn. by split. }
  destruct (HasPrefix _ _); [|by apply post_ret].
  eapply post_bind; [by keeps_tac|]. intros p. eapply post_bind; [by apply keeps_lift|]. intros c.
  eapply post_bind; [by apply restart_signing_post|]. intros i'. apply post_pure. intros Hre'.
  apply post_ret. intros n Hn. by split.
Qed.

(** Calls that the invariant does not speak of. *)
Ltac node_keeps :=
  repeat first
    [ solve [eauto with keeps]
    | apply call_keeps; solve [eauto with keeps]
    | keeps_step ].

Lemma signMessage_keeps msg : keeps node_rounds (signMessage (S := S) msg).
Proof. unfold signMessage. node_keeps. Qed.
#[local] Hint Resolve signMessage_keeps : keeps.

Lemma buildMessage_keeps id e data : keeps node_rounds (buildMessage (S := S) id e data).
Proof. unfold buildMessage. node_keeps. Qed.
#[local] Hint Resolve buildMessage_keeps : keeps.

Lemma verifyMessage_keeps i m : keeps node_rounds (verifyMessage (S := S) i m).
Proof. unfold verifyMessage, GetSkipCommKeysVerification. node_keeps. Qed.
#[local] Hint Resolve verifyMessage_keeps : keeps.

Lemma save_signatures_keeps l : keeps node_rounds (call (sig_SaveSignatures (S := S) l)).
Proof. by apply call_keeps, (SaveSignatures_keeps k0 fsm ops). Qed.
#[local] Hint Resolve save_signatures_keeps : keeps.

Lemma processSignature_keeps m : keeps node_rounds (processSignature (S := S) m).
Proof. unfold processSignature. node_keeps. Qed.
Lemma processSignatureProposal_keeps m : keeps node_rounds (processSignatureProposal (S := S) m).
Proof. unfold processSignatureProposal. node_keeps. Qed.
Lemma broadcast_keeps m l : keeps node_rounds (broadcastReconstructedSignatures (S := S) m l).
Proof. unfold broadcastReconstructedSignatures. node_keeps. Qed.
#[local] Hint Resolve processSignature_keeps processSignatureProposal_keeps broadcast_keeps : keeps.

Lemma act_on_keeps m i resp : keeps node_rounds (act_on (S := S) m i resp).
Proof. unfold act_on. node_keeps. Qed.
#[local] Hint Resolve act_on_keeps : keeps.

Lemma process_event_keeps m i : representable_message m → kept i → keeps node_rounds (process_event (S := S) m i).
Proof.
  intros [Hid Hreq] Hre. unfold process_event.
  eapply post_bind with (R := fun arg n => representable_request arg ∧ node_rounds n).
  { apply post_wrap. intros n Hn. unfold of_res. destruct (FSMRequestFromMessage m); [|exact Hn].
    split; [by apply Hreq|exact Hn]. }
  intros arg. apply post_pure. intros Harg.
  eapply post_bind; [by apply do_event_post|]. intros r. apply post_pure. intros Hr.
  eapply post_bind; [by apply hand_over_when_post|]. intros r1. apply post_pure. intros Hr1.
  eapply post_bind; [by apply hand_over_when_post|]. intros [[i2 resp] b]. apply post_pure. intros Hr2.
  apply keeps_bind; [node_keeps|]. intros response. apply keeps_bind; [node_keeps|]. intros operation.
  eapply post_bind with (R := fun b n => (∃ i, kept i ∧ FSMInstance_Dump i = inl b) ∧ node_rounds n).
  - destruct (_ =s? _).
    + eapply post_bind; [by apply (hand_over_post (i2, resp, b))|]. intros [[i3 resp'] b'].
      apply post_pure. intros [Hre3 Hb3]. apply post_ret. intros n Hn. split; [by exists i3|done].
    + apply post_ret. intros n Hn. split; [|done]. destruct Hr2 as [Hre2 Hb2]. by exists i2.
  - intros b'. apply post_pure. intros (i3 & Hre3 & Hb3).
    apply keeps_bind; [node_keeps|]. intros ?. apply keeps_bind; [by eapply save_round_keeps|].
    intros ?. apply keeps_ret.
Qed.

Lemma processMessage_keeps m : representable_message m → keeps node_rounds (processMessage (S := S) m).
Proof.
  intros Hm. pose proof Hm as [Hid _]. unfold processMessage. eapply post_bind with (R := fun f n => f = fsm ∧ node_rounds n).
  { apply post_gets. intros n Hn. split; [apply Hn|done]. }
  intros f. apply post_pure. intros ->.
  eapply post_bind; [apply post_wrap, call_post, GetFSMInstance_post; [exact Hjson|done]|].
  intros o. apply post_pure. intros (i & -> & Hre). cbn [deref].
  eapply post_bind with (R := fun j n => j = i ∧ node_rounds n).
  { apply post_lift. intros j [= ->] n Hn. done. }
  intros j. apply post_pure. intros ->. apply keeps_bind; [node_keeps|]. intros ?.
  destruct (_ =s? _); [node_keeps|]. destruct (_ =s? _); [node_keeps|].
  eapply post_bind; [by apply handle_errors_post|]. intros [i1|]; apply post_pure; intros Hre1; [|by apply post_ret].
  eapply post_bind; [by apply handle_timeouts_post|]. intros [i2|]; apply post_pure; intros Hre2; [|by apply post_ret].
  by apply process_event_keeps.
Qed.

Lemma put_operation_keeps o : keeps node_rounds (put_operation (S := S) o).
Proof.
  unfold put_operation. destruct o as [o|]; [|apply keeps_ret].
  eapply post_bind with (R := fun r n => r = ops ∧ node_rounds n).
  { apply post_gets. intros n Hn. split; [apply Hn|done]. }
  intros r. apply post_pure. intros ->. apply keeps_wrap, call_keeps.
  unfold op_PutOperation, PutOperation, GetOperations, getDeletedOperations. keeps_tac.
  apply Set_store. intros m. apply rounds_in_insert, Hapart.
Qed.

Lemma ProcessMessage_keeps m : msg_Event m ≠ ReinitDKG → representable_message m → keeps node_rounds (ProcessMessage (S := S) m).
Proof.
  intros Hm Hrep. unfold ProcessMessage. rewrite (proj2 (seqb_false _ _) Hm).
  apply keeps_bind; [by apply processMessage_keeps|apply put_operation_keeps].
Qed.

Lemma poll_message_keeps m : msg_Event m ≠ ReinitDKG → representable_message m → keeps node_rounds (poll_message (S := S) m).
Proof.
  intros Hm Hrep. unfold poll_message. apply keeps_bind; [node_keeps|]. intros u. apply keeps_bind.
  { destruct (intended_for _ _); [|apply keeps_ret].
    apply keeps_bind; [by apply keeps_try, ProcessMessage_keeps|]. intros ?. apply keeps_ret. }
  intros ?. apply keeps_bind; [|intros; apply keeps_ret]. apply keeps_try, call_keeps, SaveOffset_store.
  intros store v. apply rounds_in_insert, Hapart.
Qed.

(** Whatever messages a node is given, in any number and order, as long as
    none of them is a reinitialisation and JSON takes their requests: the rounds
    of its state stay dumps of reachable instances, and every round it then
    loads, lists or creates is a reachable instance, so that every safety
    property and invariant of reachable instances holds of it. *)
Theorem polled_rounds_are_reachable n ms n' r :
  node_rounds n → Forall (fun m => msg_Event m ≠ ReinitDKG ∧ representable_message m) ms →
  iterIO poll_message ms n = Ret (n', r) →
  node_rounds n' ∧
  ∀ id create s' o, (create = true → text id) → GetFSMInstance fsm id create (deps n') = Ret (s', inl o) →
    ∃ i, o = Some i ∧ reachable i.
Proof.
  intros Hn Hms Hrun. assert (node_rounds n') as Hn'.
  { refine (keeps_run _ _ _ _ _ _ Hn Hrun). clear Hrun. unfold iterIO.
    induction Hms as [|m ms [Hm Hr] _ IH]; cbn [foldIO]; [apply keeps_ret|].
    apply keeps_bind; [by apply poll_message_keeps|]. by intros []. }
  split; [done|]. intros id create s' o Hid Hget. destruct Hn' as (_ & _ & Hs).
  destruct (post_run _ _ _ _ _ _ _ (GetFSMInstance_post k0 fsm id create Hjson Hid) Hs Hget)
    as [(i & -> & Hk & _) _]. by exists i.
Qed.
End rounds.
