(* ===== verification/NodeFrame.v ===== *)
(** * What processing a message may touch

    An invariant of the dependencies that the calls of the node keep is kept by
    the processing of any message, reinitialisations included; and the node's
    own fields are as before, the verification flag among them. *)

From S2P Require Import Prelude GoFsm Requests Payload.
From S2P Require Import SignatureProposal DkgProposal SigningProposal StateMachines.
From S2P Require Import LevelState ClientTypes OperationRepo SignatureRepo FsmService.
From S2P Require Import IOLogic Kyber Dkg SigningTasks KeyStore Services NodeService ProcessMessage.

#[local] Opaque SignatureProposal.New DkgProposal.New SigningProposal.New.

Section frame.
Context {S : Type} {st : NodeState S} {lerr : LevelDBErr} {stg : Storage S} {keys : KeyStore S}
  {env : Env S}.
Context {crypto : Crypto} {scrypto : SigningCrypto} {kyber : Kyber} {wc : WcRotation}.
Context {ord : MapOrder} {json_tasks : JSON (list SigningTask)} {json_dump : JSON FSMDump}
  {json_dumps : JSON Dumps} {json_ops : JSON Operations} {json_sigs : JSON SignaturesStorage}
  {json_recs : JSON (list ReconstructedSignature)} {json_oplist : JSON (list Operation)}
  {json_redkg : JSON ReDKG} {json_keyring : JSON blsKeyringJSON}
  {jreq : RequestsJSON} {jresp : ResponsesJSON}.

(** The keys of the state that the node writes while it processes a message. *)
Definition node_key (fsm : FSMService) (ops : BaseOperationRepo) (k : string) : Prop :=
  k = stateKey fsm ∨ k = operationsCompositeKey ops ∨ k = deleteOperationsCompositeKey ops ∨
  ∃ id, k = MakeCompositeKeyString SignaturesKeyPrefix id.

(** The calls of the dependencies keep [I]. *)
Record frame (fsm : FSMService) (ops : BaseOperationRepo) (I : S → Prop) : Prop := {
  fr_Send ms : keeps I (storage_Send ms);
  fr_time : keeps I time_Now;
  fr_uuid : keeps I uuid_New;
  fr_LoadKeys u pw : keeps I (keystore_LoadKeys u pw);
  fr_Get k : keeps I (state_Get k);
  fr_GetOrError k : keeps I (state_GetOrError k);
  fr_Set k v : node_key fsm ops k → keeps I (state_Set k v)
}.
Context (fsm : FSMService) (ops : BaseOperationRepo) (user : string) (key : bytes) (I : S → Prop)
  (Hframe : frame fsm ops I).
#[local] Hint Extern 0 (keeps I (storage_Send _)) => apply (fr_Send _ _ _ Hframe) : keeps.
#[local] Hint Extern 0 (keeps I time_Now) => apply (fr_time _ _ _ Hframe) : keeps.
#[local] Hint Extern 0 (keeps I uuid_New) => apply (fr_uuid _ _ _ Hframe) : keeps.
#[local] Hint Extern 0 (keeps I (keystore_LoadKeys _ _)) => apply (fr_LoadKeys _ _ _ Hframe) : keeps.
#[local] Hint Extern 0 (keeps I (state_Get _)) => apply (fr_Get _ _ _ Hframe) : keeps.
#[local] Hint Extern 0 (keeps I (state_GetOrError _)) => apply (fr_GetOrError _ _ _ Hframe) : keeps.

(** The node with its own fields as they are. *)
Definition node_with (flag : bool) (n : BaseNodeService S) : Prop :=
  fsmService n = fsm ∧ opService n = ops ∧ userName n = user ∧ pubKey n = key ∧
  SkipCommKeysVerification n = flag ∧ I (deps n).

Lemma call_frame fl {A} (m : IO S A) : keeps I m → keeps (node_with fl) (call m).
Proof. apply keeps_zoom; unfold node_with; naive_solver. Qed.

(** Reading a fixed field. *)
Lemma fsm_frame fl {A} (k : FSMService → IO (BaseNodeService S) A) :
  keeps (node_with fl) (k fsm) → keeps (node_with fl) (gets fsmService ≫= k).
Proof. intros Hk n Hn. unfold mbind, IO_bind, gets. rewrite (proj1 Hn). by apply Hk. Qed.
Lemma ops_frame fl {A} (k : BaseOperationRepo → IO (BaseNodeService S) A) :
  keeps (node_with fl) (k ops) → keeps (node_with fl) (gets opService ≫= k).
Proof. intros Hk n Hn. unfold mbind, IO_bind, gets. rewrite (proj1 (proj2 Hn)). by apply Hk. Qed.

Ltac frame_tac :=
  repeat first
    [ solve [eauto with keeps]
    | apply fsm_frame
    | apply ops_frame
    | apply call_frame; solve [eauto with keeps]
    | keeps_step ].

Lemma getAllFSMData_frame : keeps I (getAllFSMData fsm).
Proof. unfold getAllFSMData. frame_tac. Qed.
#[local] Hint Resolve getAllFSMData_frame : keeps.
Lemma SaveFSM_frame id b : keeps I (SaveFSM fsm id b).
Proof. unfold SaveFSM. frame_tac. apply (fr_Set _ _ _ Hframe). by left. Qed.
#[local] Hint Resolve SaveFSM_frame : keeps.
Lemma GetFSMInstance_frame id create : keeps I (GetFSMInstance fsm id create).
Proof. unfold GetFSMInstance, loadFSM. frame_tac. Qed.
#[local] Hint Resolve GetFSMInstance_frame : keeps.
Lemma IsExist_frame id : keeps I (IsExist fsm id).
Proof. unfold IsExist. frame_tac. Qed.
Lemma SaveSignatures_frame l : keeps I (sig_SaveSignatures l).
Proof.
  unfold sig_SaveSignatures, SaveSignatures, GetSignatures. frame_tac.
  apply (fr_Set _ _ _ Hframe). unfold node_key. eauto 10.
Qed.
Lemma PutOperation_frame o : keeps I (op_PutOperation ops o).
Proof.
  unfold op_PutOperation, PutOperation, GetOperations, getDeletedOperations. frame_tac.
  apply (fr_Set _ _ _ Hframe). unfold node_key. auto.
Qed.
#[local] Hint Resolve IsExist_frame SaveSignatures_frame PutOperation_frame : keeps.

Lemma signMessage_frame fl msg : keeps (node_with fl) (signMessage msg).
Proof. unfold signMessage. frame_tac. Qed.
#[local] Hint Resolve signMessage_frame : keeps.
Lemma buildMessage_frame fl id e data : keeps (node_with fl) (buildMessage id e data).
Proof. unfold buildMessage. frame_tac. Qed.
#[local] Hint Resolve buildMessage_frame : keeps.
Lemma verifyMessage_frame fl i m : keeps (node_with fl) (verifyMessage i m).
Proof. unfold verifyMessage, GetSkipCommKeysVerification. frame_tac. Qed.
Lemma processSignature_frame fl m : keeps (node_with fl) (processSignature m).
Proof. unfold processSignature. frame_tac. Qed.
Lemma processSignatureProposal_frame fl m : keeps (node_with fl) (processSignatureProposal m).
Proof. unfold processSignatureProposal. frame_tac. Qed.
Lemma broadcast_frame fl m l : keeps (node_with fl) (broadcastReconstructedSignatures m l).
Proof. unfold broadcastReconstructedSignatures. frame_tac. Qed.
#[local] Hint Resolve verifyMessage_frame processSignature_frame processSignatureProposal_frame
  broadcast_frame : keeps.

Lemma do_event_frame fl i e arg : keeps (node_with fl) (do_event i e arg).
Proof. unfold do_event. frame_tac. Qed.
#[local] Hint Resolve do_event_frame : keeps.
Lemma do_now_frame fl i e : keeps (node_with fl) (do_now i e).
Proof. unfold do_now. frame_tac. Qed.
#[local] Hint Resolve do_now_frame : keeps.
Lemma save_round_frame fl id b : keeps (node_with fl) (save_round id b).
Proof. unfold save_round. frame_tac. Qed.
#[local] Hint Resolve save_round_frame : keeps.
Lemma hand_over_frame fl b e : keeps (node_with fl) (hand_over b e).
Proof. unfold hand_over. frame_tac. Qed.
#[local] Hint Resolve hand_over_frame : keeps.
Lemma hand_over_when_frame fl s e r : keeps (node_with fl) (hand_over_when s e r).
Proof. unfold hand_over_when. frame_tac. Qed.
Lemma restart_signing_frame fl m i : keeps (node_with fl) (restart_signing m i).
Proof. unfold restart_signing. frame_tac. Qed.
#[local] Hint Resolve hand_over_when_frame restart_signing_frame : keeps.
Lemma handle_errors_frame fl m i : keeps (node_with fl) (handle_errors m i).
Proof. unfold handle_errors, the_state, the_payload. frame_tac. Qed.
Lemma handle_timeouts_frame fl m i : keeps (node_with fl) (handle_timeouts m i).
Proof. unfold handle_timeouts, the_state, the_payload. frame_tac. Qed.
Lemma act_on_frame fl m i resp : keeps (node_with fl) (act_on m i resp).
Proof. unfold act_on. frame_tac. Qed.
#[local] Hint Resolve handle_errors_frame handle_timeouts_frame act_on_frame : keeps.
Lemma process_event_frame fl m i : keeps (node_with fl) (process_event m i).
Proof. unfold process_event. frame_tac. Qed.
#[local] Hint Resolve process_event_frame : keeps.

Lemma processMessage_frame fl m : keeps (node_with fl) (processMessage m).
Proof. unfold processMessage. frame_tac. Qed.
#[local] Hint Resolve processMessage_frame : keeps.

Lemma put_operation_frame fl o : keeps (node_with fl) (put_operation o).
Proof. unfold put_operation. frame_tac. Qed.
#[local] Hint Resolve put_operation_frame : keeps.

Lemma reinit_loop_frame fl acc ms : keeps (node_with fl) (reinit_loop acc ms).
Proof.
  induction ms as [|m ms IH] in acc |- *; cbn [reinit_loop]; [apply keeps_ret|].
  destruct (_ =s? _); [apply keeps_ret|]. frame_tac.
Qed.
#[local] Hint Resolve reinit_loop_frame : keeps.

Lemma skipping_frame fl {A} (m : IO (BaseNodeService S) A) :
  (∀ fl, keeps (node_with fl) m) → keeps (node_with fl) (skipping_verification m).
Proof.
  intros Hm n Hn. unfold skipping_verification. destruct (SkipCommKeysVerification n) eqn:Hf; [by apply Hm|].
  assert (node_with true (set_skip true n)) as Ht by (unfold node_with in *; naive_solver).
  assert (∀ n', node_with true n' → node_with fl (set_skip false n')) as Hback.
  { unfold node_with in *. cbn. naive_solver congruence. }
  specialize (Hm true _ Ht). destruct (m (set_skip true n)) as [[n' [a|e]]|]; auto.
Qed.

Lemma reinitDKG_frame fl m : keeps (node_with fl) (reinitDKG m).
Proof.
  unfold reinitDKG. frame_tac. apply skipping_frame. unfold reinit_round. frame_tac.
Qed.
#[local] Hint Resolve reinitDKG_frame : keeps.

Lemma ProcessMessage_frame fl m : keeps (node_with fl) (ProcessMessage m).
Proof. unfold ProcessMessage. frame_tac. Qed.
End frame.
