(* ===== verification/NodePoll.v ===== *)
(** * Polling

    The loop of the node over the messages that its storage hands out: the
    offset moves past every message, whatever becomes of it, and the processing
    of a message leaves the node's own fields alone. *)

From S2P Require Import Prelude GoFsm Requests Payload.
From S2P Require Import SignatureProposal DkgProposal SigningProposal StateMachines.
From S2P Require Import LevelState ClientTypes OperationRepo SignatureRepo FsmService.
From S2P Require Import IOLogic Kyber Dkg SigningTasks KeyStore Services NodeService ProcessMessage.
From S2P Require Import NodeSpec NodeRounds NodeFrame.

#[local] Opaque SignatureProposal.New DkgProposal.New SigningProposal.New.

Lemma iterIO_cons {S A} (body : A → IO S unit) x l s :
  iterIO body (x :: l) s =
    match body x s with Ret (s1, inl _) => iterIO body l s1 | Ret (s1, inr e) => Ret (s1, inr e) | Panic w => Panic w end.
Proof. unfold iterIO. cbn [foldIO]. unfold mbind, IO_bind. by destruct (body x s) as [[s1 [[]|]]|]. Qed.

Lemma iterIO_app {S A} (body : A → IO S unit) l1 l2 s :
  iterIO body (l1 ++ l2) s =
    match iterIO body l1 s with Ret (s1, inl _) => iterIO body l2 s1 | Ret (s1, inr e) => Ret (s1, inr e) | Panic w => Panic w end.
Proof.
  induction l1 as [|x l1 IH] in s |- *; [done|]. cbn [app]. rewrite !iterIO_cons.
  destruct (body x s) as [[s1 [u|e]]|]; [apply IH|done..].
Qed.

Section poll.
Context {S : Type} {st : NodeState S} {lerr : LevelDBErr} {spec : NodeStateSpec S}
  {stg : Storage S} {keys : KeyStore S} {env : Env S} {world : WorldSpec S}.
Context {crypto : Crypto} {scrypto : SigningCrypto} {kyber : Kyber} {wc : WcRotation}.
Context {ord : MapOrder} {json_tasks : JSON (list SigningTask)} {json_dump : JSON FSMDump}
  {json_dumps : JSON Dumps} {json_ops : JSON Operations} {json_sigs : JSON SignaturesStorage}
  {json_recs : JSON (list ReconstructedSignature)} {json_oplist : JSON (list Operation)}
  {json_redkg : JSON ReDKG} {json_keyring : JSON blsKeyringJSON}
  {jreq : RequestsJSON} {jresp : ResponsesJSON}.
Context (fsm : FSMService) (ops : BaseOperationRepo) (k0 : string).

(** The offset has a key of its own. *)
Definition offset_apart : Prop := ∀ k, node_key fsm ops k → k ≠ k0.
Context (Hapart : offset_apart).

(** The offset is stored. *)
Definition offset_is (v : bytes) : S → Prop := on_store k0 (fun m => m !! k0 = Some v).

Lemma offset_frame v : frame fsm ops (offset_is v).
Proof.
  constructor; intros; unfold offset_is; eauto with keeps.
  apply Set_store. intros m Hm. rewrite lookup_insert_ne; [done|]. by apply Hapart.
Qed.

(** Everything the processing of a message leaves alone. *)
Definition node_at (n0 : BaseNodeService S) (v : bytes) (n : BaseNodeService S) : Prop :=
  userName n = userName n0 ∧ pubKey n = pubKey n0 ∧ fsmService n = fsm ∧ opService n = ops ∧
  SkipCommKeysVerification n = SkipCommKeysVerification n0 ∧ offset_is v (deps n).

Lemma node_at_with n0 v n :
  node_at n0 v n ↔ node_with fsm ops (userName n0) (pubKey n0) (offset_is v) (SkipCommKeysVerification n0) n.
Proof. unfold node_at, node_with. naive_solver. Qed.

Lemma ProcessMessage_at n0 v m : keeps (node_at n0 v) (ProcessMessage m).
Proof.
  eapply post_conseq; [apply (ProcessMessage_frame fsm ops (userName n0) (pubKey n0) (offset_is v)
    (offset_frame v) (SkipCommKeysVerification n0) m)|intros; by apply node_at_with..].
Qed.

(** The offset to resume at after [m]. *)
Definition offset_past (m : Message) : Z := (msg_Offset m + 1) mod 2 ^ 64.
Definition next_offset (m : Message) : bytes := PutUint64 (offset_past m).

Lemma poll_message_at n0 v m :
  post (node_at n0 v) (poll_message m) (fun _ => node_at n0 (next_offset m)) (fun _ => False).
Proof.
  unfold poll_message. eapply post_bind with (R := fun _ => node_at n0 v); [by apply post_gets|]. intros u.
  eapply post_bind with (R := fun _ => node_at n0 v).
  { destruct (intended_for u m); [|by apply post_ret].
    eapply post_bind with (R := fun _ => node_at n0 v); [|intros ?; by apply post_ret].
    apply post_try. eapply post_conseq; [apply ProcessMessage_at|done..]. }
  intros []. eapply post_bind with (R := fun _ => node_at n0 (next_offset m)); [|intros ?; by apply post_ret].
  apply post_try. intros n (Hu & Hp & Hf & Ho & Hs & Hr & Hk & Hv).
  destruct (SaveOffset_ready (offset_past m) (deps n) Hr) as (s' & Hsave & Hr' & Hst & Hrest).
  unfold call, zoom, offset_past in *. rewrite Hsave. unfold node_at. cbn. split_and!; [done..|].
  split; [done|]. rewrite Hrest, Hst, Hk. split; [done|]. by rewrite lookup_insert, decide_True.
Qed.

(** The statements of the loop body. *)
Lemma poll_message_eq m n :
  poll_message m n =
    match (if intended_for (userName n) m then ProcessMessage m n else Ret (n, inl tt)) with
    | Ret (n1, _) =>
        match state_SaveOffset (offset_past m) (deps n1) with
        | Ret (s', _) => Ret (set_deps s' n1, inl tt)
        | Panic why => Panic why
        end
    | Panic why => Panic why
    end.
Proof.
  unfold poll_message, mbind, IO_bind, gets, try, call, zoom, offset_past. destruct (intended_for _ _).
  - destruct (ProcessMessage m n) as [[n1 [u|e]]|]; [..|done]; cbn;
      by destruct (state_SaveOffset _ (deps n1)) as [[? [|]]|].
  - cbn. by destruct (state_SaveOffset _ (deps n)) as [[? [|]]|].
Qed.

(** Only the processing of a message that is meant for the node can panic. *)
Lemma poll_message_panics n0 v m n why :
  node_at n0 v n → poll_message m n = Panic why →
  intended_for (userName n0) m = true ∧ ProcessMessage m n = Panic why.
Proof.
  intros Hn H. rewrite poll_message_eq, (proj1 Hn) in H.
  assert (∀ n1, node_at n0 v n1 → ∃ s' r, state_SaveOffset (offset_past m) (deps n1) = Ret (s', r)) as Hsave.
  { intros n1 (_ & _ & _ & _ & _ & Hr & _).
    destruct (SaveOffset_ready (offset_past m) (deps n1) Hr) as (s' & -> & _). eauto. }
  destruct (intended_for (userName n0) m).
  - split; [done|]. pose proof (ProcessMessage_at n0 v m n Hn) as Hp.
    destruct (ProcessMessage m n) as [[n1 [x|e]]|]; [..|by injection H as ->];
      destruct (Hsave n1 Hp) as (s' & r & Hs); by rewrite Hs in H.
  - destruct (Hsave n Hn) as (s' & r & Hs). by rewrite Hs in H.
Qed.

(** The offset after the messages [ms], when it was [o] before them. *)
Definition offset_after (o : Z) (ms : list Message) : Z :=
  match last ms with Some m => offset_past m | None => o end.

Lemma offset_after_snoc o ms m : offset_after o (ms ++ [m]) = offset_past m.
Proof. unfold offset_after. by rewrite last_snoc. Qed.

Lemma offset_after_range o ms : 0 ≤ o < 2 ^ 64 → 0 ≤ offset_after o ms < 2 ^ 64.
Proof. unfold offset_after. destruct (last ms); [intros _; apply Z.mod_pos_bound; lia|done]. Qed.

(** After a list of messages the offset is the one after the last of them; a
    message that panics leaves it at the ones before. *)
Lemma poll_messages_at n0 o ms n :
  node_at n0 (PutUint64 o) n →
  match iterIO poll_message ms n with
  | Ret (n', r) => r = inl tt ∧ node_at n0 (PutUint64 (offset_after o ms)) n'
  | Panic why => ∃ k msg nk, ms !! k = Some msg ∧ iterIO poll_message (take k ms) n = Ret (nk, inl tt) ∧
      node_at n0 (PutUint64 (offset_after o (take k ms))) nk ∧
      intended_for (userName n0) msg = true ∧ ProcessMessage msg nk = Panic why
  end.
Proof.
  intros Hn. induction ms as [|m ms IH] using rev_ind; [done|]. rewrite iterIO_app.
  destruct (iterIO poll_message ms n) as [[n1 r]|why] eqn:Hrun.
  - destruct IH as [-> Hn1]. rewrite iterIO_cons.
    pose proof (poll_message_at n0 _ m n1 Hn1) as Hm.
    destruct (poll_message m n1) as [[n2 [[]|e]]|why] eqn:Hp; [|done|].
    + split; [done|]. by rewrite offset_after_snoc.
    + exists (length ms), m, n1. rewrite take_app_length, list_lookup_middle by done.
      destruct (poll_message_panics n0 _ m n1 why Hn1 Hp). by split_and!.
  - destruct IH as (k & msg & nk & Hk & IH). exists k, msg, nk.
    assert (k < length ms)%nat by by eapply lookup_lt_Some.
    rewrite lookup_app_l, take_app_le by lia. done.
Qed.

(** The node stands at the offset [o], with the fields of [n0]. *)
Definition stands_at (n0 : BaseNodeService S) (o : Z) (n : BaseNodeService S) : Prop :=
  GetStateOffset n = Ret (n, inl o) ∧ userName n = userName n0 ∧ pubKey n = pubKey n0 ∧
  fsmService n = fsmService n0 ∧ opService n = opService n0 ∧
  SkipCommKeysVerification n = SkipCommKeysVerification n0.

Lemma node_at_stands n0 o n :
  fsmService n0 = fsm → opService n0 = ops → 0 ≤ o < 2 ^ 64 → node_at n0 (PutUint64 o) n → stands_at n0 o n.
Proof.
  intros Hf Hops Ho (Hu & Hp & Hf' & Ho' & Hs & Hr & Hk & Hv). split; [|by split_and!; try congruence].
  unfold GetStateOffset, call, zoom. rewrite (LoadOffset_ready o); [|done..|by rewrite Hk]. by destruct n.
Qed.

(** A log: numbered messages, and what it hands out from an offset on. *)
Definition numbered_board (l : list Message) : Prop :=
  ∀ i m, l !! i = Some m → msg_Offset m = Z.of_nat i.

Lemma last_offset l o :
  numbered_board l → Z.of_nat (length l) < 2 ^ 64 → (o ≤ length l)%nat →
  offset_after (Z.of_nat o) (drop o l) = Z.of_nat (length l).
Proof.
  intros Hl Hlen Ho. destruct (decide (o = length l)) as [->|Hne]; [by rewrite drop_all|].
  destruct l as [|x l0 _] using rev_ind; [cbn in *; lia|]. rewrite length_app in *. cbn [length] in *.
  assert (msg_Offset x = Z.of_nat (length l0)) as Hx.
  { apply Hl. by rewrite lookup_app_r, Nat.sub_diag by lia. }
  rewrite drop_app_le, offset_after_snoc by lia. unfold offset_past. rewrite Hx, Z.mod_small by lia. lia.
Qed.

(** A run that ended went through every message. *)
Lemma iter_reaches n o ms n1 n' k msg :
  fsmService n = fsm → opService n = ops → 0 ≤ o < 2 ^ 64 → node_at n (PutUint64 o) n1 →
  iterIO poll_message ms n1 = Ret (n', inl tt) → ms !! k = Some msg →
  ∃ nk nk', iterIO poll_message (take k ms) n1 = Ret (nk, inl tt) ∧ stands_at n (offset_after o (take k ms)) nk ∧
    poll_message msg nk = Ret (nk', inl tt) ∧ stands_at n (offset_past msg) nk' ∧
    (intended_for (userName n) msg = true → ∃ x, ProcessMessage msg nk = Ret x).
Proof.
  intros Hf Hops Ho Hn1 Hrun Hmsg. rewrite <-(take_drop_middle _ _ _ Hmsg), iterIO_app in Hrun.
  pose proof (poll_messages_at n o (take k ms) n1 Hn1) as Hk.
  destruct (iterIO poll_message (take k ms) n1) as [[nk r]|]; [|done]. destruct Hk as [-> Hk].
  rewrite iterIO_cons in Hrun.
  pose proof (poll_message_at n _ msg nk Hk) as Hm.
  destruct (poll_message msg nk) as [[nk' [[]|e]]|] eqn:Hp; [|done..].
  exists nk, nk'. split; [done|]. split; [by apply node_at_stands; [..|apply offset_after_range|]|].
  split; [done|]. split; [apply node_at_stands; [done..|apply Z.mod_pos_bound; lia|exact Hm]|].
  intros Hi. rewrite poll_message_eq, (proj1 Hk), Hi in Hp.
  destruct (ProcessMessage msg nk) as [x|]; [by exists x|done].
Qed.


(** C28. Processing a message, a reinitialisation included, leaves the node's
    fields as they are on every exit, in particular the flag that switches the
    verification of signatures off while a log is replayed. *)
Theorem verification_stays_on n m n' r :
  ready (deps n) → rest_key (rest (deps n)) = k0 → fsmService n = fsm → opService n = ops →
  ProcessMessage m n = Ret (n', r) →
  SkipCommKeysVerification n' = SkipCommKeysVerification n ∧ userName n' = userName n ∧
  pubKey n' = pubKey n ∧ fsmService n' = fsmService n ∧ opService n' = opService n ∧
  stored (deps n') !! k0 = stored (deps n) !! k0.
Proof.
  intros Hr Hk Hf Ho Hrun.
  assert (Hframe : frame fsm ops (on_store k0 (fun m => m !! k0 = stored (deps n) !! k0))).
  { constructor; intros; eauto with keeps. apply Set_store. intros m' Hm.
    rewrite lookup_insert_ne; [done|]. by apply Hapart. }
  pose proof (ProcessMessage_frame fsm ops (userName n) (pubKey n) _ Hframe (SkipCommKeysVerification n) m) as Hm.
  pose proof (keeps_run _ _ _ _ _ Hm ltac:(unfold node_with, on_store; by split_and!) Hrun) as Hn'.
  destruct Hn' as (? & ? & ? & ? & ? & _ & _ & ?). by split_and!; try congruence.
Qed.
End poll.
