(* ===== verification/NodeOperations.v ===== *)
(** * Signatures and results

    The result of an operation goes to the board once, signed by the node; what
    a node signs is what every node verifies, and what does not verify has no
    effect. *)

From S2P Require Import Prelude GoFsm Requests Payload.
From S2P Require Import SignatureProposal DkgProposal SigningProposal StateMachines Protocol.
From S2P Require Import LevelState ClientTypes OperationRepo SignatureRepo FsmService.
From S2P Require Import IOLogic Kyber Dkg SigningTasks KeyStore Services NodeService ProcessMessage NodeSpec.

#[local] Opaque SignatureProposal.New DkgProposal.New SigningProposal.New.
#[local] Arguments call : simpl never.

Section node.
Context {S : Type} {st : NodeState S} {lerr : LevelDBErr} {spec : NodeStateSpec S}
  {stg : Storage S} {keys : KeyStore S} {env : Env S} {world : WorldSpec S}.
Context {crypto : Crypto} {scrypto : SigningCrypto}.
Context {ord : MapOrder} {json_tasks : JSON (list SigningTask)} {json_dump : JSON FSMDump} {json_dumps : JSON Dumps} {json_ops : JSON Operations}
  {jmap : JSONMap (option Operation)}.
Implicit Types (n : BaseNodeService S) (s : S).

Lemma call_eq {A} (m : IO S A) n s r : m (deps n) = Ret (s, r) → call m n = Ret (set_deps s n, r).
Proof. intros H. unfold call, zoom. by rewrite H. Qed.
Lemma set_deps_same n : set_deps (deps n) n = n.
Proof. by destruct n. Qed.

(** ** Signing *)

(** The node's own key pair is in the key store. *)
Definition has_key (k : KeyPair) n : Prop :=
  ready (deps n) ∧ keyring (rest (deps n)) !! userName n = Some (Some k) ∧ slen (Priv k) = PrivateKeySize.

Lemma signMessage_ok k n msg :
  has_key k n → signMessage msg n = Ret (n, inl (ed25519_Sign (Priv k) msg)).
Proof.
  intros (Hr & Hk & Hlen). unfold signMessage, gets, mbind, IO_bind, wrap.
  pose proof (LoadKeys_ready (userName n) "" (deps n) Hr) as Hl. rewrite Hk in Hl.
  rewrite (call_eq _ _ _ _ Hl). cbn. unfold Sign, lift. by rewrite set_deps_same, Hlen, Z.eqb_refl.
Qed.

(** What becomes of a message of a result. *)
Definition signed_by (user : string) (k : KeyPair) (m : Message) : Message :=
  with_Signature (ed25519_Sign (Priv k) (msg_Data m)) (with_SenderAddr user m).

Lemma sign_results_ok k n ms acc :
  has_key k n → foldIO sign_result acc ms n = Ret (n, inl (acc ++ (signed_by (userName n) k <$> ms))).
Proof.
  intros Hk. induction ms as [|m ms IH] in acc |- *; cbn [foldIO fmap list_fmap]; [by rewrite app_nil_r|].
  unfold mbind at 1, IO_bind at 1, sign_result at 1, gets, mbind, IO_bind, wrap. cbn.
  rewrite (signMessage_ok k n _ Hk). cbn. rewrite IH. by rewrite <-app_assoc.
Qed.

(** ** The pool and the rest of the world *)

Lemma pool_same r P s s' : holds r P s → ready s' → stored s' = stored s → holds r P s'.
Proof. intros [? ? ? ? ? ?] Hr Hs. split; try done; by rewrite Hs. Qed.

Definition resting (R : Rest) s : Prop := ready s ∧ rest s = R.
Lemma Get_resting R k : keeps (resting R) (state_Get k).
Proof. intros s Hs. by rewrite state_Get_ready by apply Hs. Qed.
Lemma Set_resting R k v : keeps (resting R) (state_Set k v).
Proof.
  intros s [Hr Hs]. destruct (state_Set_ready s k v Hr) as (s' & Heq & Hr' & _). rewrite Heq.
  split; [done|]. by rewrite (Set_rest _ _ _ _ Hr Heq).
Qed.
#[local] Hint Resolve Get_resting Set_resting : keeps.
Lemma DeleteOperation_resting R r o : keeps (resting R) (DeleteOperation r o).
Proof. unfold DeleteOperation, GetOperations, getDeletedOperations. keeps_tac. Qed.

Lemma DeleteOperation_rest r P s op s' res :
  holds r P s → DeleteOperation r (Some op) s = Ret (s', res) → rest s' = rest s.
Proof.
  intros H Hd.
  refine (proj2 (keeps_run (resting (rest s)) _ s s' res (DeleteOperation_resting _ r (Some op)) _ Hd)).
  split; [apply (ho_ready _ _ _ H)|done].
Qed.

(** A pending operation. *)
Definition pending (P : Pool) (id : string) (o : Operation) : Prop := visible P !! id = Some (Some o).

Lemma GetOperationByID_ok r P s id :
  holds r P s → GetOperationByID r id s =
    Ret (s, match visible P !! id with Some o => inl o | None => inr (Err "operation not found") end).
Proof.
  intros H. unfold GetOperationByID. io_step (GetOperations_ok r P s H). change (gomap_lookup (Some (visible P)) id) with (visible P !! id). by destruct (visible P !! id).
Qed.

Lemma op_GetOperationByID_ok r P s id :
  holds r P s → op_GetOperationByID r id s =
    Ret (s, match visible P !! id with
            | Some o => inl o
            | None => inr (Wrap "failed to get operation" (Err "operation not found"))
            end).
Proof.
  intros H. unfold op_GetOperationByID, wrap. rewrite (GetOperationByID_ok _ _ _ _ H).
  by destruct (visible P !! id).
Qed.

Lemma delete_pending r P s o so :
  holds r P s → pending P (op_ID o) so → entry_fits (op_ID o) (Some o) →
  ∃ s', op_DeleteOperation r (Some o) s = Ret (s', inl tt) ∧ rest s' = rest s ∧
    holds r (mk_Pool (delete (op_ID o) (visible P)) (<[op_ID o := Some o]> (dead_ops P))) s'.
Proof.
  intros H Hp Hfits. destruct (DeleteOperation_ok r P s o H Hfits) as (s' & Hd & Hh).
  unfold pending in Hp. rewrite visible_lookup in Hp. unfold pool_delete in Hd, Hh.
  destruct (dead_ops P !! op_ID o); [done|]. exists s'. split; [by apply wrap_ret|].
  split; [by eapply DeleteOperation_rest|done].
Qed.

(** ** Results of operations *)

(** The messages as they go to the board. *)
Definition signed_results (k : KeyPair) n (operation : Operation) : list Message :=
  signed_by (userName n) k <$> op_ResultMsgs operation.

Lemma set_deps_idem s' s n : set_deps s' (set_deps s n) = set_deps s' n.
Proof. done. Qed.

Lemma send_results_ok k n operation :
  has_key k n →
  ∃ s' r sent pre, send_results operation n = Ret (set_deps s' n, r) ∧ ready s' ∧
    stored s' = stored (deps n) ∧ rest s' = push sent (rest (deps n)) ∧
    pre `prefix_of` signed_results k n operation ∧ Forall2 sent_as pre sent ∧
    match r with
    | inl o => o = with_result (op_Event operation) sent operation ∧ pre = signed_results k n operation ∧
        storage_Send (signed_results k n operation) (deps n) = Ret (s', inl sent)
    | inr _ => True
    end.
Proof.
  intros Hk. destruct (Send_ready (signed_results k n operation) (deps n) (proj1 Hk))
    as (s' & r & sent & pre & Hs & Hr' & Hst & Hrest & Hpre & Hsent & Hr).
  unfold send_results. unfold mbind at 1, IO_bind at 1. rewrite (sign_results_ok k n _ [] Hk).
  cbn [app]. fold (signed_results k n operation). unfold mbind, IO_bind, wrap. rewrite (call_eq _ _ _ _ Hs).
  destruct r as [out|e]; [destruct Hr as [-> ->]|].
  - by eexists s', (inl _), sent, (signed_results k n operation).
  - by eexists s', (inr _), sent, pre.
Qed.

(** An operation that is not in the pool is refused. *)
Lemma execute_unknown r P n operation :
  opService n = r → holds r P (deps n) → visible P !! op_ID operation = None → op_Event operation ≠ "" →
  ∃ e, executeOperation operation n = Ret (n, inr e).
Proof.
  intros <- HP Hnone Hev. unfold executeOperation.
  assert (IsEmpty (op_Event operation) = false) as -> by (by apply bool_decide_eq_false).
  unfold gets, mbind, IO_bind, wrap.
  rewrite (call_eq _ _ _ _ (op_GetOperationByID_ok _ _ _ _ HP)), Hnone, set_deps_same. by eexists.
Qed.

(** C7. Handing in the result of a pending operation, whose type and payload
    match the stored one: the messages of the result go to the board in their
    order, under the node's name and signed with its key. If that succeeds the
    operation is not pending any more, and no result for it is accepted again;
    if it fails, the operation is still pending. Asked of JSON is only that the
    operation at hand, with the messages as the storage returned them, is stored
    without loss. *)
Theorem result_is_sent_once k P n operation so :
  has_key k n → holds (opService n) P (deps n) → pending P (op_ID operation) so →
  Operation_Equal so operation = None →
  op_Event operation ≠ "" → op_Event operation ≠ OperationProcessed →
  (∀ s1 out, storage_Send (signed_results k n operation) (deps n) = Ret (s1, inl out) →
     entry_fits (op_ID operation) (Some (with_result (op_Event operation) out operation))) →
  ∃ s' res sent pre, executeOperation operation n = Ret (set_deps s' n, res) ∧
    board (rest s') = board (rest (deps n)) ++ sent ∧ Forall2 sent_as pre sent ∧
    match res with
    | inl _ => pre = signed_results k n operation ∧
        ∀ again, op_ID again = op_ID operation → op_Event again ≠ "" →
          ∃ e, executeOperation again (set_deps s' n) = Ret (set_deps s' n, inr e)
    | inr _ => pre `prefix_of` signed_results k n operation ∧ holds (opService n) P s'
    end.
Proof.
  intros Hk HP Hp Heq Hev Hev2 Hfits.
  destruct (send_results_ok k n operation Hk) as (s1 & r & sent & pre & Hsend & Hr1 & Hst1 & Hrest1 & Hpre & Hsent & Hres).
  pose proof (pool_same _ _ _ _ HP Hr1 Hst1) as HP1. unfold executeOperation at 1.
  assert (IsEmpty (op_Event operation) = false) as -> by (by apply bool_decide_eq_false).
  assert (op_Event operation =s? OperationProcessed = false) as Hnp by (by apply bool_decide_eq_false).
  unfold gets, mbind, IO_bind, wrap.
  rewrite (call_eq _ _ _ _ (op_GetOperationByID_ok _ _ _ _ HP)), Hp, set_deps_same. cbn [deref lift].
  rewrite Heq, Hnp. cbn [negb]. rewrite Hsend. destruct r as [o|e]; cbv beta iota.
  - destruct Hres as (-> & -> & Hsend_run). specialize (Hfits s1 sent Hsend_run).
    destruct (delete_pending _ P s1 (with_result (op_Event operation) sent operation) so HP1 Hp Hfits) as (s2 & Hd & Hrest2 & HP2).
    rewrite (call_eq _ (set_deps s1 n) s2 (inl tt) Hd).
    eexists s2, (inl tt), sent, _. split; [done|]. rewrite Hrest2, Hrest1. split_and!; [done..|].
    intros again Hid Hev'. eapply execute_unknown; [done|exact HP2| |done].
    rewrite visible_lookup, Hid. cbn. by rewrite lookup_insert_eq.
  - eexists s1, (inr e), sent, pre. split; [done|]. rewrite Hrest1. by split_and!.
Qed.

(** ** Verification *)

(** The sender's key in the round verifies the signature of the data. *)
Definition authentic (i : FSMInstance) (m : Message) : Prop :=
  ∃ pub, FSMInstance_GetPubKeyByUsername i (msg_SenderAddr m) = Ret (inl pub) ∧
    slen pub = PublicKeySize ∧ ed25519_Verify pub (msg_Data m) (msg_Signature m) = true.

(** A registered key that [ed25519.Verify] does not take. *)
Definition key_of_other_size (i : FSMInstance) (user : string) : Prop :=
  ∃ pub, FSMInstance_GetPubKeyByUsername i user = Ret (inl pub) ∧ slen pub ≠ PublicKeySize.

Lemma verifyMessage_skipped i m n :
  SkipCommKeysVerification n = true → verifyMessage i m n = Ret (n, inl tt).
Proof. intros H. unfold verifyMessage, GetSkipCommKeysVerification, gets, mbind, IO_bind. by rewrite H. Qed.

Lemma verifyMessage_authentic i m n : authentic i m → verifyMessage i m n = Ret (n, inl tt).
Proof.
  intros (pub & Hpub & Hlen & Hv). destruct (SkipCommKeysVerification n) eqn:Hs; [by apply verifyMessage_skipped|].
  unfold verifyMessage, GetSkipCommKeysVerification, gets, mbind, IO_bind. rewrite Hs.
  unfold wrap, lift_res. rewrite Hpub. unfold lift, Verify, Message_Bytes. by rewrite Hlen, Z.eqb_refl, Hv.
Qed.

Lemma verifyMessage_forged i m n d :
  SkipCommKeysVerification n = false → dump i = Some d → is_Some (dump_Payload d) → ¬ authentic i m →
  match verifyMessage i m n with
  | Ret (n', r) => n' = n ∧ ∃ e, r = inr e
  | Panic _ => key_of_other_size i (msg_SenderAddr m)
  end.
Proof.
  intros Hs Hd [p Hp] Hno. unfold verifyMessage, GetSkipCommKeysVerification, gets, mbind, IO_bind. rewrite Hs.
  unfold wrap, lift_res. destruct (FSMInstance_GetPubKeyByUsername i (msg_SenderAddr m)) as [[pub|e]|] eqn:Hpub.
  - unfold lift, Verify, Message_Bytes. destruct (slen pub =? PublicKeySize) eqn:Hlen; cbn.
    + apply Z.eqb_eq in Hlen. destruct (ed25519_Verify _ _ _) eqn:Hv; [|by split; [|eexists]].
      destruct Hno. by exists pub.
    + apply Z.eqb_neq in Hlen. by exists pub.
  - by eauto.
  - unfold FSMInstance_GetPubKeyByUsername in Hpub. by rewrite Hd, Hp in Hpub.
Qed.

(** C27. A message a node builds for a round is its own: name, round, event and
    data, no recipient, nothing stored or sent by building it; and every node
    whose round knows the builder's public key under the builder's name accepts
    it. The signature covers the data only, so it is accepted on any message
    with the same data from the same sender, whatever its round and event. *)
Theorem built_message_verifies k n round event data :
  has_key k n → key_pair_ok k →
  ∃ s' m, buildMessage round event data n = Ret (set_deps s' n, inl m) ∧
    stored s' = stored (deps n) ∧ rest s' = rest (deps n) ∧
    msg_DkgRoundID m = round ∧ msg_Event m = event ∧ msg_Data m = data ∧
    msg_SenderAddr m = userName n ∧ msg_RecipientAddr m = "" ∧
    ∀ n' i m', FSMInstance_GetPubKeyByUsername i (userName n) = Ret (inl (Pub k)) →
      msg_Data m' = data → msg_SenderAddr m' = userName n → msg_Signature m' = msg_Signature m →
      verifyMessage i m' n' = Ret (n', inl tt).
Proof.
  intros Hk (Hpub & _ & Hv). destruct (uuid_ready (deps n) (proj1 Hk)) as (s' & id & Hid & Hr & Hst & Hrest).
  assert (has_key k (set_deps s' n)) as Hk'.
  { destruct Hk as (_ & Hkey & Hlen). split_and!; [done| |done]. cbn. by rewrite Hrest. }
  unfold buildMessage, mbind, IO_bind. rewrite (call_eq _ _ _ _ Hid). unfold gets, wrap.
  rewrite (signMessage_ok k (set_deps s' n) _ Hk').
  eexists s', _. split; [reflexivity|]. cbn. split_and!; [done..|].
  intros n' i m' Hreg Hd Hs Hsig. apply verifyMessage_authentic. exists (Pub k). by rewrite Hs, Hd, Hsig.
Qed.

End node.

Section refusal.
Context {S : Type} {st : NodeState S} {lerr : LevelDBErr} {spec : NodeStateSpec S}
  {stg : Storage S} {keys : KeyStore S} {env : Env S}.
Context {crypto : Crypto} {scrypto : SigningCrypto} {kyber : Kyber} {wc : WcRotation}.
Context {ord : MapOrder} {json_tasks : JSON (list SigningTask)} {json_dump : JSON FSMDump}
  {json_spec : JSONSpec FSMDump} {json_dumps : JSON Dumps} {jmap : JSONMap bytes}
  {json_ops : JSON Operations} {json_sigs : JSON SignaturesStorage}
  {json_recs : JSON (list ReconstructedSignature)} {json_oplist : JSON (list Operation)}
  {json_redkg : JSON ReDKG} {json_keyring : JSON blsKeyringJSON}
  {jreq : RequestsJSON} {jresp : ResponsesJSON}.
Implicit Types (n : BaseNodeService S) (s : S) (fsm : FSMService).

Lemma GetFSMInstance_known fsm rounds s id create s1 r :
  has_rounds fsm rounds s → is_Some (rounds !! id) → GetFSMInstance fsm id create s = Ret (s1, r) → s1 = s.
Proof.
  intros Hh [b Hb]. pose proof (loadFSM_ok fsm rounds s id Hh) as Hl. rewrite Hb in Hl.
  unfold GetFSMInstance, mbind, IO_bind, wrap. rewrite Hl.
  destruct (FromDump b) as [[i|e]|]; [by intros [= <- _]..|done].
Qed.

(** C4. A message that is neither a proposal nor a reinitialisation and whose
    signature the sender's key in the round does not verify is refused with an
    error: the node is as it was, up to the creation of the round if there was
    none. The one other outcome is a panic, which needs a registered key that
    is not 32 bytes long. *)
Theorem unverified_message_is_refused n m s1 i :
  SkipCommKeysVerification n = false → msg_Event m ≠ EventInitProposal → msg_Event m ≠ ReinitDKG →
  GetFSMInstance (fsmService n) (msg_DkgRoundID m) true (deps n) = Ret (s1, inl (Some i)) →
  reachable i → ¬ authentic i m →
  match ProcessMessage m n with
  | Ret (n', r) => n' = set_deps s1 n ∧ (∃ e, r = inr e) ∧
      ∀ rounds, has_rounds (fsmService n) rounds (deps n) → is_Some (rounds !! msg_DkgRoundID m) → n' = n
  | Panic _ => key_of_other_size i (msg_SenderAddr m)
  end.
Proof.
  intros Hs H1 H2 Hget (st' & mach & d & p & Hm & Hd & Hp & _)%reachable_inst_ok Hno.
  assert (Hknown : ∀ rounds, has_rounds (fsmService n) rounds (deps n) → is_Some (rounds !! msg_DkgRoundID m) →
    set_deps s1 n = n).
  { intros rounds Hh Hi. rewrite (GetFSMInstance_known _ _ _ _ _ _ _ Hh Hi Hget). apply set_deps_same. }
  unfold ProcessMessage, processMessage.
  rewrite (proj2 (seqb_false _ _) H1), (proj2 (seqb_false _ _) H2).
  unfold gets, mbind, IO_bind, wrap. rewrite (call_eq _ _ _ _ Hget). cbn [deref lift].
  pose proof (verifyMessage_forged i m (set_deps s1 n) d Hs Hd ltac:(by eexists) Hno) as Hv.
  destruct (verifyMessage i m (set_deps s1 n)) as [[n1 r]|]; [|exact Hv].
  destruct Hv as [-> [e ->]]. split_and!; [done|by eexists|exact Hknown].
Qed.
End refusal.
