(* ===== verification/AirgappedSpec.v ===== *)
(** * What the air-gapped machine answers

    The operation that [GetOperationResult] gives back: what of it is the
    operation that was asked for, and the requests that its messages carry. *)

From S2P Require Import Prelude GoFsm Requests Payload.
From S2P Require Import SignatureProposal DkgProposal SigningProposal StateMachines.
From S2P Require Import LevelState ClientTypes IOLogic Kyber Dkg SigningTasks KeyStore NodeService.
From S2P Require Import MachineStore Airgapped.

#[local] Opaque SignatureProposal.New DkgProposal.New SigningProposal.New.

(** What the machine relies on from [encoding/json]: numbers, byte slices and
    times are decoded as they were encoded, a string possibly with replacement
    characters where it was not valid UTF-8; and decoding goes by the names of
    the fields, which the two requests for errors share. *)
Class AnswersJSON `{!RequestsJSON} : Prop := {
  commit_decodes (r : DKGProposalCommitConfirmationRequest) b : marshal r = Some b → unmarshal b = Some r;
  deal_decodes (r : DKGProposalDealConfirmationRequest) b : marshal r = Some b → unmarshal b = Some r;
  response_decodes (r : DKGProposalResponseConfirmationRequest) b : marshal r = Some b → unmarshal b = Some r;
  masterkey_decodes (r : DKGProposalMasterKeyConfirmationRequest) b : marshal r = Some b → unmarshal b = Some r;
  signs_decode (r : SigningProposalBatchPartialSignRequests) b : marshal r = Some b →
    ∃ batch signs, unmarshal b =
      Some (mk_SigningProposalBatchPartialSignRequests batch (bp_ParticipantId r) signs (bp_CreatedAt r));
  error_decodes (r : DKGProposalConfirmationErrorRequest) e b : er_Error r = Some e → marshal r = Some b →
    ∃ e', unmarshal b = Some (mk_DKGProposalConfirmationErrorRequest (er_ParticipantId r) (Some e') (er_CreatedAt r));
  error_decodes_signing (r : DKGProposalConfirmationErrorRequest) e b : er_Error r = Some e → marshal r = Some b →
    ∃ e', unmarshal b =
      Some (mk_SignatureProposalConfirmationErrorRequest (er_ParticipantId r) (Some e') (er_CreatedAt r))
}.

(** The request that answers an operation of a type, from a participant, under
    an event. *)
Inductive answer_to (pid : Z) (created : Time) : State → Event → Request → Prop :=
| answer_commit data : answer_to pid created StateDkgCommitsAwaitConfirmations
    EventDKGCommitConfirmationReceived
    (RqCommit (mk_DKGProposalCommitConfirmationRequest pid data created))
| answer_deal data : answer_to pid created StateDkgDealsAwaitConfirmations
    EventDKGDealConfirmationReceived (RqDeal (mk_DKGProposalDealConfirmationRequest pid data created))
| answer_response data : answer_to pid created StateDkgResponsesAwaitConfirmations
    EventDKGResponseConfirmationReceived
    (RqResponse (mk_DKGProposalResponseConfirmationRequest pid data created))
| answer_masterkey key poly : answer_to pid created StateDkgMasterKeyAwaitConfirmations
    EventDKGMasterKeyConfirmationReceived
    (RqMasterKey (mk_DKGProposalMasterKeyConfirmationRequest pid key created poly))
| answer_signs batch signs : answer_to pid created StateSigningAwaitPartialSigns
    EventSigningPartialSignReceived
    (RqPartialSigns (mk_SigningProposalBatchPartialSignRequests batch pid signs created))
| answer_dkg_error type err :
    type ∈ [StateDkgCommitsAwaitConfirmations; StateDkgDealsAwaitConfirmations;
            StateDkgResponsesAwaitConfirmations; StateDkgMasterKeyAwaitConfirmations] →
    answer_to pid created type (errorEvent type)
      (RqDkgError (mk_DKGProposalConfirmationErrorRequest pid (Some err) created))
| answer_signing_error err : answer_to pid created StateSigningAwaitPartialSigns
    EventSigningPartialSignError
    (RqSignatureError (mk_SignatureProposalConfirmationErrorRequest pid (Some err) created)).

(** The types of operation that the machine has a handler with an answer for. *)
Definition answered_types : list State :=
  [StateDkgCommitsAwaitConfirmations; StateDkgDealsAwaitConfirmations; StateDkgResponsesAwaitConfirmations;
   StateDkgMasterKeyAwaitConfirmations; StateSigningAwaitPartialSigns].

Section machine.
Context {DB W : Type} {ldb : LevelDB DB W} {ltx : LevelDBTx DB W} {lerr : LevelDBErr} {env : Env W}.
Context {kyber : Kyber} {dkg : PedersenDKG} {sorter : PKSort} {ord : MapOrder} {sym : SymmetricCrypto}
  {mc : MachineCrypto W} {files : ResultFiles W} {scrypto : SigningCrypto} {wc : WcRotation}.
Context {json_log : JSON (gomap string (list Operation))} {json_keyring : JSON blsKeyringJSON}
  {json_ops : JSON (list Operation)} {json_op : JSON Operation} {json_bytes : JSON (list bytes)}
  {json_tasks : JSON (list SigningTask)}
  {jpay : PayloadJSON} {jdeal : DealJSON} {jreq : RequestsJSON} {jresp : ResponsesJSON}.
Context {janswers : AnswersJSON}.

Implicit Types (d : DKG).

(** ** The id of a participant is fixed once the object of the round exists *)

Definition same_pid (q : Z) (d : DKG) : Prop := dkg_ParticipantID d = q.

Lemma modify_pid q (f : DKG → DKG) :
  (∀ d, dkg_ParticipantID (f d) = dkg_ParticipantID d) → keeps (same_pid q) (modify f).
Proof. intros Hf d Hd. unfold same_pid in *. cbn. by rewrite Hf. Qed.
#[local] Hint Extern 1 (keeps (same_pid _) (modify _)) => apply modify_pid; reflexivity : keeps.

Lemma StoreCommits_pid q user l : keeps (same_pid q) (StoreCommits user l).
Proof. unfold StoreCommits. keeps_tac. Qed.
Lemma GetDeals_pid q : keeps (same_pid q) GetDeals.
Proof. unfold GetDeals, the_instance. keeps_tac. Qed.
Lemma StoreDeal_pid q user deal : keeps (same_pid q) (StoreDeal user deal).
Proof. unfold StoreDeal. keeps_tac. Qed.
Lemma ProcessDeals_pid q : keeps (same_pid q) ProcessDeals.
Proof. unfold ProcessDeals, process_deal, processDealCommits, the_instance. keeps_tac. Qed.
Lemma StoreResponses_pid q user l : keeps (same_pid q) (StoreResponses user l).
Proof. unfold StoreResponses, iterIO, store_response. keeps_tac. Qed.
Lemma ProcessResponses_pid q : keeps (same_pid q) ProcessResponses.
Proof. unfold ProcessResponses, iterIO, process_response, the_instance. keeps_tac. Qed.
Lemma GetDistributedPublicKey_pid q : keeps (same_pid q) GetDistributedPublicKey.
Proof. unfold GetDistributedPublicKey, the_instance. keeps_tac. Qed.
Lemma GetBLSKeyring_pid q : keeps (same_pid q) GetBLSKeyring.
Proof. unfold GetBLSKeyring. keeps_tac. Qed.
#[local] Hint Resolve StoreCommits_pid GetDeals_pid StoreDeal_pid ProcessDeals_pid StoreResponses_pid
  ProcessResponses_pid GetDistributedPublicKey_pid GetBLSKeyring_pid : keeps.

Abbreviation M := (Machine DB * W)%type (only parsing).
Abbreviation H := (M * Operation)%type (only parsing).

(** The machine's own id in a round. *)
Definition round_pid (id : string) (x : M) : option Z := dkg_ParticipantID <$> dkgInstances x.1 !! id.

Definition pid_is (id : string) (pid : Z) (x : M) : Prop := round_pid id x = Some pid.

Lemma on_world_pid {A} id pid (m : IO W A) : keeps (pid_is id pid) (on_world m).
Proof. intros [am w] Hx. unfold on_world, zoom. cbn. by destruct (m w) as [[w' [a|e]]|]. Qed.
Lemma db_Get_pid id pid k : keeps (pid_is id pid) (db_Get k).
Proof. intros [am w] Hx. unfold db_Get. by destruct (leveldb_Get _ _ _). Qed.
Lemma db_Put_pid id pid k v : keeps (pid_is id pid) (db_Put k v).
Proof. intros [am w] Hx. unfold db_Put. by destruct (leveldb_Put _ _ _ _) as [w' [e|]]. Qed.
Lemma on_round_pid {A} id pid (m : IO DKG A) :
  (∀ q, keeps (same_pid q) m) → keeps (pid_is id pid) (on_round id m).
Proof.
  intros Hm [am w] Hx. unfold on_round, pid_is, round_pid in *. cbn in *.
  destruct (dkgInstances am !! id) as [d|]; [|done]. injection Hx as Hx. specialize (Hm pid d Hx).
  destruct (m d) as [[d' [a|e]]|]; [..|done]; cbn; rewrite lookup_insert, decide_True by done; cbn;
    by rewrite Hm.
Qed.
#[local] Hint Resolve on_world_pid db_Get_pid db_Put_pid : keeps.
#[local] Hint Extern 2 (keeps (pid_is _ _) (on_round _ _)) => apply on_round_pid; intros; solve [eauto with keeps] : keeps.

Lemma encryptDataForParticipant_pid id pid id' to data :
  keeps (pid_is id pid) (encryptDataForParticipant id' to data).
Proof. unfold encryptDataForParticipant, the_suite, field. keeps_tac. Qed.
Lemma store_commits_pid id pid e : keeps (pid_is id pid) (store_commits id e).
Proof. unfold store_commits, decode_point, the_suite, field. keeps_tac. Qed.
Lemma store_deal_pid id pid e : keeps (pid_is id pid) (store_deal id e).
Proof. unfold store_deal, the_round, decryptDataFromParticipant, the_suite, field. keeps_tac. Qed.
Lemma store_responses_pid id pid e : keeps (pid_is id pid) (store_responses id e).
Proof. unfold store_responses. keeps_tac. Qed.
Lemma saveBLSKeyring_pid id pid id' k : keeps (pid_is id pid) (saveBLSKeyring id' k).
Proof. unfold saveBLSKeyring, field. keeps_tac. Qed.
Lemma partial_sign_pid id pid id' l s : keeps (pid_is id pid) (partial_sign id' l s).
Proof. unfold partial_sign, createPartialSign, loadBLSKeyring, the_suite, field. keeps_tac. Qed.
#[local] Hint Resolve encryptDataForParticipant_pid store_commits_pid store_deal_pid store_responses_pid
  saveBLSKeyring_pid partial_sign_pid : keeps.

(** The fields of an operation that say what was asked for. *)
Definition same_task (o o' : Operation) : Prop :=
  op_ID o' = op_ID o ∧ op_Type o' = op_Type o ∧ op_Payload o' = op_Payload o ∧
  op_CreatedAt o' = op_CreatedAt o ∧ op_DKGIdentifier o' = op_DKGIdentifier o.

(** A message that answers the operation for the participant [pid]. *)
Definition answers (o : Operation) (pid : Z) (m : Message) : Prop :=
  msg_DkgRoundID m = op_DKGIdentifier o ∧
  ∃ rq, FSMRequestFromMessage m = inl rq ∧ answer_to pid (op_CreatedAt o) (op_Type o) (msg_Event m) rq.

(** Nothing was answered yet. *)
Definition unanswered (o : Operation) (s : H) : Prop := s.2 = o.

(** Some messages were answered. *)
Definition answered (o : Operation) (s : H) : Prop :=
  same_task o s.2 ∧
  ∃ msgs, op_ResultMsgs s.2 = op_ResultMsgs o ++ msgs ∧
    (msgs = [] ∨ ∃ pid, round_pid (op_DKGIdentifier o) s.1 = Some pid ∧ Forall (answers o pid) msgs).

(** The last answer is the event of the operation. *)
Definition complete (o : Operation) (s : H) : Prop :=
  same_task o s.2 ∧
  ∃ msgs m pid, op_ResultMsgs s.2 = op_ResultMsgs o ++ msgs ++ [m] ∧
    op_Event s.2 = msg_Event m ∧ round_pid (op_DKGIdentifier o) s.1 = Some pid ∧
    Forall (answers o pid) (msgs ++ [m]).

(** The machine takes part in the round as [pid]. *)
Definition takes_part (o : Operation) (pid : Z) (s : H) : Prop :=
  answered o s ∧ round_pid (op_DKGIdentifier o) s.1 = Some pid.

Lemma unanswered_answered o s : unanswered o s → answered o s.
Proof.
  intros Hs. split; rewrite Hs; [by unfold same_task|]. exists []. rewrite app_nil_r. auto.
Qed.
Lemma takes_part_answered o pid s : takes_part o pid s → answered o s.
Proof. by intros []. Qed.

(** The machine does not touch the operation. *)
Lemma machine_unanswered {A} o (m : IO M A) : keeps (unanswered o) (machine m).
Proof. intros s Hs. unfold machine, zoom. by destruct (m s.1) as [[x [a|e]]|]. Qed.

Lemma machine_takes_part {A} o pid (m : IO M A) :
  keeps (fun x => round_pid (op_DKGIdentifier o) x = Some pid) m → keeps (takes_part o pid) (machine m).
Proof.
  intros Hm [x o'] [Ha Hp]. cbn in Hp. specialize (Hm x Hp). unfold machine, zoom. cbn [fst].
  destruct Ha as (Hs & msgs & Hmsgs & Hcase).
  assert (Hx : ∀ x', round_pid (op_DKGIdentifier o) x' = Some pid → takes_part o pid (x', o')).
  { intros x' Hp'. split; [split; [exact Hs|]|exact Hp']. exists msgs. split; [done|].
    destruct Hcase as [->|(pid' & Hp'' & Hall)]; [by left|]. right. exists pid. split; [exact Hp'|].
    cbn in Hp''. assert (pid' = pid) as -> by congruence. exact Hall. }
  destruct (m x) as [[x' [a|e]]|]; [by apply Hx..|done].
Qed.

(** The body of a handler before the first answer. *)
Lemma post_machine {A B} o (m : IO M A) (k : A → IO H B) Q :
  (∀ a, post (unanswered o) (k a) Q (answered o)) →
  post (unanswered o) (machine m ≫= k) Q (answered o).
Proof.
  intros Hk. eapply post_bind; [|exact Hk].
  eapply post_conseq; [apply machine_unanswered|done|done|apply unanswered_answered].
Qed.

Lemma same_task_set o o' : same_task o o' → ∀ f : Operation → Operation,
  (∀ x, same_task x (f x)) → same_task o (f o').
Proof. intros Ho f Hf. specialize (Hf o'). unfold same_task in *. intuition congruence. Qed.

(** An answer to the operation. *)
Lemma answer_complete {A} {json : JSON A} o ev (req : A) pid :
  (∀ b m, marshal req = Some b → msg_Event m = ev → msg_Data m = b →
     ∃ rq, FSMRequestFromMessage m = inl rq ∧ answer_to pid (op_CreatedAt o) (op_Type o) ev rq) →
  post (takes_part o pid) (answer ev req) (fun _ s => complete o s ∧ takes_part o pid s) (answered o).
Proof.
  intros Hreq. unfold answer. eapply post_bind with (R := fun b s => marshal req = Some b ∧ takes_part o pid s).
  { apply post_json_res; [by eauto|]. apply takes_part_answered. }
  intros b. apply post_modify. intros [x o'] (Hb & [Hs (msgs & Hm & Hmsgs)] & Hp). cbn in *.
  assert (Hs' : same_task o (respond ev b o')) by (by apply same_task_set).
  set (m := createMessage (with_result ev (op_ResultMsgs o') o') b).
  assert (Hall : Forall (answers o pid) (msgs ++ [m])).
  { apply Forall_app_2.
    - destruct Hmsgs as [->|(pid' & Hp' & Ha)]; [by constructor|]. by simplify_eq.
    - constructor; [|constructor]. split; [cbn; by destruct Hs as (_ & _ & _ & _ & ->)|]. cbn. eauto. }
  split; split; [exact Hs'| |split; [exact Hs'|]|exact Hp].
  - exists msgs, m, pid. cbn. rewrite Hm, <-app_assoc. by split_and!.
  - exists (msgs ++ [m]). cbn. rewrite Hm, <-app_assoc. split; [done|]. right. by exists pid.
Qed.

(** ** The handlers *)

(** A computation without effect. *)
Definition quiet {A} (m : IO H A) : Prop := ∀ P, keeps P m.

Lemma post_quiet {A B} (P E : H → Prop) (m : IO H A) (k : A → IO H B) Q :
  quiet m → (∀ s, P s → E s) → (∀ a, post P (k a) Q E) → post P (m ≫= k) Q E.
Proof. intros Hm HE Hk. eapply post_bind; [|exact Hk]. eapply post_conseq; [apply (Hm P)|done|done|done]. Qed.

Lemma post_the_op {B} o (k : Operation → IO H B) Q E :
  post (unanswered o) (k o) Q E → post (unanswered o) (the_op ≫= k) Q E.
Proof. intros Hk [x o'] Hs. unfold mbind, IO_bind, the_op, gets. cbn. cbv in Hs. subst o'. by apply Hk. Qed.

Lemma the_round_eq id (x : M) :
  the_round id x = Ret (x, match dkgInstances x.1 !! id with
                           | Some d => inl d
                           | None => inr (Err "dkg instance with identifier does not exist")
                           end).
Proof. unfold the_round, field, gets, mbind, IO_bind. cbn. by destruct (_ !! _). Qed.

(** Looking the round up makes the machine's id known. *)
Lemma post_the_round {B} o (k : DKG → IO H B) Q :
  (∀ d, post (takes_part o (dkg_ParticipantID d)) (k d) Q (answered o)) →
  post (unanswered o) (machine (the_round (op_DKGIdentifier o)) ≫= k) Q (answered o).
Proof.
  intros Hk. eapply post_bind with (R := fun d => takes_part o (dkg_ParticipantID d)); [|exact Hk].
  intros [x o'] Hs. pose proof (unanswered_answered _ _ Hs) as Ha.
  unfold machine, zoom. rewrite the_round_eq. cbn [fst snd].
  destruct (dkgInstances x.1 !! op_DKGIdentifier o) as [d|] eqn:Hd; [|done].
  split; [done|]. unfold round_pid. cbn. by rewrite Hd.
Qed.

Lemma post_the_round_again {B} o pid (k : DKG → IO H B) Q :
  (∀ d, dkg_ParticipantID d = pid → post (takes_part o pid) (k d) Q (answered o)) →
  post (takes_part o pid) (machine (the_round (op_DKGIdentifier o)) ≫= k) Q (answered o).
Proof.
  intros Hk. eapply post_bind with (R := fun d s => dkg_ParticipantID d = pid ∧ takes_part o pid s).
  2:{ intros d s [Hd Hs]. by apply (Hk d Hd). }
  intros [x o'] [Ha Hp]. unfold machine, zoom. rewrite the_round_eq. unfold round_pid in Hp. cbn in Hp |- *.
  destruct (dkgInstances x.1 !! op_DKGIdentifier o) as [d|] eqn:Hd; [|done]. injection Hp as Hp.
  split; [done|]. split; [done|]. unfold round_pid. cbn. by rewrite Hd, <-Hp.
Qed.

Lemma getParticipantID_eq id (x : M) :
  getParticipantID id x = Ret (x, match round_pid id x with
                                  | Some pid => inl pid
                                  | None => inr (Err "invalid dkg identifier")
                                  end).
Proof.
  unfold getParticipantID, round_pid, field, gets, mbind, IO_bind. cbn. by destruct (_ !! _).
Qed.

(** So does asking for the id. *)
Lemma post_getParticipantID {B} o (P E : H → Prop) msg (k : Z → IO H B) Q :
  (∀ s, P s → answered o s) → (∀ s, P s → E s) →
  (∀ pid, post (takes_part o pid) (k pid) Q E) →
  post P (wrap msg (machine (getParticipantID (op_DKGIdentifier o))) ≫= k) Q E.
Proof.
  intros HP HE Hk. eapply post_bind with (R := takes_part o); [|exact Hk]. apply post_wrap.
  intros [x o'] Hs. unfold machine, zoom. rewrite getParticipantID_eq. cbn [fst snd].
  destruct (round_pid (op_DKGIdentifier o) x) as [pid|] eqn:Hp; [|by apply HE].
  split; [by apply HP|exact Hp].
Qed.

Lemma post_takes_part {A B} o pid (m : IO M A) (k : A → IO H B) Q :
  keeps (pid_is (op_DKGIdentifier o) pid) m →
  (∀ a, post (takes_part o pid) (k a) Q (answered o)) →
  post (takes_part o pid) (machine m ≫= k) Q (answered o).
Proof.
  intros Hm Hk. eapply post_bind; [|exact Hk].
  eapply post_conseq; [apply machine_takes_part, Hm|done|done|apply takes_part_answered].
Qed.
Lemma post_takes_part_wrap {A B} o pid msg (m : IO M A) (k : A → IO H B) Q :
  keeps (pid_is (op_DKGIdentifier o) pid) m →
  (∀ a, post (takes_part o pid) (k a) Q (answered o)) →
  post (takes_part o pid) (wrap msg (machine m) ≫= k) Q (answered o).
Proof.
  intros Hm Hk. eapply post_bind; [|exact Hk]. apply post_wrap.
  eapply post_conseq; [apply machine_takes_part, Hm|done|done|apply takes_part_answered].
Qed.

Lemma post_machine_wrap {A B} o msg (m : IO M A) (k : A → IO H B) Q :
  (∀ a, post (unanswered o) (k a) Q (answered o)) →
  post (unanswered o) (wrap msg (machine m) ≫= k) Q (answered o).
Proof.
  intros Hk. eapply post_bind; [|exact Hk]. apply post_wrap.
  eapply post_conseq; [apply machine_unanswered|done|done|apply unanswered_answered].
Qed.

(** A new object is put into the map. *)
Lemma post_new_round {B} o d (k : unit → IO H B) Q :
  post (takes_part o (dkg_ParticipantID d)) (k tt) Q (answered o) →
  post (unanswered o)
    (machine (on_machine (fun am => am_set_instances (<[op_DKGIdentifier o := d]> (dkgInstances am)) am)) ≫= k)
    Q (answered o).
Proof.
  intros Hk. eapply post_bind with (R := fun _ => takes_part o (dkg_ParticipantID d)); [|by intros []].
  intros [[am w] o'] Hs. split.
  - apply (unanswered_answered o (_, o')). exact Hs.
  - unfold round_pid. cbn. by rewrite lookup_insert, decide_True.
Qed.

Ltac is_quiet := intros ?; unfold quiet; eauto with keeps.
Ltac handler_step :=
  lazymatch goal with
  | |- post (unanswered _) (the_op ≫= _) _ _ => apply post_the_op; cbv zeta
  | |- post (unanswered _) (machine (the_round _) ≫= _) _ _ => apply post_the_round; intros
  | |- post (takes_part _ _) (machine (the_round _) ≫= _) _ _ => apply post_the_round_again; intros ? <-
  | |- post (unanswered _) (machine (on_machine _) ≫= _) _ _ => apply post_new_round
  | |- post (unanswered _) (wrap _ (machine (getParticipantID _)) ≫= _) _ _ =>
      apply post_getParticipantID; [apply unanswered_answered..|intros]
  | |- post (unanswered _) (wrap _ (machine _) ≫= _) _ _ => apply post_machine_wrap; intros
  | |- post (unanswered _) (machine _ ≫= _) _ _ => apply post_machine; intros
  | |- post (takes_part _ _) (machine _ ≫= _) _ _ =>
      apply post_takes_part; [solve [unfold iterIO, field; eauto 10 with keeps]|intros]
  | |- post (takes_part _ _) (wrap _ (machine _) ≫= _) _ _ =>
      apply post_takes_part_wrap; [solve [eauto 10 with keeps]|intros]
  | |- post (unanswered _) (_ ≫= _) _ _ => eapply post_quiet; [solve [is_quiet]|apply unanswered_answered|intros]
  | |- post (takes_part _ _) (_ ≫= _) _ _ => eapply post_quiet; [solve [is_quiet]|apply takes_part_answered|intros]
  | |- post (unanswered _) (throw _) _ _ => apply post_throw, unanswered_answered
  | |- post (takes_part _ _) (throw _) _ _ => apply post_throw, takes_part_answered
  | |- post _ (let (_, _) := ?x in _) _ _ => destruct x
  | |- post _ (if ?b then _ else _) _ _ => destruct b
  end.

(** The last step of a handler. *)
Lemma post_answer {A} {json : JSON A} o ev (req : A) pid :
  (∀ b m, marshal req = Some b → msg_Event m = ev → msg_Data m = b →
     ∃ rq, FSMRequestFromMessage m = inl rq ∧ answer_to pid (op_CreatedAt o) (op_Type o) ev rq) →
  post (takes_part o pid) (answer ev req) (fun _ => complete o) (answered o).
Proof. intros Hreq. eapply post_conseq; [by apply answer_complete|done| |done]. by intros _ s []. Qed.

(** A request that its event decodes to. *)
Ltac decodes Ht lemma :=
  intros ? m ?Hb ?Hev ?Hdata; unfold FSMRequestFromMessage; rewrite Hev, Hdata;
  eexists; split; [cbn; unfold decode_request; erewrite lemma by eassumption; reflexivity|rewrite Ht; constructor].

Lemma commits_answer o :
  op_Type o = StateDkgCommitsAwaitConfirmations →
  post (unanswered o) handleStateDkgCommitsAwaitConfirmations (fun _ => complete o) (answered o).
Proof.
  intros Ht. unfold handleStateDkgCommitsAwaitConfirmations.
  repeat handler_step. apply post_answer. decodes Ht commit_decodes.
Qed.

(** In the loop over the deals the operation is the one asked for. *)
Lemma post_current_op {B} o pid (k : Operation → IO H B) Q :
  (∀ o', op_DKGIdentifier o' = op_DKGIdentifier o → op_CreatedAt o' = op_CreatedAt o →
     post (takes_part o pid) (k o') Q (answered o)) →
  post (takes_part o pid) (the_op ≫= k) Q (answered o).
Proof.
  intros Hk [x o'] Hs. unfold mbind, IO_bind, the_op, gets. cbn.
  destruct (proj1 (proj1 Hs)) as (_ & _ & _ & Hc & Hi). by apply Hk.
Qed.
Lemma set_To_takes_part o pid to : keeps (takes_part o pid) (set_op (op_set_To to)).
Proof.
  intros [x o'] [[Hs Hm] Hp]. cbn in *. split; [split; [|exact Hm]|exact Hp].
  by apply same_task_set.
Qed.
Lemma post_set_To {B} o pid to (k : unit → IO H B) Q :
  post (takes_part o pid) (k tt) Q (answered o) →
  post (takes_part o pid) (set_op (op_set_To to) ≫= k) Q (answered o).
Proof.
  intros Hk. eapply post_bind with (R := fun _ => takes_part o pid); [|by intros []].
  eapply post_conseq; [apply set_To_takes_part|done|done|apply takes_part_answered].
Qed.

Lemma send_deal_answers o pid deal :
  op_Type o = StateDkgDealsAwaitConfirmations →
  post (takes_part o pid) (send_deal deal) (fun _ => takes_part o pid) (answered o).
Proof.
  intros Ht. unfold send_deal. apply post_current_op. intros o' -> ->.
  repeat handler_step. apply post_set_To.
  eapply post_conseq; [apply answer_complete|done|by intros _ s []|done]. decodes Ht deal_decodes.
Qed.

Lemma deals_answer o :
  op_Type o = StateDkgDealsAwaitConfirmations →
  post (unanswered o) handleStateDkgDealsAwaitConfirmations (fun _ => complete o) (answered o).
Proof.
  intros Ht. unfold handleStateDkgDealsAwaitConfirmations. repeat handler_step.
  eapply post_bind with (R := fun _ => takes_part o (dkg_ParticipantID d)).
  { unfold iterIO. apply (post_fold (fun _ _ => takes_part o (dkg_ParticipantID d))).
    intros _ x _. by apply send_deal_answers. }
  intros _. unfold confirm_self. apply post_current_op. intros o' -> ->. repeat handler_step.
  apply post_set_To, post_answer. decodes Ht deal_decodes.
Qed.

Lemma responses_answer o :
  op_Type o = StateDkgResponsesAwaitConfirmations →
  post (unanswered o) handleStateDkgResponsesAwaitConfirmations (fun _ => complete o) (answered o).
Proof.
  intros Ht. unfold handleStateDkgResponsesAwaitConfirmations. repeat handler_step.
  apply post_answer. decodes Ht response_decodes.
Qed.

Lemma masterkey_answers o :
  op_Type o = StateDkgMasterKeyAwaitConfirmations →
  post (unanswered o) handleStateDkgMasterKeyAwaitConfirmations (fun _ => complete o) (answered o).
Proof.
  intros Ht. unfold handleStateDkgMasterKeyAwaitConfirmations. repeat handler_step.
  apply post_answer. decodes Ht masterkey_decodes.
Qed.

Lemma signs_answer o :
  op_Type o = StateSigningAwaitPartialSigns →
  post (unanswered o) handleStateSigningAwaitPartialSigns (fun _ => complete o) (answered o).
Proof.
  intros Ht. unfold handleStateSigningAwaitPartialSigns. repeat handler_step.
  apply post_answer. intros b m Hb Hev Hdata. unfold FSMRequestFromMessage. rewrite Hev, Hdata.
  destruct (signs_decode _ _ Hb) as (batch & signs & Hun).
  eexists. split; [cbn; unfold decode_request; rewrite Hun; reflexivity|rewrite Ht; constructor].
Qed.

Lemma handle_answers rec o :
  op_Type o ∈ answered_types →
  post (unanswered o) (handle rec) (fun _ => complete o) (answered o).
Proof.
  intros Ht. unfold handle. apply post_the_op. cbv zeta.
  unfold answered_types in Ht; rewrite !elem_of_cons, elem_of_nil in Ht. destruct Ht as [H|[H|[H|[H|[H|[]]]]]]; rewrite H; cbn.
  - by apply commits_answer.
  - by apply deals_answer.
  - by apply responses_answer.
  - by apply masterkey_answers.
  - by apply signs_answer.
Qed.

(** Writing an error into the operation. *)
Lemma write_error_answers o err :
  op_Type o ∈ answered_types →
  post (answered o) (writeErrorRequestToOperation err) (fun _ => complete o) (fun _ => True).
Proof.
  intros Ht. unfold writeErrorRequestToOperation.
  eapply post_bind with (R := fun o' s => same_task o o' ∧ answered o s).
  { intros [x o'] Hs. split; [apply Hs|done]. }
  intros o'. apply post_pure. intros (_ & Hty & _ & Hc & Hi). rewrite Hty, Hc, Hi.
  apply post_getParticipantID; [done..|]. intros pid.
  eapply post_conseq; [apply answer_complete|done|by intros _ s []|done].
  intros b m Hb Hev Hd. unfold FSMRequestFromMessage. rewrite Hev, Hd.
  set (req := mk_DKGProposalConfirmationErrorRequest pid (Some (NewFSMError err)) (op_CreatedAt o)) in *.
  destruct (error_decodes req _ b eq_refl Hb) as [e1 Hun1], (error_decodes_signing req _ b eq_refl Hb) as [e2 Hun2].
  unfold answered_types in Ht; rewrite !elem_of_cons, elem_of_nil in Ht.
  destruct Ht as [H|[H|[H|[H|[H|[]]]]]]; rewrite H; eexists; (split;
    [cbn; unfold decode_request;
     first [rewrite Hun1; reflexivity | rewrite Hun2; reflexivity]|]);
    first [apply answer_signing_error | apply answer_dkg_error; set_solver].
Qed.

Lemma result_of_complete rec o :
  op_Type o ∈ answered_types →
  post (fun _ => True) (result_of (handle rec) o) (fun o' s => complete o (s, o')) (fun _ => True).
Proof.
  intros Ht s _. unfold result_of.
  assert (Hc : post (unanswered o) (catch (handle rec) (fun err =>
      wrap "failed to write error request to an operation" (writeErrorRequestToOperation err)))
      (fun _ => complete o) (fun _ => True)).
  { eapply post_catch; [by apply handle_answers|]. intros err. by apply post_wrap, write_error_answers. }
  specialize (Hc (s, o) eq_refl).
  by destruct (catch _ _ (s, o)) as [[[s' o'] [[]|e]]|].
Qed.

(** C9. When the machine has a result for an operation of a DKG phase or of a
    signing (the five types it has an answering handler for; a reinitialisation
    is not one), the result is an answer to it: the task is the one that
    was asked for, so that the node recognises it, the messages before it are
    kept, and every new message carries a request of the type that its event
    demands, with the machine's own id in the round and the time of the
    operation; the event of the operation is the event of its last message. An
    error of such a handler takes the same form. *)
Theorem machine_answers_with_requests o s s' o' :
  op_Type o ∈ answered_types →
  GetOperationResult o s = Ret (s', inl o') →
  Operation_Equal o o' = None ∧ same_task o o' ∧ IsEmpty (op_Event o') = false ∧
  ∃ msgs m pid, op_ResultMsgs o' = op_ResultMsgs o ++ msgs ++ [m] ∧ msg_Event m = op_Event o' ∧
    round_pid (op_DKGIdentifier o) s' = Some pid ∧ Forall (answers o pid) (msgs ++ [m]).
Proof.
  intros Ht Hr. pose proof (result_of_complete
    (GetOperationResult_fuel (String.length (op_Payload o))) o Ht s I) as Hc.
  unfold GetOperationResult in Hr. cbn [GetOperationResult_fuel] in Hr. rewrite Hr in Hc.
  destruct Hc as (Hs & msgs & m & pid & Hm & He & Hp & Ha). cbn in *.
  pose proof Hs as (Hid & Hty & Hpay & _). split_and!; [|exact Hs| |].
  - unfold Operation_Equal. rewrite Hid, Hty, Hpay. unfold seqb. by rewrite !bool_decide_eq_true_2.
  - rewrite He. apply Forall_app in Ha as [_ Ha%Forall_inv]. destruct Ha as (_ & rq & _ & Hans).
    destruct Hans as [| | | | |ty err Hty'|]; try reflexivity.
    rewrite !elem_of_cons, elem_of_nil in Hty'. by destruct Hty' as [->|[->|[->|[->|[]]]]].
  - by exists msgs, m, pid.
Qed.
End machine.
