(* ===== verification/MachineRecursion.v ===== *)
(** * Nested operations of the air-gapped machine

    A reinitialisation carries the operations of the round in its payload, and
    they are handled by the function that handles the reinitialisation. The
    recursion ends because an operation of a payload is shorter than the
    payload. *)

From S2P Require Import Prelude GoFsm Requests Payload.
From S2P Require Import SignatureProposal DkgProposal SigningProposal StateMachines.
From S2P Require Import LevelState ClientTypes OperationRepo SignatureRepo FsmService.
From S2P Require Import IOLogic Kyber Dkg SigningTasks KeyStore Services NodeService.
From S2P Require Import MachineStore Airgapped.

#[local] Opaque SignatureProposal.New DkgProposal.New SigningProposal.New.

(** The JSON text of a list of operations contains the payload of each. *)
Class NestedJSON {json : JSON (list Operation)} : Prop := {
  payload_shorter b l o : unmarshal b = Some l → o ∈ l →
    (String.length (op_Payload o) < String.length b)%nat
}.

Lemma foldIO_ext {S A B} (body body' : B → A → IO S B) l :
  (∀ x, x ∈ l → ∀ acc s, body acc x s = body' acc x s) →
  ∀ acc s, foldIO body acc l s = foldIO body' acc l s.
Proof.
  induction l as [|x l IH]; intros Hb acc s; [done|]. cbn [foldIO]. unfold mbind, IO_bind.
  rewrite Hb by set_solver. destruct (body' acc x s) as [[s' [b|e]]|]; [|done..].
  apply IH. intros y Hy. apply Hb. set_solver.
Qed.

Section machine.
Context {DB W : Type} {ldb : LevelDB DB W} {ltx : LevelDBTx DB W} {lerr : LevelDBErr} {env : Env W}.
Context {kyber : Kyber} {dkg : PedersenDKG} {sorter : PKSort} {ord : MapOrder} {sym : SymmetricCrypto}
  {mc : MachineCrypto W} {files : ResultFiles W} {scrypto : SigningCrypto} {wc : WcRotation}.
Context {json_log : JSON (gomap string (list Operation))} {json_keyring : JSON blsKeyringJSON}
  {json_ops : JSON (list Operation)} {json_op : JSON Operation} {json_bytes : JSON (list bytes)}
  {json_tasks : JSON (list SigningTask)}
  {jpay : PayloadJSON} {jdeal : DealJSON} {jreq : RequestsJSON} {jresp : ResponsesJSON}.
Context {nested : NestedJSON}.

Abbreviation M := (Machine DB * W)%type (only parsing).
Abbreviation H := (M * Operation)%type (only parsing).
Implicit Types (rec : Operation → IO M Operation).

(** Two functions for the operations that are shorter than [o]. *)
Definition agree_below (o : Operation) rec rec' : Prop :=
  ∀ o' s, (String.length (op_Payload o') < String.length (op_Payload o))%nat → rec o' s = rec' o' s.

Lemma catch_ext {S A} (m m' : IO S A) h s : m s = m' s → catch m h s = catch m' h s.
Proof. intros Hm. unfold catch. by rewrite Hm. Qed.

Lemma machine_ext {A} (m m' : IO M A) x o : m x = m' x → machine m (x, o) = machine m' (x, o).
Proof. intros Hm. unfold machine, zoom. cbn. by rewrite Hm. Qed.

Lemma reinit_ext rec rec' o s :
  agree_below o rec rec' → handleReinitDKG rec (s, o) = handleReinitDKG rec' (s, o).
Proof.
  intros Hrec. unfold handleReinitDKG, mbind, IO_bind, the_op, gets. cbn.
  destruct (unmarshal (op_Payload o)) as [l|] eqn:Hl; [|done]. cbn.
  erewrite machine_ext; [reflexivity|]. unfold iterIO. apply foldIO_ext.
  intros x Hx acc s'. destruct (skipped x); [done|]. unfold wrap. rewrite Hrec; [done|].
  by eapply payload_shorter.
Qed.

Lemma handle_ext rec rec' o s : agree_below o rec rec' → handle rec (s, o) = handle rec' (s, o).
Proof.
  intros Hrec. unfold handle, the_op, gets, mbind, IO_bind. cbn [snd].
  destruct (op_Type o =s? ReinitDKG); [by apply reinit_ext|done].
Qed.

Lemma result_ext rec rec' o s :
  agree_below o rec rec' → result_of (handle rec) o s = result_of (handle rec') o s.
Proof. intros Hrec. unfold result_of. by rewrite (catch_ext _ _ _ _ (handle_ext _ _ _ s Hrec)). Qed.

Lemma fuel_enough n m o s :
  (String.length (op_Payload o) < n)%nat → (String.length (op_Payload o) < m)%nat →
  GetOperationResult_fuel n o s = GetOperationResult_fuel m o s.
Proof.
  induction n as [|n IH] in m, o, s |- *; intros Hn Hm; [lia|].
  destruct m as [|m]; [lia|]. cbn [GetOperationResult_fuel]. apply result_ext.
  intros o' s' Ho. apply IH; lia.
Qed.

(** C25. [GetOperationResult] returns on every operation, however deep the
    reinitialisations in its payload are nested: the depth that the model
    allows changes nothing, the recursive equation of the source holds, and the
    function is the only one for which it does. *)
Theorem operation_result_terminates :
  (∀ o s fuel, (String.length (op_Payload o) < fuel)%nat →
     GetOperationResult_fuel fuel o s = GetOperationResult o s) ∧
  (∀ o s, GetOperationResult o s = result_of (handle GetOperationResult) o s) ∧
  (∀ rec, (∀ o s, rec o s = result_of (handle rec) o s) → ∀ o s, rec o s = GetOperationResult o s).
Proof.
  assert (Heq : ∀ o s, GetOperationResult o s = result_of (handle GetOperationResult) o s).
  { intros o s. unfold GetOperationResult at 1. cbn [GetOperationResult_fuel]. apply result_ext.
    intros o' s' Ho. apply fuel_enough; lia. }
  split; [|split; [exact Heq|]].
  - intros o s fuel Hf. apply fuel_enough; lia.
  - intros rec Hrec o. remember (String.length (op_Payload o)) as n eqn:Hn.
    revert o Hn. induction n as [n IH] using lt_wf_ind. intros o Hn s. rewrite Hrec, Heq. apply result_ext.
    intros o' s' Ho. eapply IH; [|reflexivity]. lia.
Qed.
End machine.
