(* ===== verification/MachineFrame.v ===== *)
(** * What handling an operation may touch

    An invariant of the machine that its calls keep (the database, the random
    numbers, the instances of the rounds) is kept by every handler, by the
    result of any operation, however deep reinitialisations nest in it, and by
    processing and replaying. *)

From S2P Require Import Prelude GoFsm Requests Payload.
From S2P Require Import SignatureProposal DkgProposal SigningProposal StateMachines.
From S2P Require Import LevelState ClientTypes IOLogic Kyber Dkg SigningTasks KeyStore NodeService.
From S2P Require Import MachineStore Airgapped.

#[local] Opaque SignatureProposal.New DkgProposal.New SigningProposal.New.

Section frame.
Context {DB W : Type} {ldb : LevelDB DB W} {lerr : LevelDBErr} {ltx : LevelDBTx DB W} {env : Env W}.
Context {kyber : Kyber} {dkg : PedersenDKG} {sorter : PKSort} {ord : MapOrder}
  {sym : SymmetricCrypto} {mc : MachineCrypto W} {files : ResultFiles W} {scrypto : SigningCrypto} {wc : WcRotation}.
Context {json_log : JSON (gomap string (list Operation))} {json_keyring : JSON blsKeyringJSON}
  {json_ops : JSON (list Operation)} {json_op : JSON Operation} {json_bytes : JSON (list bytes)}
  {json_tasks : JSON (list SigningTask)}
  {jpay : PayloadJSON} {jdeal : DealJSON} {jreq : RequestsJSON} {jresp : ResponsesJSON}.

Abbreviation M := (Machine DB * W)%type (only parsing).
Abbreviation H := (M * Operation)%type (only parsing).

(** The calls of the handlers keep [I]. *)
Record machine_frame (I : M → Prop) : Prop := {
  mf_Get k : keeps I (db_Get k);
  mf_Put_keyring id v : keeps I (db_Put (makeBLSKeyKeyringDBKey id) v);
  mf_instances f : keeps I (on_machine (fun am => am_set_instances (f am) am));
  mf_round A id (m : IO DKG A) : keeps I (on_round id m);
  mf_encrypt key salt data : keeps I (on_world (encrypt key salt data));
  mf_ecies s p b : keeps I (on_world (ecies_Encrypt s p b));
  mf_open path : keeps I (on_world (os_OpenFile path));
  mf_write path b : keeps I (on_world (os_Write path b))
}.
Context (I : M → Prop) (Hframe : machine_frame I).
#[local] Hint Extern 0 (keeps I (db_Get _)) => apply (mf_Get _ Hframe) : keeps.
#[local] Hint Extern 0 (keeps I (db_Put (makeBLSKeyKeyringDBKey _) _)) => apply (mf_Put_keyring _ Hframe) : keeps.
#[local] Hint Extern 0 (keeps I (on_machine _)) => apply (mf_instances _ Hframe) : keeps.
#[local] Hint Extern 0 (keeps I (on_round _ _)) => apply (mf_round _ Hframe) : keeps.
#[local] Hint Extern 0 (keeps I (on_world (encrypt _ _ _))) => apply (mf_encrypt _ Hframe) : keeps.
#[local] Hint Extern 0 (keeps I (on_world (ecies_Encrypt _ _ _))) => apply (mf_ecies _ Hframe) : keeps.
#[local] Hint Extern 0 (keeps I (on_world (os_OpenFile _))) => apply (mf_open _ Hframe) : keeps.
#[local] Hint Extern 0 (keeps I (on_world (os_Write _ _))) => apply (mf_write _ Hframe) : keeps.

Lemma on_new_round_frame {A} d (m : IO DKG A) : keeps I (on_new_round d m).
Proof. intros x Hx. unfold on_new_round. by destruct (m d) as [[d' [a|e]]|]. Qed.
#[local] Hint Resolve on_new_round_frame : keeps.

Lemma saveBLSKeyring_frame id k : keeps I (saveBLSKeyring id k).
Proof. unfold saveBLSKeyring, field. keeps_tac. Qed.
Lemma loadBLSKeyring_frame id : keeps I (loadBLSKeyring id).
Proof. unfold loadBLSKeyring, field. keeps_tac. Qed.
#[local] Hint Resolve saveBLSKeyring_frame loadBLSKeyring_frame : keeps.

(** ** Handlers *)

Definition on_task (s : H) : Prop := I s.1.

Lemma machine_frame_keeps {A} (m : IO M A) : keeps I m → keeps on_task (machine m).
Proof. intros Hm. by apply (keeps_zoom _ _ I). Qed.
Lemma set_op_frame f : keeps on_task (set_op f).
Proof. intros s Hs. exact Hs. Qed.
#[local] Hint Resolve set_op_frame : keeps.
#[local] Hint Extern 2 (keeps on_task (machine _)) =>
  apply machine_frame_keeps; unfold field, the_suite; solve [eauto with keeps | keeps_tac] : keeps.

Lemma answer_frame {A} {json : JSON A} ev (req : A) : keeps on_task (answer ev req).
Proof. unfold answer. keeps_tac. Qed.
#[local] Hint Resolve answer_frame : keeps.

Lemma own_pid_frame payload : keeps I (own_pid payload).
Proof.
  induction payload as [|r payload IH]; cbn [own_pid]; unfold decode_point, the_suite, field; keeps_tac.
Qed.
Lemma getParticipantID_frame id : keeps I (getParticipantID id).
Proof. unfold getParticipantID, field. keeps_tac. Qed.
Lemma the_round_frame id : keeps I (the_round id).
Proof. unfold the_round, field. keeps_tac. Qed.
Lemma encryptData_frame id to b : keeps I (encryptDataForParticipant id to b).
Proof. unfold encryptDataForParticipant, the_suite, field. keeps_tac. Qed.
Lemma store_pubkey_frame d e : keeps I (store_pubkey d e).
Proof. unfold store_pubkey, decode_point, the_suite, field. keeps_tac. Qed.
Lemma marshal_commits_frame l : keeps I (marshal_commits l).
Proof. unfold marshal_commits. keeps_tac. Qed.
Lemma store_commits_frame id e : keeps I (store_commits id e).
Proof. unfold store_commits, decode_point, the_suite, field. keeps_tac. Qed.
Lemma store_deal_frame id e : keeps I (store_deal id e).
Proof. unfold store_deal, the_round, decryptDataFromParticipant, the_suite, field. keeps_tac. Qed.
Lemma store_responses_frame id e : keeps I (store_responses id e).
Proof. unfold store_responses. keeps_tac. Qed.
Lemma partial_sign_frame id l s : keeps I (partial_sign id l s).
Proof. unfold partial_sign, createPartialSign, the_suite, field. keeps_tac. Qed.
#[local] Hint Resolve own_pid_frame getParticipantID_frame the_round_frame encryptData_frame
  store_pubkey_frame marshal_commits_frame store_commits_frame store_deal_frame
  store_responses_frame partial_sign_frame : keeps.

Lemma send_deal_frame d : keeps on_task (send_deal d).
Proof. unfold send_deal, the_op. keeps_tac. Qed.
Lemma confirm_self_frame : keeps on_task confirm_self.
Proof. unfold confirm_self, the_op. keeps_tac. Qed.
#[local] Hint Resolve send_deal_frame confirm_self_frame : keeps.

Lemma handle_frame rec : (∀ o, keeps I (rec o)) → keeps on_task (handle rec).
Proof.
  intros Hrec. unfold handle, handleReinitDKG, handleStateDkgCommitsAwaitConfirmations,
    handleStateDkgDealsAwaitConfirmations, handleStateDkgResponsesAwaitConfirmations,
    handleStateDkgMasterKeyAwaitConfirmations, handleStateSigningAwaitPartialSigns, iterIO, the_op.
  keeps_tac.
Qed.
Lemma write_error_frame err : keeps on_task (writeErrorRequestToOperation err).
Proof. unfold writeErrorRequestToOperation, the_op. keeps_tac. Qed.

Lemma result_frame h o : keeps on_task h → keeps I (result_of h o).
Proof.
  intros Hh x Hx. unfold result_of.
  assert (Hc : keeps on_task (catch h (fun err =>
      wrap "failed to write error request to an operation" (writeErrorRequestToOperation err)))).
  { apply keeps_catch; [done|]. intros err. apply keeps_wrap, write_error_frame. }
  specialize (Hc (x, o) Hx). by destruct (catch _ _ (x, o)) as [[[x' o'] [a|e]]|].
Qed.

Lemma GetOperationResult_frame o : keeps I (GetOperationResult o).
Proof.
  unfold GetOperationResult. generalize (S (String.length (op_Payload o))) as n. intros n.
  induction n as [|n IH] in o |- *; cbn [GetOperationResult_fuel]; [apply keeps_lift|].
  by apply result_frame, handle_frame.
Qed.
#[local] Hint Resolve GetOperationResult_frame : keeps.

(** Storing the operation is the caller's choice. *)
Lemma ProcessOperation_frame o store :
  (store = true → keeps I (storeOperation o)) → keeps I (ProcessOperation o store).
Proof.
  intros Hs. unfold ProcessOperation, field. destruct store; cbn [andb]; [specialize (Hs eq_refl)|]; keeps_tac.
Qed.

Lemma ReplayOperationsLog_frame id : keeps I (ReplayOperationsLog id).
Proof.
  assert (∀ o, keeps I (ProcessOperation o false)) as Hp by (intros o; by apply ProcessOperation_frame).
  unfold ReplayOperationsLog, getOperationsLog, wrap_other, getRoundOperationLog, iterIO. keeps_tac.
Qed.

Lemma VerifySign_frame msg sig id : keeps I (VerifySign msg sig id).
Proof. unfold VerifySign, the_suite, field. keeps_tac. Qed.
End frame.
