(* ===== verification/MachineSpec.v ===== *)
(** * What the air-gapped machine keeps

    Over a database and a world that work: keys and keyrings are read back as
    they were saved, whatever was dropped from memory in between, and the log of
    operations holds what was processed. *)

From S2P Require Import Prelude GoFsm Requests Payload.
From S2P Require Import SignatureProposal DkgProposal SigningProposal StateMachines.
From S2P Require Import LevelState ClientTypes IOLogic Kyber Dkg SigningTasks KeyStore NodeService.
From S2P Require Import MachineStore Airgapped MachineFrame.

#[local] Opaque SignatureProposal.New DkgProposal.New SigningProposal.New.
#[local] Arguments db_Get : simpl never.
#[local] Arguments db_Put : simpl never.
#[local] Arguments on_world : simpl never.
#[local] Arguments BLSKeyring_Bytes : simpl never.

(** A world that works: a transaction is applied by its commit and by nothing
    else, and what is not LevelDB leaves the databases alone. *)
Class MachineWorldSpec (DB W : Type) `{!LevelDB DB W, !LevelDBErr, !LevelDBSpec DB W, !LevelDBTx DB W,
    !Env W, !Kyber, !MachineCrypto W, !ResultFiles W} : Type := {
  tx_live : Tx → W → Prop;
  tx_db : Tx → DB;
  tx_view : Tx → W → gmap string bytes;
  OpenTransaction_live d w : live d w →
    ∃ w' tx, leveldb_OpenTransaction d w = (w', inl tx) ∧ tx_live tx w' ∧ tx_db tx = d ∧
      tx_view tx w' = disk (path_of d) w;
  tx_Put_live tx k v w : tx_live tx w →
    ∃ w', tx_Put tx k v w = (w', None) ∧ tx_live tx w' ∧ tx_view tx w' = <[k := v]> (tx_view tx w);
  tx_Commit_live tx w : tx_live tx w →
    ∃ w', tx_Commit tx w = (w', None) ∧ tx_Discard tx w' = w' ∧ live (tx_db tx) w' ∧
      disk (path_of (tx_db tx)) w' = tx_view tx w;
  same_disks : W → W → Prop := fun w w' =>
    (∀ d, live d w → live d w') ∧ ∀ p, disk p w' = disk p w;
  rand_live n w : ∃ w' b, rand_Bytes n w = Ret (w', inl b) ∧ slen b = Z.max 0 n ∧ same_disks w w';
  Encrypt_live s p b w : ∃ w' r, ecies_Encrypt s p b w = Ret (w', r) ∧ same_disks w w';
  OpenFile_live path w : ∃ w' r, os_OpenFile path w = Ret (w', r) ∧ same_disks w w';
  Write_live path b w : ∃ w' r, os_Write path b w = Ret (w', r) ∧ same_disks w w'
}.

Section spec.
Context {DB W : Type} {ldb : LevelDB DB W} {lerr : LevelDBErr} {lspec : LevelDBSpec DB W}
  {ltx : LevelDBTx DB W} {env : Env W}.
Context {kyber : Kyber} {kspec : KyberSpec} {dkg : PedersenDKG} {sorter : PKSort} {ord : MapOrder}
  {sym : SymmetricCrypto} {symspec : SymmetricSpec}
  {mc : MachineCrypto W} {files : ResultFiles W} {scrypto : SigningCrypto} {wc : WcRotation}
  {world : MachineWorldSpec DB W}.
Context {json_log : JSON (gomap string (list Operation))} {json_keyring : JSON blsKeyringJSON}
  {json_ops : JSON (list Operation)} {json_op : JSON Operation} {json_bytes : JSON (list bytes)}
  {json_tasks : JSON (list SigningTask)}
  {jpay : PayloadJSON} {jdeal : DealJSON} {jreq : RequestsJSON} {jresp : ResponsesJSON}.

Abbreviation M := (Machine DB * W)%type (only parsing).
Implicit Types (am : Machine DB) (w : W).

(** The machine's database, open and working, with its content. *)
Definition holds (m : gmap string bytes) (x : M) : Prop :=
  live (am_db x.1) x.2 ∧ disk (path_of (am_db x.1)) x.2 = m.

Lemma holds_same m am w w' : holds m (am, w) → same_disks w w' → holds m (am, w').
Proof. intros [Hl Hd] [Hl' Hd']. split; cbn in *; [by apply Hl'|by rewrite Hd']. Qed.

(** ** Encryption *)

Lemma sdrop_app_length (a b : string) : sdrop (String.length a) (a +:+ b) = b.
Proof. induction a as [|c a IH]; [by destruct b|exact IH]. Qed.
Lemma substring_app_length (a b : string) : String.substring 0 (String.length a) (a +:+ b) = a.
Proof. induction a as [|c a IH]; [by destruct b|exact (f_equal (String c) IH)]. Qed.
Lemma slen_app (a b : string) : slen (a +:+ b) = slen a + slen b.
Proof. unfold slen. rewrite <-Nat2Z.inj_add. f_equal. induction a as [|c a IH]; [done|exact (f_equal S IH)]. Qed.

Lemma encrypt_decrypts key salt data w :
  ∃ w' c, encrypt key salt data w = Ret (w', inl c) ∧ decrypt key salt c = inl data ∧ same_disks w w'.
Proof.
  destruct (scrypt_ok key salt) as (k & Hk). destruct (rand_live NonceSize w) as (w' & nonce & Hr & Hn & Hs).
  pose proof NonceSize_nonneg as H0. rewrite Z.max_r in Hn by done.
  exists w', (nonce +:+ gcm_Seal k nonce data). split_and!; [| |done].
  - unfold encrypt, of_res, mbind, IO_bind. by rewrite Hk, Hr.
  - unfold decrypt. rewrite Hk, slen_app. destruct (Z.ltb_spec (slen nonce + slen (gcm_Seal k nonce data)) NonceSize).
    { unfold slen in *. lia. }
    replace (Z.to_nat NonceSize) with (String.length nonce) by (unfold slen in Hn; lia).
    rewrite substring_app_length, sdrop_app_length. apply gcm_roundtrip.
Qed.

Lemma on_world_ret {A} (m : IO W A) am w w' r : m w = Ret (w', r) → on_world m (am, w) = Ret ((am, w'), r).
Proof. intros H. unfold on_world, zoom. cbn. by rewrite H. Qed.

Lemma db_Get_holds m am w k :
  holds m (am, w) → db_Get k (am, w) = Ret ((am, w), match m !! k with Some v => inl v | None => inr ErrNotFound end).
Proof. intros [Hl <-]. unfold db_Get. by rewrite leveldb_Get_live. Qed.

Lemma db_Put_holds m am w k v :
  holds m (am, w) → ∃ w', db_Put k v (am, w) = Ret ((am, w'), inl tt) ∧ holds (<[k := v]> m) (am, w').
Proof.
  intros [Hl <-]. cbn in *. unfold db_Put.
  destruct (leveldb_Put_live (am_db am) k v w Hl) as (w' & -> & Hl' & Hd & _). by exists w'.
Qed.

(** ** Keys *)

(** The three entries of a saved key pair. *)
Definition keys_saved (key : bytes) (pub : Point) (sec : Scalar) (m : gmap string bytes) : Prop :=
  ∃ salt p s pb sb, m !! saltDBKey = Some salt ∧ m !! pubKeyDBKey = Some p ∧ m !! privateKeyDBKey = Some s ∧
    decrypt key salt p = inl pb ∧ Point_UnmarshalBinary pb = inl pub ∧
    decrypt key salt s = inl sb ∧ Scalar_UnmarshalBinary sb = inl sec.

Lemma SaveKeysToDB_ok am w m pub sec :
  holds m (am, w) → am_pubKey am = Some pub → am_secKey am = Some sec →
  ∃ w' m', SaveKeysToDB (am, w) = Ret ((am, w'), inl tt) ∧ holds m' (am, w') ∧
    keys_saved (encryptionKey am) pub sec m' ∧
    ∀ k, k ≠ saltDBKey → k ≠ pubKeyDBKey → k ≠ privateKeyDBKey → m' !! k = m !! k.
Proof.
  intros Hm Hpub Hsec.
  destruct (Point_roundtrip pub) as (pb & Hpb & Hpu). destruct (Scalar_roundtrip sec) as (sb & Hsb & Hsu).
  destruct (rand_live 32 w) as (w1 & salt & Hr & _ & Hs1).
  destruct (encrypt_decrypts (encryptionKey am) salt pb w1) as (w2 & p & He2 & Hd2 & Hs2).
  destruct (encrypt_decrypts (encryptionKey am) salt sb w2) as (w3 & s & He3 & Hd3 & Hs3).
  pose proof (holds_same _ _ _ _ (holds_same _ _ _ _ (holds_same _ _ _ _ Hm Hs1) Hs2) Hs3) as [Hl3 Hm3].
  destruct (OpenTransaction_live _ _ Hl3) as (w4 & tx & Ho & Ht4 & Hdb & Hv4).
  destruct (tx_Put_live tx pubKeyDBKey p w4 Ht4) as (w5 & Hp5 & Ht5 & Hv5).
  destruct (tx_Put_live tx privateKeyDBKey s w5 Ht5) as (w6 & Hp6 & Ht6 & Hv6).
  destruct (tx_Put_live tx saltDBKey salt w6 Ht6) as (w7 & Hp7 & Ht7 & Hv7).
  destruct (tx_Commit_live tx w7 Ht7) as (w8 & Hc & Hdis & Hl8 & Hd8).
  cbn in Hl3, Hm3, Ho, Hdb, Hv4. rewrite Hdb in Hl8, Hd8.
  exists w8, (<[saltDBKey := salt]> (<[privateKeyDBKey := s]> (<[pubKeyDBKey := p]> m))).
  split_and!.
  - unfold SaveKeysToDB, field, gets, mbind, IO_bind, wrap, of_res, lift. cbn.
    rewrite Hpub. cbn. rewrite Hpb. cbn. rewrite Hsec. cbn. rewrite Hsb. cbn.
    rewrite (on_world_ret _ am w _ _ Hr). cbn. rewrite (on_world_ret _ am w1 _ _ He2). cbn.
    rewrite (on_world_ret _ am w2 _ _ He3). cbn.
    unfold open_transaction. rewrite Ho. unfold deferring_discard, tx_put, tx_commit.
    by rewrite Hp5, Hp6, Hp7, Hc, Hdis.
  - split; [exact Hl8|]. cbn. by rewrite Hd8, Hv7, Hv6, Hv5, Hv4, Hm3.
  - exists salt, p, s, pb, sb. by simplify_map_eq.
  - intros k H1 H2 H3. by rewrite !lookup_insert_ne by done.
Qed.

Lemma LoadKeysFromDB_ok am w m suite pub sec :
  holds m (am, w) → baseSuite am = Some suite → keys_saved (encryptionKey am) pub sec m →
  LoadKeysFromDB (am, w) =
    Ret ((am_set_secKey (Some sec) (am_set_pubKey (Some pub) am), w), inl tt).
Proof.
  intros Hm Hsuite (salt & p & s & pb & sb & H1 & H2 & H3 & H4 & H5 & H6 & H7).
  unfold LoadKeysFromDB, wrap_other, catch, the_suite, field, gets, mbind, IO_bind, of_res, lift.
  do 3 (rewrite (db_Get_holds m) by done; rewrite ?H1, ?H2, ?H3; cbn). rewrite H4, H6. cbn. rewrite Hsuite. cbn.
  by rewrite H5, H7.
Qed.

(** C19. The keys of the machine survive: saved once, they are loaded again by
    any machine on the same database with the same password, and in particular
    by the one whose sensitive data was dropped from memory, which has no key
    and no password left until the operator enters the password again. The
    three entries are written by one transaction; nothing else changes. *)
Theorem keys_survive am w m suite pub sec :
  holds m (am, w) → baseSuite am = Some suite → am_pubKey am = Some pub → am_secKey am = Some sec →
  ∃ w' m', SaveKeysToDB (am, w) = Ret ((am, w'), inl tt) ∧ holds m' (am, w') ∧
    (∀ k, k ≠ saltDBKey → k ≠ pubKeyDBKey → k ≠ privateKeyDBKey → m' !! k = m !! k) ∧
    (_ ← DropSensitiveData; b ← SensitiveDataRemoved; none ← field am_secKey;
     _ ← SetEncryptionKey (encryptionKey am); _ ← InitKeys;
     mret (b, none)) (am, w') = Ret ((am, w'), inl (true, None)) ∧
    ∀ am2, am_db am2 = am_db am → encryptionKey am2 = encryptionKey am → baseSuite am2 = Some suite →
      InitKeys (am2, w') =
        Ret ((am_set_secKey (Some sec) (am_set_pubKey (Some pub) am2), w'), inl tt).
Proof.
  intros Hm Hsuite Hpub Hsec. destruct (SaveKeysToDB_ok am w m pub sec Hm Hpub Hsec) as (w' & m' & Hsave & Hm' & Hk & Hne).
  assert (Hinit : ∀ am2, am_db am2 = am_db am → encryptionKey am2 = encryptionKey am → baseSuite am2 = Some suite →
      InitKeys (am2, w') = Ret ((am_set_secKey (Some sec) (am_set_pubKey (Some pub) am2), w'), inl tt)).
  { intros am2 Hdb Hkey Hs2. unfold InitKeys, catch.
    by rewrite (LoadKeysFromDB_ok am2 w' m' suite pub sec) by (unfold holds in *; cbn in *; by rewrite ?Hdb, ?Hkey). }
  exists w', m'. split_and!; [done..| |done].
  unfold mbind, IO_bind. cbn.
  set (am2 := am_set_key _ _). rewrite (Hinit am2) by done. cbn. destruct am; cbn in *. by subst.
Qed.

(** ** Keyrings *)

Section keyrings.
Context {jkspec : JSONSpec blsKeyringJSON} (Hfits : ∀ j : blsKeyringJSON, encodable j).

Lemma commitments_roundtrip f :
  ∃ l, marshal_commitments f = inl l ∧ unmarshal_commitments l = inl (PubPoly_Info f).
Proof.
  unfold marshal_commitments, unmarshal_commitments. induction (PubPoly_Info f) as [|c l IH]; [by exists []|].
  destruct IH as (bs & Hm & Hu). destruct (Point_roundtrip c) as (b & Hb & Hub).
  exists (b :: bs). cbn. by rewrite Hb, Hm, Hub, Hu.
Qed.

Lemma keyring_bytes_roundtrip f share :
  ∃ b, BLSKeyring_Bytes (mk_BLSKeyring f (Some share)) = Ret (inl b) ∧
    LoadBLSKeyringFromBytes b = inl (mk_BLSKeyring f (Some share)).
Proof.
  destruct (share_roundtrip share) as (sb & Hs & Hsu). destruct (commitments_roundtrip f) as (l & Hl & Hlu).
  destruct (marshal_roundtrip (mk_blsKeyringJSON l sb) (Hfits _)) as (b & Hb & _ & Hub).
  exists b. split.
  - unfold BLSKeyring_Bytes, mbind, Go_bind. cbn [kr_Share kr_PubPoly]. rewrite Hs, Hl. unfold marshal_keyring. by rewrite Hb.
  - unfold LoadBLSKeyringFromBytes. rewrite Hub. cbn [kj_Commitments kj_Share]. by rewrite Hlu, Hsu, NewPubPoly_Info.
Qed.

Lemma keyring_key_inj id id' : makeBLSKeyKeyringDBKey id = makeBLSKeyKeyringDBKey id' → id = id'.
Proof. unfold makeBLSKeyKeyringDBKey. by intros [= ?]%sapp_inj_l. Qed.

(** An encrypted keyring of the database. *)
Definition keyring_in (key : bytes) (id : string) (k : BLSKeyring) (m : gmap string bytes) : Prop :=
  ∃ salt c b, m !! saltDBKey = Some salt ∧ m !! makeBLSKeyKeyringDBKey id = Some c ∧
    decrypt key salt c = inl b ∧ LoadBLSKeyringFromBytes b = inl k.

Lemma loadBLSKeyring_ok am w m id k :
  holds m (am, w) → keyring_in (encryptionKey am) id k m → loadBLSKeyring id (am, w) = Ret ((am, w), inl k).
Proof.
  intros Hm (salt & c & b & Hs & Hc & Hd & Hl).
  unfold loadBLSKeyring, wrap, catch, field, gets, of_res, mbind, IO_bind.
  do 2 (rewrite (db_Get_holds m) by done; rewrite ?Hs, ?Hc; cbn). by rewrite Hd, Hl.
Qed.

(** C31. A keyring is read back as it was saved, the private share included, and
    saving it leaves the keyrings of the other rounds readable as they were. *)
Theorem keyring_roundtrip am w m salt id f share :
  holds m (am, w) → m !! saltDBKey = Some salt →
  let k := mk_BLSKeyring f (Some share) in
  ∃ w' c, saveBLSKeyring id k (am, w) = Ret ((am, w'), inl tt) ∧
    holds (<[makeBLSKeyKeyringDBKey id := c]> m) (am, w') ∧
    loadBLSKeyring id (am, w') = Ret ((am, w'), inl k) ∧
    ∀ id' k', id' ≠ id → keyring_in (encryptionKey am) id' k' m →
      loadBLSKeyring id' (am, w') = Ret ((am, w'), inl k').
Proof.
  intros Hm Hs k. destruct (keyring_bytes_roundtrip f share) as (b & Hb & Hload).
  destruct (encrypt_decrypts (encryptionKey am) salt b w) as (w1 & c & He & Hd & Hs1).
  pose proof (holds_same _ _ _ _ Hm Hs1) as Hm1.
  destruct (db_Put_holds m am w1 (makeBLSKeyKeyringDBKey id) c Hm1) as (w' & Hp & Hm').
  assert (Hne : makeBLSKeyKeyringDBKey id ≠ saltDBKey) by done.
  exists w', c. split_and!; [|exact Hm'| |].
  - unfold saveBLSKeyring, wrap, field, gets, lift_res, mbind, IO_bind.
    rewrite (db_Get_holds m) by done. rewrite Hs. cbn. unfold k. rewrite Hb. cbn.
    rewrite (on_world_ret _ am w _ _ He). cbn. by rewrite Hp.
  - apply (loadBLSKeyring_ok _ _ _ _ _ Hm'). exists salt, c, b. by simplify_map_eq.
  - intros id' k' Hid (salt' & c' & b' & H1 & H2 & H3 & H4). apply (loadBLSKeyring_ok _ _ _ _ _ Hm').
    assert (makeBLSKeyKeyringDBKey id ≠ makeBLSKeyKeyringDBKey id') by (intros ?%keyring_key_inj; congruence).
    exists salt', c', b'. by simplify_map_eq.
Qed.
End keyrings.

(** ** The log of operations *)

Section log.
Context {jlspec : @JSONMap (list Operation) json_log}.

(** The log [L] is stored. *)
Definition log_is (L : gmap string (list Operation)) (m : gmap string bytes) : Prop :=
  map_Forall entry_fits L ∧ ∃ b, m !! operationsLogDBKey = Some b ∧ unmarshal b = Some (Some L).

Lemma change_log_ok am w m L id f :
  holds m (am, w) → log_is L m → entry_fits id (f (default [] (L !! id))) →
  ∃ w' m', change_log id f (am, w) = Ret ((am, w'), inl tt) ∧ holds m' (am, w') ∧
    log_is (<[id := f (default [] (L !! id))]> L) m' ∧
    ∀ k, k ≠ operationsLogDBKey → m' !! k = m !! k.
Proof.
  intros Hm (Hfit & b & Hb & Hu) Hf. set (L' := <[id := _]> L).
  assert (Hfit' : map_Forall entry_fits L') by by apply map_Forall_insert_2.
  destruct (map_roundtrip L' Hfit') as (b' & Hb' & _ & Hu').
  destruct (db_Put_holds m am w operationsLogDBKey b' Hm) as (w' & Hp & Hm').
  exists w', (<[operationsLogDBKey := b']> m). split_and!; [|exact Hm'| |].
  - unfold change_log, getRoundOperationLog, putRoundOperationLog, wrap_other, catch, wrap, lift, mbind, IO_bind.
    rewrite (db_Get_holds m) by done. rewrite Hb. cbn. rewrite Hu. cbn. fold L'. rewrite Hb'. cbn. by rewrite Hp.
  - split; [done|]. exists b'. by simplify_map_eq.
  - intros k Hk. by rewrite lookup_insert_ne by done.
Qed.

Abbreviation H := (M * Operation)%type (only parsing).

(** The machine's database holds the log [L]. *)
Definition logged (L : gmap string (list Operation)) (x : M) : Prop := ∃ m, holds m x ∧ log_is L m.

Lemma log_is_other L m k v : log_is L m → k ≠ operationsLogDBKey → log_is L (<[k := v]> m).
Proof. intros (Hf & b & Hb & Hu) Hk. split; [done|]. exists b. by rewrite lookup_insert_ne by done. Qed.

Lemma db_Get_logged L k : keeps (logged L) (db_Get k).
Proof.
  intros [am w] (m & Hm & HL). rewrite (db_Get_holds m) by done.
  destruct (m !! k); exists m; split; done.
Qed.
Lemma db_Put_logged L k v : k ≠ operationsLogDBKey → keeps (logged L) (db_Put k v).
Proof.
  intros Hk [am w] (m & Hm & HL). destruct (db_Put_holds m am w k v Hm) as (w' & -> & Hm').
  eexists. split; [exact Hm'|]. by apply log_is_other.
Qed.
Lemma on_world_logged {A} L (m : IO W A) :
  (∀ w, ∃ w' r, m w = Ret (w', r) ∧ same_disks w w') → keeps (logged L) (on_world m).
Proof.
  intros Hm [am w] (d & Hd & HL). destruct (Hm w) as (w' & r & Hr & Hs).
  rewrite (on_world_ret _ am w _ _ Hr).
  assert (logged L (am, w')) by (exists d; split; [by eapply holds_same|done]). by destruct r.
Qed.
Lemma on_machine_logged L f : (∀ am, am_db (f am) = am_db am) → keeps (logged L) (on_machine f).
Proof. intros Hf [am w] (m & [Hl Hd] & HL). exists m. split; [|done]. split; cbn in *; by rewrite Hf. Qed.
Lemma on_round_logged {A} L id (m : IO DKG A) : keeps (logged L) (on_round id m).
Proof.
  intros [am w] Hx. unfold on_round. destruct (_ !! id) as [d|]; [|done].
  by destruct (m d) as [[d' [a|e]]|].
Qed.
Lemma encrypt_logged L key salt data : keeps (logged L) (on_world (encrypt key salt data)).
Proof.
  apply on_world_logged. intros w. destruct (encrypt_decrypts key salt data w) as (w' & c & He & _ & Hs).
  by exists w', (inl c).
Qed.
Lemma ecies_logged L s p b : keeps (logged L) (on_world (ecies_Encrypt s p b)).
Proof. apply on_world_logged. intros w. apply Encrypt_live. Qed.
Lemma open_logged L path : keeps (logged L) (on_world (os_OpenFile path)).
Proof. apply on_world_logged. intros w. apply OpenFile_live. Qed.
Lemma write_logged L path b : keeps (logged L) (on_world (os_Write path b)).
Proof. apply on_world_logged. intros w. apply Write_live. Qed.

Lemma logged_frame L : machine_frame (logged L).
Proof.
  constructor; intros; [apply db_Get_logged|by apply db_Put_logged|by apply on_machine_logged|apply on_round_logged|
    apply encrypt_logged|apply ecies_logged|apply open_logged|apply write_logged].
Qed.

Lemma change_logged L id f :
  entry_fits id (f (default [] (L !! id))) →
  post (logged L) (change_log id f) (fun _ => logged (<[id := f (default [] (L !! id))]> L)) (logged L).
Proof.
  intros Hf [am w] (m & Hm & HL). destruct (change_log_ok am w m L id f Hm HL Hf) as (w' & m' & -> & Hm' & HL' & _).
  by exists m'.
Qed.

(** What [ProcessOperation] does after the handler. *)
Lemma ProcessOperation_post L L' o store :
  post (logged L) (if store && negb (IsSigningState (Some o))
                   then wrap "failed to storeOperation" (storeOperation o) else mret tt)
    (fun _ => logged L') (fun _ => True) →
  post (logged L) (ProcessOperation o store) (fun _ => logged L') (fun _ => True).
Proof.
  intros Hstore. unfold ProcessOperation.
  assert (HT : ∀ A (m : IO M A), keeps (logged L') m → post (logged L') m (fun _ => logged L') (fun _ => True)).
  { intros A m Hm. by eapply post_conseq. }
  eapply post_bind with (R := fun _ => logged L).
  { eapply post_conseq; [apply keeps_wrap, GetOperationResult_frame, logged_frame|done..]. }
  intros result. eapply post_bind; [exact Hstore|]. intros []. apply HT. unfold field.
  pose proof (mf_open _ (logged_frame L')). pose proof (mf_write _ (logged_frame L')). keeps_tac.
Qed.

(** C30. The log of operations is what was processed: an operation that was
    handled is appended to its round if the caller asked for it and it is not a
    signing operation; replaying the log of a round, whatever happens on the way, leaves the log as it is;
    dropping it leaves the round with an empty log and the other rounds with
    theirs. *)
Theorem operations_log_spec L x :
  logged L x →
  (∀ o store x' path, entry_fits (op_DKGIdentifier o) (default [] (L !! op_DKGIdentifier o) ++ [o]) →
     ProcessOperation o store x = Ret (x', inl path) →
     logged (if store && negb (IsSigningState (Some o))
             then <[op_DKGIdentifier o := default [] (L !! op_DKGIdentifier o) ++ [o]]> L else L) x') ∧
  (∀ id x' r, ReplayOperationsLog id x = Ret (x', r) → logged L x') ∧
  (∀ id, entry_fits id [] → ∃ x', DropOperationsLog id x = Ret (x', inl tt) ∧ logged (<[id := []]> L) x').
Proof.
  intros Hx. split_and!.
  - intros o store x' path Hfit Hr.
    eapply (post_run _ _ _ _ _ _ _ (ProcessOperation_post L _ o store _) Hx Hr).
    Unshelve. destruct (store && _); [|by apply post_ret].
    apply post_wrap. eapply post_conseq; [apply change_logged|done..]; done.
  - intros id x' r. apply keeps_run; [|exact Hx]. apply ReplayOperationsLog_frame, logged_frame.
  - intros id Hfit. destruct x as [am w], Hx as (m & Hm & HL).
    destruct (change_log_ok am w m L id (fun _ => []) Hm HL Hfit) as (w' & m' & Hd & Hm' & HL' & _).
    exists (am, w'). split; [exact Hd|]. by exists m'.
Qed.
End log.
End spec.
