(* ===== verification/HttpApi.v ===== *)
(** * The HTTP API, [client/api/http_api]

    Forms, the conversion of a request to what the services take, the handlers,
    and the table of routes. The web framework, the validation of forms and the
    copying of their fields into DTOs are third-party packages: for every form
    they are the operations of a class. *)

From S2P Require Import Prelude GoFsm Requests Payload.
From S2P Require Import SignatureProposal DkgProposal SigningProposal StateMachines.
From S2P Require Import LevelState ClientTypes OperationRepo SignatureRepo FsmService.
From S2P Require Import IOLogic Kyber SigningTasks KeyStore Services NodeService.

(** ** [requests.go] *)

Record MessageForm : Type := mk_MessageForm {
  mf_ID : string;
  mf_DkgRoundID : string;
  mf_Offset : Z;
  mf_Event : string;
  mf_Data : bytes;
  mf_Signature : bytes;
  mf_SenderAddr : string;
  mf_RecipientAddr : string
}.

Record OperationIdForm : Type := mk_OperationIdForm { of_OperationID : string }.
Record DkgIdForm : Type := mk_DkgIdForm { df_DkgID : string }.
Record SignatureByIDForm : Type := mk_SignatureByIDForm { sf_ID : string; sf_DkgID : string }.
Record SignaturesByBatchIDForm : Type := mk_SignaturesByBatchIDForm { bf_BatchID : string; bf_DkgID : string }.

Record OperationForm : Type := mk_OperationForm {
  opf_ID : string;
  opf_Type : string;
  opf_Payload : bytes;
  opf_ResultMsgs : list Message;
  opf_CreatedAt : Time;
  opf_DkgID : string;
  opf_To : string;
  opf_Event : Event;
  opf_ExtraData : bytes
}.

Record StartDKGForm : Type := mk_StartDKGForm { stf_Payload : bytes }.
Record ProposeSignMessageForm : Type := mk_ProposeSignMessageForm { pf_DkgID : bytes; pf_Data : option bytes }.
Record ProposeSignBatchMessagesForm : Type := mk_ProposeSignBatchMessagesForm {
  pbf_DkgID : bytes;
  pbf_Data : gomap string (option bytes)
}.
Record ProposeSignBakedMessagesForm : Type := mk_ProposeSignBakedMessagesForm {
  pkf_DkgID : bytes;
  pkf_RangeStart : Z;
  pkf_RangeEnd : Z
}.
Record ReInitDKGForm : Type := mk_ReInitDKGForm {
  rf_ID : string;
  rf_Threshold : Z;
  rf_Participants : list Participant;
  rf_Messages : list Message
}.
Record StateOffsetForm : Type := mk_StateOffsetForm { sof_Offset : Z }.
Record ResetStateForm : Type := mk_ResetStateForm {
  rsf_NewStateDBDSN : string;
  rsf_UseOffset : bool;
  rsf_KafkaConsumerGroup : string;
  rsf_Messages : list string
}.

(** ** [dto.go]: the DTOs that are not with the services *)

Record OperationIdDTO : Type := mk_OperationIdDTO { oid_OperationID : string }.
Record DkgIdDTO : Type := mk_DkgIdDTO { did_DkgID : string }.
Record SignatureByIdDTO : Type := mk_SignatureByIdDTO { sid_ID : string; sid_DkgID : string }.
Record SignaturesByBatchIdDTO : Type := mk_SignaturesByBatchIdDTO { sbd_BatchID : string; sbd_DkgID : string }.
Record StartDkgDTO : Type := mk_StartDkgDTO { sd_Payload : bytes }.
Record ProposeSignMessageDTO : Type := mk_ProposeSignMessageDTO { psd_DkgID : bytes; psd_Data : option bytes }.
Record ProposeSignBakedMessagesDTO : Type := mk_ProposeSignBakedMessagesDTO {
  pbd_DkgID : bytes;
  pbd_RangeStart : Z;
  pbd_RangeEnd : Z
}.
Record StateOffsetDTO : Type := mk_StateOffsetDTO { sod_Offset : Z }.

(** ** The libraries *)

(** [echo.Context] of a request, and what the libraries do with a form [F]:
    [Bind] fills it from path, query and body, [Validate] checks the rules of
    its tags. *)
Class Form (Q F : Type) : Type := {
  Bind : Q → F + error;
  Validate : F → option error
}.

(** The error of the framework's router for a method and a path that no route
    takes. *)
Class EchoRouter : Type := no_route : string → string → string.

(** [dto.RequestToDTO]: the fields with a name in common. *)
Class ToDTO (F D : Type) : Type := RequestToDTO : F → D + error.

(** The rest of a request that the handlers read: the whole body. *)
Class RawBody (Q : Type) : Type := ReadBody : Q → bytes + error.

(** ** [context_service] *)

(** What the handlers answer with. *)
Inductive ApiData : Type :=
| AString (s : string)
| APubKey (k : bytes)
| AOffset (o : Z)
| AOperations (ops : Operations)
| AOperation (o : option Operation)
| ASignatures (s : SignaturesStorage)
| ABatches (l : list string)
| ASignatureList (l : list ReconstructedSignature)
| ADump (d : option FSMDump)
| AStates (m : gmap string string).

Inductive Body : Type :=
| CSJsonResp (Result : ApiData)
| CSErrorResp (ErrorMessage : error)
| NoContent.

Record HttpResponse : Type := mk_HttpResponse { code : Z; body : Body }.

Definition StatusOK : Z := 200.
Definition StatusBadRequest : Z := 400.
Definition StatusInternalServerError : Z := 500.

Definition Json (code : Z) (data : ApiData) : HttpResponse := mk_HttpResponse code (CSJsonResp data).
Definition JsonError (code : Z) (err : option error) : HttpResponse :=
  mk_HttpResponse code (CSErrorResp (default (Err "undefined error") err)).

Definition BindToRequest {Q F} `{!Form Q F} (q : Q) : F + error :=
  match Bind q with
  | inr err => inr (Wrap "failed to read request body" err)
  | inl request =>
      match Validate request with
      | Some err => inr (Wrap "invalid request" err)
      | None => inl request
      end
  end.

Definition BindToDTO {Q} F {D} `{!Form Q F, !ToDTO F D} (q : Q) : D + error :=
  match BindToRequest (F := F) q with
  | inr err => inr err
  | inl requestForm => RequestToDTO requestForm
  end.

(** [customHTTPErrorHandler]: what becomes of an error that no handler answered;
    the framework reports its own as an [HTTPError] with a message. The answer
    to a HEAD request has no body. *)
Inductive EchoError : Type := HTTPError (Message : string) | OtherError.
Definition customHTTPErrorHandler (m : string) (err : EchoError) : HttpResponse :=
  if m =s? "HEAD" then mk_HttpResponse StatusInternalServerError NoContent
  else JsonError StatusInternalServerError
    (Some (Err (match err with HTTPError m => m | OtherError => "Internal Server Error" end))).

(** The forms of the API. *)
Class HttpForms (Q : Type) : Type := {
  #[global] form_message :: Form Q MessageForm;
  #[global] form_operation_id :: Form Q OperationIdForm;
  #[global] form_dkg_id :: Form Q DkgIdForm;
  #[global] form_signature_by_id :: Form Q SignatureByIDForm;
  #[global] form_operation :: Form Q OperationForm;
  #[global] form_start_dkg :: Form Q StartDKGForm;
  #[global] form_propose :: Form Q ProposeSignMessageForm;
  #[global] form_propose_batch :: Form Q ProposeSignBatchMessagesForm;
  #[global] form_propose_baked :: Form Q ProposeSignBakedMessagesForm;
  #[global] form_reinit :: Form Q ReInitDKGForm;
  #[global] form_offset :: Form Q StateOffsetForm;
  #[global] form_reset :: Form Q ResetStateForm;
  #[global] raw_body :: RawBody Q
}.

Class FormDTOs : Type := {
  #[global] dto_message :: ToDTO MessageForm MessageDTO;
  #[global] dto_operation_id :: ToDTO OperationIdForm OperationIdDTO;
  #[global] dto_dkg_id :: ToDTO DkgIdForm DkgIdDTO;
  #[global] dto_signature_by_id :: ToDTO SignatureByIDForm SignatureByIdDTO;
  #[global] dto_operation :: ToDTO OperationForm OperationDTO;
  #[global] dto_start_dkg :: ToDTO StartDKGForm StartDkgDTO;
  #[global] dto_propose :: ToDTO ProposeSignMessageForm ProposeSignMessageDTO;
  #[global] dto_propose_batch :: ToDTO ProposeSignBatchMessagesForm ProposeSignBatchMessagesDTO;
  #[global] dto_propose_baked :: ToDTO ProposeSignBakedMessagesForm ProposeSignBakedMessagesDTO;
  #[global] dto_offset :: ToDTO StateOffsetForm StateOffsetDTO;
  #[global] dto_reset :: ToDTO ResetStateForm ResetStateDTO
}.

(** [time.Time.Unix], in seconds since 1970. *)
Definition Unix (t : Time) : Z := (t / 1000000000) - 62135596800.

(** ** The handlers *)

Section handlers.
Context {S : Type} {st : NodeState S} {lerr : LevelDBErr} {stg : Storage S} {keys : KeyStore S}
  {env : Env S}.
Context {crypto : Crypto} {scrypto : SigningCrypto}.
Context {ord : MapOrder} {json_tasks : JSON (list SigningTask)} {json_dump : JSON FSMDump}
  {json_dumps : JSON Dumps} {json_ops : JSON Operations} {json_sigs : JSON SignaturesStorage}
  {jreq : RequestsJSON} {jresp : ResponsesJSON} {json_reinit : JSON ReInitDKGForm}.
Context {Q : Type} {forms : HttpForms Q} {dtos : FormDTOs} {router : EchoRouter}.
Implicit Types (q : Q).

(** The object [HTTPApp] points to the node and the services, whose state is the
    node's. *)
Abbreviation App := (BaseNodeService S) (only parsing).

(** [if err != nil { return stx.JsonError(http.StatusInternalServerError, err) }]
    and the answer otherwise. *)
Definition answer_with {A} (f : A → ApiData) (m : IO App A) : IO App HttpResponse :=
  r ← try m;
  mret (match r with
        | inr err => JsonError StatusInternalServerError (Some err)
        | inl a => Json StatusOK (f a)
        end).

(** [if err := stx.BindToDTO(...); err != nil { ... }] *)
Definition with_dto F {D} `{!Form Q F, !ToDTO F D} q (k : D → IO App HttpResponse) : IO App HttpResponse :=
  match BindToDTO F q with
  | inr err => mret (JsonError StatusBadRequest (Some err))
  | inl formDTO => k formDTO
  end.

Definition ok {A} (_ : A) : ApiData := AString "ok".

Definition http_GetUsername q : IO App HttpResponse := u ← gets userName; mret (Json StatusOK (AString u)).
Definition http_GetPubKey q : IO App HttpResponse := k ← gets pubKey; mret (Json StatusOK (APubKey k)).

Definition http_SendMessage q : IO App HttpResponse :=
  with_dto MessageForm q (fun formDTO => answer_with ok (SendMessage formDTO)).

Definition http_GetOperations q : IO App HttpResponse :=
  ops ← gets opService; answer_with AOperations (call (op_GetOperations ops)).

Definition http_ProcessOperation q : IO App HttpResponse :=
  with_dto OperationForm q (fun formDTO => answer_with ok (ProcessOperation formDTO)).

Definition http_GetOperation q : IO App HttpResponse :=
  with_dto OperationIdForm q (fun formDTO =>
    ops ← gets opService;
    answer_with AOperation (wrap "failed to get operations"
      (call (op_GetOperationByID ops (oid_OperationID formDTO))))).

Definition http_ApproveParticipation q : IO App HttpResponse :=
  with_dto OperationIdForm q (fun formDTO => answer_with ok (ApproveParticipation (oid_OperationID formDTO))).

Definition http_GetSignatures q : IO App HttpResponse :=
  with_dto DkgIdForm q (fun formDTO =>
    answer_with ASignatures (wrap "failed to get signatures" (call (sig_GetSignatures (did_DkgID formDTO))))).

Definition http_GetBatches q : IO App HttpResponse :=
  with_dto DkgIdForm q (fun formDTO =>
    answer_with ABatches (wrap "failed to get batches" (call (sig_GetBatches (did_DkgID formDTO))))).

Definition http_GetSignatureByID q : IO App HttpResponse :=
  with_dto SignatureByIDForm q (fun formDTO =>
    answer_with ASignatureList (wrap "failed to get signatures"
      (call (sig_GetSignatureByID (sid_DkgID formDTO) (sid_ID formDTO))))).

Definition http_ProposeSignMessage q : IO App HttpResponse :=
  with_dto ProposeSignMessageForm q (fun formDTO =>
    id ← call uuid_New;
    answer_with ok (ProposeSignMessages
      (mk_ProposeSignBatchMessagesDTO (psd_DkgID formDTO) (Some {[id := psd_Data formDTO]}) None))).

Definition http_ProposeSignBatchMessages q : IO App HttpResponse :=
  with_dto ProposeSignBatchMessagesForm q (fun formDTO => answer_with ok (ProposeSignMessages formDTO)).

Definition http_ProposeSignBakedMessages q : IO App HttpResponse :=
  with_dto ProposeSignBakedMessagesForm q (fun formDTO =>
    answer_with ok (ProposeSignMessages
      (mk_ProposeSignBatchMessagesDTO (pbd_DkgID formDTO) None
         (Some (mk_Range (pbd_RangeStart formDTO) (pbd_RangeEnd formDTO)))))).

Definition http_SaveStateOffset q : IO App HttpResponse :=
  with_dto StateOffsetForm q (fun formDTO => answer_with ok (SaveOffset (sod_Offset formDTO))).

Definition http_GetStateOffset q : IO App HttpResponse :=
  answer_with AOffset (wrap "failed to load offset" GetStateOffset).

Definition http_ResetState q : IO App HttpResponse :=
  with_dto ResetStateForm q (fun formDTO =>
    fsm ← gets fsmService;
    now ← call time_Now;
    answer_with AString (call (ResetFSMState (Unix now) formDTO))).

Definition http_GetFSMDump q : IO App HttpResponse :=
  with_dto DkgIdForm q (fun formDTO =>
    fsm ← gets fsmService;
    answer_with ADump (call (GetFSMDump fsm (did_DkgID formDTO)))).

Definition http_GetFSMList q : IO App HttpResponse :=
  fsm ← gets fsmService; answer_with AStates (call (GetFSMList fsm)).

(** The form of [StartDKG] is the raw body. *)
Definition http_StartDKG q : IO App HttpResponse :=
  match ReadBody q with
  | inr err => mret (JsonError StatusBadRequest (Some (Wrap "failed to read request body" err)))
  | inl Payload =>
      let request := mk_StartDKGForm Payload in
      match Validate (Q := Q) request with
      | Some err => mret (JsonError StatusBadRequest (Some (Wrap "invalid request" err)))
      | None =>
          match (RequestToDTO request : StartDkgDTO + error) with
          | inr err => mret (JsonError StatusBadRequest (Some err))
          | inl formDTO => answer_with ok (StartDKG (sd_Payload formDTO))
          end
      end
  end.

(** The payload is the form encoded again. *)
Definition http_ReInitDKG q : IO App HttpResponse :=
  match BindToRequest (F := ReInitDKGForm) q with
  | inr err => mret (JsonError StatusBadRequest (Some err))
  | inl request =>
      match marshal request with
      | None => mret (JsonError StatusBadRequest (Some (Wrap "failed to marshal request body" (Err "json"))))
      | Some Payload => answer_with ok (ReInitDKG (mk_ReInitDKGDTO (rf_ID request) Payload))
      end
  end.

(** ** [router] *)

Definition GET : string := "GET".
Definition POST : string := "POST".

Definition routes : list (string * string * (Q → IO App HttpResponse)) :=
  [(GET, "/getUsername", http_GetUsername);
   (GET, "/getPubKey", http_GetPubKey);
   (POST, "/sendMessage", http_SendMessage);
   (GET, "/getOperations", http_GetOperations);
   (GET, "/getSignatures", http_GetSignatures);
   (GET, "/getBatches", http_GetBatches);
   (GET, "/getSignatureByID", http_GetSignatureByID);
   (POST, "/handleProcessedOperationJSON", http_ProcessOperation);
   (GET, "/getOperation", http_GetOperation);
   (POST, "/startDKG", http_StartDKG);
   (POST, "/proposeSignMessage", http_ProposeSignMessage);
   (POST, "/proposeSignBatchMessages", http_ProposeSignBatchMessages);
   (POST, "/proposeSignBakedMessages", http_ProposeSignBakedMessages);
   (POST, "/approveDKGParticipation", http_ApproveParticipation);
   (POST, "/reinitDKG", http_ReInitDKG);
   (POST, "/saveOffset", http_SaveStateOffset);
   (GET, "/getOffset", http_GetStateOffset);
   (GET, "/getFSMDump", http_GetFSMDump);
   (GET, "/getFSMList", http_GetFSMList);
   (POST, "/resetState", http_ResetState)].

(** The handler the framework finds for a method and a path; where there is none
    it reports an error of its own, which the custom handler answers, as it does
    an error that a handler leaves. *)
Definition find_route (m path : string) : option (Q → IO App HttpResponse) :=
  match list_find (fun r => r.1 = (m, path)) routes with
  | Some (_, r) => Some r.2
  | None => None
  end.

Definition serve (m path : string) q : IO App HttpResponse :=
  match find_route m path with
  | Some handler => catch (handler q) (fun _ => mret (customHTTPErrorHandler m OtherError))
  | None => mret (customHTTPErrorHandler m (HTTPError (no_route m path)))
  end.
End handlers.

(** The handlers as their bodies, the two that do not bind to a DTO apart. *)
Create HintDb http.
#[export] Hint Unfold http_GetUsername http_GetPubKey http_SendMessage http_GetOperations http_ProcessOperation
  http_GetOperation http_ApproveParticipation http_GetSignatures http_GetBatches http_GetSignatureByID
  http_ProposeSignMessage http_ProposeSignBatchMessages http_ProposeSignBakedMessages http_SaveStateOffset
  http_GetStateOffset http_ResetState http_GetFSMDump http_GetFSMList : http.
