(* ===== verification/HttpSpec.v ===== *)
(** * What a request can do to the node

    Every request is answered; a request that only reads, and one that is
    refused, leaves the node as it was; and the rounds of a node that is driven
    by its operator and by the board at the same time stay rounds of the
    protocol. *)

From S2P Require Import Prelude GoFsm Requests Payload.
From S2P Require Import SignatureProposal DkgProposal SigningProposal StateMachines Protocol.
From S2P Require Import LevelState ClientTypes OperationRepo SignatureRepo FsmService JsonText Representable.
From S2P Require Import IOLogic Kyber Dkg SigningTasks KeyStore Services NodeService NodeSpec ProcessMessage.
From S2P Require Import NodeRounds HttpApi.

#[local] Opaque SignatureProposal.New DkgProposal.New SigningProposal.New.

Section spec.
Context {S : Type} {st : NodeState S} {lerr : LevelDBErr} {spec : NodeStateSpec S}
  {stg : Storage S} {keys : KeyStore S} {env : Env S} {world : WorldSpec S}.
Context {crypto : Crypto} {scrypto : SigningCrypto} {kyber : Kyber} {wc : WcRotation}.
Context {ord : MapOrder} {json_tasks : JSON (list SigningTask)} {json_dump : JSON FSMDump}
  {json_spec : JSONSpec FSMDump} {json_dumps : JSON Dumps} {jmap : JSONMap bytes}
  {json_ops : JSON Operations} {json_sigs : JSON SignaturesStorage}
  {json_recs : JSON (list ReconstructedSignature)} {json_oplist : JSON (list Operation)}
  {json_redkg : JSON ReDKG} {json_keyring : JSON blsKeyringJSON}
  {jreq : RequestsJSON} {jresp : ResponsesJSON} {json_reinit : JSON ReInitDKGForm}.
Context {Q : Type} {forms : HttpForms Q} {dtos : FormDTOs} {router : EchoRouter}.
Implicit Types (q : Q) (n : BaseNodeService S).

(** ** The shape of a handler *)

(** Handlers answer: an error of a service becomes a response. *)
Definition answer_ok (r : HttpResponse) : Prop :=
  match body r with
  | CSJsonResp _ => code r = StatusOK
  | CSErrorResp _ => code r = StatusBadRequest ∨ code r = StatusInternalServerError
  | NoContent => code r = StatusInternalServerError
  end.

(** A handler keeps [I], answers a bad request only when it has done nothing,
    and may leave the error of what precedes its answer. *)
Definition handles (I : BaseNodeService S → Prop) (m : IO (BaseNodeService S) HttpResponse) : Prop :=
  ∀ n, match m n with
       | Ret (n', inl r) => answer_ok r ∧ (I n → I n') ∧ (code r = StatusBadRequest → n' = n)
       | Ret (n', inr _) => I n → I n'
       | Panic _ => True
       end.

Lemma handles_json I a : handles I (mret (Json StatusOK a)).
Proof. intros n. cbn. by split_and!. Qed.
Lemma handles_bad I err : handles I (mret (JsonError StatusBadRequest err)).
Proof. intros n. cbn. by split_and!; [left|..]. Qed.

Lemma handles_with {A} I (f : A → ApiData) m : keeps I m → handles I (answer_with f m).
Proof.
  intros Hm n. unfold answer_with, try, mbind, IO_bind. specialize (Hm n).
  destruct (m n) as [[n' [a|e]]|]; [| |done]; cbn; (split_and!; [first [done|by right]|exact Hm|done]).
Qed.

Lemma handles_dto F {D} `{!Form Q F, !ToDTO F D} I q (k : D → IO (BaseNodeService S) HttpResponse) :
  (∀ d, BindToDTO F q = inl d → handles I (k d)) → handles I (with_dto F q k).
Proof. intros Hk. unfold with_dto. destruct (BindToDTO F q) as [d|err]; [by apply Hk|apply handles_bad]. Qed.

Lemma handles_gets {A} I (f : BaseNodeService S → A) k : (∀ a, handles I (k a)) → handles I (gets f ≫= k).
Proof. intros Hk n. exact (Hk (f n) n). Qed.

(** What precedes an answer that is not a refusal. *)
Lemma handles_after {A B} I (m : IO (BaseNodeService S) A) (f : B → ApiData) (k : A → IO (BaseNodeService S) B) :
  keeps I m → (∀ a, keeps I (k a)) → handles I (a ← m; answer_with f (k a)).
Proof.
  intros Hm Hk n. unfold answer_with, try, mbind, IO_bind. specialize (Hm n).
  destruct (m n) as [[n' [a|e]]|]; [|done..]. specialize (Hk a n'). cbn.
  destruct (k a n') as [[n2 [b|e]]|]; [| |done]; cbn; (split_and!; [first [done|by right]|auto|done]).
Qed.

Lemma handles_StartDKG I q : (∀ d, keeps I (StartDKG (S := S) d)) → handles I (http_StartDKG q).
Proof.
  intros Hk. unfold http_StartDKG. destruct (ReadBody q) as [b|]; [|apply handles_bad].
  destruct (Validate (Q := Q) _); [apply handles_bad|].
  destruct (RequestToDTO _ : StartDkgDTO + error); [by apply handles_with|apply handles_bad].
Qed.
Lemma handles_ReInitDKG I q : (∀ d, keeps I (ReInitDKG (S := S) d)) → handles I (http_ReInitDKG q).
Proof.
  intros Hk. unfold http_ReInitDKG. destruct (BindToRequest q) as [r|]; [|apply handles_bad].
  destruct (marshal r); [by apply handles_with|apply handles_bad].
Qed.

(** ** Routes *)

Lemma find_route_elem m path h : find_route m path = Some h → (m, path, h) ∈ routes (S := S) (Q := Q).
Proof.
  unfold find_route. destruct (list_find _ routes) as [[i r]|] eqn:Hf; [|done]. intros [= <-].
  apply list_find_Some in Hf as (Hi & Hr & _). apply list_elem_of_lookup. exists i.
  rewrite Hi. destruct r as [[m' path'] h]. cbn in *. by simplify_eq.
Qed.

Lemma handled_error m err :
  let r := customHTTPErrorHandler m err in answer_ok r ∧ code r ≠ StatusBadRequest.
Proof. unfold customHTTPErrorHandler. destruct (m =s? "HEAD"); split; cbn; first [done|by right]. Qed.

(** The custom handler answers what a handler or the router leaves. *)
Lemma serve_handles I m path q :
  (∀ handler, find_route m path = Some handler → handles I (handler q)) →
  ∀ n, match serve m path q n with
       | Ret (n', inl r) => answer_ok r ∧ (I n → I n') ∧ (code r = StatusBadRequest → n' = n)
       | Ret (_, inr _) => False
       | Panic _ => True
       end.
Proof.
  intros Hh n. unfold serve. destruct (find_route m path) as [h|]; [|by split; [apply handled_error|]].
  specialize (Hh h eq_refl n). unfold catch. destruct (h q n) as [[n' [r|e]]|]; [exact Hh| |done].
  destruct (handled_error m OtherError). by split_and!.
Qed.

(** One goal for each route. *)
Ltac route_cases H :=
  apply find_route_elem in H; unfold routes in H;
  repeat (apply elem_of_cons in H as [H|H]; [injection H as -> -> ->|]);
  [..|by apply not_elem_of_nil in H].

(** Down to the calls of the services. *)
Ltac handler_tac :=
  repeat lazymatch goal with
    | |- handles _ (http_StartDKG _) => apply handles_StartDKG; intros
    | |- handles _ (http_ReInitDKG _) => apply handles_ReInitDKG; intros
    | |- handles _ (answer_with _ _) => apply handles_with
    | |- handles _ (mret (Json _ _)) => apply handles_json
    | |- handles _ (with_dto _ _ _) => apply handles_dto; intros
    | |- handles _ (gets _ ≫= _) => apply handles_gets; intros
    | |- handles _ (_ ≫= _) => apply handles_after; intros
    end.

Lemma keeps_True {T A} (m : IO T A) : keeps (fun _ => True) m.
Proof. intros s _. by destruct (m s) as [[s' [a|e]]|]. Qed.

Lemma every_handler m path h q : find_route m path = Some h → handles (fun _ => True) (h q).
Proof. intros H. route_cases H; autounfold with http; handler_tac; apply keeps_True. Qed.

(** ** Reading *)

Section reading.
Context (n0 : BaseNodeService S) (Hready : ready (deps n0)).

(** The call leaves the world as it is. *)
Abbreviation reads := (keeps (fun s => s = deps n0)) (only parsing).

Lemma Get_reads k : reads (state_Get k).
Proof. intros s ->. by rewrite state_Get_ready. Qed.
Lemma GetOrError_reads k : reads (state_GetOrError k).
Proof. intros s ->. rewrite state_GetOrError_ready by done. by destruct (_ !! _). Qed.
Lemma GetStateOffset_reads : reads state_LoadOffset.
Proof.
  intros s ->. pose proof (LoadOffset_reads (deps n0) Hready) as H.
  by destruct (state_LoadOffset (deps n0)) as [[s' [a|e]]|].
Qed.
#[local] Hint Resolve Get_reads GetOrError_reads GetStateOffset_reads : keeps.

Lemma call_reads {A} (m : IO S A) : reads m → keeps (fun n => n = n0) (call m).
Proof. apply keeps_zoom; [by intros ? ->|]. intros t s -> ->. by destruct n0. Qed.

Lemma getAllFSMData_reads fsm : reads (getAllFSMData fsm).
Proof. unfold getAllFSMData. keeps_tac. Qed.
#[local] Hint Resolve getAllFSMData_reads : keeps.
Lemma GetFSMInstance_reads fsm id : reads (GetFSMInstance fsm id false).
Proof. unfold GetFSMInstance, loadFSM. cbn [negb]. keeps_tac. Qed.
Lemma GetAllFSM_reads fsm : reads (GetAllFSM fsm).
Proof. unfold GetAllFSM. keeps_tac. Qed.
Lemma GetOperations_reads ops : reads (GetOperations ops).
Proof. unfold GetOperations, getDeletedOperations. keeps_tac. Qed.
#[local] Hint Resolve GetFSMInstance_reads GetAllFSM_reads GetOperations_reads : keeps.
Lemma GetSignatures_reads id : reads (GetSignatures id).
Proof. unfold GetSignatures. keeps_tac. Qed.
#[local] Hint Resolve GetSignatures_reads : keeps.

Lemma get_handler m path h q : m = GET → find_route m path = Some h → handles (fun n => n = n0) (h q).
Proof.
  intros Hm H. route_cases H; try discriminate Hm; autounfold with http; handler_tac;
    unfold GetStateOffset, GetFSMDump, GetFSMList, op_GetOperations, op_GetOperationByID, GetOperationByID,
      sig_GetSignatures, sig_GetBatches, GetBatches, sig_GetSignatureByID, GetSignatureByID;
    repeat apply keeps_wrap; apply call_reads; keeps_tac.
Qed.
End reading.


(** ** Driving *)

Section driving.
Context (fsm : FSMService) (ops : BaseOperationRepo) (k0 : string).
Context (Hjson : dumps_faithful) (Hclock : clock_dated) (Hapart : keys_apart fsm ops k0).
Abbreviation node_rounds := (node_rounds fsm ops k0) (only parsing).
#[local] Hint Resolve signMessage_keeps buildMessage_keeps : keeps.

Lemma rand_store J k : keeps (on_store k0 J) (rand_Int k).
Proof.
  intros s Hs. destruct (rand_ready k s (proj1 Hs)) as (s' & r & -> & Hr' & Hst & Hrest).
  assert (on_store k0 J s') by (by apply (on_store_same k0 J s); [..|rewrite Hrest]). by destruct r.
Qed.
#[local] Hint Resolve rand_store : keeps.

Ltac node_keeps :=
  repeat first
    [ solve [eauto with keeps]
    | apply call_keeps; solve [keeps_tac]
    | keeps_step ].

Lemma SendMessage_rounds d : keeps node_rounds (SendMessage d).
Proof. unfold SendMessage. node_keeps. Qed.
Lemma StartDKG_rounds d : keeps node_rounds (StartDKG d).
Proof. unfold StartDKG. node_keeps. Qed.
Lemma ReInitDKG_rounds d : keeps node_rounds (ReInitDKG d).
Proof. unfold ReInitDKG. node_keeps. Qed.

(** Reading keeps whatever is said of the store. *)
Lemma getAllFSMData_store J fsm' : keeps (on_store k0 J) (getAllFSMData fsm').
Proof. unfold getAllFSMData. keeps_tac. Qed.
#[local] Hint Resolve getAllFSMData_store : keeps.
Lemma GetFSMInstance_store J fsm' id : keeps (on_store k0 J) (GetFSMInstance fsm' id false).
Proof. unfold GetFSMInstance, loadFSM. cbn [negb]. keeps_tac. Qed.
Lemma GetAllFSM_store J fsm' : keeps (on_store k0 J) (GetAllFSM fsm').
Proof. unfold GetAllFSM. keeps_tac. Qed.
Lemma getDeleted_store J ops' : keeps (on_store k0 J) (getDeletedOperations ops').
Proof. unfold getDeletedOperations. keeps_tac. Qed.
#[local] Hint Resolve getDeleted_store : keeps.
Lemma GetOperations_store J ops' : keeps (on_store k0 J) (GetOperations ops').
Proof. unfold GetOperations. keeps_tac. Qed.
#[local] Hint Resolve GetFSMInstance_store GetAllFSM_store GetOperations_store : keeps.
Lemma GetSignatures_store J id : keeps (on_store k0 J) (GetSignatures id).
Proof. unfold GetSignatures. keeps_tac. Qed.
#[local] Hint Resolve GetSignatures_store : keeps.

Lemma ProposeSignMessages_rounds d : keeps node_rounds (ProposeSignMessages d).
Proof.
  unfold ProposeSignMessages, extractTasksFromDTO, task_of_file, createSignID, random_letter. node_keeps.
Qed.

Lemma DeleteOperation_rounds o : keeps (on_store k0 (rounds_in fsm)) (op_DeleteOperation ops o).
Proof.
  unfold op_DeleteOperation, DeleteOperation. keeps_tac; apply Set_store; intros m; apply rounds_in_insert, Hapart.
Qed.
#[local] Hint Resolve DeleteOperation_rounds : keeps.

Lemma with_ops {A} (k : BaseOperationRepo → IO (BaseNodeService S) A) :
  keeps node_rounds (k ops) → keeps node_rounds (gets opService ≫= k).
Proof. intros Hk n Hn. unfold mbind, IO_bind, gets. rewrite (proj1 (proj2 Hn)). by apply Hk. Qed.

Lemma executeOperation_rounds o :
  op_Event o ≠ OperationProcessed → keeps node_rounds (executeOperation o).
Proof.
  intros Ho. unfold executeOperation. rewrite (proj2 (seqb_false _ _) Ho). cbn [negb].
  destruct (IsEmpty _); [apply keeps_throw|]. apply with_ops.
  unfold op_GetOperationByID, GetOperationByID, send_results, sign_result. node_keeps.
Qed.

Lemma confirm_rounds msgs o :
  keeps node_rounds (executeOperation (with_result EventConfirmSignatureProposal msgs o)).
Proof. by apply executeOperation_rounds. Qed.
#[local] Hint Resolve confirm_rounds : keeps.

Lemma ApproveParticipation_rounds id : keeps node_rounds (ApproveParticipation id).
Proof.
  unfold ApproveParticipation, getOperation, op_GetOperations. node_keeps.
Qed.

Lemma SaveOffset_rounds o : keeps node_rounds (SaveOffset o).
Proof.
  apply keeps_wrap, call_keeps, SaveOffset_store; [exact Hapart|]. intros store v. apply rounds_in_insert, Hapart.
Qed.

(** Nothing is known of the database of a reset, and the result of a
    reinitialisation replaces a commitment in a dump. *)
Definition ordinary (path : string) q : Prop :=
  path ≠ "/resetState" ∧
  (path = "/handleProcessedOperationJSON" →
    ∀ d, BindToDTO OperationForm q = inl d → od_Event d ≠ OperationProcessed).

Lemma ordinary_handler m path h q :
  ordinary path q → find_route m path = Some h → handles node_rounds (h q).
Proof.
  intros [Hp Ho] H. route_cases H; try done; autounfold with http; handler_tac;
    unfold GetStateOffset, GetFSMDump, GetFSMList, op_GetOperations, op_GetOperationByID, GetOperationByID,
      sig_GetSignatures, sig_GetBatches, GetBatches, sig_GetSignatureByID, GetSignatureByID;
    first
      [ apply SendMessage_rounds | apply StartDKG_rounds | apply ReInitDKG_rounds | apply SaveOffset_rounds
      | apply ProposeSignMessages_rounds | apply ApproveParticipation_rounds
      | apply executeOperation_rounds; by apply Ho
      | node_keeps ].
Qed.

(** What happens to a node: a message of the board, or a request. *)
Inductive Happening : Type := Board (message : Message) | Request (m path : string) (q : Q).
Definition happen (h : Happening) : IO (BaseNodeService S) unit :=
  match h with
  | Board message => poll_message message
  | Request m path q => _ ← serve m path q; mret tt
  end.
Definition expected (h : Happening) : Prop :=
  match h with
  | Board message => msg_Event message ≠ ReinitDKG ∧ representable_message message
  | Request m path q => ordinary path q
  end.

Lemma happen_rounds h : expected h → keeps node_rounds (happen h).
Proof.
  destruct h as [m|m path q]; cbn [expected happen]; [intros []; by apply poll_message_keeps|].
  intros Hq. apply keeps_bind; [|intros; apply keeps_ret]. intros n Hn.
  pose proof (serve_handles node_rounds m path q (fun h => ordinary_handler m path h q Hq) n) as H.
  destruct (serve m path q n) as [[n' [r|e]]|]; [by apply H|done..].
Qed.

Lemma happenings_keep_rounds n l n' r :
  node_rounds n → Forall expected l → iterIO happen l n = Ret (n', r) → node_rounds n'.
Proof.
  intros Hn Hl Hrun. refine (keeps_run _ _ _ _ _ _ Hn Hrun). clear Hrun. unfold iterIO.
  induction Hl as [|h l Hh _ IH]; cbn [foldIO]; [apply keeps_ret|].
  apply keeps_bind; [by apply happen_rounds|]. by intros [].
Qed.

Lemma GetFSMDump_post id :
  post node_rounds (call (GetFSMDump fsm id)) (fun o n => (∃ i, reachable i ∧ o = dump i) ∧ node_rounds n) node_rounds.
Proof.
  apply call_post; [exact Hapart|]. unfold GetFSMDump.
  eapply post_bind; [apply post_wrap, GetFSMInstance_post; [exact Hjson|done]|].
  intros o. apply post_pure. intros (i & -> & [Hi _]). eapply post_bind with (R := fun j s => j = i ∧ _ s).
  { apply post_lift. intros j [= ->] s Hs'. split; [done|exact Hs']. }
  intros j. apply post_pure. intros ->. apply post_ret. eauto.
Qed.

(** The API shows dumps of reachable instances. *)
Lemma shown_dump n q n2 resp :
  node_rounds n → serve GET "/getFSMDump" q n = Ret (n2, inl resp) → code resp = StatusOK →
  ∃ i, reachable i ∧ body resp = CSJsonResp (ADump (dump i)).
Proof.
  intros Hn Hs Hok. assert (find_route GET "/getFSMDump" = Some http_GetFSMDump) as Hroute by reflexivity.
  unfold serve in Hs. rewrite Hroute in Hs.
  assert (post node_rounds (http_GetFSMDump q)
    (fun r _ => code r = StatusOK → ∃ i, reachable i ∧ body r = CSJsonResp (ADump (dump i))) (fun _ => False)) as Hpost.
  { unfold http_GetFSMDump, with_dto. destruct (BindToDTO _ q) as [d|err]; [|by apply post_ret].
    eapply post_bind with (R := fun f n => f = fsm ∧ node_rounds n).
    { apply post_gets. intros n1 Hn1. split; [apply Hn1|done]. }
    intros f. apply post_pure. intros ->. unfold answer_with.
    eapply post_bind with (R := fun r _ => match r with inl o => ∃ i, reachable i ∧ o = dump i | inr _ => True end).
    - apply post_try. eapply post_conseq; [apply GetFSMDump_post|done|by intros ? ? []|done].
    - intros [o|e]; apply post_ret; [|done]. intros _ (i & Hi & ->) _. by exists i. }
  specialize (Hpost n Hn). unfold catch in Hs.
  destruct (http_GetFSMDump q n) as [[n3 [r3|e]]|]; [|done..]. simplify_eq. by apply Hpost.
Qed.

(** C3. However the messages of the board and the requests of the operator
    interleave, as long as no message is a reinitialisation, no request resets
    the state or brings the result of one, the messages' rounds and requests are
    ones that JSON takes (valid UTF-8; times between year 1 and the last day of
    year 9999, a week earlier where a deadline is computed), and the clock is
    not in the last week of year 9999: the rounds of the node stay dumps of
    reachable instances, and the dump that the API shows for a round is
    the dump of a reachable instance, of which every safety property and
    invariant of reachable instances holds. *)
Theorem driven_rounds_are_reachable n l n' r :
  node_rounds n → Forall expected l → iterIO happen l n = Ret (n', r) →
  node_rounds n' ∧
  ∀ q n2 resp, serve GET "/getFSMDump" q n' = Ret (n2, inl resp) → code resp = StatusOK →
    ∃ i, reachable i ∧ body resp = CSJsonResp (ADump (dump i)).
Proof.
  intros Hn Hl Hrun. pose proof (happenings_keep_rounds n l n' r Hn Hl Hrun) as Hn'.
  split; [done|]. intros q n2 resp. by apply shown_dump.
Qed.
End driving.
End spec.
