(* ===== verification/GoText.v ===== *)
(** * Text: the functions of [strings], [strconv], [encoding/hex] and
    [encoding/base64] that the command-line tools use

    Beside [Prelude], [ClientTypes] (the encoders) and [SigningTasks] (splitting
    and parsing), with the round trips between printing and parsing. *)

From stdpp Require Import pretty finite.
From S2P Require Import Prelude LevelState ClientTypes SigningTasks.

(** ** [strings] *)

Definition Contains (s substr : string) : bool := bool_decide (is_Some (String.index 0 substr s)).

Fixpoint Join (l : list string) (sep : string) : string :=
  match l with
  | [] => ""
  | [x] => x
  | x :: l => x +:+ sep +:+ Join l sep
  end.

Fixpoint trim_left (cutset : ascii → bool) (s : string) : string :=
  match s with
  | EmptyString => EmptyString
  | String c s' => if cutset c then trim_left cutset s' else s
  end.
(** [strings.Trim] with a set of single-byte characters *)
Definition Trim (cutset : ascii → bool) (s : string) : string :=
  srev (trim_left cutset (srev (trim_left cutset s))).

Definition is_newline (c : ascii) : bool := Ascii.eqb c newline.
Definition is_space_newline (c : ascii) : bool := Ascii.eqb c newline || Ascii.eqb c " ".

Fixpoint sforall (f : ascii → bool) (s : string) : bool :=
  match s with EmptyString => true | String c s => f c && sforall f s end.
Fixpoint sfilter (f : ascii → bool) (s : string) : string :=
  match s with
  | EmptyString => EmptyString
  | String c s => if f c then String c (sfilter f s) else sfilter f s
  end.

(** ** [strconv] *)

Definition Itoa (n : Z) : string := pretty n.

Definition MaxInt64 : Z := 2 ^ 63 - 1.

(** [strconv.Atoi]: the value and whether there was an error; a number out of
    range is reported with the nearest integer, other text with zero. *)
Definition is_digit (c : ascii) : bool := bool_decide (is_Some (digit_value c)).
Definition Atoi (s : string) : Z * bool :=
  match s with
  | String "-" s' =>
      match parse_digits 0 s' with
      | Some v => if s' =s? "" then (0, true) else if v <=? 2 ^ 63 then (- v, false) else (- 2 ^ 63, true)
      | None => (0, true)
      end
  | _ =>
      let s' := match s with String "+" s' => s' | _ => s end in
      match parse_digits 0 s' with
      | Some v => if s' =s? "" then (0, true) else if v <=? MaxInt64 then (v, false) else (MaxInt64, true)
      | None => (0, true)
      end
  end.

(** ** [encoding/hex] and [encoding/base64] *)

Definition hex_value (c : ascii) : option Z :=
  let n := byte_of c in
  if (48 <=? n) && (n <=? 57) then Some (n - 48)
  else if (97 <=? n) && (n <=? 102) then Some (n - 87)
  else if (65 <=? n) && (n <=? 70) then Some (n - 55)
  else None.

Definition chr (n : Z) : ascii := ascii_of_N (Z.to_N n).

Fixpoint hex_DecodeString (s : string) : option bytes :=
  match s with
  | EmptyString => Some ""
  | String a (String b s) =>
      h ← hex_value a; l ← hex_value b; r ← hex_DecodeString s; Some (String (chr (h * 16 + l)) r)
  | String _ EmptyString => None
  end.

Definition b64_value (c : ascii) : option Z :=
  let n := byte_of c in
  if (65 <=? n) && (n <=? 90) then Some (n - 65)
  else if (97 <=? n) && (n <=? 122) then Some (n - 71)
  else if (48 <=? n) && (n <=? 57) then Some (n + 4)
  else if n =? 43 then Some 62
  else if n =? 47 then Some 63
  else None.

(** Groups of four characters; the last one may be padded. *)
Fixpoint b64_groups (s : string) : option bytes :=
  match s with
  | EmptyString => Some ""
  | String a (String b (String c (String d s))) =>
      a ← b64_value a; b ← b64_value b;
      if Ascii.eqb c "=" then
        if Ascii.eqb d "=" && (s =s? "") then Some (String (chr ((a * 64 + b) / 16)) "") else None
      else
        c ← b64_value c;
        if Ascii.eqb d "=" then
          let v := (a * 64 + b) * 64 + c in
          if s =s? "" then Some (String (chr (v / 1024)) (String (chr (v / 4 mod 256)) "")) else None
        else
          d ← b64_value d;
          r ← b64_groups s;
          let v := ((a * 64 + b) * 64 + c) * 64 + d in
          Some (String (chr (v / 65536)) (String (chr (v / 256 mod 256)) (String (chr (v mod 256)) r)))
  | _ => None
  end.

(** Line breaks are skipped. *)
Definition b64_skip (c : ascii) : bool := Ascii.eqb c newline || Ascii.eqb c "013".
Definition base64_DecodeString (s : string) : option bytes := b64_groups (sfilter (fun c => negb (b64_skip c)) s).

(** ** Printing and parsing *)

Lemma digit_value_pretty n : (n < 10)%N → digit_value (pretty_N_char n) = Some (Z.of_N n).
Proof.
  intros Hn. assert (n = 0 ∨ n = 1 ∨ n = 2 ∨ n = 3 ∨ n = 4 ∨ n = 5 ∨ n = 6 ∨ n = 7 ∨ n = 8 ∨ n = 9)%N as Hcase by lia.
  by repeat destruct Hcase as [->|Hcase]; [..|subst].
Qed.

Lemma parse_digits_char n t :
  parse_digits 0 (String (pretty_N_char (n `mod` 10)) t) = parse_digits (Z.of_N (n `mod` 10)) t.
Proof. cbn [parse_digits]. rewrite digit_value_pretty by (apply N.mod_lt; lia). done. Qed.

Lemma parse_digits_go n s : (0 < n)%N → parse_digits 0 (pretty_N_go n s) = parse_digits (Z.of_N n) s.
Proof.
  revert s. induction (N.lt_wf_0 n) as [n _ IH]. intros s Hn. rewrite pretty_N_go_step by done.
  pose proof (N.div_mod n 10 ltac:(lia)) as Hdm. pose proof (N.mod_lt n 10 ltac:(lia)) as Hm.
  destruct (decide (n `div` 10 = 0)%N) as [Hz|Hz].
  - rewrite Hz, pretty_N_go_0, parse_digits_char. f_equal. lia.
  - rewrite IH by (try apply N.div_lt; lia). cbn [parse_digits].
    rewrite digit_value_pretty by done. cbn. f_equal. lia.
Qed.

Lemma parse_digits_Itoa n : 0 ≤ n → parse_digits 0 (Itoa n) = Some n.
Proof.
  intros Hn. unfold Itoa. destruct n as [|p|p]; [reflexivity| |lia].
  assert (pretty (Z.pos p) = pretty_N_go (N.pos p) "") as -> by reflexivity.
  by rewrite parse_digits_go by lia.
Qed.

Lemma Itoa_nonempty n : Itoa n ≠ "".
Proof.
  unfold Itoa. destruct n as [|p|p]; [done| |done]. intros H.
  pose proof (parse_digits_Itoa (Z.pos p) ltac:(lia)) as Hp. unfold Itoa in Hp.
  rewrite H in Hp. discriminate Hp.
Qed.

(** A 64-bit word is read as it was printed. *)
Lemma ParseUint_Itoa n : 0 ≤ n < 2 ^ 64 → ParseUint (Itoa n) = Some n.
Proof.
  intros [H0 H1]. unfold ParseUint. rewrite (proj2 (seqb_false _ _) (Itoa_nonempty n)).
  rewrite parse_digits_Itoa by done. cbn. by rewrite (proj2 (Z.ltb_lt _ _) H1).
Qed.

(** ** Encoding and decoding *)

Lemma byte_chr c : chr (byte_of c) = c.
Proof. unfold chr, byte_of. by rewrite N2Z.id, ascii_N_embedding. Qed.

(** A test of every digit below a bound. *)
Lemma digits_below (n v : Z) (f : Z → bool) : forallb f (seqZ 0 n) = true → 0 ≤ v < n → f v = true.
Proof. intros H Hv. apply forallb_forall with (x := v) in H; [done|]. apply list_elem_of_In, elem_of_seqZ. lia. Qed.

Lemma hex_value_digit v : 0 ≤ v < 16 → hex_value (char_at hex_alphabet v) = Some v.
Proof.
  intros Hv. apply (bool_decide_eq_true (hex_value (char_at hex_alphabet v) = Some v)).
  by apply (digits_below 16 v (fun v => bool_decide (hex_value (char_at hex_alphabet v) = Some v))).
Qed.

Lemma b64_value_digit v : b64_value (b64_char v) = Some (v mod 64).
Proof.
  unfold b64_char. pose proof (Z.mod_pos_bound v 64 ltac:(lia)) as Hv. set (w := v mod 64) in *. clearbody w.
  apply (bool_decide_eq_true (b64_value (char_at b64_alphabet w) = Some w)).
  by apply (digits_below 64 w (fun w => bool_decide (b64_value (char_at b64_alphabet w) = Some w))).
Qed.

Lemma hex_roundtrip b : hex_DecodeString (hex_EncodeToString b) = Some b.
Proof.
  induction b as [|c b IH]; [done|]. pose proof (byte_of_bound c) as Hc.
  cbn [hex_EncodeToString hex_DecodeString]. rewrite !hex_value_digit.
  - cbn. rewrite IH. cbn. rewrite <-(byte_chr c) at 3. do 3 f_equal. rewrite (Z.div_mod (byte_of c) 16) at 3 by lia. lia.
  - split; [apply Z.div_pos; lia|]. apply Z.div_lt_upper_bound; lia.
  - apply Z.mod_pos_bound. lia.
Qed.

Lemma b64_char_not_pad v : Ascii.eqb (b64_char v) "=" = false.
Proof. apply Ascii.eqb_neq, b64_char_plain. Qed.

Lemma chr_byte v c : v = byte_of c → chr v = c.
Proof. intros ->. apply byte_chr. Qed.

Lemma b64_groups_roundtrip b : b64_groups (base64_EncodeToString b) = Some b.
Proof.
  induction b as [|a|a b|a b c s IH] using string3_ind; [done|..];
    cbn [base64_EncodeToString b64_groups]; rewrite ?b64_char_not_pad, !b64_value_digit; cbn -[Z.div Z.modulo Z.mul].
  - do 2 f_equal. apply chr_byte. b64_facts. Z.div_mod_to_equations. lia.
  - f_equal. f_equal; [|f_equal]; apply chr_byte; b64_facts; Z.div_mod_to_equations; lia.
  - rewrite IH. cbn -[Z.div Z.modulo Z.mul]. f_equal. f_equal; [|f_equal; [|f_equal]]; apply chr_byte; b64_facts; Z.div_mod_to_equations; lia.
Qed.

Lemma b64_char_kept v : negb (b64_skip (b64_char v)) = true.
Proof.
  apply negb_true_iff, orb_false_iff.
  split; apply Ascii.eqb_neq; intros H; pose proof (b64_value_digit v) as Hv; rewrite H in Hv; discriminate Hv.
Qed.

Lemma base64_roundtrip b : base64_DecodeString (base64_EncodeToString b) = Some b.
Proof.
  unfold base64_DecodeString. rewrite <-(b64_groups_roundtrip b). f_equal.
  induction b as [|a|a b|a b c s IH] using string3_ind; [done|..];
    cbn [base64_EncodeToString sfilter]; rewrite !b64_char_kept; try done. by rewrite IH.
Qed.
