(* ===== verification/CliArgs.v ===== *)
(** * The messages to ignore, [parseMessagesToIgnore] of [cmd/dc4bc_cli]

    The argument of [refresh_state]: a list, one identifier or offset, or a span
    of offsets. The three regular expressions are predicates on the text. *)

From S2P Require Import Prelude LevelState ClientTypes IOLogic Kyber SigningTasks FsmService FileStorage KafkaStorage GoText.

(** ** The regular expressions *)

(** [\w]: an ASCII letter, digit or underscore. *)
Definition is_word (c : ascii) : bool :=
  let n := byte_of c in
  ((48 <=? n) && (n <=? 57)) || ((65 <=? n) && (n <=? 90)) || ((97 <=? n) && (n <=? 122)) || (n =? 95).
Definition is_dash (c : ascii) : bool := Ascii.eqb c "-".
Definition is_comma (c : ascii) : bool := Ascii.eqb c ",".

(** One or more characters of a class. *)
Definition some_of (f : ascii → bool) (s : string) : bool := negb (s =s? "") && sforall f s.

(** What precedes and what follows the first character of a class. *)
Fixpoint cut (f : ascii → bool) (s : string) : option (string * string) :=
  match s with
  | EmptyString => None
  | String c s =>
      if f c then Some ("", s)
      else match cut f s with Some (a, b) => Some (String c a, b) | None => None end
  end.

(** [^[\w-]+,[\w,-]+$]: the first class has no comma. *)
Definition messagesToIgnoreListRx (s : string) : bool :=
  match cut is_comma s with
  | Some (a, b) =>
      some_of (fun c => is_word c || is_dash c) a &&
      some_of (fun c => is_word c || is_comma c || is_dash c) b
  | None => false
  end.

(** [^(\d+|\w+\-\w+\-\w+\-\w+\-\w+)$] *)
Definition messagesToIgnoreSingleRx (s : string) : bool :=
  some_of is_digit s ||
  (let l := split_on "-" s in bool_decide (length l = 5%nat) && forallb (some_of is_word) l).

(** [^\d+\-\d+$] *)
Definition messagesToIgnoreSpanRx (s : string) : bool :=
  let l := split_on "-" s in bool_decide (length l = 2%nat) && forallb (some_of is_digit) l.

(** ** The span *)

(** [make([]string, 0, n)] panics when the capacity is negative or its strings
    of two words do not fit the 48 bits of an address. *)
Definition maxStrings : Z := 2 ^ 44.
Definition make_strings (n : Z) : Go (list string) :=
  if (n <? 0) || (maxStrings <? n) then Panic "makeslice: cap out of range" else Ret [].

(** [for i := from; i <= to; i++ { ... }]: at the largest integer the condition
    never fails, and the slice grows until memory is exhausted; one string more
    than [make] takes does not fit either. *)
Definition span_loop (from to : Z) (offsets : list string) : Go (list string) :=
  if (to =? MaxInt64) || (maxStrings <=? to - from) then Panic "out of memory"
  else Ret (offsets ++ (Itoa <$> seqZ from (to - from + 1))).

Definition parseMessagesToIgnore (input : string) : Go (list string + error) :=
  if messagesToIgnoreListRx input then Ret (inl (split_on "," input))
  else if messagesToIgnoreSingleRx input then Ret (inl [input])
  else if messagesToIgnoreSpanRx input then
    let '(a, b) := default ("", "") (cut is_dash input) in
    let '(from, _) := Atoi a in
    let '(to, _) := Atoi b in
    offsets ← make_strings (to - from);
    offsets ← span_loop from to offsets;
    Ret (inl offsets)
  else Ret (inr (Err "invalid messages to ignore flag, please refer to the flag usage")).

(** ** The span as offsets *)

(** A decimal number, without sign. *)
Definition decimal (s : string) (n : Z) : Prop := s ≠ "" ∧ parse_digits 0 s = Some n.

Definition span (a b : string) : string := a +:+ String "-" b.

Lemma parse_digits_digits s acc n : parse_digits acc s = Some n → sforall is_digit s = true.
Proof.
  induction s as [|c s IH] in acc |- *; [done|]. cbn. unfold is_digit.
  destruct (digit_value c) as [d|] eqn:Hd; [|done]. cbn. intros H.
  cbn. by eapply IH.
Qed.

Lemma parse_digits_bound s acc n : 0 ≤ acc → parse_digits acc s = Some n → acc ≤ n.
Proof.
  induction s as [|c s IH] in acc |- *; cbn; [by intros ? [= ->]|]. intros Hacc.
  destruct (digit_value c) as [d|] eqn:Hd; [|done]. cbn. intros H.
  assert (0 ≤ d) as Hd0. { unfold digit_value in Hd. case_match eqn:Hb; [|done]. boolify. simplify_eq. lia. }
  apply IH in H; lia.
Qed.

Lemma digit_not_dash c : is_digit c = true → is_dash c = false ∧ is_comma c = false ∧ c ≠ "-"%char ∧ c ≠ "+"%char.
Proof.
  unfold is_digit. intros [d Hd]%bool_decide_eq_true.
  assert (c ≠ "-"%char ∧ c ≠ "+"%char ∧ c ≠ ","%char) as (H1 & H2 & H3) by (split_and!; intros ->; discriminate Hd).
  unfold is_dash, is_comma. by rewrite !(proj2 (Ascii.eqb_neq _ _)).
Qed.

Lemma cut_app f a c b : sforall (fun x => negb (f x)) a = true → f c = true → cut f (a +:+ String c b) = Some (a, b).
Proof.
  intros Ha Hc. induction a as [|x a IH]; rewrite ?sapp_nil, ?sapp_cons; cbn in *; [by rewrite Hc|]. apply andb_true_iff in Ha as [Hx Ha].
  apply negb_true_iff in Hx. by rewrite Hx, IH.
Qed.
Lemma cut_none f s : sforall (fun x => negb (f x)) s = true → cut f s = None.
Proof.
  induction s as [|x s IH]; cbn; [done|]. intros [Hx Hs]%andb_true_iff. apply negb_true_iff in Hx. by rewrite Hx, IH.
Qed.
Lemma sforall_impl (f g : ascii → bool) s : (∀ c, f c = true → g c = true) → sforall f s = true → sforall g s = true.
Proof. intros Hfg. induction s as [|c s IH]; cbn; [done|]. rewrite !andb_true_iff. naive_solver. Qed.
Lemma sforall_app f a b : sforall f (a +:+ b) = sforall f a && sforall f b.
Proof. induction a as [|c a IH]; rewrite ?sapp_nil, ?sapp_cons; cbn; [done|]. by rewrite IH, andb_assoc. Qed.

Lemma split_on_word sep s : sforall (fun c => negb (Ascii.eqb c sep)) s = true → split_on sep s = [s].
Proof.
  induction s as [|c s IH]; cbn; [done|]. intros [Hc Hs]%andb_true_iff. apply negb_true_iff in Hc. by rewrite Hc, IH.
Qed.
Lemma split_on_app sep a b :
  sforall (fun c => negb (Ascii.eqb c sep)) a = true → split_on sep (a +:+ String sep b) = a :: split_on sep b.
Proof.
  induction a as [|c a IH]; rewrite ?sapp_nil, ?sapp_cons; cbn; [by rewrite Ascii.eqb_refl|].
  intros [Hc Ha]%andb_true_iff. apply negb_true_iff in Hc. by rewrite Hc, IH.
Qed.

Lemma Atoi_decimal s n : decimal s n → 0 ≤ n < MaxInt64 → (Atoi s).1 = n.
Proof.
  intros [Hne Hp] Hn. pose proof (parse_digits_digits _ _ _ Hp) as Hd.
  assert (Atoi s = match parse_digits 0 s with
    | Some v => if s =s? "" then (0, true) else if v <=? MaxInt64 then (v, false) else (MaxInt64, true)
    | None => (0, true)
    end) as ->.
  { destruct s as [|c s]; [done|]. cbn in Hd. apply andb_true_iff in Hd as [Hc _].
    destruct (digit_not_dash c Hc) as (_ & _ & Hm & Hpl). unfold Atoi.
    destruct c as [[] [] [] [] [] [] [] []]; try done; by exfalso; first [apply Hm|apply Hpl]. }
  by rewrite Hp, (proj2 (seqb_false _ _) Hne), (proj2 (Z.leb_le _ _)) by lia.
Qed.

Lemma some_digits s n : decimal s n → some_of is_digit s = true.
Proof.
  intros [Hne Hp]. unfold some_of. rewrite (proj2 (seqb_false _ _) Hne). by eapply parse_digits_digits.
Qed.

Lemma span_is_span a b x y :
  decimal a x → decimal b y →
  messagesToIgnoreListRx (span a b) = false ∧ messagesToIgnoreSingleRx (span a b) = false ∧
  messagesToIgnoreSpanRx (span a b) = true ∧ cut is_dash (span a b) = Some (a, b).
Proof.
  intros Ha Hb. pose proof (parse_digits_digits _ _ _ (proj2 Ha)) as Hda.
  pose proof (parse_digits_digits _ _ _ (proj2 Hb)) as Hdb.
  assert (∀ f s, (∀ c, is_digit c = true → f c = false) → sforall is_digit s = true →
    sforall (fun c => negb (f c)) s = true) as Hno.
  { intros f s Hf. apply sforall_impl. intros c Hc. by rewrite Hf. }
  assert (split_on "-" (span a b) = [a; b]) as Hsplit.
  { unfold span. rewrite split_on_app, split_on_word; [done|..]; apply (Hno is_dash); [|done| |done];
      intros c Hc; apply (digit_not_dash c Hc). }
  split_and!.
  - unfold messagesToIgnoreListRx. rewrite cut_none; [done|]. unfold span. rewrite sforall_app. cbn.
    rewrite !(Hno is_comma); [done| |done| |done]; intros c Hc; apply (digit_not_dash c Hc).
  - unfold messagesToIgnoreSingleRx. rewrite Hsplit. cbn. rewrite orb_false_r. unfold some_of, span.
    rewrite sforall_app. cbn. by rewrite !andb_false_r.
  - unfold messagesToIgnoreSpanRx. rewrite Hsplit. cbn. by rewrite (some_digits a x Ha), (some_digits b y Hb).
  - unfold span. apply cut_app; [|done]. apply Hno; [|done]. intros c Hc. apply (digit_not_dash c Hc).
Qed.

Lemma parse_span a b x y :
  decimal a x → decimal b y → x < MaxInt64 → y < MaxInt64 →
  parseMessagesToIgnore (span a b) =
    if (y <? x) || (maxStrings <? y - x) then Panic "makeslice: cap out of range"
    else if maxStrings <=? y - x then Panic "out of memory"
    else Ret (inl (Itoa <$> seqZ x (y - x + 1))).
Proof.
  intros Ha Hb Hx Hy. destruct (span_is_span a b x y Ha Hb) as (H1 & H2 & H3 & H4).
  pose proof (parse_digits_bound _ _ _ (Z.le_refl 0) (proj2 Ha)). pose proof (parse_digits_bound _ _ _ (Z.le_refl 0) (proj2 Hb)).
  unfold parseMessagesToIgnore. rewrite H1, H2, H3, H4. change (default ("", "") (Some (a, b))) with (a, b).
  cbv beta iota. pose proof (Atoi_decimal a x Ha ltac:(lia)) as Hax. pose proof (Atoi_decimal b y Hb ltac:(lia)) as Hby.
  destruct (Atoi a) as [x' ?], (Atoi b) as [y' ?]. cbn in Hax, Hby. rewrite Hax, Hby. unfold make_strings.
  assert ((y - x <? 0) = (y <? x)) as -> by (destruct (Z.ltb_spec (y - x) 0), (Z.ltb_spec y x); lia).
  destruct (_ || _); [done|]. cbn. unfold span_loop. rewrite (proj2 (Z.eqb_neq _ _)) by lia. cbn [orb].
  by destruct (maxStrings <=? y - x).
Qed.

Lemma parse_offsets x n :
  0 ≤ x → 0 ≤ n → x + n ≤ 2 ^ 64 → mapM ParseUint (Itoa <$> seqZ x n) = Some (seqZ x n).
Proof.
  intros Hx Hn Hb. apply mapM_Some. rewrite Forall2_fmap_l. apply Forall_Forall2_diag, Forall_forall.
  intros z [Hz1 Hz2]%elem_of_seqZ. apply ParseUint_Itoa. lia.
Qed.

(** Storages remember the offsets of a list of decimal numbers. *)
Lemma ignore_offsets {S} (step : string → IO S unit) (f : Z → S → S) l s :
  (∀ msg, step msg = match ParseUint msg with
                     | Some o => modify (f o)
                     | None => throw (Wrap "failed to parse message offset" (Err "strconv"))
                     end) →
  Forall (fun o => 0 ≤ o < 2 ^ 64) l →
  iterIO step (Itoa <$> l) s = Ret (foldl (fun s o => f o s) s l, inl tt).
Proof.
  intros Hstep Hl. revert s. unfold iterIO. induction Hl as [|o l Ho _ IH]; intros s; [done|].
  cbn. unfold mbind at 1, IO_bind. rewrite Hstep, ParseUint_Itoa by done. cbn. apply IH.
Qed.

Lemma seqZ_words x n : 0 ≤ x → x + n ≤ 2 ^ 64 → Forall (fun o => 0 ≤ o < 2 ^ 64) (seqZ x n).
Proof. intros Hx Hn. apply Forall_forall. intros z [H1 H2]%elem_of_seqZ. lia. Qed.

Section span_spec.
Context {F : Type} {file : DataFile F} {env : Env F} {codec : MessageCodec}.
Context {W : Type} {kafka : KafkaClient W}.

Lemma file_ignores_offsets l (fs : FileStorage F) :
  Forall (fun o => 0 ≤ o < 2 ^ 64) l →
  IgnoreMessages (Itoa <$> l) true fs =
    Ret (mk_FileStorage (dataFile fs) (idIgnoreList fs) (list_to_set l ∪ offsetIgnoreList fs), inl tt).
Proof.
  intros Hl. unfold IgnoreMessages. rewrite (ignore_offsets _
    (fun o fs => mk_FileStorage (dataFile fs) (idIgnoreList fs) ({[o]} ∪ offsetIgnoreList fs))) by done.
  do 2 f_equal. clear Hl. revert fs. induction l as [|o l IH]; intros fs; cbn.
  - destruct fs. cbn. by rewrite (left_id_L ∅ (∪)).
  - rewrite IH. cbn. by rewrite (assoc_L (∪)), (comm_L (∪) _ {[o]}).
Qed.

Lemma kafka_ignores_offsets l (ks : KafkaStorage) :
  Forall (fun o => 0 ≤ o < 2 ^ 64) l →
  kafka_IgnoreMessages (Itoa <$> l) true ks =
    Ret (ks_set_ignored (ks_idIgnoreList ks) (list_to_set l ∪ ks_offsetIgnoreList ks) ks, inl tt).
Proof.
  intros Hl. unfold kafka_IgnoreMessages. rewrite (ignore_offsets _
    (fun o ks => ks_set_ignored (ks_idIgnoreList ks) ({[o]} ∪ ks_offsetIgnoreList ks) ks)) by done.
  do 2 f_equal. clear Hl. revert ks. induction l as [|o l IH]; intros ks; cbn.
  - destruct ks. unfold ks_set_ignored. cbn. by rewrite (left_id_L ∅ (∪)).
  - rewrite IH. unfold ks_set_ignored. cbn. by rewrite (assoc_L (∪)), (comm_L (∪) _ {[o]}).
Qed.

(** C39. A span of offsets given to [refresh_state] makes both storages ignore
    the offsets from its first to its last one and no other; a span that runs
    backwards, or is too long for a slice, panics. *)
Theorem span_is_ignored a b x y (fs : FileStorage F) (ks : KafkaStorage) :
  decimal a x → decimal b y → x < MaxInt64 → y < MaxInt64 →
  (x ≤ y < x + maxStrings →
    ∃ l fs' ks', parseMessagesToIgnore (span a b) = Ret (inl l) ∧
      IgnoreMessages l true fs = Ret (fs', inl tt) ∧
      kafka_IgnoreMessages l true ks = Ret (ks', inl tt) ∧
      (∀ o, o ∈ offsetIgnoreList fs' ↔ x ≤ o ≤ y ∨ o ∈ offsetIgnoreList fs) ∧
      (∀ o, o ∈ ks_offsetIgnoreList ks' ↔ x ≤ o ≤ y ∨ o ∈ ks_offsetIgnoreList ks) ∧
      idIgnoreList fs' = idIgnoreList fs ∧ ks_idIgnoreList ks' = ks_idIgnoreList ks) ∧
  (y < x ∨ x + maxStrings ≤ y → ∃ why, parseMessagesToIgnore (span a b) = Panic why).
Proof.
  intros Ha Hb Hx Hy. rewrite (parse_span a b x y) by done.
  pose proof (parse_digits_bound _ _ _ (Z.le_refl 0) (proj2 Ha)) as Hx0.
  split; intros Hxy.
  - rewrite (proj2 (orb_false_iff _ _)) by (split; apply Z.ltb_ge; lia). rewrite (proj2 (Z.leb_gt _ _)) by lia.
    assert (Forall (fun o => 0 ≤ o < 2 ^ 64) (seqZ x (y - x + 1))) as Hw by (apply seqZ_words; unfold MaxInt64 in *; lia).
    eexists _, _, _. split_and!; [done|by apply file_ignores_offsets|by apply kafka_ignores_offsets| | |done|by destruct ks];
      intros o; cbn; rewrite elem_of_union, elem_of_list_to_set, elem_of_seqZ; intuition lia.
  - destruct (_ || _) eqn:Hmake; [by eexists|]. apply orb_false_iff in Hmake as [H1%Z.ltb_ge H2%Z.ltb_ge].
    rewrite (proj2 (Z.leb_le _ _)) by lia. by eexists.
Qed.
End span_spec.

(** ** A span on concrete storages *)

Module SpanSample.
Import MemFile.

(** A client whose topic is empty. *)
#[export] Instance no_kafka : KafkaClient unit := {
  Reader := unit;
  Writer := unit;
  kafka_NewReader _ w := (w, tt);
  kafka_NewWriter _ w := (w, tt);
  reader_Close _ w := (w, None);
  writer_Close _ w := (w, None);
  writer_WriteMessages _ _ w := (w, None);
  reader_ReadMessages _ _ w := (w, ([], DeadlineOrCanceled));
  ReadFile _ _ := inr (Err "no such file or directory")
}.

Definition some_file : FileStorage File := mk_FileStorage (mk_File "") ∅ {[ 9 ]}.
Definition some_kafka : KafkaStorage (W := unit) :=
  mk_KafkaStorage 0 None None None (mk_Mechanism "" "") (mk_Mechanism "" "") "" "" "" 0 ∅ ∅ tt.

Lemma span_is_ignored_witness :
  (∃ l fs' ks', parseMessagesToIgnore "3-5" = Ret (inl l) ∧
    IgnoreMessages l true some_file = Ret (fs', inl tt) ∧
    kafka_IgnoreMessages l true some_kafka = Ret (ks', inl tt) ∧
    (∀ o, o ∈ offsetIgnoreList fs' ↔ 3 ≤ o ≤ 5 ∨ o ∈ ({[ 9 ]} : gset Z)) ∧
    (∀ o, o ∈ ks_offsetIgnoreList ks' ↔ 3 ≤ o ≤ 5 ∨ o ∈ (∅ : gset Z)) ∧
    idIgnoreList fs' = ∅ ∧ ks_idIgnoreList ks' = ∅) ∧
  (∃ why, parseMessagesToIgnore "5-3" = Panic why).
Proof.
  split.
  - apply (span_is_ignored "3" "5" 3 5 some_file some_kafka); first [by vm_compute|vm_compute; split; discriminate].
  - apply (span_is_ignored "5" "3" 5 3 some_file some_kafka); first [by vm_compute|left; by vm_compute].
Defined.
End SpanSample.
