(* ===== verification/Shell.v ===== *)
(** * Command-line tools: files, text on the terminal, flags and commands

    What the programs of [cmd/] share: reading files and directories, a terminal
    whose output is kept and whose input is a list of lines, the flags that the
    library [cobra] has parsed, and commands with their arguments. *)

From S2P Require Import Prelude LevelState ClientTypes IOLogic SigningTasks GoText.

Definition nl : string := String newline "".
Definition tab : string := String "009" "".
Definition dquote : string := String "034" "".

(** ** Files *)

Class InputFiles (W : Type) : Type := ioutil_ReadFile : string → IO W bytes.

(** [os.Open] and reading what it opened. *)
Class OpenedFiles (W : Type) : Type := os_Open : string → IO W (bytes + error).

(** [ioutil.WriteFile]: the file is truncated first. *)
Class OutputFiles (W : Type) : Type := ioutil_WriteFile : string → bytes → IO W unit.

(** [os.FileInfo], as far as it is read. *)
Record FileInfo : Type := mk_FileInfo { fi_Name : string; fi_IsDir : bool }.

Class Directories (W : Type) : Type := ioutil_ReadDir : string → IO W (list FileInfo).

(** ** Sorting *)

(** [sort.Strings] *)
Definition string_le (a b : string) : Prop := String.leb a b = true.
#[export] Instance string_le_dec : RelDecision string_le.
Proof. intros a b. unfold string_le. apply _. Defined.
Definition sort_Strings (l : list string) : list string := merge_sort string_le l.

#[export] Instance string_le_trans : Transitive string_le.
Proof.
  intros a b c H1 H2. unfold string_le in *. apply Is_true_true. apply Is_true_true in H1, H2.
  exact (transitivity (R := String.le) H1 H2).
Qed.

Lemma string_le_antisym a b : string_le a b → string_le b a → a = b.
Proof. apply String.leb_antisym. Qed.

(** [sort.Sort] with [Less] on a key of type [string]: where keys coincide the
    order is unspecified. *)
Class KeySort : Type := {
  sort_by : ∀ {A}, (A → string) → list A → list A;
  sort_by_perm A (key : A → string) l : sort_by key l ≡ₚ l;
  sort_by_sorted A (key : A → string) l : Sorted (fun a b => string_le (key a) (key b)) (sort_by key l)
}.

(** There is one sorted list of elements with distinct keys. *)
Lemma sorted_by_unique {A} (key : A → string) l1 l2 :
  Sorted (fun a b => string_le (key a) (key b)) l1 → Sorted (fun a b => string_le (key a) (key b)) l2 →
  l1 ≡ₚ l2 → NoDup (key <$> l1) → l1 = l2.
Proof.
  intros Hs1 Hs2 Hp Hnd.
  assert (∀ x y, x ∈ l1 → y ∈ l1 → key x = key y → x = y) as Hkey.
  { intros x y [i Hx]%list_elem_of_lookup [j Hy]%list_elem_of_lookup He.
    assert (i = j) as ->; [|congruence]. eapply (NoDup_lookup _ i j (key x)); [done|..]; rewrite list_lookup_fmap.
    - by rewrite Hx.
    - by rewrite Hy, He. }
  assert (Transitive (fun a b => string_le (key a) (key b))) as Htr.
  { intros a b c. apply (transitivity (R := string_le)). }
  apply (StronglySorted_unique_strong (fun a b => string_le (key a) (key b)));
    [|by apply Sorted_StronglySorted..|done].
  intros x y Hx Hy H1 H2. rewrite <-Hp in Hy. apply Hkey; [done..|]. by apply string_le_antisym.
Qed.

Section sort_by.
Context `{!KeySort} {A B : Type} (key : A → string) (key' : B → string).

(** The order is the only one when the keys are distinct. *)
Lemma sort_by_unique l1 l2 : l1 ≡ₚ l2 → NoDup (key <$> l1) → sort_by key l1 = sort_by key l2.
Proof.
  intros Hp Hnd. apply (sorted_by_unique key); [apply sort_by_sorted..|by rewrite !sort_by_perm|].
  by rewrite sort_by_perm.
Qed.

(** Sorting commutes with a function that keeps the keys. *)
Lemma sort_by_fmap (f : A → B) l :
  (∀ x, key' (f x) = key x) → NoDup (key <$> l) → f <$> sort_by key l = sort_by key' (f <$> l).
Proof.
  intros Hf Hnd. assert (key' <$> (f <$> sort_by key l) = key <$> sort_by key l) as Hk.
  { rewrite <-list_fmap_compose. apply list_fmap_ext. intros i x _. apply Hf. }
  apply (sorted_by_unique key'); [|apply sort_by_sorted|by rewrite !sort_by_perm|by rewrite Hk, sort_by_perm].
  apply (Sorted_fmap _ (fun a b => string_le (key a) (key b))); [|apply sort_by_sorted].
  intros a b. by rewrite !Hf.
Qed.
End sort_by.

(** The sorting of the model's own lists is one such. *)
Section merge.
Context {A : Type} (key : A → string).
#[local] Instance key_le_dec : RelDecision (fun a b => string_le (key a) (key b)).
Proof. intros a b. apply _. Defined.
Definition merge_by (l : list A) : list A := merge_sort (fun a b => string_le (key a) (key b)) l.
Lemma merge_by_perm l : merge_by l ≡ₚ l.
Proof. apply merge_sort_Permutation. Qed.
Lemma merge_by_sorted l : Sorted (fun a b => string_le (key a) (key b)) (merge_by l).
Proof. apply Sorted_merge_sort. intros a b. apply String.leb_total. Qed.
End merge.
Definition merge_KeySort : KeySort := {|
  sort_by := @merge_by; sort_by_perm := @merge_by_perm; sort_by_sorted := @merge_by_sorted |}.

(** [l[0]] *)
Definition first_of {A} (l : list A) : Go A :=
  match l with x :: _ => Ret x | [] => Panic "index out of range" end.

(** ** The terminal *)

(** What has been printed, the lines that are still to be read, and everything
    outside the process. *)
Record Term (W : Type) : Type := mk_Term { stdout : string; stdin : list string; outer : W }.
Arguments mk_Term {W}.
Arguments stdout {W}.
Arguments stdin {W}.
Arguments outer {W}.

Section term.
Context {W : Type}.

Definition set_stdout o (t : Term W) : Term W := mk_Term o (stdin t) (outer t).
Definition set_stdin l (t : Term W) : Term W := mk_Term (stdout t) l (outer t).
Definition set_outer w (t : Term W) : Term W := mk_Term (stdout t) (stdin t) w.

Definition on_outer {A} (m : IO W A) : IO (Term W) A := zoom outer set_outer m.

(** [fmt.Print] and the printing of [color], whose colours are not kept. *)
Definition Print (s : string) : IO (Term W) unit := modify (fun t => set_stdout (stdout t +:+ s) t).
Definition Println (s : string) : IO (Term W) unit := Print (s +:+ nl).

(** ** Flags *)

Inductive FlagValue : Type := FString (s : string) | FBool (b : bool) | FInt (n : Z).

(** The flags of a command, by name: their defaults, or what was given. *)
Abbreviation Flags := (gmap string FlagValue) (only parsing).

Definition GetString (flags : Flags) (name : string) : string + error :=
  match flags !! name with
  | Some (FString s) => inl s
  | Some _ => inr (Err "trying to get string value of flag of another type")
  | None => inr (Err "flag accessed but not defined")
  end.
Definition GetBool (flags : Flags) (name : string) : bool + error :=
  match flags !! name with
  | Some (FBool b) => inl b
  | Some _ => inr (Err "trying to get bool value of flag of another type")
  | None => inr (Err "flag accessed but not defined")
  end.
Definition GetInt (flags : Flags) (name : string) : Z + error :=
  match flags !! name with
  | Some (FInt n) => inl n
  | Some _ => inr (Err "trying to get int value of flag of another type")
  | None => inr (Err "flag accessed but not defined")
  end.

(** [x, _ := GetString(...)]: on an error the zero value. *)
Definition value_or {A} (zero : A) (r : A + error) : A := match r with inl a => a | inr _ => zero end.

(** ** Commands *)

(** [cobra.Command]: its name, the first word of [Use]; how many arguments it
    takes, if that is checked; and [RunE]. *)
Record Command : Type := mk_Command {
  Use : string;
  Args : option nat;
  RunE : Flags → list string → IO (Term W) unit
}.

Definition ExactArgs (n : option nat) (args : list string) : option error :=
  match n with
  | Some n => if bool_decide (length args = n) then None else Some (Err "accepts another number of arguments")
  | None => None
  end.

(** [Execute]: the arguments are checked, then the command runs. *)
Definition Execute (c : Command) (flags : Flags) (args : list string) : IO (Term W) unit :=
  match ExactArgs (Args c) args with
  | Some err => throw err
  | None => RunE c flags args
  end.

(** The subcommand of the root with the name given first. *)
Definition ExecuteRoot (commands : list Command) (flags : Flags) (name : string) (args : list string)
    : IO (Term W) unit :=
  match list_find (fun c => Use c = name) commands with
  | Some (_, c) => Execute c flags args
  | None => throw (Err "unknown command")
  end.

(** [args[i]], in a command whose arguments were counted. *)
Definition arg (args : list string) (i : nat) : IO (Term W) string :=
  match args !! i with Some a => mret a | None => lift (Panic "index out of range") end.
End term.
#[global] Arguments Command : clear implicits.

(** ** Runs *)

Lemma run_bind {S A B} (m : IO S A) (k : A → IO S B) s s' a :
  m s = Ret (s', inl a) → (m ≫= k) s = k a s'.
Proof. intros H. unfold mbind, IO_bind. by rewrite H. Qed.
Lemma run_wrap {S A} msg (m : IO S A) s s' a : m s = Ret (s', inl a) → wrap msg m s = Ret (s', inl a).
Proof. intros H. unfold wrap. by rewrite H. Qed.
Lemma run_on_outer {W A} (m : IO W A) (t : Term W) w' r :
  m (outer t) = Ret (w', r) → on_outer m t = Ret (set_outer w' t, r).
Proof. intros H. unfold on_outer, zoom. by rewrite H. Qed.

Lemma sapp_empty s : s +:+ "" = s.
Proof. induction s as [|c s IH]; rewrite ?sapp_nil, ?sapp_cons; [done|]. by rewrite IH. Qed.
