(* ===== verification/Statuses.v ===== *)
(** * The participants of the three quorums as one interface

    [fsm/state_machines/internal/types.go], [Participant] of
    [fsm/state_machines/provider.go]: the text of a status and the accessors
    that a reader of a dump uses. *)

From S2P Require Import Prelude Requests Payload.

Definition ConfirmationParticipantStatus_String (s : ConfirmationParticipantStatus) : string :=
  match s with
  | SigConfirmationAwaitConfirmation => "SigConfirmationAwaitConfirmation"
  | SigConfirmationConfirmed => "SigConfirmationConfirmed"
  | SigConfirmationDeclined => "SigConfirmationDeclined"
  | SigConfirmationError => "SigConfirmationError"
  end.

Definition DKGParticipantStatus_String (s : DKGParticipantStatus) : string :=
  match s with
  | CommitAwaitConfirmation => "CommitAwaitConfirmation"
  | CommitConfirmed => "CommitConfirmed"
  | CommitConfirmationError => "CommitConfirmationError"
  | DealAwaitConfirmation => "DealAwaitConfirmation"
  | DealConfirmed => "DealConfirmed"
  | DealConfirmationError => "DealConfirmationError"
  | ResponseAwaitConfirmation => "ResponseAwaitConfirmation"
  | ResponseConfirmed => "ResponseConfirmed"
  | ResponseConfirmationError => "ResponseConfirmationError"
  | MasterKeyAwaitConfirmation => "MasterKeyAwaitConfirmation"
  | MasterKeyConfirmed => "MasterKeyConfirmed"
  | MasterKeyConfirmationError => "MasterKeyConfirmationError"
  end.

Definition SigningParticipantStatus_String (s : SigningParticipantStatus) : string :=
  match s with
  | SigningAwaitPartialSigns => "SigningAwaitPartialSigns"
  | SigningPartialSignsConfirmed => "SigningPartialSignsConfirmed"
  | SigningError => "SigningError"
  | SigningProcess => "SigningProcess"
  end.

(** A value of the interface: one of the types that implement it. *)
Inductive AnyParticipant : Type :=
| ASignatureProposalParticipant (p : SignatureProposalParticipant)
| ADKGProposalParticipant (p : DKGProposalParticipant)
| ASigningProposalParticipant (p : SigningProposalParticipant).

(** [p.GetStatus().String()] *)
Definition GetStatus (p : AnyParticipant) : string :=
  match p with
  | ASignatureProposalParticipant p => ConfirmationParticipantStatus_String (sgp_Status p)
  | ADKGProposalParticipant p => DKGParticipantStatus_String (dp_Status p)
  | ASigningProposalParticipant p => SigningParticipantStatus_String (np_Status p)
  end.

Definition GetUsername (p : AnyParticipant) : string :=
  match p with
  | ASignatureProposalParticipant p => sgp_Username p
  | ADKGProposalParticipant p => dp_Username p
  | ASigningProposalParticipant p => np_Username p
  end.
