(* ===== verification/Visualize.v ===== *)
(** * Drawings of the machines, [fsm/fsm/utils.go]

    The transitions of a machine as a graph for Graphviz, and the program
    [fsm/cmd/state_machines] that prints the three machines. *)

From S2P Require Import Prelude GoFsm Requests Payload SignatureProposal DkgProposal SigningProposal LevelState.
From S2P Require Import ClientTypes IOLogic SigningTasks GoText Shell.

Section visualize.
Context {ord : MapOrder}.
Context {P A D : Type}.

Definition quoted (s : string) : string := dquote +:+ s +:+ dquote.

Abbreviation edge := ((State * Event) * trEvent)%type (only parsing).

Definition edge_line (e : edge) : string :=
  "    " +:+ quoted e.1.1 +:+ " -> " +:+ quoted (tr_dstState e.2) +:+ " [ label = " +:+ quoted e.1.2 +:+ " ];" +:+ nl.
Definition state_line (k : string) : string := "    " +:+ quoted k +:+ ";" +:+ nl.

(** [states[s]++] *)
Definition count_state (s : string) (states : gmap string Z) : gmap string Z :=
  <[s := default 0 (states !! s) + 1]> states.

(** A loop over the transitions, of which it draws those from some sources. *)
Definition draw_edges (from : State → bool) (acc : string * gmap string Z) (l : list edge) : string * gmap string Z :=
  foldl (fun '(buf, states) e =>
    if from e.1.1
    then (buf +:+ edge_line e, count_state (tr_dstState e.2) (count_state e.1.1 states))
    else (buf, states)) acc l.

(** Edges from the current state first. *)
Definition Visualize (fsm : @FSM P A D) : string :=
  let buf := "digraph fsm {" +:+ nl in
  let acc := draw_edges (fun s => s =s? currentState fsm) (buf, ∅) (range (transitions fsm)) in
  let '(buf, states) := draw_edges (fun s => negb (s =s? currentState fsm)) acc (range (transitions fsm)) in
  let buf := buf +:+ nl in
  let buf := foldl (fun buf kv => buf +:+ state_line kv.1) buf (range states) in
  buf +:+ "}" +:+ nl.
End visualize.

(** [main]: the machines of the three stages in turn. *)
Definition draw_machines {W} {ord : MapOrder} {json_tasks : JSON (list SigningTask)} : IO (Term W) unit :=
  dkgFSM ← lift DkgProposal.New;
  _ ← Println (Visualize dkgFSM);
  sigFSM ← lift SignatureProposal.New;
  _ ← Println (Visualize sigFSM);
  signingFSM ← lift SigningProposal.New;
  Println (Visualize signingFSM).

(** ** What is drawn *)

Section drawn.
Context {ord : MapOrder} {P A D : Type}.

Fixpoint lines {X} (line : X → string) (l : list X) : string :=
  match l with [] => "" | x :: l => line x +:+ lines line l end.

Lemma sapp_nil_r s : s +:+ "" = s.
Proof. induction s as [|c s IH]; rewrite ?sapp_nil, ?sapp_cons; [done|]. by rewrite IH. Qed.

Lemma lines_app {X} (line : X → string) l1 l2 : lines line (l1 ++ l2) = lines line l1 +:+ lines line l2.
Proof. induction l1 as [|x l1 IH]; cbn; [done|]. by rewrite IH, sapp_assoc. Qed.

(** The states an edge touches. *)
Definition ends (l : list ((State * Event) * trEvent)) : gset string :=
  list_to_set ((fun e => e.1.1) <$> l) ∪ list_to_set ((fun e => tr_dstState e.2) <$> l).

Lemma ends_app l1 l2 : ends (l1 ++ l2) = ends l1 ∪ ends l2.
Proof. unfold ends. rewrite !fmap_app, !list_to_set_app_L. set_solver. Qed.
Lemma ends_perm l1 l2 : l1 ≡ₚ l2 → ends l1 = ends l2.
Proof.
  intros H. unfold ends. f_equal; apply list_to_set_perm_L; by rewrite H.
Qed.

Lemma draw_edges_spec from buf states l :
  draw_edges from (buf, states) l =
    (buf +:+ lines edge_line (filter (fun e => from e.1.1 = true) l), (draw_edges from (buf, states) l).2) ∧
  dom (draw_edges from (buf, states) l).2 = dom states ∪ ends (filter (fun e => from e.1.1 = true) l).
Proof.
  revert buf states. induction l as [|e l IH] using rev_ind; intros buf states.
  - cbn. rewrite sapp_nil_r. split; [done|]. set_solver.
  - unfold draw_edges in *. rewrite foldl_app. destruct (IH buf states) as [H1 H2].
    rewrite H1. cbn [foldl]. rewrite filter_app, filter_cons, filter_nil.
    destruct (from e.1.1) eqn:Hf; [rewrite decide_True by done|rewrite decide_False by done]; cbn.
    + rewrite lines_app. cbn. rewrite sapp_nil_r, <-sapp_assoc. split; [done|].
      unfold count_state, ends in *. rewrite !dom_insert_L, H2, !fmap_app, !list_to_set_app_L. cbn. set_solver.
    + rewrite app_nil_r. split; [done|exact H2].
Qed.

(** Every transition is drawn once, those that leave the current state first, and
    every state they touch has a node. *)
Lemma Visualize_spec (fsm : @FSM P A D) :
  ∃ first others states,
    Visualize fsm = "digraph fsm {" +:+ nl +:+ lines edge_line (first ++ others) +:+ nl +:+
                    lines state_line states +:+ "}" +:+ nl ∧
    first ++ others ≡ₚ map_to_list (transitions fsm) ∧
    Forall (fun e => e.1.1 = currentState fsm) first ∧ Forall (fun e => e.1.1 ≠ currentState fsm) others ∧
    NoDup states ∧ list_to_set (C := gset string) states = ends (map_to_list (transitions fsm)).
Proof.
  set (l := range (transitions fsm)). set (now := fun s => s =s? currentState fsm).
  set (buf := "digraph fsm {" +:+ nl).
  destruct (draw_edges_spec now buf ∅ l) as [H1 D1].
  destruct (draw_edges now (buf, ∅) l) as [buf1 states1] eqn:Hd1. cbn in H1, D1.
  destruct (draw_edges_spec (fun s => negb (now s)) buf1 states1 l) as [H2 D2].
  destruct (draw_edges (fun s => negb (now s)) (buf1, states1) l) as [buf2 states2] eqn:Hd2. cbn in H2, D2.
  injection H1 as ->. injection H2 as ->.
  exists (filter (fun e => now e.1.1 = true) l), (filter (fun e => negb (now e.1.1) = true) l), (range states2).*1.
  assert (filter (fun e => now e.1.1 = true) l ++ filter (fun e => negb (now e.1.1) = true) l ≡ₚ
          map_to_list (transitions fsm)) as Hperm.
  { transitivity l; [|apply shuffle_perm]. clearbody l. clear. induction l as [|e l IH]; [done|].
    rewrite !filter_cons. destruct (now e.1.1).
    - rewrite decide_True, decide_False by done. cbn. by rewrite IH.
    - rewrite decide_False, decide_True by done. by rewrite <-Permutation_middle, IH. }
  split_and!.
  - unfold Visualize. fold l. fold buf. unfold now in Hd1, Hd2. rewrite Hd1, Hd2.
    assert (∀ b (m : list (string * Z)), foldl (fun b kv => b +:+ state_line kv.1) b m = b +:+ lines state_line m.*1) as ->.
    { intros b m. revert b. induction m as [|kv m IH]; intros b; cbn; [by rewrite sapp_nil_r|]. by rewrite IH, sapp_assoc. }
    rewrite lines_app. unfold buf. by rewrite !sapp_assoc.
  - done.
  - apply Forall_forall. intros e [He _]%list_elem_of_filter. by apply seqb_true in He.
  - apply Forall_forall. intros e [He _]%list_elem_of_filter. apply negb_true_iff in He. by apply seqb_false in He.
  - unfold range. rewrite shuffle_perm. apply NoDup_fst_map_to_list.
  - apply set_eq. intros s. rewrite elem_of_list_to_set.
    assert (s ∈ (range states2).*1 ↔ s ∈ dom states2) as ->.
    { unfold range. rewrite shuffle_perm. rewrite elem_of_dom. rewrite list_elem_of_fmap. split.
      - intros ([k v] & -> & Hk%elem_of_map_to_list). by exists v.
      - intros [v Hv]. exists (s, v). by rewrite elem_of_map_to_list. }
    rewrite D2, D1, dom_empty_L, (left_id_L ∅ (∪)), <-ends_app. by rewrite (ends_perm _ _ Hperm).
Qed.
End drawn.
