(* ===== verification/Utils.v ===== *)
(** * Dumps of signatures and of the board, [pkg/utils/utils.go]

    The signatures that are exported for other tools ([ExportedSignatures] of
    [dkg/types.go]) and the reading of a board that was dumped as CSV. *)

From S2P Require Import Prelude LevelState ClientTypes SignatureRepo IOLogic SigningTasks GoText Shell.

(** ** Exported signatures *)

Record ExportedSignatureEntity : Type := mk_ExportedSignatureEntity {
  es_Payload : bytes;
  es_Signature : bytes;
  es_File : string
}.

Abbreviation ExportedSignatures := (gmap string ExportedSignatureEntity) (only parsing).

(** The entry of a message: from the first of its signatures. *)
Definition exported (e : ReconstructedSignature) : ExportedSignatureEntity :=
  mk_ExportedSignatureEntity (rec_SrcPayload e) (rec_Signature e) (rec_File e).

(** The body of the loop over the map. *)
Fixpoint prepare_loop (l : list (string * list ReconstructedSignature)) (output : ExportedSignatures)
    : ExportedSignatures + error :=
  match l with
  | [] => inl output
  | (messageID, entries) :: l =>
      match entries with
      | [] => inr (Err "no reconstructed signatures found for message")
      | e :: _ => prepare_loop l (<[messageID := exported e]> output)
      end
  end.

Definition PrepareSignaturesToDump `{!MapOrder} (orig : gmap string (list ReconstructedSignature))
    : ExportedSignatures + error :=
  prepare_loop (range orig) ∅.

Lemma prepare_loop_inl l output : Forall (fun x => x.2 ≠ []) l → NoDup l.*1 →
  ∃ out, prepare_loop l output = inl out ∧
    ∀ id, out !! id = match (list_to_map l : gmap _ _) !! id with
                      | Some es => exported <$> head es
                      | None => output !! id
                      end.
Proof.
  induction l as [|[k [|e es]] l IH] in output |- *; intros Hl Hnd; [by eexists|..];
    apply Forall_cons in Hl as [Hne Hl]; [done|].
  apply NoDup_cons in Hnd as [Hk Hnd]. destruct (IH (<[k := exported e]> output) Hl Hnd) as (out & Ho & Hout).
  exists out. split; [done|]. intros id. rewrite Hout. cbn. destruct (decide (id = k)) as [->|Hid].
  - rewrite lookup_insert_eq, (not_elem_of_list_to_map_1 _ k Hk). by rewrite lookup_insert_eq.
  - by rewrite !lookup_insert_ne by done.
Qed.

Lemma prepare_loop_inr l output x : x ∈ l → x.2 = [] → ∃ err, prepare_loop l output = inr err.
Proof.
  induction l as [|[k [|e es]] l IH] in output |- *; intros Hx He; [by apply not_elem_of_nil in Hx|by eexists|].
  apply elem_of_cons in Hx as [->|Hx]; [done|]. by apply IH.
Qed.

(** Whatever the order of the loop, each message is exported with the first of
    its signatures; a message without signatures is an error. *)
Lemma PrepareSignaturesToDump_inl `{!MapOrder} orig :
  map_Forall (fun _ es => es ≠ []) orig →
  PrepareSignaturesToDump orig = inl (omap (fun es => exported <$> head es) orig).
Proof.
  intros Hne. unfold PrepareSignaturesToDump.
  destruct (prepare_loop_inl (range orig) ∅) as (out & -> & Hout).
  - apply Forall_forall. intros [k es]. unfold range. rewrite shuffle_perm, elem_of_map_to_list. apply Hne.
  - unfold range. rewrite shuffle_perm. apply NoDup_fst_map_to_list.
  - f_equal. apply map_eq. intros id. rewrite Hout, lookup_omap.
    assert (list_to_map (range orig) = orig) as ->.
    { rewrite <-(list_to_map_to_list orig) at 2. apply list_to_map_proper; [|apply shuffle_perm].
      unfold range. rewrite shuffle_perm. apply NoDup_fst_map_to_list. }
    by destruct (orig !! id).
Qed.
Lemma PrepareSignaturesToDump_inr `{!MapOrder} orig id :
  orig !! id = Some [] → ∃ err, PrepareSignaturesToDump orig = inr err.
Proof.
  intros Hid. eapply (prepare_loop_inr _ _ (id, [])); [|done]. unfold range.
  by rewrite shuffle_perm, elem_of_map_to_list.
Qed.

(** ** A dump of the board *)

(** [csv.NewReader] with a separator and lazy quotes, and [ReadAll]. *)
Class CSV : Type := csv_ReadAll : ascii → bytes → list (list string) + error.

(** [json.Unmarshal] into a variable that holds a value: fields that the text
    lacks keep what they hold. *)
Class JSONInto (A : Type) : Type := unmarshal_into : A → bytes → option A.

Definition zero_Message : Message := mk_Message "" "" 0 "" "" "" "" "".

Section read.
Context {csv : CSV} {into : JSONInto Message}.

(** [line[messageColumnIndex]] *)
Definition column (line : list string) (i : Z) : Go string :=
  match line !! Z.to_nat i with
  | Some c => if i <? 0 then Panic "index out of range" else Ret c
  | None => Panic "index out of range"
  end.

(** The loop: one variable holds the message of every turn. *)
Fixpoint message_loop (i : Z) (lines : list (list string)) (message : Message) (messages : list Message)
    : Go (list Message + error) :=
  match lines with
  | [] => Ret (inl messages)
  | line :: lines =>
      c ← column line i;
      match unmarshal_into message c with
      | None => Ret (inr (Wrap "failed to unmarshal line" (Err "json")))
      | Some message => message_loop i lines message (messages ++ [message])
      end
  end.

(** [lines[1:]] *)
Definition slice_from1 {A} (l : list A) : Go (list A) :=
  match l with _ :: l => Ret l | [] => Panic "slice bounds out of range" end.

Definition ReadLogMessages {W} {opened : OpenedFiles W} (inputFilePath : string) (separator : ascii)
    (skipHeader : bool) (messageColumnIndex : Z) : IO W (list Message) :=
  inputFile ← wrap "failed to Open input file" (os_Open inputFilePath);
  data ← wrap "failed to read dump CSV)" (of_res inputFile);
  lines ← wrap "failed to read dump CSV)" (of_res (csv_ReadAll separator data));
  lines ← (if skipHeader : bool then lift (slice_from1 lines) else mret lines);
  lift_res (message_loop messageColumnIndex lines zero_Message []).
End read.
