(* ===== verification/Cli.v ===== *)
(** * The command-line client of a node, [cmd/dc4bc_cli]

    [main.go] and [types.go]: every command as a computation on the terminal, the
    files and the HTTP client. The HTTP client is a class: what is behind it, a
    node, is given in [Operator]. *)

From S2P Require Import Prelude GoFsm Requests Payload.
From S2P Require Import SignatureProposal DkgProposal SigningProposal StateMachines.
From S2P Require Import LevelState ClientTypes OperationRepo SignatureRepo FsmService.
From S2P Require Import IOLogic Kyber Dkg SigningTasks KeyStore Services NodeService.
From S2P Require Import MachineStore Airgapped HttpApi GoText CliArgs Shell Statuses Utils.

(** ** Hashes of a proposal, [types.go] *)

(** What the hash of a proposal is computed of, for a participant. *)
Record HashEntry : Type := mk_HashEntry { he_PubKey : bytes; he_DkgPubKey : bytes; he_Username : string }.

(** The writes to the buffer. *)
Definition hash_payload (threshold : Z) (l : list HashEntry) : bytes :=
  foldl (fun buf p => buf +:+ he_PubKey p +:+ he_DkgPubKey p +:+ he_Username p) (Itoa threshold) l.

(** [DKGInvitationResponse] and [DKGParticipants] sort by user name. The entries
    are pointers; sorting and printing dereference them. *)
Definition sort_participants `{!KeySort} (l : list (option SignatureProposalParticipantsEntry))
    : Go (list SignatureProposalParticipantsEntry) :=
  l ← mapM deref l; Ret (sort_by pe_Username l).
Definition sort_invitations `{!KeySort} (l : list (option SignatureProposalParticipantInvitationEntry))
    : Go (list SignatureProposalParticipantInvitationEntry) :=
  l ← mapM deref l; Ret (sort_by ie_Username l).

Definition participant_hash (p : SignatureProposalParticipantsEntry) : HashEntry :=
  mk_HashEntry (pe_PubKey p) (pe_DkgPubKey p) (pe_Username p).
Definition invitation_hash (p : SignatureProposalParticipantInvitationEntry) : HashEntry :=
  mk_HashEntry (ie_PubKey p) (ie_DkgPubKey p) (ie_Username p).

(** The hash of the payload of an invitation; the threshold is the one of the
    first entry. *)
Definition calcStartDKGMessageHash `{!KeySort, !Crypto}
    {j : JSON (list (option SignatureProposalParticipantInvitationEntry))} (payload : bytes)
    : Go (bytes + error) :=
  match unmarshal payload with
  | None => Ret (inr (Wrap "failed to unmarshal payload" (Err "json")))
  | Some msg =>
      msg ← sort_invitations msg;
      p ← first_of msg;
      Ret (inl (md5_Sum (hash_payload (ie_Threshold p) (invitation_hash <$> msg))))
  end.

(** The hash of a proposal, in [getHashOfStartDKGCommand]. *)
Definition proposal_hash `{!KeySort, !Crypto} (req : SignatureProposalParticipantsListRequest) : Go bytes :=
  participants ← sort_participants (pl_Participants req);
  Ret (md5_Sum (hash_payload (pl_SigningThreshold req) (participant_hash <$> participants))).

Definition cli_getShortOperationDescription (operationType : OperationType) : string :=
  if operationType =s? StateAwaitParticipantsConfirmations then "confirm participation in the new DKG round"
  else if operationType =s? StateDkgCommitsAwaitConfirmations then "send commits for the DKG round"
  else if operationType =s? StateDkgDealsAwaitConfirmations then "send deals for the DKG round"
  else if operationType =s? StateDkgResponsesAwaitConfirmations then "send responses for the DKG round"
  else if operationType =s? StateDkgMasterKeyAwaitConfirmations then "reconstruct the public key and broadcast it"
  else if operationType =s? StateSigningAwaitPartialSigns then "send your partial sign for the message"
  else if operationType =s? StateSigningPartialSignsCollected then "recover full signature for the message"
  else if operationType =s? ReinitDKG then "reinit DKG"
  else "unknown operation".

(** ** Responses *)

(** The types [...Response] of [types.go], and [BaseResponse]. *)
Record Response (R : Type) : Type := mk_Response { ErrorMessage : string; Result : R }.
Arguments mk_Response {R}.
Arguments ErrorMessage {R}.
Arguments Result {R}.

(** What [encoding/json] makes of an [interface{}]; a number is a [float64],
    [m * 2 ^ e]. *)
Inductive Value : Type :=
| VNull
| VBool (b : bool)
| VNumber (m e : Z)
| VString (s : string)
| VArray (l : list Value)
| VObject (m : list (string * Value)).

(** Type assertions panic on another type. *)
Definition as_string (v : Value) : Go string :=
  match v with VString s => Ret s | _ => Panic "interface conversion: interface {} is not string" end.
Definition as_float64 (v : Value) : Go (Z * Z) :=
  match v with VNumber m e => Ret (m, e) | _ => Panic "interface conversion: interface {} is not float64" end.
Definition as_object (v : Value) : Go (list (string * Value)) :=
  match v with VObject m => Ret m | _ => Panic "interface conversion: interface {} is not map[string]interface {}" end.

(** [uint64(f)] truncates; where the value does not fit, the result depends on
    the machine. *)
Class FloatConversion : Type := uint64_overflow : Z → Z → Z.
Definition uint64_of_float `{!FloatConversion} (f : Z * Z) : Z :=
  let '(m, e) := f in
  let v := if 0 <=? e then m * 2 ^ e else Z.quot m (2 ^ (- e)) in
  if (0 <=? v) && (v <? 2 ^ 64) then v else uint64_overflow m e.

(** [net/http]: the error of the request, or what reading the body gives. *)
Class HttpClient (W : Type) : Type := {
  http_Get : string → IO W (bytes + error);
  http_Post : string → string → bytes → IO W (bytes + error)
}.

Class ClientJSON : Type := {
  #[global] json_base :: JSON (Response Value);
  #[global] json_operations_response :: JSON (Response (gomap string (option Operation)));
  #[global] json_operation_response :: JSON (Response (option Operation));
  #[global] json_batches_response :: JSON (Response (gomap string (list string)));
  #[global] json_signatures_response ::
    JSON (Response (gomap string (gomap string (list ReconstructedSignature))));
  #[global] json_signature_response :: JSON (Response (list ReconstructedSignature));
  #[global] json_dump_response :: JSON (Response (option FSMDump));
  #[global] json_operation_file :: JSON (option Operation);
  #[global] json_exported :: JSON ExportedSignatures;
  #[global] json_request :: JSON SignatureProposalParticipantsListRequest;
  #[global] json_string_map :: JSON (gmap string string);
  #[global] json_offset_map :: JSON (gmap string Z);
  #[global] json_bytes_map :: JSON (gmap string bytes);
  #[global] json_batch_form :: JSON ProposeSignBatchMessagesForm;
  #[global] json_baked_form :: JSON ProposeSignBakedMessagesForm;
  #[global] json_reset_form :: JSON ResetStateForm
}.

(** ** Flags *)

Definition flagListenAddr : string := "listen_addr".
Definition flagJSONFilesFolder : string := "json_files_folder".
Definition flagNewStateDBDSN : string := "new_state_dbdsn".
Definition flagUseOffsetInsteadId : string := "use_offset_instead_id".
Definition flagMessagesToIgnore : string := "messages_to_ignore".
Definition flagKafkaConsumerGroup : string := "kafka_consumer_group".
Definition flagPrintFullSignaturesInfo : string := "print_only".

(** The defaults that [init] declares, of the root and of [refresh_state]. *)
Definition cli_flags : gmap string FlagValue := list_to_map
  [(flagListenAddr, FString "localhost:8080");
   (flagJSONFilesFolder, FString "/tmp");
   (flagPrintFullSignaturesInfo, FBool false);
   (flagUseOffsetInsteadId, FBool false);
   (flagNewStateDBDSN, FString "");
   (flagKafkaConsumerGroup, FString "");
   (flagMessagesToIgnore, FString "")].

(** ** Commands *)

Section commands.
Context {W : Type} {client : HttpClient W} {infiles : InputFiles W} {files : ResultFiles W}
  {dirs : Directories W} {env : Env W}.
Context {ord : MapOrder} {sorter : KeySort} {crypto : Crypto} {scrypto : SigningCrypto} {kyber : Kyber}
  {floats : FloatConversion}.
Context {json_client : ClientJSON} {json_redkg : JSON ReDKG} {json_keyring : JSON blsKeyringJSON}
  {jresp : ResponsesJSON}.

Abbreviation run := (IO (Term W)) (only parsing).

(** Sending a request, reading the body and decoding it. *)
Definition fetch {R} {j : JSON R} (failed_send failed_read : string) (send : IO W (bytes + error)) : run R :=
  resp ← wrap failed_send (on_outer send);
  responseBody ← wrap failed_read (of_res resp);
  json_res "failed to unmarshal response" (unmarshal responseBody).

(** [if response.ErrorMessage != "" { return fmt.Errorf(msg, ...) }] *)
Definition no_error {R} (msg : string) (response : Response R) : run unit :=
  if negb (ErrorMessage response =s? "") then throw (Wrap msg (Err (ErrorMessage response))) else mret tt.

Definition url (host path : string) : string := "http://" +:+ host +:+ path.

Definition listen_addr (flags : gmap string FlagValue) : run string :=
  wrap "failed to read configuration" (of_res (GetString flags flagListenAddr)).

Definition getOperationsRequest (host : string) : run (Response (gomap string (option Operation))) :=
  fetch "failed to get operations" "failed to read body" (http_Get (url host "/getOperations")).

Definition getBatchesRequest (host dkgID : string) : run (Response (gomap string (list string))) :=
  fetch "failed to get batches" "failed to read body" (http_Get (url host ("/getBatches?dkgID=" +:+ dkgID))).

Definition getSignatureRequest (host dkgID dataHash : string) : run (Response (list ReconstructedSignature)) :=
  fetch "failed to get signatures" "failed to read body"
    (http_Get (url host ("/getSignatureByID?dkgID=" +:+ dkgID +:+ "&id=" +:+ dataHash))).

Definition getOperationRequest (host operationID : string) : run (Response (option Operation)) :=
  fetch "failed to get operation" "failed to read body"
    (http_Get (url host ("/getOperation?operationID=" +:+ operationID))).

Definition getFSMDumpRequest (host dkgID : string) : run (Response (option FSMDump)) :=
  fetch "failed to get FSM dump" "failed to read body" (http_Get (url host ("/getFSMDump?dkgID=" +:+ dkgID))).

Definition rawGetRequest (address : string) : run (Response Value) :=
  fetch "failed to get operations for node" "failed to read body" (http_Get address).

Definition rawPostRequest (address contentType : string) (data : bytes) : run (Response Value) :=
  fetch "failed to send HTTP request" "failed to read body" (http_Post address contentType data).

Definition json_type : string := "application/json".

(** *** Reading *)

(** The signatures of all batches by message: a message that two batches have is
    taken from the batch the loop visits last. *)
Definition merge_batches (result : gmap string (gomap string (list ReconstructedSignature)))
    : gmap string (list ReconstructedSignature) :=
  foldl (fun signatures batch =>
    foldl (fun signatures x => <[x.1 := x.2]> signatures) signatures (range (default ∅ batch.2))) ∅ (range result).

Definition getSignatures (host dkgID : string) : run (gmap string (list ReconstructedSignature)) :=
  response ← fetch "failed to get signatures" "failed to read body"
    (http_Get (url host ("/getSignatures?dkgID=" +:+ dkgID)));
  _ ← no_error "failed to get signatures" response;
  mret (merge_batches (default ∅ (Result response))).

Definition getBatchesCommand : Command W := mk_Command "get_batches" (Some 1%nat) (fun flags args =>
  listenAddr ← listen_addr flags;
  dkgID ← arg args 0;
  batches ← wrap "failed to get batches" (getBatchesRequest listenAddr dkgID);
  _ ← no_error "failed to get batches" batches;
  let result := default ∅ (Result batches) in
  if bool_decide (result = ∅) then Print ("No batches found for dkgID " +:+ dkgID)
  else iterIO (fun '(batchID, signatures) =>
    Print ("Batch ID " +:+ dquote +:+ batchID +:+ dquote +:+ " contains " +:+
           Itoa (Z.of_nat (length signatures)) +:+ " signatures" +:+ nl)) (range result)).

(** A signature as the full listing prints it. *)
Definition print_participant_signature (participantSig : ReconstructedSignature) : run unit :=
  _ ← Print (tab +:+ "Participant: " +:+ rec_Username participantSig +:+ nl);
  _ ← Print (tab +:+ "Reconstructed signature for the data: " +:+
             base64_EncodeToString (rec_Signature participantSig) +:+ nl);
  Println "".

Definition print_signatures (entry : string * list ReconstructedSignature) : run unit :=
  let '(sigID, signature) := entry in
  _ ← Print ("Signing ID: " +:+ sigID +:+ nl);
  s ← lift (first_of signature);
  _ ← Println (rec_File s);
  iterIO (fun participantSig =>
    _ ← Print (tab +:+ "DKG round ID: " +:+ rec_DKGRoundID participantSig +:+ nl);
    print_participant_signature participantSig) signature.

Definition exportSignaturesCommand : Command W := mk_Command "export_signatures" (Some 1%nat) (fun flags args =>
  listenAddr ← listen_addr flags;
  jsonOutputFolder ← wrap "failed to read flagJSONFilesFolder" (of_res (GetString flags flagJSONFilesFolder));
  printOnly ← wrap "failed to read flagPrintFullSignaturesInfo" (of_res (GetBool flags flagPrintFullSignaturesInfo));
  dkgID ← arg args 0;
  signatures ← wrap "failed to get signatures" (getSignatures listenAddr dkgID);
  if bool_decide (signatures = ∅) then Print ("No signatures found for dkgID " +:+ dkgID)
  else if printOnly : bool then iterIO print_signatures (range signatures)
  else
    prefix ← lift (slice_to dkgID 5);
    let path := filepath_Join jsonOutputFolder ("dkg_signatures_dump_" +:+ prefix +:+ ".json") in
    _ ← wrap "failed to open file" (on_outer (os_OpenFile path));
    prepared ← wrap "failed to prepare signatures for dump" (of_res (PrepareSignaturesToDump signatures));
    bz ← json_res "failed to marshal result" (marshal prepared);
    _ ← wrap "failed to write file" (on_outer (os_Write path bz));
    Print ("json file was saved to: " +:+ path +:+ nl)).

Definition getSignatureCommand : Command W := mk_Command "get_signature" (Some 2%nat) (fun flags args =>
  listenAddr ← listen_addr flags;
  dkgID ← arg args 0; batchID ← arg args 1;
  signatures ← wrap "failed to get signatures" (getSignatureRequest listenAddr dkgID batchID);
  _ ← no_error "failed to get signatures" signatures;
  iterIO print_participant_signature (Result signatures)).

Definition getSignatureDataCommand : Command W := mk_Command "get_signature_data" (Some 2%nat) (fun flags args =>
  listenAddr ← listen_addr flags;
  dkgID ← arg args 0; batchID ← arg args 1;
  signatures ← wrap "failed to get signatures" (getSignatureRequest listenAddr dkgID batchID);
  _ ← no_error "failed to get signatures" signatures;
  match Result signatures with
  | s :: _ => Println (rec_SrcPayload s)
  | [] => mret tt
  end).

Definition getOperationPathCommand : Command W := mk_Command "get_operation" (Some 1%nat) (fun flags args =>
  listenAddr ← listen_addr flags;
  folder ← wrap "failed to read configuration" (of_res (GetString flags flagJSONFilesFolder));
  operationID ← arg args 0;
  operationResponse ← wrap "failed to get operations" (getOperationRequest listenAddr operationID);
  _ ← no_error "failed to get operations" operationResponse;
  operation ← lift (deref (Result operationResponse));
  filename ← lift (Filename operation);
  let operationPath := filepath_Join folder (filename +:+ "_request.json") in
  _ ← wrap "failed to open file" (on_outer (os_OpenFile operationPath));
  operationBytes ← json_res "failed to get operations" (marshal (Result operationResponse));
  _ ← wrap "failed to write file" (on_outer (os_Write operationPath operationBytes));
  Print ("json file was saved to: " +:+ operationPath +:+ nl)).

Definition getPubKeyCommand : Command W := mk_Command "get_pubkey" None (fun flags args =>
  listenAddr ← listen_addr flags;
  resp ← wrap "failed to get node's pubkey" (rawGetRequest (url listenAddr "/getPubKey"));
  _ ← no_error "failed to get node's pubkey" resp;
  s ← lift (as_string (Result resp));
  Println s).

Definition getOffsetCommand : Command W := mk_Command "get_offset" None (fun flags args =>
  listenAddr ← listen_addr flags;
  resp ← wrap "failed to get offset" (rawGetRequest (url listenAddr "/getOffset"));
  _ ← no_error "failed to get offset" resp;
  f ← lift (as_float64 (Result resp));
  Println (Itoa (uint64_of_float f))).

Definition getUsername (listenAddr : string) : run string :=
  resp ← wrap "failed to do HTTP request" (rawGetRequest (url listenAddr "/getUsername"));
  _ ← no_error "failed to get node's username" resp;
  lift (as_string (Result resp)).

Definition getUsernameCommand : Command W := mk_Command "get_username" None (fun flags args =>
  listenAddr ← listen_addr flags;
  username ← wrap "failed to get node's username" (getUsername listenAddr);
  Println username).

Definition getFSMListCommand : Command W := mk_Command "get_fsm_list" None (fun flags args =>
  listenAddr ← listen_addr flags;
  resp ← wrap "failed to make HTTP request to get FSM list" (rawGetRequest (url listenAddr "/getFSMList"));
  _ ← no_error "failed to make HTTP request to get FSM list" resp;
  fsms ← lift (as_object (Result resp));
  match fsms with
  | [] => Print "There are no FSMs yet"
  | _ => iterIO (fun '(dkgID, state) =>
           s ← lift (as_string state);
           Print ("DKG ID: " +:+ dkgID +:+ " - FSM state: " +:+ s +:+ nl)) (shuffle fsms)
  end).

Definition getHashOfStartDKGCommand : Command W := mk_Command "get_start_dkg_file_hash" (Some 1%nat) (fun flags args =>
  path ← arg args 0;
  dkgProposeFileData ← wrap "failed to read file" (on_outer (ioutil_ReadFile path));
  req ← json_res "failed to unmarshal dkg proposing file" (unmarshal dkgProposeFileData);
  hash ← lift (proposal_hash req);
  Println (hex_EncodeToString hash)).

Definition getHashOfReinitDKGMessageCommand : Command W :=
  mk_Command "get_reinit_dkg_file_hash" (Some 1%nat) (fun flags args =>
  path ← arg args 0;
  dkgReinitFileData ← wrap "failed to read file" (on_outer (ioutil_ReadFile path));
  hash ← of_res (CalcStartReInitDKGMessageHash dkgReinitFileData);
  Println (hex_EncodeToString hash)).

(** *** The status of a round *)

Definition add_participants {X} (as_participant : X → AnyParticipant) (q : gomap Z X)
    (quorum : gmap Z AnyParticipant) : gmap Z AnyParticipant :=
  foldl (fun quorum x => <[x.1 := as_participant x.2]> quorum) quorum (range (default ∅ q)).

(** The quorum of the stage the round is in. *)
Definition current_quorum (dump : FSMDump) : Go (gmap Z AnyParticipant) :=
  let state := dump_State dump in
  quorum ← (if HasPrefix state "state_signing" then
              p ← deref (dump_Payload dump); c ← deref (pay_SigningProposalPayload p);
              Ret (add_participants ASigningProposalParticipant (nc_Quorum c) ∅)
            else Ret ∅);
  quorum ← (if HasPrefix state "state_dkg" then
              p ← deref (dump_Payload dump); c ← deref (pay_DKGProposalPayload p);
              Ret (add_participants ADKGProposalParticipant (dc_Quorum c) quorum)
            else Ret quorum);
  if HasPrefix state "state_sig_" then
    p ← deref (dump_Payload dump); c ← deref (pay_SignatureProposalPayload p);
    Ret (add_participants ASignatureProposalParticipant (sc_Quorum c) quorum)
  else Ret quorum.

(** [waiting], [confirmed] and [failed] after a participant. *)
Definition classify (username : string) (lists : list string * list string * list string) (p : AnyParticipant)
    : list string * list string * list string :=
  let '(waiting, confirmed, failed) := lists in
  if Contains (GetStatus p) "Await" && (GetStatus p =s? "DealAwaitConfirmation") && (GetUsername p =s? username)
  then lists
  else
    (if Contains (GetStatus p) "Await" then waiting ++ [GetUsername p] else waiting,
     if Contains (GetStatus p) "Confirmed" then confirmed ++ [GetUsername p] else confirmed,
     if Contains (GetStatus p) "Error" then failed ++ [GetUsername p] else failed).

(** A line about the names, when there are any. *)
Definition print_names (text : string) (l printed : list string) : run unit :=
  match l with [] => mret tt | _ => Print (text +:+ Join printed ", " +:+ nl) end.

(** The line about failures prints the names of those who are waited for. *)
Definition print_status (lists : list string * list string * list string) : run unit :=
  let '(waiting, confirmed, failed) := lists in
  _ ← print_names "Waiting for data from: " waiting waiting;
  _ ← print_names "Received data from: " confirmed confirmed;
  print_names "Participants who got some error during a process: " failed waiting.

Definition print_pubkey (PubPolyBz : bytes) : run unit :=
  if slen PubPolyBz =? 0 then mret tt
  else
    blsKeyring ← wrap "failed to unmarshal BLSKeyring's PubPoly" (of_res (LoadPubPolyBLSKeyringFromBytes PubPolyBz));
    pubkeyBz ← wrap "failed to marshal pubkey" (of_res (Point_MarshalBinary (PubPoly_Commit (kr_PubPoly blsKeyring))));
    Print ("PubKey: " +:+ base64_EncodeToString pubkeyBz +:+ nl).

Definition getFSMStatusCommand : Command W := mk_Command "show_fsm_status" (Some 1%nat) (fun flags args =>
  listenAddr ← listen_addr flags;
  dkgID ← arg args 0;
  fsmDumpResponse ← wrap "failed to get FSM dump" (getFSMDumpRequest listenAddr dkgID);
  _ ← no_error "failed to get FSM dump" fsmDumpResponse;
  dump ← lift (deref (Result fsmDumpResponse));
  _ ← Print ("FSM current status is " +:+ dump_State dump +:+ nl);
  quorum ← lift (current_quorum dump);
  username ← wrap "failed to get node's username" (getUsername listenAddr);
  _ ← print_status (foldl (classify username) ([], [], []) (range quorum).*2);
  p ← lift (deref (dump_Payload dump));
  c ← lift (deref (pay_DKGProposalPayload p));
  print_pubkey (dc_PubPolyBz c)).

(** *** Sending *)

(** A request whose answer is only checked for an error. *)
Definition post_and_check (send_failed refused : string) (host path : string) (data : bytes) : run unit :=
  resp ← wrap send_failed (rawPostRequest (url host path) json_type data);
  no_error refused resp.

(** The answer is not looked at. *)
Definition reinitDKGPathCommand : Command W := mk_Command "reinit_dkg" (Some 1%nat) (fun flags args =>
  listenAddr ← listen_addr flags;
  reDKGFile ← arg args 0;
  reDKGDData ← wrap "failed to read file" (on_outer (ioutil_ReadFile reDKGFile));
  _ ← wrap "failed to reinit DKG" (rawPostRequest (url listenAddr "/reinitDKG") json_type reDKGDData);
  mret tt).

Definition saveOffsetCommand : Command W := mk_Command "save_offset" (Some 1%nat) (fun flags args =>
  listenAddr ← listen_addr flags;
  a ← arg args 0;
  offset ← wrap "failed to parse uint" (json_res "strconv" (ParseUint a));
  data ← json_res "failed to create request" (marshal ({["offset" := offset]} : gmap string Z));
  resp ← wrap "failed to save offset" (rawPostRequest (url listenAddr "/saveOffset") json_type data);
  _ ← no_error "failed to save offset" resp;
  s ← lift (as_string (Result resp));
  Println s).

Definition readOperationResultCommand : Command W := mk_Command "read_operation_result" (Some 1%nat) (fun flags args =>
  listenAddr ← listen_addr flags;
  path ← arg args 0;
  operationBz ← wrap "failed to read Operation file" (on_outer (ioutil_ReadFile (Trim is_space_newline path)));
  post_and_check "failed to handle processed operation" "failed to handle processed operation"
    listenAddr "/handleProcessedOperationJSON" operationBz).

Definition startDKGCommand : Command W := mk_Command "start_dkg" (Some 1%nat) (fun flags args =>
  listenAddr ← listen_addr flags;
  path ← arg args 0;
  dkgProposeFileData ← wrap "failed to read file" (on_outer (ioutil_ReadFile path));
  req ← json_res "failed to unmarshal dkg proposing file" (unmarshal dkgProposeFileData);
  let n := Z.of_nat (length (pl_Participants req)) in
  if (n =? 0) || (n <? pl_SigningThreshold req) then throw (Err "invalid threshold")
  else
    now ← on_outer time_Now;
    let req := mk_SignatureProposalParticipantsListRequest (pl_Participants req) (pl_SigningThreshold req) now in
    messageDataBz ← json_res "failed to marshal SignatureProposalParticipantsListRequest" (marshal req);
    post_and_check "failed to make HTTP request to start DKG" "failed to make HTTP request to start DKG"
      listenAddr "/startDKG" messageDataBz).

Definition approveDKGParticipationCommand : Command W := mk_Command "approve_participation" (Some 1%nat) (fun flags args =>
  listenAddr ← listen_addr flags;
  operationID ← arg args 0;
  payloadBz ← json_res "failed to marshal payload" (marshal ({["operationID" := operationID]} : gmap string string));
  post_and_check "failed to approve participation" "failed to approve participation"
    listenAddr "/approveDKGParticipation" payloadBz).

Definition hexadecimal_id (a : string) : run bytes :=
  wrap "failed to decode dkgID" (json_res "hex" (hex_DecodeString a)).

Definition propose_failed : string := "failed to make HTTP request to propose message to sign".

Definition proposeSignMessageCommand : Command W := mk_Command "sign_data" (Some 2%nat) (fun flags args =>
  listenAddr ← listen_addr flags;
  a ← arg args 0;
  dkgID ← hexadecimal_id a;
  path ← arg args 1;
  data ← catch (on_outer (ioutil_ReadFile path)) (fun _ => throw (Err "failed to read the file"));
  messageDataBz ← json_res "failed to marshal SigningProposalStartRequest"
    (marshal ({["data" := data; "dkgID" := dkgID]} : gmap string bytes));
  post_and_check propose_failed propose_failed listenAddr "/proposeSignMessage" messageDataBz).

(** The files of a directory by their names; directories are skipped. *)
Definition read_directory (dir : string) : run (gmap string (option bytes)) :=
  fs ← wrap "failde to read dir" (on_outer (ioutil_ReadDir dir));
  foldIO (fun Data f =>
    if fi_IsDir f then mret Data
    else
      data ← catch (on_outer (ioutil_ReadFile (filepath_Join dir (fi_Name f))))
               (fun _ => throw (Err "failed to read the file"));
      mret (<[fi_Name f := Some data]> Data)) ∅ fs.

Definition proposeSignBatchMessagesCommand : Command W := mk_Command "sign_batch_data" (Some 2%nat) (fun flags args =>
  listenAddr ← listen_addr flags;
  a ← arg args 0;
  dkgID ← hexadecimal_id a;
  dir ← arg args 1;
  Data ← read_directory dir;
  messageDataBz ← json_res "failed to marshal SigningBatchProposalStartRequest"
    (marshal (mk_ProposeSignBatchMessagesForm dkgID (Some Data)));
  post_and_check propose_failed propose_failed listenAddr "/proposeSignBatchMessages" messageDataBz).

(** [strconv.Atoi] with its error. *)
Definition parse_int (msg : string) (a : string) : run Z :=
  let '(n, failed) := Atoi a in if failed : bool then throw (Wrap msg (Err "strconv")) else mret n.

Definition proposeSignBakedMessagesCommand : Command W := mk_Command "sign_baked" (Some 3%nat) (fun flags args =>
  listenAddr ← listen_addr flags;
  a ← arg args 0;
  dkgID ← hexadecimal_id a;
  a ← arg args 1;
  range_start ← parse_int "failed to parse range_start" a;
  a ← arg args 2;
  range_end ← parse_int "failed to parse range_end" a;
  messageDataBz ← json_res "failed to Marshal ProposeSignBakedMessagesForm request"
    (marshal (mk_ProposeSignBakedMessagesForm dkgID range_start range_end));
  post_and_check propose_failed propose_failed listenAddr "/proposeSignBakedMessages" messageDataBz).

(** The variables that the flags of [refresh_state] are bound to. *)
Definition string_var (flags : gmap string FlagValue) (name : string) : string := value_or "" (GetString flags name).
Definition bool_var (flags : gmap string FlagValue) (name : string) : bool := value_or false (GetBool flags name).

Definition refreshState : Command W := mk_Command "refresh_state" None (fun flags args =>
  let messagesToIgnore := string_var flags flagMessagesToIgnore in
  listenAddr ← wrap "failed to read listen address" (of_res (GetString flags flagListenAddr));
  kafkaConsumerGroup ←
    (let group := string_var flags flagKafkaConsumerGroup in
     if slen group <? 1 then
       username ← wrap "failed to get node's username" (getUsername listenAddr);
       now ← on_outer time_Now;
       mret (username +:+ "_" +:+ Itoa (Unix now))
     else mret group);
  msgsToIgnore ← (if messagesToIgnore =s? "" then mret [] else lift_res (parseMessagesToIgnore messagesToIgnore));
  reqBytes ← json_res "failed to marshal reset state request"
    (marshal (mk_ResetStateForm (string_var flags flagNewStateDBDSN) (bool_var flags flagUseOffsetInsteadId)
                kafkaConsumerGroup msgsToIgnore));
  resp ← wrap "failed to make HTTP request to reset state" (rawPostRequest (url listenAddr "/resetState") json_type reqBytes);
  _ ← no_error "failed to make HTTP request to reset state" resp;
  dir ← lift (as_string (Result resp));
  Print ("New state was saved to " +:+ dir +:+ " directory")).

(** *** Choosing an operation *)

Definition separator : string := "-----------------------------------------------------".

(** An operation in the list, under its number. *)
Definition show_operation (acc : gmap string string * Z) (entry : string * option Operation)
    : run (gmap string string * Z) :=
  let '(actionsMap, actionId) := acc in
  let '(operationId, operation) := entry in
  let actionsMap := <[Itoa actionId := operationId]> actionsMap in
  _ ← Print (" " +:+ Itoa actionId +:+ ")" +:+ tab +:+ tab);
  o ← lift (deref operation);
  _ ← Print ("DKG round ID: " +:+ op_DKGIdentifier o +:+ nl);
  _ ← Print (tab +:+ tab +:+ "Operation ID: " +:+ op_ID o +:+ nl);
  _ ← Print (tab +:+ tab +:+ "Description: " +:+ cli_getShortOperationDescription (op_Type o) +:+ nl);
  _ ← (if IsSigningState operation then
         match unmarshal (op_Payload o) with
         | None => throw (Err "failed to unmarshal operation payload")
         | Some payload =>
             _ ← Print (tab +:+ tab +:+ "Hash of the data to sign - " +:+
                        hex_EncodeToString (sha256_Sum256 (sr_SrcPayload payload)) +:+ nl);
             Print (tab +:+ tab +:+ "Signing ID: " +:+ sr_BatchID payload +:+ nl)
         end
       else mret tt);
  _ ← (if op_Type o =s? ReinitDKG then
         Print (tab +:+ tab +:+ "Hash of the reinit DKG message - " +:+ hex_EncodeToString (op_ExtraData o) +:+ nl)
       else mret tt);
  _ ← Println separator;
  mret (actionsMap, actionId + 1).

(** The command for the operation that was chosen; its error is reported by the
    library and not passed on. *)
Definition process_chosen (flags : gmap string FlagValue) (operations : gmap string (option Operation))
    (operationId : string) : run unit :=
  _ ← Print ("Processing operation" +:+ " " +:+ operationId +:+ nl);
  o ← lift (deref (default None (operations !! operationId)));
  let opCmd := if op_Type o =s? StateAwaitParticipantsConfirmations then approveDKGParticipationCommand
               else getOperationPathCommand in
  catch (Execute opCmd flags [operationId]) (fun _ => mret tt).

(** The loop over the lines of the standard input. *)
Fixpoint choose (flags : gmap string FlagValue) (operations : gmap string (option Operation))
    (actionsMap : gmap string string) (lines : list string) : run unit :=
  match lines with
  | [] => mret tt
  | text :: lines =>
      _ ← modify (set_stdin lines);
      match actionsMap !! text with
      | Some operationId => process_chosen flags operations operationId
      | None => _ ← Println "Unknown operation action"; choose flags operations actionsMap lines
      end
  end.

Definition getOperationsCommand : Command W := mk_Command "get_operations" None (fun flags args =>
  listenAddr ← listen_addr flags;
  operations ← wrap "failed to get operations" (getOperationsRequest listenAddr);
  _ ← no_error "failed to get operations" operations;
  let result := default ∅ (Result operations) in
  if bool_decide (result = ∅) then Println "The are no available operations yet"
  else
    _ ← Println "Please, select operation:";
    _ ← Println separator;
    acc ← foldIO show_operation (∅, 1) (range result);
    _ ← Println "Select operation and press Enter. Ctrl+C for cancel";
    lines ← gets stdin;
    choose flags result acc.1 lines).

(** *** [main] *)

Definition cli_commands : list (Command W) :=
  [getOperationsCommand; reinitDKGPathCommand; readOperationResultCommand; approveDKGParticipationCommand;
   startDKGCommand; proposeSignMessageCommand; proposeSignBatchMessagesCommand; getUsernameCommand;
   getPubKeyCommand; getHashOfStartDKGCommand; getHashOfReinitDKGMessageCommand; getBatchesCommand;
   exportSignaturesCommand; getSignatureCommand; saveOffsetCommand; getOffsetCommand; getFSMStatusCommand;
   getFSMListCommand; getSignatureDataCommand; refreshState; proposeSignBakedMessagesCommand].

Definition cli_main (flags : gmap string FlagValue) (name : string) (args : list string) : run unit :=
  wrap "Failed to execute root command" (ExecuteRoot cli_commands flags name args).
End commands.
