(* ===== verification/CliSpec.v ===== *)
(** * What the command-line client shows and does

    The hash of a proposing file agrees with that of the invitation; the
    commands that query keep every invariant of a world that answers reading
    requests without a change, the others what every request keeps; and the text
    that the status of a reachable round prints. *)

From S2P Require Import Prelude GoFsm Requests Payload.
From S2P Require Import SignatureProposal DkgProposal SigningProposal StateMachines Protocol Outcomes.
From S2P Require Import LevelState ClientTypes OperationRepo SignatureRepo FsmService.
From S2P Require Import IOLogic Kyber Dkg SigningTasks KeyStore Services NodeService.
From S2P Require Import MachineStore Airgapped HttpApi GoText CliArgs Shell Statuses Utils Cli.

#[local] Opaque SignatureProposal.New DkgProposal.New SigningProposal.New.

(** ** Hashes of a proposal *)

Lemma mapM_deref {A} (l : list A) : mapM (M := Go) deref (Some <$> l) = Ret l.
Proof. induction l as [|x l IH]; [done|]. cbn. by rewrite IH. Qed.

Lemma in_id_order_perm {X} (set_id : Z → X → X) (q : gmap Z X) :
  in_id_order set_id q ≡ₚ (fun kx => set_id kx.1 kx.2) <$> map_to_list q.
Proof.
  unfold in_id_order, sorted_keys, sort_Ints. rewrite merge_sort_Permutation.
  assert (∀ kx, kx ∈ map_to_list q → q !! kx.1 = Some kx.2) as Hq.
  { intros [k x]. by rewrite elem_of_map_to_list. }
  induction (map_to_list q) as [|[k x] l IH]; [done|]. cbn. pose proof (Hq (k, x) ltac:(by left)) as Hk. cbn in Hk.
  rewrite Hk. cbn. rewrite IH; [done|]. intros kx Hin. apply Hq. by right.
Qed.

(** What an invitation is hashed as is what the proposal says of the
    participant. *)
Lemma invitations_hash r es :
  invitation_hash <$> invitations r es ≡ₚ participant_hash <$> es.
Proof.
  unfold invitations. rewrite in_id_order_perm, map_to_list_seqZ, <-!list_fmap_compose.
  transitivity ((fun x => invitation_hash (invitation x)) <$> (snd <$> zip (seqZ 0 (Z.of_nat (length (proposed r <$> es)))) (proposed r <$> es))).
  - rewrite <-list_fmap_compose. done.
  - rewrite snd_zip by (rewrite length_seqZ; lia). by rewrite <-list_fmap_compose.
Qed.

Lemma invitations_threshold r es x : x ∈ invitations r es → ie_Threshold x = pl_SigningThreshold r.
Proof.
  unfold invitations. intros (y & -> & Hy)%list_elem_of_fmap.
  apply elem_of_in_id_order in Hy as (k & x & Hx & ->). apply lookup_map_seqZ_Some in Hx as [_ Hx].
  by apply list_lookup_fmap_Some in Hx as (e & -> & _).
Qed.

Section hashes.
Context `{!KeySort, !Crypto} {json_inv : JSON (list (option SignatureProposalParticipantInvitationEntry))}.

Lemma proposal_hash_eq r es :
  pl_Participants r = Some <$> es → NoDup (pe_Username <$> es) →
  proposal_hash r = Ret (md5_Sum (hash_payload (pl_SigningThreshold r) (sort_by he_Username (participant_hash <$> es)))).
Proof.
  intros Hp Hnd. unfold proposal_hash, sort_participants. rewrite Hp, mapM_deref. cbn.
  by rewrite (sort_by_fmap pe_Username he_Username).
Qed.

Lemma invitation_hash_eq t l payload :
  unmarshal payload = Some (Some <$> l) → l ≠ [] → Forall (fun x => ie_Threshold x = t) l →
  NoDup (ie_Username <$> l) →
  calcStartDKGMessageHash payload =
    Ret (inl (md5_Sum (hash_payload t (sort_by he_Username (invitation_hash <$> l))))).
Proof.
  intros Hu Hne Ht Hnd. unfold calcStartDKGMessageHash, sort_invitations. rewrite Hu, mapM_deref. cbn.
  pose proof (sort_by_perm _ ie_Username l) as Hp.
  rewrite <-(sort_by_fmap ie_Username he_Username) by done.
  destruct (sort_by ie_Username l) as [|x xs]; [by apply Permutation_nil_l in Hp|].
  cbn. rewrite Forall_forall in Ht. rewrite (Ht x); [done|]. rewrite <-Hp. by left.
Qed.

Context {ord : MapOrder} {json_tasks : JSON (list SigningTask)} {json_dump : JSON FSMDump}.

Lemma initial_awaits r es :
  proposal_ok r es → 0 ≤ pl_CreatedAt r →
  map_Forall (fun _ x => sgp_Status x = SigConfirmationAwaitConfirmation) (initial_quorum r es) →
  sig_outcome (mk_SignatureConfirmation (Some (initial_quorum r es)) (pl_CreatedAt r) 0
    (Add (pl_CreatedAt r) SignatureProposalConfirmationDeadline)) (initial_quorum r es) =
    StateAwaitParticipantsConfirmations.
Proof.
  intros Hok Ht Haw. unfold sig_outcome, SignatureConfirmation_IsExpired, Before.
  cbn [sc_ExpiresAt sc_UpdatedAt]. rewrite (proj2 (Z.ltb_ge _ _)).
  2: { unfold Add, SignatureProposalConfirmationDeadline, Hour. lia. }
  rewrite (proj2 (qexists_false is_declined _)).
  2: { intros k x Hx. unfold is_declined. by rewrite (Haw k x Hx). }
  rewrite (proj2 (qcount_zero is_confirmed _)).
  2: { intros k x Hx. unfold is_confirmed. by rewrite (Haw k x Hx). }
  rewrite (proj2 (Z.ltb_lt _ _)); [done|]. unfold initial_quorum. rewrite size_with_ids, size_map_seqZ, length_fmap.
  pose proof (po_count _ _ Hok). lia.
Qed.

(** The answer to a proposal. *)
Lemma proposal_answer dkgID i r es :
  Create dkgID = Ret (inl i) → proposal_ok r es → 0 ≤ pl_CreatedAt r →
  ∃ i' resp b, FSMInstance_Do i EventInitProposal [RqParticipantsList r] = Ret (i', (Some resp, b, None)) ∧
    rs_Data resp = Some (RdInvitations (invitations r es)).
Proof.
  intros Hc Hok Ht. destruct (decide (TrimSpace dkgID = "")) as [He|Hne].
  { by rewrite (Create_empty _ He) in Hc. }
  pose proof (create_inst_ok _ _ Hc) as Hi.
  destruct (Create_ok dkgID Hne) as (m & _ & Hc'). rewrite Hc in Hc'. injection Hc' as ->.
  destruct (inst_Do _ EventInitProposal [RqParticipantsList r] Hi) as (st & f & d & p & _ & _ & Hd & Hp & Hinv & HDo).
  injection Hd as <-. injection Hp as <-. cbn [dump_State] in *.
  pose proof (inner_stage Sig st _ StateGlobalIdle ltac:(by left) Hinv) as ->.
  destruct (init_step r es (fresh_payload (TrimSpace dkgID))) as (p1 & d & Hs & Hdata & _ & _ & Haw);
    [by split_and!|done|].
  rewrite initial_awaits in Hs by done.
  change StateGlobalIdle with StateParticipantsConfirmationsInit in HDo.
  cbn [stage_events stage_callbacks] in HDo. rewrite Hs in HDo.
  do 3 eexists. split; [exact HDo|]. apply Hdata.
  destruct (spec_do_response _ _ _ _ _ _ _ _ _ Hs) as (? & [= <-] & Hst). exact Hst.
Qed.

(** C20. The hash that the client computes of a proposing file is the one of the
    invitation that a participant gets: a round that starts with a valid
    proposal answers with invitations, and whatever their encoding, their hash
    is that of every file with the same threshold and the same participants in
    any order. *)
Theorem proposal_hashes_agree dkgID i r es file es' :
  Create dkgID = Ret (inl i) → proposal_ok r es → 0 ≤ pl_CreatedAt r →
  pl_Participants file = Some <$> es' → es' ≡ₚ es → pl_SigningThreshold file = pl_SigningThreshold r →
  ∃ i' resp b l hash,
    FSMInstance_Do i EventInitProposal [RqParticipantsList r] = Ret (i', (Some resp, b, None)) ∧
    rs_Data resp = Some (RdInvitations l) ∧ length l = length es ∧
    proposal_hash file = Ret hash ∧
    ∀ payload, unmarshal payload = Some (Some <$> l) → calcStartDKGMessageHash payload = Ret (inl hash).
Proof.
  intros Hc Hok Ht Hf Hp Hth. destruct (proposal_answer dkgID i r es Hc Hok Ht) as (i' & resp & b & HDo & Hdata).
  pose proof (invitations_hash r es) as Hl.
  assert (length (invitations r es) = length es) as Hlen.
  { rewrite <-(length_fmap invitation_hash), Hl. apply length_fmap. }
  assert (NoDup (pe_Username <$> es')) as Hnd by (rewrite Hp; apply (po_unique _ _ Hok)).
  do 5 eexists. split_and!; [exact HDo|exact Hdata|exact Hlen|by apply proposal_hash_eq|].
  intros payload Hu. rewrite (invitation_hash_eq (pl_SigningThreshold r) (invitations r es)); [|done|..].
  - rewrite Hth. do 4 f_equal. apply sort_by_unique; [by rewrite Hl, Hp|]. rewrite Hl, <-list_fmap_compose.
    apply (po_unique _ _ Hok).
  - intros He. rewrite He in Hlen. pose proof (po_count _ _ Hok). cbn in Hlen. lia.
  - apply Forall_forall. intros x. apply invitations_threshold.
  - assert (ie_Username <$> invitations r es = he_Username <$> (invitation_hash <$> invitations r es)) as -> by by rewrite <-list_fmap_compose.
    rewrite Hl, <-list_fmap_compose. apply (po_unique _ _ Hok).
Qed.
End hashes.

(** ** What a command asks of the outside *)

Section frame.
Context {W : Type} {client : HttpClient W} {infiles : InputFiles W} {files : ResultFiles W}
  {dirs : Directories W} {env : Env W}.
Context {ord : MapOrder} {sorter : KeySort} {crypto : Crypto} {scrypto : SigningCrypto} {kyber : Kyber}
  {floats : FloatConversion}.
Context {json_client : ClientJSON} {json_redkg : JSON ReDKG} {json_keyring : JSON blsKeyringJSON}
  {jresp : ResponsesJSON}.

(** An invariant of the outside, and the address the client is given. *)
Context (J : W → Prop) (flags : gmap string FlagValue) (host : string).
Context (Hhost : GetString flags flagListenAddr = inl host).
Context (Hread : ∀ path, keeps J (ioutil_ReadFile path)) (Hdir : ∀ path, keeps J (ioutil_ReadDir path)).
Context (Hopen : ∀ path, keeps J (os_OpenFile path)) (Hwrite : ∀ path b, keeps J (os_Write path b)).
Context (Hnow : keeps J time_Now).
Context (Hget : ∀ path, keeps J (http_Get (url host path))).

(** The terminal does not matter. *)
Abbreviation kept := (keeps (fun t : Term W => J (outer t))) (only parsing).

Lemma Print_keeps s : kept (Print s).
Proof. by intros t Ht. Qed.
Lemma Println_keeps s : kept (Println s).
Proof. by intros t Ht. Qed.
Lemma set_stdin_keeps l : kept (modify (set_stdin l)).
Proof. by intros t Ht. Qed.
Lemma on_outer_keeps {A} (m : IO W A) : keeps J m → kept (on_outer m).
Proof. by apply keeps_zoom. Qed.
#[local] Hint Resolve Print_keeps Println_keeps set_stdin_keeps on_outer_keeps : keeps.

Lemma fetch_keeps {R} {j : JSON R} e1 e2 m : keeps J m → kept (fetch e1 e2 m).
Proof. intros Hm. unfold fetch. keeps_tac. Qed.
Lemma no_error_keeps {R} e (resp : Response R) : kept (no_error e resp).
Proof. unfold no_error. keeps_tac. Qed.
Lemma arg_keeps args i : kept (arg args i).
Proof. unfold arg. keeps_tac. Qed.
#[local] Hint Resolve fetch_keeps no_error_keeps arg_keeps : keeps.

Lemma rawGet_keeps path : kept (rawGetRequest (url host path)).
Proof. unfold rawGetRequest. auto with keeps. Qed.
#[local] Hint Resolve rawGet_keeps : keeps.

(** The address is the one of the flag. *)
Lemma with_host {A} (k : string → IO (Term W) A) : kept (k host) → kept (listen_addr flags ≫= k).
Proof. intros Hk. unfold listen_addr. rewrite Hhost. exact Hk. Qed.

Lemma getUsername_keeps : kept (getUsername host).
Proof. unfold getUsername. keeps_tac. Qed.
Lemma getSignatures_keeps id : kept (getSignatures host id).
Proof. unfold getSignatures. keeps_tac. Qed.
Lemma print_participant_keeps s : kept (print_participant_signature s).
Proof. unfold print_participant_signature. keeps_tac. Qed.
#[local] Hint Resolve getUsername_keeps getSignatures_keeps print_participant_keeps : keeps.
Lemma iter_print_keeps {X} (body : X → IO (Term W) unit) l : (∀ x, kept (body x)) → kept (iterIO body l).
Proof. intros Hb. apply keeps_fold. intros x _. apply Hb. Qed.

Ltac command_tac :=
  repeat first
    [ solve [eauto with keeps]
    | apply with_host
    | apply iter_print_keeps; intros
    | keeps_step ].

Lemma print_signatures_keeps x : kept (print_signatures x).
Proof. unfold print_signatures. command_tac. Qed.
Lemma print_names_keeps text l p : kept (print_names text l p).
Proof. unfold print_names. command_tac. Qed.
#[local] Hint Resolve print_signatures_keeps print_names_keeps : keeps.
Lemma print_status_keeps l : kept (print_status l).
Proof. unfold print_status. command_tac. Qed.
Lemma print_pubkey_keeps b : kept (print_pubkey b).
Proof. unfold print_pubkey. command_tac. Qed.
#[local] Hint Resolve print_status_keeps print_pubkey_keeps : keeps.

(** *** Commands that only read *)

Definition query_commands : list (Command W) :=
  [getUsernameCommand; getPubKeyCommand; getHashOfStartDKGCommand; getHashOfReinitDKGMessageCommand;
   getBatchesCommand; exportSignaturesCommand; getSignatureCommand; getOffsetCommand; getFSMStatusCommand;
   getFSMListCommand; getSignatureDataCommand; getOperationPathCommand].

Lemma execute_keeps c args : (∀ args, kept (RunE c flags args)) → kept (Execute c flags args).
Proof. intros Hc. unfold Execute. destruct (ExactArgs _ _); [apply keeps_throw|apply Hc]. Qed.

Lemma query_keeps c args : c ∈ query_commands → kept (Execute c flags args).
Proof.
  intros Hc. apply execute_keeps. clear args. intros args.
  unfold query_commands in Hc.
  repeat (apply elem_of_cons in Hc as [->|Hc]); [..|by apply not_elem_of_nil in Hc]; cbn [RunE];
    unfold getUsernameCommand, getPubKeyCommand, getHashOfStartDKGCommand, getHashOfReinitDKGMessageCommand,
      getBatchesCommand, exportSignaturesCommand, getSignatureCommand, getOffsetCommand, getFSMStatusCommand,
      getFSMListCommand, getSignatureDataCommand, getOperationPathCommand;
    cbn [RunE]; unfold getBatchesRequest, getSignatureRequest, getOperationRequest, getFSMDumpRequest; command_tac.
Qed.

(** *** Commands that send *)

(** Where the commands send, but for the results of operations and the reset. *)
Definition posted_paths : list string :=
  ["/startDKG"; "/approveDKGParticipation"; "/proposeSignMessage"; "/proposeSignBatchMessages";
   "/proposeSignBakedMessages"; "/saveOffset"; "/reinitDKG"].

Context (Hpost : ∀ path data, path ∈ posted_paths → keeps J (http_Post (url host path) json_type data)).

Lemma rawPost_keeps path data : path ∈ posted_paths → kept (rawPostRequest (url host path) json_type data).
Proof. intros Hp. unfold rawPostRequest. apply fetch_keeps, Hpost, Hp. Qed.
Lemma post_and_check_keeps e1 e2 path data : path ∈ posted_paths → kept (post_and_check e1 e2 host path data).
Proof. intros Hp. unfold post_and_check. apply keeps_bind; [|intros; apply no_error_keeps]. by apply keeps_wrap, rawPost_keeps. Qed.

#[local] Hint Extern 1 (kept (post_and_check _ _ _ _ _)) =>
  apply post_and_check_keeps; unfold posted_paths; set_solver : keeps.
#[local] Hint Extern 1 (kept (rawPostRequest _ _ _)) =>
  apply rawPost_keeps; unfold posted_paths; set_solver : keeps.

Lemma hexadecimal_keeps a : kept (hexadecimal_id a).
Proof. unfold hexadecimal_id. command_tac. Qed.
Lemma parse_int_keeps e a : kept (parse_int e a).
Proof. unfold parse_int. destruct (Atoi a) as [n []]; command_tac. Qed.
Lemma read_directory_keeps dir : kept (read_directory dir).
Proof. unfold read_directory. command_tac. Qed.
#[local] Hint Resolve hexadecimal_keeps parse_int_keeps read_directory_keeps : keeps.

Definition send_commands : list (Command W) :=
  [startDKGCommand; approveDKGParticipationCommand; proposeSignMessageCommand; proposeSignBatchMessagesCommand;
   proposeSignBakedMessagesCommand; saveOffsetCommand; reinitDKGPathCommand].

Lemma send_keeps c args : c ∈ send_commands → kept (Execute c flags args).
Proof.
  intros Hc. apply execute_keeps. clear args. intros args. unfold send_commands in Hc.
  repeat (apply elem_of_cons in Hc as [->|Hc]); [..|by apply not_elem_of_nil in Hc]; cbn [RunE];
    unfold startDKGCommand, approveDKGParticipationCommand, proposeSignMessageCommand, saveOffsetCommand,
      proposeSignBatchMessagesCommand, proposeSignBakedMessagesCommand, reinitDKGPathCommand;
    cbn [RunE]; command_tac.
Qed.

(** The command that lists the operations runs another one. *)
Lemma show_operation_keeps acc x : kept (show_operation acc x).
Proof. unfold show_operation. destruct acc, x. command_tac. Qed.
#[local] Hint Resolve show_operation_keeps : keeps.

Lemma process_chosen_keeps operations id : kept (process_chosen flags operations id).
Proof.
  unfold process_chosen. apply keeps_bind; [apply Print_keeps|intros _].
  apply keeps_bind; [apply keeps_lift|]. intros o.
  apply keeps_catch; [|intros; apply keeps_ret].
  destruct (op_Type o =s? StateAwaitParticipantsConfirmations).
  - apply send_keeps. right. by left.
  - apply query_keeps. unfold query_commands. set_solver.
Qed.
#[local] Hint Resolve process_chosen_keeps : keeps.

Lemma choose_keeps operations actionsMap lines : kept (choose flags operations actionsMap lines).
Proof.
  induction lines as [|text lines IH]; cbn [choose]; [apply keeps_ret|].
  apply keeps_bind; [apply set_stdin_keeps|intros _].
  destruct (actionsMap !! text); [auto with keeps|]. apply keeps_bind; [apply Println_keeps|]. by intros [].
Qed.
#[local] Hint Resolve choose_keeps : keeps.

Lemma getOperations_keeps args : kept (Execute getOperationsCommand flags args).
Proof.
  apply execute_keeps. clear args. intros args. unfold getOperationsCommand. cbn [RunE].
  unfold getOperationsRequest. command_tac.
Qed.

#[local] Opaque getOperationsCommand reinitDKGPathCommand readOperationResultCommand approveDKGParticipationCommand
  startDKGCommand proposeSignMessageCommand proposeSignBatchMessagesCommand getUsernameCommand getPubKeyCommand
  getHashOfStartDKGCommand getHashOfReinitDKGMessageCommand getBatchesCommand exportSignaturesCommand
  getSignatureCommand saveOffsetCommand getOffsetCommand getFSMStatusCommand getFSMListCommand
  getSignatureDataCommand refreshState proposeSignBakedMessagesCommand getOperationPathCommand.

Ltac member := first [apply list_elem_of_here | apply list_elem_of_further; member].

Lemma commands_by_kind c :
  c ∈ cli_commands →
  c = getOperationsCommand ∨ c = readOperationResultCommand ∨ c = refreshState ∨ c ∈ send_commands ∨ c ∈ query_commands.
Proof.
  intros Hc. unfold cli_commands in Hc.
  repeat (apply elem_of_cons in Hc as [->|Hc]); [..|by apply not_elem_of_nil in Hc];
    first [ by left | by right; left | by right; right; left
          | right; right; right; left; unfold send_commands; member
          | right; right; right; right; unfold query_commands; member ].
Qed.
#[local] Transparent readOperationResultCommand refreshState.

(** Whatever a command does but to bring a result or to reset, it asks for what
    was assumed. *)
Lemma command_keeps c args :
  c ∈ cli_commands → Use c ≠ "read_operation_result" → Use c ≠ "refresh_state" → kept (Execute c flags args).
Proof.
  intros [->|[->|[->|[Hc|Hc]]]]%commands_by_kind H1 H2;
    [apply getOperations_keeps|done|done|by apply send_keeps|by apply query_keeps].
Qed.
End frame.

(** ** The status of a round *)

Section status.
Context {W : Type} {client : HttpClient W}.
Context {ord : MapOrder} {kyber : Kyber} {json_client : ClientJSON} {json_keyring : JSON blsKeyringJSON}.
Context {json_tasks : JSON (list SigningTask)} {json_dump : JSON FSMDump} {json_spec : JSONSpec FSMDump}.

(** The states before the key generation has begun. *)
Definition before_dkg : list State :=
  [StateGlobalIdle; StateAwaitParticipantsConfirmations; StateValidationCanceledByParticipant;
   StateValidationCanceledByTimeout; StateSignatureProposalCollected].

(** Deals are private, so nobody waits for a deal of its own. *)
Definition awaited (username : string) (p : AnyParticipant) : bool :=
  Contains (GetStatus p) "Await" &&
  negb ((GetStatus p =s? "DealAwaitConfirmation") && (GetUsername p =s? username)).
Definition delivered (p : AnyParticipant) : bool := Contains (GetStatus p) "Confirmed".
Definition broken (p : AnyParticipant) : bool := Contains (GetStatus p) "Error".

Definition names (f : AnyParticipant → bool) (l : list AnyParticipant) : list string :=
  GetUsername <$> filter (fun p => f p = true) l.

Lemma names_cons f p l : names f (p :: l) = (if f p then [GetUsername p] else []) ++ names f l.
Proof.
  unfold names. rewrite filter_cons. destruct (f p); [by rewrite decide_True|by rewrite decide_False].
Qed.

Lemma classify_names u l w c f :
  foldl (classify u) (w, c, f) l = (w ++ names (awaited u) l, c ++ names delivered l, f ++ names broken l).
Proof.
  revert w c f. induction l as [|p l IH]; intros w c f; [by rewrite !app_nil_r|].
  cbn [foldl]. rewrite !names_cons. unfold classify at 2. fold (delivered p) (broken p).
  destruct ((Contains (GetStatus p) "Await" && (GetStatus p =s? "DealAwaitConfirmation")) && (GetUsername p =s? u)) eqn:Hskip.
  - rewrite IH. apply andb_true_iff in Hskip as [Hskip Hu]. apply andb_true_iff in Hskip as [Ha Hd].
    assert (awaited u p = false) as -> by (unfold awaited; by rewrite Ha, Hd, Hu).
    apply seqb_true in Hd. assert (delivered p = false) as -> by (unfold delivered; by rewrite Hd).
    assert (broken p = false) as -> by (unfold broken; by rewrite Hd). done.
  - assert (awaited u p = Contains (GetStatus p) "Await") as ->.
    { unfold awaited. destruct (Contains (GetStatus p) "Await"); [|done]. cbn in *. by rewrite Hskip. }
    rewrite IH. destruct (Contains (GetStatus p) "Await"), (delivered p), (broken p); by rewrite <-?app_assoc, ?app_nil_r.
Qed.

(** A line about some names, if there are any, that prints others. *)
Definition names_line (text : string) (l printed : list string) : string :=
  match l with [] => "" | _ => text +:+ Join printed ", " +:+ nl end.
Definition status_text (u : string) (l : list AnyParticipant) : string :=
  names_line "Waiting for data from: " (names (awaited u) l) (names (awaited u) l) +:+
  names_line "Received data from: " (names delivered l) (names delivered l) +:+
  names_line "Participants who got some error during a process: " (names broken l) (names (awaited u) l).

(** Which payloads a reachable instance has. *)
Lemma payloads_by_state i d p :
  reachable i → dump i = Some d → dump_Payload d = Some p →
  (dump_State d ∈ before_dkg ∧ pay_DKGProposalPayload p = None) ∨
  (dump_State d ∉ before_dkg ∧ HasPrefix (dump_State d) "state_sig_" = false ∧
   is_Some (pay_DKGProposalPayload p) ∧
   (HasPrefix (dump_State d) "state_signing" = true → is_Some (pay_SigningProposalPayload p))).
Proof.
  intros Hre Hd Hp. destruct (reachable_inst_ok i Hre) as (st & m & d' & p' & _ & Hd' & Hp' & _ & Hinv).
  rewrite Hd in Hd'. injection Hd' as <-. rewrite Hp in Hp'. injection Hp' as <-.
  assert (∀ sq q, dkg_ok p sq q → is_Some (pay_DKGProposalPayload p)) as Hdkg.
  { intros sq q [_ _ Hq _ _]. destruct (pay_DKGProposalPayload p); [by eexists|done]. }
  assert (∀ s, sig_inv p s → s ∈ before_dkg ∧ pay_DKGProposalPayload p = None) as Hsig.
  { intros s Hs. inversion Hs; simplify_eq;
      try match goal with H : fresh p |- _ => destruct H as (_ & ? & _) end;
      match goal with H : later_none p |- _ => destruct H as [Hn _] end;
      (split; [by apply (bool_decide_eq_true_1 (_ ∈ _))|exact Hn]). }
  assert (∀ s, dkg_inv p s → (s ∈ before_dkg ∧ pay_DKGProposalPayload p = None) ∨
    (s ∉ before_dkg ∧ HasPrefix s "state_sig_" = false ∧ HasPrefix s "state_signing" = false ∧
     is_Some (pay_DKGProposalPayload p))) as Hdk.
  { intros s Hs. inversion Hs; simplify_eq;
      try match goal with H : phase_ok _ _ _ |- _ => destruct H as [(? & ?) _ _] end;
      try match goal with H : failed_with _ _ |- _ => destruct H as (? & ? & ? & _) end;
      try match goal with H : timed_out _ |- _ => destruct H as (? & ? & ? & _) end;
      try match goal with H : dkg_done _ _ _ _ |- _ => destruct H as [? _ _] end;
      try (right; split_and!; [by apply (bool_decide_eq_true_1 (_ ∉ _))|done|done|by eapply Hdkg]).
    left. by apply Hsig. }
  destruct st; cbn [stage_inv] in Hinv.
  - left. by apply Hsig.
  - destruct (Hdk _ Hinv) as [?|(? & ? & Hns & ?)]; [by left|right]. split_and!; [done..|]. by rewrite Hns.
  - right. inversion Hinv as [Hd0|? ? ? ? Hb|? ? ? ? ? Hb|? ? ? ? ? Hb|? ? ? ? ? Hb|? ? ? ? Hb];
      [|destruct Hb as [[Hok _ _] Hc _];
        split_and!; [by apply (bool_decide_eq_true_1 (_ ∉ _))|done|by eapply Hdkg|by eexists]..].
    destruct (Hdk _ Hd0) as [[Hin _]|(? & ? & ? & ?)]; [|split_and!; try done].
    by apply (bool_decide_eq_false_1 (_ ∈ _)) in Hin.
Qed.
(** A request that is answered. *)
Lemma fetch_run {R} {j : JSON R} e1 e2 (m : IO W (bytes + error)) t body (resp : R) :
  m (outer t) = Ret (outer t, inl (inl body)) → unmarshal body = Some resp → fetch e1 e2 m t = Ret (t, inl resp).
Proof.
  intros Hm Hb. unfold fetch. erewrite run_bind.
  2: { apply run_wrap. by apply run_on_outer. }
  erewrite run_bind; [|reflexivity]. rewrite Hb. by destruct t.
Qed.


(** The two requests of the command, answered. *)
Record answered (host dkgID u : string) (d : FSMDump) (w : W) : Prop := {
  an_dump : ∃ body, http_Get (url host ("/getFSMDump?dkgID=" +:+ dkgID)) w = Ret (w, inl (inl body)) ∧
    unmarshal body = Some (mk_Response "" (Some d));
  an_username : ∃ body, http_Get (url host "/getUsername") w = Ret (w, inl (inl body)) ∧
    unmarshal body = Some (mk_Response "" (VString u))
}.

Lemma getUsername_run host dkgID u d (t : Term W) :
  answered host dkgID u d (outer t) → getUsername host t = Ret (t, inl u).
Proof.
  intros [_ (body & Hget & Hb)]. unfold getUsername, rawGetRequest.
  erewrite run_bind; [|apply run_wrap; by eapply fetch_run]. reflexivity.
Qed.

Definition say (s : string) (t : Term W) : Term W := set_stdout (stdout t +:+ s) t.

Lemma say_nothing t : say "" t = t.
Proof. unfold say. rewrite sapp_empty. by destruct t. Qed.
Lemma say_say a b t : say b (say a t) = say (a +:+ b) t.
Proof. unfold say. cbn. by rewrite sapp_assoc. Qed.

Lemma print_names_run text l printed t : print_names text l printed t = Ret (say (names_line text l printed) t, inl tt).
Proof. destruct l; cbn; [by rewrite say_nothing|done]. Qed.

Lemma print_status_run u l t :
  print_status (foldl (classify u) ([], [], []) l) t = Ret (say (status_text u l) t, inl tt).
Proof.
  rewrite classify_names. cbn [app]. unfold print_status, status_text.
  erewrite run_bind; [|apply print_names_run]. erewrite run_bind; [|apply print_names_run].
  by rewrite print_names_run, !say_say, ?sapp_assoc.
Qed.

Lemma print_pubkey_run b t : ∃ tail r, print_pubkey b t = Ret (say tail t, r).
Proof.
  unfold print_pubkey. destruct (slen b =? 0); [exists ""; eexists; by rewrite say_nothing|].
  destruct (LoadPubPolyBLSKeyringFromBytes b) as [kr|e]; [|exists ""; eexists; by rewrite say_nothing].
  erewrite run_bind; [|reflexivity].
  destruct (Point_MarshalBinary _) as [k|e]; [|exists ""; eexists; by rewrite say_nothing].
  erewrite run_bind; [|reflexivity]. by eexists _, _.
Qed.

(** *** The quorum of the stage *)

Lemma foldl_insert_lookup {X} (f : X → AnyParticipant) l (m : gmap Z AnyParticipant) k :
  NoDup l.*1 →
  foldl (fun m x => <[x.1 := f x.2]> m) m l !! k =
    match (list_to_map l : gmap Z X) !! k with Some x => Some (f x) | None => m !! k end.
Proof.
  induction l as [|[k' x] l IH] in m |- *; intros Hnd; [done|]. apply NoDup_cons in Hnd as [Hk Hnd].
  cbn [foldl list_to_map foldr fst snd]. rewrite IH by done. cbn. destruct (decide (k' = k)) as [->|Hne].
  - rewrite !lookup_insert_eq. by rewrite (not_elem_of_list_to_map_1 l k Hk).
  - by rewrite !lookup_insert_ne.
Qed.

Lemma add_participants_eq {X} (f : X → AnyParticipant) (q : gomap Z X) : add_participants f q ∅ = f <$> default ∅ q.
Proof.
  unfold add_participants. apply map_eq. intros k. generalize (default ∅ q). intros m.
  assert (range m ≡ₚ map_to_list m) as Hp by apply shuffle_perm.
  rewrite foldl_insert_lookup by (rewrite Hp; apply NoDup_fst_map_to_list).
  rewrite (list_to_map_proper (M := gmap Z) (range m) (map_to_list m)), list_to_map_to_list, lookup_fmap;
    [by destruct (m !! k)| |exact Hp].
  rewrite Hp. apply NoDup_fst_map_to_list.
Qed.

(** The states in which signatures are collected or were. *)
Definition batch_states : list State :=
  [StateSigningAwaitPartialSigns; StateSigningPartialSignsCollected;
   StateSigningPartialSignsAwaitCancelledByTimeout; StateSigningPartialSignsAwaitCancelledByError].
(** The states of the key generation, from its first phase to its end. *)
Definition dkg_states : list State :=
  [StateDkgCommitsAwaitConfirmations; StateDkgCommitsAwaitCanceledByError; StateDkgCommitsAwaitCanceledByTimeout;
   StateDkgDealsAwaitConfirmations; StateDkgDealsAwaitCanceledByError; StateDkgDealsAwaitCanceledByTimeout;
   StateDkgResponsesAwaitConfirmations; StateDkgResponsesAwaitCanceledByError;
   StateDkgResponsesAwaitCanceledByTimeout; StateDkgMasterKeyAwaitConfirmations;
   StateDkgMasterKeyAwaitCanceledByError; StateDkgMasterKeyAwaitCanceledByTimeout; StateDkgMasterKeyCollected].

(** Whom the status is about: the signers of the batch, the participants of the
    key generation, or nobody between two batches. *)
Definition stage_quorum (s : State) (p : DumpedMachineStatePayload) : gmap Z AnyParticipant :=
  if bool_decide (s ∈ batch_states) then
    ASigningProposalParticipant <$> default ∅ (pay_SigningProposalPayload p ≫= nc_Quorum)
  else if bool_decide (s ∈ dkg_states) then
    ADKGProposalParticipant <$> default ∅ (pay_DKGProposalPayload p ≫= dc_Quorum)
  else ∅.

(** The command tells the states apart by their prefixes. *)
Definition told_apart (s : State) : bool :=
  bool_decide (s ∈ before_dkg) ||
  (Bool.eqb (HasPrefix s "state_signing") (bool_decide (s ∈ batch_states)) &&
   Bool.eqb (HasPrefix s "state_dkg") (bool_decide (s ∈ dkg_states)) &&
   negb (bool_decide (s ∈ batch_states) && bool_decide (s ∈ dkg_states))).

Lemma states_told_apart st p s : stage_inv st p s → told_apart s = true.
Proof.
  assert (∀ l : list State, forallb told_apart l = true → s ∈ l → told_apart s = true) as Hl.
  { intros l. rewrite forallb_forall. intros H Hs%list_elem_of_In. by apply H. }
  destruct st; cbn [stage_inv].
  - intros [Hs|Hs]%sig_inv_states; revert Hs; apply Hl; vm_compute; reflexivity.
  - intros [Hs|Hs]%dkg_inv_states; revert Hs; apply Hl; vm_compute; reflexivity.
  - intros Hs%signing_inv_states. revert Hs. apply Hl. vm_compute. reflexivity.
Qed.

Lemma current_quorum_eq i d p :
  reachable i → dump i = Some d → dump_Payload d = Some p → dump_State d ∉ before_dkg →
  is_Some (pay_DKGProposalPayload p) ∧ current_quorum d = Ret (stage_quorum (dump_State d) p).
Proof.
  intros Hre Hd Hp Hs. destruct (payloads_by_state i d p Hre Hd Hp) as [[Hin _]|(_ & Hsig & Hdkg & Hsign)]; [done|].
  split; [exact Hdkg|]. destruct Hdkg as [c Hc].
  destruct (reachable_inst_ok i Hre) as (st & m & d' & p' & _ & Hd' & _ & _ & Hinv%states_told_apart).
  rewrite Hd in Hd'. injection Hd' as <-. unfold told_apart in Hinv.
  rewrite bool_decide_false in Hinv by done. cbn [orb] in Hinv.
  rewrite !andb_true_iff, !eqb_true_iff, negb_true_iff in Hinv. destruct Hinv as [[H1 H2] H3].
  unfold current_quorum, stage_quorum. rewrite Hp, Hsig. cbn [deref mbind Go_bind]. rewrite H1, H2 in *.
  destruct (bool_decide (dump_State d ∈ batch_states)) eqn:Hb.
  - destruct (Hsign eq_refl) as [n Hn]. cbn [andb] in H3. rewrite H3, Hn. cbn. by rewrite add_participants_eq.
  - cbn. rewrite Hc. destruct (bool_decide (dump_State d ∈ dkg_states)); cbn; [by rewrite add_participants_eq|done].
Qed.

(** C33. The status of a reachable round whose key generation has begun: the
    client prints its state, then who is waited for, who has delivered and the
    line about errors, which names those who are waited for; nothing panics.
    They are picked from the signers of the batch once one has been started,
    from the participants of the key generation before, and from nobody between
    two batches.
    Before the key generation has begun, while the proposal is being answered
    among others, the command panics. *)
Theorem fsm_status_spec i d p flags host dkgID u (t : Term W) :
  reachable i → dump i = Some d → dump_Payload d = Some p →
  GetString flags flagListenAddr = inl host → answered host dkgID u d (outer t) →
  if bool_decide (dump_State d ∈ before_dkg)
  then ∃ why, Execute getFSMStatusCommand flags [dkgID] t = Panic why
  else ∃ tail r,
    Execute getFSMStatusCommand flags [dkgID] t =
      Ret (say ("FSM current status is " +:+ dump_State d +:+ nl +:+
                status_text u (range (stage_quorum (dump_State d) p)).*2 +:+ tail) t, r).
Proof.
  intros Hre Hd Hp Hhost Ha. pose proof (an_dump _ _ _ _ _ Ha) as (body & Hget & Hbody).
  assert (∀ s, answered host dkgID u d (outer (say s t))) as Ha' by done.
  unfold Execute, getFSMStatusCommand. cbn [Args ExactArgs RunE length].
  rewrite (bool_decide_true (1%nat = 1%nat)) by done. unfold listen_addr, getFSMDumpRequest. rewrite Hhost.
  do 2 (erewrite run_bind; [|reflexivity]).
  erewrite run_bind; [|apply run_wrap; by eapply fetch_run].
  do 2 (erewrite run_bind; [|reflexivity]). cbn [Result].
  erewrite run_bind; [|reflexivity].
  match goal with |- context [lift (current_quorum d) ≫= ?k] => set (rest := k) end.
  fold (say ("FSM current status is " +:+ dump_State d +:+ nl) t).
  assert (∀ q, current_quorum d = Ret q → (lift (current_quorum d) ≫= rest) (say ("FSM current status is " +:+ dump_State d +:+ nl) t) =
    (p0 ← lift (deref (dump_Payload d)); c ← lift (deref (pay_DKGProposalPayload p0)); print_pubkey (dc_PubPolyBz c))
      (say ("FSM current status is " +:+ dump_State d +:+ nl +:+ status_text u (range q).*2) t)) as Hrest.
  { intros q Hq. erewrite run_bind; [|unfold lift; by rewrite Hq]. unfold rest.
    erewrite run_bind; [|apply run_wrap; eapply getUsername_run, Ha'].
    erewrite run_bind; [|apply print_status_run]. rewrite say_say. by rewrite !sapp_assoc. }
  rewrite Hp in Hrest.
  destruct (payloads_by_state i d p Hre Hd Hp) as [[Hin Hnone]|(Hnin & _)].
  - rewrite bool_decide_true by done. destruct (current_quorum d) as [q|why] eqn:Hq; [|by eexists].
    rewrite (Hrest q eq_refl). erewrite run_bind; [|reflexivity]. rewrite Hnone. by eexists.
  - rewrite bool_decide_false by done. destruct (current_quorum_eq i d p Hre Hd Hp Hnin) as [[c Hc] Hq].
    set (q := stage_quorum (dump_State d) p) in *. rewrite Hq in *. rewrite (Hrest q eq_refl).
    erewrite run_bind; [|reflexivity]. rewrite Hc. erewrite run_bind; [|reflexivity].
    destruct (print_pubkey_run (dc_PubPolyBz c) (say ("FSM current status is " +:+ dump_State d +:+ nl +:+ status_text u (range q).*2) t))
      as (tail & r & ->). exists tail, r. rewrite say_say. by rewrite !sapp_assoc.
Qed.
End status.
