(* ===== verification/Operator.v ===== *)
(** * The operator of a node

    The command-line client with a node behind its HTTP client: requests are
    routed to the handlers of the API. What the commands of an operator do to
    the node. *)

From S2P Require Import Prelude GoFsm Requests Payload.
From S2P Require Import SignatureProposal DkgProposal SigningProposal StateMachines Protocol.
From S2P Require Import LevelState ClientTypes OperationRepo SignatureRepo FsmService JsonText Representable.
From S2P Require Import IOLogic Kyber Dkg SigningTasks KeyStore Services NodeService NodeSpec ProcessMessage NodeRounds.
From S2P Require Import MachineStore Airgapped HttpApi HttpSpec GoText CliArgs Shell Statuses Utils Cli CliSpec.

#[local] Opaque SignatureProposal.New DkgProposal.New SigningProposal.New.

(** ** The transport *)

(** The path of an address: without the scheme, the host, and the query. *)
Definition url_path (address : string) : string :=
  let rest := sdrop 7 address in
  match cut (fun c => Ascii.eqb c "/") rest with
  | None => "/"
  | Some (_, path) =>
      "/" +:+ match cut (fun c => Ascii.eqb c "?") path with Some (path, _) => path | None => path end
  end.

(** The network: whether a connection is made, the request that arrives, and
    the body that the client reads. *)
Class Network (Q : Type) : Type := {
  connects : string → option error;
  request_of : string → bytes → Q;
  body_of : HttpResponse → bytes + error
}.

Section operator.
Context {S : Type} {st : NodeState S} {lerr : LevelDBErr} {spec : NodeStateSpec S}
  {stg : Storage S} {keys : KeyStore S} {env : Env S} {world : WorldSpec S}.
Context {crypto : Crypto} {scrypto : SigningCrypto} {kyber : Kyber} {wc : WcRotation}.
Context {ord : MapOrder} {json_tasks : JSON (list SigningTask)} {json_dump : JSON FSMDump}
  {json_spec : JSONSpec FSMDump} {json_dumps : JSON Dumps} {jmap : JSONMap bytes}
  {json_ops : JSON Operations} {json_sigs : JSON SignaturesStorage}
  {json_recs : JSON (list ReconstructedSignature)} {json_oplist : JSON (list Operation)}
  {json_redkg : JSON ReDKG} {json_keyring : JSON blsKeyringJSON}
  {jreq : RequestsJSON} {jresp : ResponsesJSON} {json_reinit : JSON ReInitDKGForm}.
Context {Q : Type} {forms : HttpForms Q} {dtos : FormDTOs} {router : EchoRouter} {network : Network Q}.
Context {sorter : KeySort} {floats : FloatConversion} {json_client : ClientJSON}.

(** The operator's computer: files, directories and a clock. *)
Context {F : Type} {infiles : InputFiles F} {files : ResultFiles F} {dirs : Directories F} {clock : Env F}.

(** The node and the computer of its operator. *)
Abbreviation Site := (BaseNodeService S * F)%type (only parsing).

Definition set_node (n : BaseNodeService S) (w : Site) : Site := (n, w.2).
Definition set_computer (f : F) (w : Site) : Site := (w.1, f).

#[global] Instance site_infiles : InputFiles Site := fun path => zoom snd set_computer (ioutil_ReadFile path).
#[global] Instance site_files : ResultFiles Site := {|
  os_OpenFile path := zoom snd set_computer (os_OpenFile path);
  os_Write path b := zoom snd set_computer (os_Write path b) |}.
#[global] Instance site_dirs : Directories Site := fun path => zoom snd set_computer (ioutil_ReadDir path).
#[global] Instance site_env : Env Site := {|
  time_Now := zoom snd set_computer time_Now;
  uuid_New := zoom snd set_computer uuid_New;
  rand_Int n := zoom snd set_computer (rand_Int n);
  rand_Bytes n := zoom snd set_computer (rand_Bytes n) |}.

(** A request to the node; a panic of a handler is one of the model. *)
Definition send_request (m address : string) (data : bytes) : IO Site (bytes + error) :=
  match connects address with
  | Some err => throw err
  | None =>
      resp ← zoom fst set_node (serve m (url_path address) (request_of address data));
      mret (body_of resp)
  end.
#[global] Instance site_client : HttpClient Site := {|
  http_Get address := send_request GET address "";
  http_Post address contentType data := send_request POST address data |}.

(** A command of the client at a site. *)
Definition operate (flags : gmap string FlagValue) (c : Command Site) (args : list string) : IO (Term Site) unit :=
  Execute c flags args.

(** ** Sessions *)

(** A message of the board that the node polls, a command, or a change that the
    operator makes to the files, as when results come from the other machine. *)
Inductive SessionStep : Type :=
| Polled (message : Message)
| Operated (c : Command Site) (args : list string)
| Carried (change : F → F).

Definition session_step (flags : gmap string FlagValue) (s : SessionStep) : IO (Term Site) unit :=
  match s with
  | Polled message => on_outer (zoom fst set_node (poll_message message))
  | Operated c args => r ← try (operate flags c args); mret tt
  | Carried change => modify (fun t => set_outer (set_computer (change (outer t).2) (outer t)) t)
  end.

(** Not a reinitialisation, the result of an operation, or a reset; and a
    message whose round and request JSON takes. *)
Definition common (s : SessionStep) : Prop :=
  match s with
  | Polled message => msg_Event message ≠ ReinitDKG ∧ representable_message message
  | Operated c args => c ∈ cli_commands ∧ Use c ≠ "read_operation_result" ∧ Use c ≠ "refresh_state"
  | Carried _ => True
  end.

Definition plain_host (host : string) : Prop := sforall (fun c => negb (Ascii.eqb c "/")) host = true.

Lemma url_path_posted host path : plain_host host → path ∈ posted_paths → url_path (url host path) = path.
Proof.
  intros Hh Hp. assert (∃ tail, path = String "/" tail ∧ cut (fun c => Ascii.eqb c "?") tail = None) as (tail & -> & Ht).
  { unfold posted_paths in Hp. repeat (apply elem_of_cons in Hp as [->|Hp]); [..|by apply not_elem_of_nil in Hp];
      by eexists. }
  unfold url_path, url. assert (sdrop 7 ("http://" +:+ host +:+ String "/" tail) = host +:+ String "/" tail) as ->.
  { by rewrite !sapp_cons, sapp_nil. }
  rewrite cut_app, Ht by done. by rewrite sapp_cons, sapp_nil.
Qed.

(** *** The parts of a site *)

Section parts.
Context (I : BaseNodeService S → Prop).
Abbreviation at_node := (fun w : Site => I w.1) (only parsing).

Lemma computer_keeps {A} (m : IO F A) : keeps at_node (zoom snd set_computer m).
Proof. apply keeps_zoom with (J := fun _ => True); [done|by intros f []|apply keeps_True]. Qed.

Lemma node_keeps {A} (m : IO (BaseNodeService S) A) : keeps I m → keeps at_node (zoom fst set_node m).
Proof. by apply keeps_zoom. Qed.

Lemma send_keeps_node m address data :
  (∀ q, keeps I (serve m (url_path address) q)) → keeps at_node (send_request m address data).
Proof.
  intros Hs. unfold send_request. destruct (connects address); [apply keeps_throw|].
  apply keeps_bind; [by apply node_keeps|]. intros. apply keeps_ret.
Qed.
End parts.

(** A request that only reads leaves the node as it is. *)
Lemma get_keeps (I : BaseNodeService S → Prop) path q :
  (∀ n, I n → ready (deps n)) → keeps I (serve GET path q).
Proof.
  intros Hready n Hn.
  assert (∀ h, find_route GET path = Some h → handles (fun x => x = n) (h q)) as Hh.
  { intros h Hf. apply (get_handler n (Hready n Hn) GET path h q); done. }
  pose proof (serve_handles (fun x => x = n) GET path q Hh n) as H.
  destruct (serve GET path q n) as [[n' [r|e]]|]; [|done..]. by rewrite (proj1 (proj2 H)).
Qed.

Section session.
Context (fsm : FSMService) (ops : BaseOperationRepo) (k0 : string).
Context (Hjson : dumps_faithful) (Hclock : clock_dated (S := S)) (Hapart : keys_apart fsm ops k0).
Context (flags : gmap string FlagValue) (host : string).
Context (Hhost : GetString flags flagListenAddr = inl host) (Hplain : plain_host host).
Abbreviation node_rounds := (node_rounds fsm ops k0) (only parsing).

Lemma post_keeps path q : path ∈ posted_paths → keeps node_rounds (serve POST path q).
Proof.
  intros Hp n Hn. assert (ordinary path q) as Ho.
  { unfold posted_paths in Hp. split; [intros ->|intros ->; exfalso];
      repeat (apply elem_of_cons in Hp as [Hp|Hp]; [discriminate Hp|]); by apply not_elem_of_nil in Hp. }
  pose proof (serve_handles node_rounds POST path q
    (fun h => ordinary_handler fsm ops k0 Hapart POST path h q Ho) n) as H.
  destruct (serve POST path q n) as [[n' [r|e]]|]; [by apply H|done..].
Qed.

Lemma operated_keeps c args :
  common (Operated c args) → keeps (fun t : Term Site => node_rounds (outer t).1) (operate flags c args).
Proof.
  intros (Hc & H1 & H2). unfold operate.
  refine (command_keeps (fun w : Site => node_rounds w.1) flags host Hhost _ _ _ _ _ _ _ c args Hc H1 H2); intros;
    try apply computer_keeps.
  - apply send_keeps_node. intros q. apply get_keeps. intros n Hn. apply Hn.
  - apply send_keeps_node. intros q. rewrite url_path_posted by done. by apply post_keeps.
Qed.

Lemma session_step_keeps s :
  common s → keeps (fun t : Term Site => node_rounds (outer t).1) (session_step flags s).
Proof.
  destruct s as [m|c args|g]; cbn [session_step]; intros Hs.
  - apply keeps_zoom with (J := fun w : Site => node_rounds w.1); [done..|]. apply node_keeps.
    destruct Hs. by apply poll_message_keeps.
  - apply keeps_bind; [by apply keeps_try, operated_keeps|]. intros. apply keeps_ret.
  - by intros t Ht.
Qed.

(** C5. The operator's day: messages of the board, commands of the client and
    files carried between machines, in any order, as long as none is a
    reinitialisation, a result or a reset, the messages' rounds and requests are
    ones that JSON takes (valid UTF-8; times between year 1 and the last day of
    year 9999, a week earlier where a deadline is computed) and the node's clock
    is not in the last week of year 9999, leave the rounds of the node dumps of
    reachable instances; and the commands that query, among them the listing of
    a round's status, the export of signatures and the file of an operation,
    leave the node and everything behind it as they were. *)
Theorem operator_session (t t' : Term Site) steps r :
  node_rounds (outer t).1 → Forall common steps → iterIO (session_step flags) steps t = Ret (t', r) →
  node_rounds (outer t').1 ∧
  ∀ c args t2 r2, c ∈ query_commands → operate flags c args t' = Ret (t2, r2) → (outer t2).1 = (outer t').1.
Proof.
  intros Ht Hs Hrun.
  assert (node_rounds (outer t').1) as Ht'.
  { refine (keeps_run (fun x : Term Site => node_rounds (outer x).1) _ _ _ _ _ Ht Hrun). clear Hrun. unfold iterIO.
    induction Hs as [|s steps Hc _ IH]; cbn [foldIO]; [apply keeps_ret|].
    apply keeps_bind; [by apply session_step_keeps|]. by intros []. }
  split; [done|]. intros c args t2 r2 Hc Hop.
  assert (keeps (fun x : Term Site => (outer x).1 = (outer t').1) (operate flags c args)) as Hk.
  { refine (query_keeps (fun w : Site => w.1 = (outer t').1) flags host Hhost _ _ _ _ c args Hc);
      intros; try apply (computer_keeps (fun n => n = (outer t').1)).
    apply (send_keeps_node (fun n => n = (outer t').1)). intros q. apply get_keeps. intros n ->. apply Ht'. }
  exact (keeps_run (fun x : Term Site => (outer x).1 = (outer t').1) _ _ _ _ Hk eq_refl Hop).
Qed.
End session.
End operator.
