(* ===== verification/ReinitTool.v ===== *)
(** * The reinitialisation tool, [cmd/dkg_reinitializer/main.go]

    From a dump of the board and a file of new keys to the file that
    [reinit_dkg] of the command-line client posts. *)

From S2P Require Import Prelude GoFsm Requests Payload.
From S2P Require Import SignatureProposal DkgProposal SigningProposal StateMachines.
From S2P Require Import LevelState ClientTypes OperationRepo SignatureRepo FsmService.
From S2P Require Import IOLogic Kyber Dkg SigningTasks KeyStore Services NodeService ProcessMessage.
From S2P Require Import GoText Shell Utils.

Definition flagInputFile : string := "input".
Definition flagOutputFile : string := "output".
Definition flagKeysFile : string := "keys".
Definition flagSeparator : string := "separator".
Definition flagColumnIndex : string := "column".
Definition flagSkipHeader : string := "skip-header".
Definition flagAdapt014 : string := "adapt_0_1_4".

Definition reinit_flags : gmap string FlagValue := list_to_map
  [(flagInputFile, FString "");
   (flagOutputFile, FString "./reinit.json");
   (flagKeysFile, FString "./keys.json");
   (flagSeparator, FString ";");
   (flagColumnIndex, FInt 4);
   (flagSkipHeader, FBool false);
   (flagAdapt014, FBool true)].

(** [json.MarshalIndent] with two spaces, and the decoder of the keys. *)
Class ReinitJSON : Type := {
  MarshalIndent : ReDKG → option bytes;
  decode_keys : bytes → option (gomap string bytes)
}.

Section tool.
Context {W : Type} {opened : OpenedFiles W} {out : OutputFiles W} {csv : CSV} {into : JSONInto Message}
  {rj : ReinitJSON}.
Context {jreq : RequestsJSON}.
(** What [uuid.New] gives in turn. *)
Context (uuid : nat → string).

Definition readMessages (flags : gmap string FlagValue) : IO (Term W) (list Message) :=
  let inputFilePath := value_or "" (GetString flags flagInputFile) in
  match value_or "" (GetString flags flagSeparator) with
  | EmptyString => throw (Err "invalid (empty) separator")
  | String separator _ =>
      let columnIndex := value_or 0 (GetInt flags flagColumnIndex) in
      if columnIndex <? 0 then throw (Err "invalid (negative) column index")
      else on_outer (ReadLogMessages inputFilePath separator (value_or false (GetBool flags flagSkipHeader)) columnIndex)
  end.

Definition reinit : Command W := mk_Command "reinit" None (fun flags args =>
  messages ← wrap "failed to readMessages" (readMessages flags);
  newKeysFile ← wrap "failed to Open keys file"
    (on_outer (os_Open (value_or "" (GetString flags flagKeysFile))));
  data ← wrap "failed to json.Decode keys" (of_res newKeysFile);
  newCommPubKeys ← json_res "failed to json.Decode keys" (decode_keys data);
  reDKG ← wrap "failed to generate reDKG message" (lift_res (GenerateReDKGMessage messages newCommPubKeys));
  reDKG ← (if value_or false (GetBool flags flagAdapt014) then
             wrap "failed to adapt reinit DKG message from 0.1.4" (of_res (GetAdaptedReDKG uuid reDKG))
           else mret reDKG);
  reDKGBz ← json_res "failed to encode reinit DKG message" (MarshalIndent reDKG);
  let outputFile := value_or "" (GetString flags flagOutputFile) in
  if slen outputFile =? 0 then Println reDKGBz
  else wrap "failed to save reinit DKG JSON" (on_outer (ioutil_WriteFile outputFile reDKGBz))).

Definition reinit_main (flags : gmap string FlagValue) (name : string) (args : list string) : IO (Term W) unit :=
  wrap "Failed to execute root command" (ExecuteRoot [reinit] flags name args).
End tool.
