(* ===== verification/PrysmCheck.v ===== *)
(** * The Prysm check, [pkg/prysm/prysm.go] and [cmd/prysm_compatibility_checker]

    Signatures and keys checked by another BLS library, which is a class. A
    command ends the process with [log.Fatal] where it does not print that all is
    well; this is an error of the model. *)

From S2P Require Import Prelude LevelState ClientTypes IOLogic SigningTasks GoText Airgapped Shell Utils.

(** [github.com/prysmaticlabs/prysm/v3/crypto/bls] *)
Class PrysmBLS : Type := {
  PrysmPublicKey : Type;
  PrysmSignature : Type;
  PublicKeyFromBytes : bytes → PrysmPublicKey + error;
  SignatureFromBytes : bytes → PrysmSignature + error;
  prysm_Verify : PrysmSignature → PrysmPublicKey → bytes → bool
}.

Section check.
Context {W : Type} {infiles : InputFiles W} {prysm : PrysmBLS} {ord : MapOrder}
  {json_exported : JSON ExportedSignatures}.

Definition base64_decoded (msg : string) (s : string) : IO (Term W) bytes :=
  wrap msg (json_res "base64" (base64_DecodeString s)).

(** The body of the loop over the signatures. *)
Definition verify_entry (prysmPubKey : PrysmPublicKey) (dataDir : string) (signature : ExportedSignatureEntity)
    : IO (Term W) unit :=
  prysmSig ← wrap "failed to get prysm sig from bytes" (of_res (SignatureFromBytes (es_Signature signature)));
  msg ← wrap "failed to read file" (on_outer (ioutil_ReadFile (filepath_Join dataDir (es_File signature))));
  if negb (prysm_Verify prysmSig prysmPubKey msg) then throw (Err "failed to verify prysm signature for file")
  else mret tt.

Definition BatchVerification (exportedSignatures : ExportedSignatures) (pubkeyb64 dataDir : string)
    : IO (Term W) unit :=
  pubkey ← base64_decoded "failed to decode pubkey bytes from string" pubkeyb64;
  prysmPubKey ← wrap "failed to get prysm pubkey from bytes" (of_res (PublicKeyFromBytes pubkey));
  iterIO (verify_entry prysmPubKey dataDir) (range exportedSignatures).*2.

Definition checkSignature : Command W := mk_Command "check_signature" (Some 1%nat) (fun flags args =>
  a ← arg args 0;
  sig ← base64_decoded "failed to decode signature bytes from string" a;
  _ ← wrap "failed to get prysm sig from bytes" (of_res (SignatureFromBytes sig));
  Println "Signature is correct").

Definition checkPubKey : Command W := mk_Command "check_pubkey" (Some 1%nat) (fun flags args =>
  a ← arg args 0;
  pubkey ← base64_decoded "failed to decode pubkey bytes from string" a;
  _ ← wrap "failed to get prysm pubkey from bytes" (of_res (PublicKeyFromBytes pubkey));
  Println "Public key is correct").

Definition verify : Command W := mk_Command "verify" (Some 3%nat) (fun flags args =>
  a ← arg args 0;
  sig ← base64_decoded "failed to decode signature bytes from string" a;
  prysmSig ← wrap "failed to get prysm sig from bytes" (of_res (SignatureFromBytes sig));
  a ← arg args 1;
  pubkey ← base64_decoded "failed to decode pubkey bytes from string" a;
  prysmPubKey ← wrap "failed to get prysm pubkey from bytes" (of_res (PublicKeyFromBytes pubkey));
  path ← arg args 2;
  msg ← wrap "failed to read file" (on_outer (ioutil_ReadFile path));
  if negb (prysm_Verify prysmSig prysmPubKey msg) then throw (Err "failed to verify prysm signature")
  else Println "Signature is correct").

Definition verifyBatch : Command W := mk_Command "verify_batch" (Some 3%nat) (fun flags args =>
  exportedSignaturesFile ← arg args 0;
  pubkeyb64 ← arg args 1;
  dataDir ← arg args 2;
  data ← wrap "failed to read exported signatures file" (on_outer (ioutil_ReadFile exportedSignaturesFile));
  exportedSignatures ← json_res "failed to unmarshal exported signatures data" (unmarshal data);
  _ ← BatchVerification exportedSignatures pubkeyb64 dataDir;
  Println "All batch signatures are correct").

Definition prysm_commands : list (Command W) := [checkPubKey; checkSignature; verify; verifyBatch].

Definition prysm_main (flags : gmap string FlagValue) (name : string) (args : list string) : IO (Term W) unit :=
  wrap "Failed to execute root command" (ExecuteRoot prysm_commands flags name args).
End check.
