(* ===== verification/ToolSpec.v ===== *)
(** * The tools together

    What the client exports is what the Prysm check verifies; what the
    reinitialisation tool writes is what the client hashes and posts. The tools
    meet in files: [DiskSpec] is what they rely on of a disk that works. *)

From S2P Require Import Prelude GoFsm Requests Payload.
From S2P Require Import SignatureProposal DkgProposal SigningProposal StateMachines.
From S2P Require Import LevelState ClientTypes OperationRepo SignatureRepo FsmService.
From S2P Require Import IOLogic Kyber Dkg SigningTasks KeyStore Services NodeService ProcessMessage AdaptSpec.
From S2P Require Import MachineStore Airgapped HttpApi GoText CliArgs Shell Statuses Utils Cli CliSpec ReinitTool PrysmCheck.

(** ** A disk that works *)

Class DiskSpec (W : Type) {infiles : InputFiles W} {files : ResultFiles W} {opened : OpenedFiles W}
    {out : OutputFiles W} : Type := {
  content : W → gmap string bytes;
  ReadFile_content path w :
    ioutil_ReadFile path w = Ret (w, match content w !! path with Some b => inl b | None => inr (Err "no such file") end);
  Open_content path w :
    os_Open path w =
      Ret (w, match content w !! path with Some b => inl (inl b) | None => inr (Err "no such file") end);
  (** A file that is opened for writing keeps its bytes. *)
  OpenFile_content path w :
    ∃ w', os_OpenFile path w = Ret (w', inl tt) ∧
      content w' = <[path := default "" (content w !! path)]> (content w);
  (** Bytes are written over the first ones of the file. *)
  Write_content path b w old : content w !! path = Some old →
    ∃ w', os_Write path b w = Ret (w', inl tt) ∧
      content w' = <[path := b +:+ sdrop (String.length b) old]> (content w);
  WriteFile_content path b w :
    ∃ w', ioutil_WriteFile path b w = Ret (w', inl tt) ∧ content w' = <[path := b]> (content w)
}.

Lemma sdrop_short b old : slen old ≤ slen b → sdrop (String.length b) old = "".
Proof.
  unfold slen. intros H. assert (String.length old ≤ String.length b)%nat as Hle by lia. clear H.
  revert Hle. generalize (String.length b). intros n. revert old.
  induction n as [|n IH]; intros [|c old]; cbn; try done; [lia|]. intros H. apply IH. lia.
Qed.
Section export.
Context {W : Type} {client : HttpClient W} {infiles : InputFiles W} {files : ResultFiles W}
  {opened : OpenedFiles W} {out : OutputFiles W} {disk : DiskSpec W}.
Context {ord : MapOrder} {json_client : ClientJSON} {prysm : PrysmBLS}.

(** Opening a file and writing to it what is not shorter than it was. *)
Lemma write_over path b w :
  (∀ old, content w !! path = Some old → slen old ≤ slen b) →
  ∃ w1 w2, os_OpenFile path w = Ret (w1, inl tt) ∧ os_Write path b w1 = Ret (w2, inl tt) ∧
    content w2 = <[path := b]> (content w).
Proof.
  intros Hold. destruct (OpenFile_content path w) as (w1 & Hop & Hc1).
  destruct (Write_content path b w1 (default "" (content w !! path))) as (w2 & Hwr & Hc2).
  { by rewrite Hc1, lookup_insert_eq. }
  exists w1, w2. split_and!; [done..|]. rewrite Hc2, Hc1, insert_insert_eq. f_equal.
  rewrite sdrop_short; [apply sapp_empty|]. destruct (content w !! path) as [old|] eqn:Ho; [by apply Hold|].
  cbn. unfold slen. cbn. lia.
Qed.

(** ** Exporting *)

Definition export_path (folder dkgID : string) : string :=
  filepath_Join folder ("dkg_signatures_dump_" +:+ String.substring 0 5 dkgID +:+ ".json").

Lemma export_run flags host folder dkgID t body result bz :
  GetString flags flagListenAddr = inl host → GetString flags flagJSONFilesFolder = inl folder →
  GetBool flags flagPrintFullSignaturesInfo = inl false →
  http_Get (url host ("/getSignatures?dkgID=" +:+ dkgID)) (outer t) = Ret (outer t, inl (inl body)) →
  unmarshal body = Some (mk_Response "" (Some result)) →
  merge_batches result ≠ ∅ → map_Forall (fun _ es => es ≠ []) (merge_batches result) → 5 ≤ slen dkgID →
  marshal (omap (fun es => exported <$> head es) (merge_batches result) : ExportedSignatures) = Some bz →
  (∀ old, content (outer t) !! export_path folder dkgID = Some old → slen old ≤ slen bz) →
  ∃ t', Execute exportSignaturesCommand flags [dkgID] t = Ret (t', inl tt) ∧
    content (outer t') = <[export_path folder dkgID := bz]> (content (outer t)).
Proof.
  intros Hhost Hfolder Hprint Hget Hbody Hne Hall Hlen Hbz Hold.
  destruct (write_over (export_path folder dkgID) bz (outer t) Hold) as (w1 & w2 & Hop & Hwr & Hc).
  assert (getSignatures host dkgID t = Ret (t, inl (merge_batches result))) as Hsigs.
  { unfold getSignatures. erewrite run_bind; [|by eapply fetch_run]. reflexivity. }
  assert (slice_to dkgID 5 = Ret (String.substring 0 5 dkgID)) as Hslice.
  { unfold slice_to. unfold slen in Hlen. by rewrite (proj2 (Nat.ltb_ge _ _)) by lia. }
  eexists. split.
  - unfold Execute, exportSignaturesCommand. cbn [Args ExactArgs RunE length].
    unfold listen_addr. rewrite Hhost, Hfolder, Hprint. rewrite bool_decide_true by done.
    do 4 (erewrite run_bind; [|reflexivity]).
    erewrite run_bind; [|by apply run_wrap]. cbv beta.
    rewrite bool_decide_false by done. cbv beta iota.
    erewrite run_bind; [|unfold lift; by rewrite Hslice]. cbv beta zeta.
    fold (export_path folder dkgID).
    erewrite run_bind; [|by apply run_wrap, run_on_outer].
    rewrite PrepareSignaturesToDump_inl by done.
    erewrite run_bind; [|reflexivity].
    erewrite run_bind; [|by rewrite Hbz].
    erewrite run_bind; [|by apply run_wrap, run_on_outer].
    reflexivity.
  - exact Hc.
Qed.

(** ** Verifying *)

(** A file that holds a message, signed for the key. *)
Definition verifies (files : gmap string bytes) (pk : PrysmPublicKey) (dir : string) (e : ExportedSignatureEntity) : Prop :=
  ∃ sig msg, SignatureFromBytes (es_Signature e) = inl sig ∧ files !! filepath_Join dir (es_File e) = Some msg ∧
    prysm_Verify sig pk msg = true.

Lemma verify_entry_run pk dir e (t : Term W) :
  ∃ r, verify_entry pk dir e t = Ret (t, r) ∧ (r = inl tt ↔ verifies (content (outer t)) pk dir e).
Proof.
  unfold verify_entry, verifies. destruct (SignatureFromBytes (es_Signature e)) as [sig|err] eqn:Hs.
  2: { eexists. split; [reflexivity|]. split; [done|]. by intros (? & ? & ? & _). }
  erewrite run_bind; [|reflexivity].
  pose proof (ReadFile_content (filepath_Join dir (es_File e)) (outer t)) as Hread.
  destruct (content (outer t) !! _) as [msg|] eqn:Hm.
  - erewrite run_bind; [|by apply run_wrap, run_on_outer]. destruct t as [o l w]. cbn.
    destruct (prysm_Verify sig pk msg) eqn:Hv; cbn; (eexists; split; [reflexivity|]).
    + split; [|done]. intros _. by exists sig, msg.
    + split; [done|]. intros (s' & m' & [= <-] & [= <-] & Hv'). congruence.
  - eexists. split.
    + unfold wrap, mbind, IO_bind. rewrite (run_on_outer _ t _ _ Hread). destruct t. reflexivity.
    + split; [done|]. by intros (? & ? & _ & ? & _).
Qed.

Lemma verify_entries_run pk dir l (t : Term W) :
  ∃ r, iterIO (verify_entry pk dir) l t = Ret (t, r) ∧ (r = inl tt ↔ Forall (verifies (content (outer t)) pk dir) l).
Proof.
  unfold iterIO. induction l as [|e l (r & IH & Hr)]; [by eexists|]. cbn [foldIO].
  destruct (verify_entry_run pk dir e t) as (r1 & H1 & Hr1). unfold mbind, IO_bind. rewrite H1.
  destruct r1 as [[]|err]; [|eexists; split; [reflexivity|rewrite Forall_cons; naive_solver]].
  rewrite IH. exists r. split; [done|]. rewrite Forall_cons, Hr. naive_solver.
Qed.

(** C14. What the client exports is verified exactly when it should be: the
    dump that [export_signatures] writes over a file that is not longer holds,
    for each message, the first signature that the node knows; and [verify_batch]
    of that dump reports that all signatures are correct if and only if each of
    them is a signature for the key of the file it names. *)
Theorem exported_signatures_verify flags host folder dkgID t body result bz pubkeyb64 pubkey pk dir :
  GetString flags flagListenAddr = inl host → GetString flags flagJSONFilesFolder = inl folder →
  GetBool flags flagPrintFullSignaturesInfo = inl false →
  http_Get (url host ("/getSignatures?dkgID=" +:+ dkgID)) (outer t) = Ret (outer t, inl (inl body)) →
  unmarshal body = Some (mk_Response "" (Some result)) →
  merge_batches result ≠ ∅ → map_Forall (fun _ es => es ≠ []) (merge_batches result) → 5 ≤ slen dkgID →
  marshal (omap (fun es => exported <$> head es) (merge_batches result) : ExportedSignatures) = Some bz →
  unmarshal bz = Some (omap (fun es => exported <$> head es) (merge_batches result) : ExportedSignatures) →
  (∀ old, content (outer t) !! export_path folder dkgID = Some old → slen old ≤ slen bz) →
  base64_DecodeString pubkeyb64 = Some pubkey → PublicKeyFromBytes pubkey = inl pk →
  ∃ t1 t2 r,
    Execute exportSignaturesCommand flags [dkgID] t = Ret (t1, inl tt) ∧
    content (outer t1) = <[export_path folder dkgID := bz]> (content (outer t)) ∧
    Execute verifyBatch flags [export_path folder dkgID; pubkeyb64; dir] t1 = Ret (t2, r) ∧
    outer t2 = outer t1 ∧
    (r = inl tt ↔ ∀ id e es, merge_batches result !! id = Some (e :: es) →
                    verifies (content (outer t1)) pk dir (exported e)).
Proof.
  intros Hhost Hfolder Hprint Hget Hbody Hne Hall Hlen Hbz Hbz' Hold Hb64 Hpk.
  destruct (export_run flags host folder dkgID t body result bz) as (t1 & Hrun & Hc); [done..|].
  set (m := omap (fun es => exported <$> head es) (merge_batches result) : ExportedSignatures) in *.
  destruct (verify_entries_run pk dir (range m).*2 t1) as (r & Hr & Hiff).
  assert (Forall (verifies (content (outer t1)) pk dir) (range m).*2 ↔
    ∀ id e es, merge_batches result !! id = Some (e :: es) → verifies (content (outer t1)) pk dir (exported e)) as Hall'.
  { rewrite Forall_forall. setoid_rewrite list_elem_of_fmap. unfold range. split.
    - intros H id e es Hid. apply (H (exported e)). exists (id, exported e). split; [done|].
      rewrite shuffle_perm, elem_of_map_to_list. unfold m. by rewrite lookup_omap, Hid.
    - intros H x ([id e] & -> & Hin). rewrite shuffle_perm, elem_of_map_to_list in Hin. unfold m in Hin.
      rewrite lookup_omap in Hin. destruct (merge_batches result !! id) as [[|e' es]|] eqn:Hid; [done| |done].
      injection Hin as <-. by eapply H. }
  exists t1, (match r with inl _ => set_stdout (stdout t1 +:+ ("All batch signatures are correct" +:+ nl)) t1 | inr _ => t1 end), r.
  split_and!; [done..| |by destruct r|by rewrite Hiff].
  unfold Execute, verifyBatch. cbn [Args ExactArgs RunE length]. rewrite bool_decide_true by done.
  do 3 (erewrite run_bind; [|reflexivity]).
  pose proof (ReadFile_content (export_path folder dkgID) (outer t1)) as Hread.
  rewrite Hc, lookup_insert_eq in Hread.
  erewrite run_bind; [|by apply run_wrap, run_on_outer]. destruct t1 as [o l w]. unfold set_outer. cbn [stdout stdin outer] in *.
  erewrite run_bind; [|by rewrite Hbz'].
  unfold BatchVerification, base64_decoded. rewrite Hb64.
  unfold mbind at 1, IO_bind at 1. erewrite run_bind; [|reflexivity]. rewrite Hpk. erewrite run_bind; [|reflexivity].
  rewrite Hr. by destruct r as [[]|].
Qed.
End export.

(** ** Reinitialisation *)

Section reinitialise.
Context {W : Type} {infiles : InputFiles W} {files : ResultFiles W} {opened : OpenedFiles W} {out : OutputFiles W}
  {disk : DiskSpec W}.
Context {csv : CSV} {into : JSONInto Message} {rj : ReinitJSON} {jreq : RequestsJSON} {crypto : Crypto}
  {json_redkg : JSON ReDKG} (uuid : nat → string).

(** A line that has the whole message in its column: what the variable held
    before does not matter. *)
Definition holds (i : Z) (line : list string) (m : Message) : Prop :=
  ∃ c, line !! Z.to_nat i = Some c ∧ ∀ before, unmarshal_into before c = Some m.

Lemma message_loop_holds i lines ms before acc :
  0 ≤ i → Forall2 (holds i) lines ms → message_loop i lines before acc = Ret (inl (acc ++ ms)).
Proof.
  intros Hi H. revert before acc. induction H as [|line m lines ms (c & Hc & Hm) _ IH]; intros before acc; cbn.
  - by rewrite app_nil_r.
  - unfold column. rewrite Hc, (proj2 (Z.ltb_ge _ _)) by done. cbn. rewrite Hm, IH. by rewrite <-app_assoc.
Qed.

(** The dump that the flags point at. *)
Record dumped (flags : gmap string FlagValue) (disk : gmap string bytes) (ms : list Message) : Prop := {
  du_separator : ∃ c rest path data lines i skip header,
    GetString flags flagSeparator = inl (String c rest) ∧ GetString flags flagInputFile = inl path ∧
    GetInt flags flagColumnIndex = inl i ∧ GetBool flags flagSkipHeader = inl skip ∧
    disk !! path = Some data ∧ csv_ReadAll c data = inl (if skip : bool then header :: lines else lines) ∧
    0 ≤ i ∧ Forall2 (holds i) lines ms
}.

Lemma readMessages_run flags (t : Term W) ms :
  dumped flags (content (outer t)) ms → readMessages flags t = Ret (t, inl ms).
Proof.
  intros [(c & rest & path & data & lines & i & skip & header & Hsep & Hin & Hcol & Hskip & Hdisk & Hcsv & Hi & Hms)].
  unfold readMessages. rewrite Hsep, Hin, Hcol, Hskip. cbn [value_or]. rewrite (proj2 (Z.ltb_ge _ _)) by done.
  pose proof (Open_content path (outer t)) as Hopen. rewrite Hdisk in Hopen.
  assert (set_outer (outer t) t = t) as Ht by by destruct t.
  rewrite <-Ht at 2. apply run_on_outer. unfold ReadLogMessages.
  erewrite run_bind; [|by apply run_wrap]. erewrite run_bind; [|reflexivity]. rewrite Hcsv.
  erewrite run_bind; [|reflexivity].
  assert (∀ l, (if skip then lift (slice_from1 (header :: l)) else mret l) (outer t) = Ret (outer t, inl l)) as Hslice
    by by destruct skip.
  destruct skip; (erewrite run_bind; [|apply Hslice]); unfold lift_res; by rewrite (message_loop_holds i lines ms).
Qed.

Lemma adapted_inv original r :
  GetAdaptedReDKG uuid original = inl r →
  ∃ l, re_DKGID r = re_DKGID original ∧ re_Threshold r = re_Threshold original ∧
    re_Participants r = re_Participants original ∧ re_Messages r = renumber 0 l ∧ adapted [] (re_Messages original) l.
Proof.
  unfold GetAdaptedReDKG. intros H. destruct (adapt_loop uuid 0 ∅ [] (re_Messages original)) as [res|e] eqn:Hl; [|done].
  injection H as <-. assert (seen [] ∅) as Hs by (intros a; set_solver).
  destruct (adapt_loop_ok _ _ _ _ _ _ _ Hs Hl) as (l & -> & Hl'). by exists l.
Qed.

(** C21. From the dump of a board and a file of new keys, the tool writes the
    message that reinitialises the round, or nothing: it has the round, the
    threshold and the participants of the proposals before the first signing,
    with their new keys, and the messages before the first signing, each
    sender's first deal preceded by a new deal to itself, under consecutive
    offsets. The client prints the hash of that message for the file, whatever
    formatting was chosen, as long as it decodes to the message. *)
Theorem reinit_file_spec flags (t : Term W) ms kpath kdata keys path :
  dumped flags (content (outer t)) ms → Forall proposal_present (before_signing ms) →
  GetString flags flagKeysFile = inl kpath → content (outer t) !! kpath = Some kdata →
  decode_keys kdata = Some keys → GetBool flags flagAdapt014 = inl true →
  GetString flags flagOutputFile = inl path → path ≠ "" →
  ∃ t1 res, Execute (reinit uuid) flags [] t = Ret (t1, res) ∧
    match res with
    | inr _ => outer t1 = outer t
    | inl _ => ∃ r bz l, let log := redkg_of keys (before_signing ms) in
        content (outer t1) = <[path := bz]> (content (outer t)) ∧ MarshalIndent r = Some bz ∧
        re_DKGID r = re_DKGID log ∧ re_Threshold r = re_Threshold log ∧ re_Participants r = re_Participants log ∧
        re_Messages r = renumber 0 l ∧ adapted [] (before_signing ms) l ∧
        (unmarshal bz = Some r →
          Execute getHashOfReinitDKGMessageCommand cli_flags [path] t1 =
            Ret (set_stdout (stdout t1 +:+ (hex_EncodeToString (sha1_Sum (redkg_bytes r)) +:+ nl)) t1, inl tt))
    end.
Proof.
  intros Hd Hprop Hk Hkd Hkeys Hadapt Hout Hne. unfold Execute, reinit. cbn [Args ExactArgs RunE].
  rewrite Hk, Hadapt, Hout. cbn [value_or].
  erewrite run_bind; [|by apply run_wrap, readMessages_run].
  assert (set_outer (outer t) t = t) as Ht by by destruct t.
  pose proof (Open_content kpath (outer t)) as Hopen. rewrite Hkd in Hopen.
  erewrite run_bind; [|apply run_wrap, run_on_outer, Hopen]. rewrite Ht.
  erewrite run_bind; [|reflexivity]. rewrite Hkeys. erewrite run_bind; [|reflexivity].
  assert (GenerateReDKGMessage ms keys = Ret (inl (redkg_of keys (before_signing ms)))) as Hgen.
  { exact (redkg_loop_spec keys [] ms Hprop). }
  erewrite run_bind; [|apply run_wrap; unfold lift_res; by rewrite Hgen].
  destruct (GetAdaptedReDKG uuid _) as [r|err] eqn:Hr; [|do 2 eexists; split; [reflexivity|done]].
  erewrite run_bind; [|reflexivity].
  destruct (MarshalIndent r) as [bz|] eqn:Hbz; [|do 2 eexists; split; [reflexivity|done]].
  erewrite run_bind; [|reflexivity]. cbv zeta.
  assert ((slen path =? 0) = false) as -> by (destruct path; [done|reflexivity]).
  destruct (WriteFile_content path bz (outer t)) as (w1 & Hwr & Hc).
  do 2 eexists. split; [by apply run_wrap, run_on_outer|]. cbn [outer set_outer].
  destruct (adapted_inv _ r Hr) as (l & H1 & H2 & H3 & H4 & H5).
  exists r, bz, l. split_and!; [done..|]. intros Hu. unfold Execute, getHashOfReinitDKGMessageCommand.
  cbn [Args ExactArgs RunE length]. rewrite bool_decide_true by done. erewrite run_bind; [|reflexivity].
  pose proof (ReadFile_content path w1) as Hread. rewrite Hc, lookup_insert_eq in Hread.
  erewrite run_bind; [|by apply run_wrap, run_on_outer]. unfold CalcStartReInitDKGMessageHash. rewrite Hu.
  erewrite run_bind; [|reflexivity]. reflexivity.
Qed.
End reinitialise.
