(* ===== verification/Prompt.v ===== *)
(** * The prompt of the air-gapped machine, [cmd/airgapped/main.go]

    The handlers of the commands as computations on the console and the machine;
    the loop of [run] and the goroutine that drops the sensitive data when the
    password expires as two threads that share the lock of the machine and a
    channel. A thread gives up control where another one can get in: a step of
    the main thread ends when it releases the lock, blocks, or asks for input
    again. *)

From S2P Require Import Prelude GoFsm Requests LevelState ClientTypes IOLogic Kyber Dkg SigningTasks KeyStore NodeService.
From S2P Require Import MachineStore Airgapped GoText Shell.

(** ** The outside *)

(** The terminal and the buffered reader on standard input. *)
Class Console (C : Type) : Type := {
  TermState : Type;
  terminal_MakeRaw : IO C TermState;
  terminal_Restore : TermState → IO C unit;
  terminal_ReadPassword : IO C bytes;
  terminal_ReadLine : IO C string;
  terminal_Write : string → IO C unit;
  (** [ReadString('\n')] and [ReadLine()] *)
  reader_ReadString : IO C string;
  reader_ReadLine : IO C string
}.

(** [time.ParseDuration] and [Duration.String] *)
Class Durations : Type := {
  ParseDuration : string → Z + error;
  Duration_String : Z → string
}.

Definition EOF : error := Err "EOF".
Section prompt.
Context {DB W : Type} {ldb : LevelDB DB W} {ltx : LevelDBTx DB W} {lerr : LevelDBErr} {env : Env W}.
Context {kyber : Kyber} {dkg : PedersenDKG} {sorter : PKSort} {ord : MapOrder} {sym : SymmetricCrypto}
  {mc : MachineCrypto W} {files : ResultFiles W} {infiles : InputFiles W} {scrypto : SigningCrypto} {wc : WcRotation}.
Context {json_log : JSON (gomap string (list Operation))} {json_keyring : JSON blsKeyringJSON}
  {json_ops : JSON (list Operation)} {json_op : JSON Operation} {json_bytes : JSON (list bytes)}
  {json_tasks : JSON (list SigningTask)} {json_pubkey : JSON (gmap string string)}
  {jpay : PayloadJSON} {jdeal : DealJSON} {jreq : RequestsJSON} {jresp : ResponsesJSON}.
Context {C : Type} {con : Console C} {dur : Durations}.

Abbreviation M := (Machine DB * W)%type (only parsing).

(** ** [prompt] *)

(** The object, with the console and the machine behind it. *)
Record prompt : Type := mk_prompt {
  p_console : C;
  p_machine : M;
  oldTerminalState : option TermState;
  currentCommand : string;
  exit_ : bool
}.

Definition set_console c (p : prompt) : prompt :=
  mk_prompt c (p_machine p) (oldTerminalState p) (currentCommand p) (exit_ p).
Definition set_machine x (p : prompt) : prompt :=
  mk_prompt (p_console p) x (oldTerminalState p) (currentCommand p) (exit_ p).
Definition set_old t (p : prompt) : prompt :=
  mk_prompt (p_console p) (p_machine p) t (currentCommand p) (exit_ p).
Definition set_current c (p : prompt) : prompt :=
  mk_prompt (p_console p) (p_machine p) (oldTerminalState p) c (exit_ p).
Definition set_exit (p : prompt) : prompt :=
  mk_prompt (p_console p) (p_machine p) (oldTerminalState p) (currentCommand p) true.

Definition on_console {A} (m : IO C A) : IO prompt A := zoom p_console set_console m.
Definition airgapped {A} (m : IO M A) : IO prompt A := zoom p_machine set_machine m.

Definition print (a : string) : IO prompt unit :=
  catch (on_console (terminal_Write a)) (fun _ => lift (Panic "write to the terminal failed")).
Definition println (a : string) : IO prompt unit := print (a +:+ nl).

Definition ReadString : IO prompt string := on_console reader_ReadString.
Definition ReadLine : IO prompt string := on_console reader_ReadLine.

(** Where [MakeRaw] fails it gives no state. *)
Definition makeTerminal : IO prompt unit :=
  r ← try (on_console terminal_MakeRaw);
  match r with
  | inl st => modify (set_old (Some st))
  | inr err => _ ← modify (set_old None); throw (Wrap "failed to get current terminal state" err)
  end.

(** [terminal.Restore] dereferences the state it is given. *)
Definition restoreTerminal : IO prompt unit :=
  st ← gets oldTerminalState;
  st ← lift (deref st);
  catch (on_console (terminal_Restore st)) (fun _ => lift (Panic "restoring the terminal failed")).

Definition reloadTerminal : IO prompt unit :=
  _ ← restoreTerminal;
  catch makeTerminal (fun _ => lift (Panic "making the terminal raw failed")).

(** ** Commands *)

(** A handler returns, or wants the goroutine that drops the sensitive data to
    be stopped and started again with a duration. *)
Abbreviation handler := (IO prompt (option Z)) (only parsing).
Definition done (m : IO prompt unit) : handler := _ ← m; mret None.

Definition exitCommand : handler := done (modify set_exit).

Definition readOperationCommand : handler := done (
  _ ← print "> Enter the path to Operation JSON file: ";
  operationPath ← wrap "failed to read base64Operation" ReadString;
  operationBz ← wrap "failed to read Operation file"
    (airgapped (on_world (ioutil_ReadFile (Trim is_space_newline operationPath))));
  operation ← json_res "failed to unmarshal Operation" (unmarshal operationBz);
  path ← wrap "failed to ProcessOperation" (airgapped (ProcessOperation operation true));
  println ("Operation JSON was handled successfully, the result Operation JSON was saved to: " +:+ path)).

(** [p.airgapped.GetPubKey().MarshalBinary()]: a key that was dropped is a [nil]
    interface. *)
Definition pubKey_bytes : IO prompt bytes :=
  pubkey ← airgapped (field am_pubKey);
  pubkey ← lift (deref pubkey);
  wrap "failed to marshal DKG pub key" (of_res (Point_MarshalBinary pubkey)).

Definition showDKGPubKeyCommand : handler := done (
  pubkeyBz ← pubKey_bytes;
  println (base64_EncodeToString pubkeyBz)).

Definition show_keyring (entry : string * BLSKeyring) : IO prompt unit :=
  _ ← print ("DKG identifier: " +:+ entry.1 +:+ nl);
  match Point_MarshalBinary (PubPoly_Commit (kr_PubPoly entry.2)) with
  | inr err => println ("failed to marshal pubkey: %w " +:+ error_text err)
  | inl pubkeyBz =>
      _ ← print ("PubKey: " +:+ base64_EncodeToString pubkeyBz +:+ nl);
      println "-----------------------------------------------------"
  end.
Definition showFinishedDKGCommand : handler := done (
  keyrings ← wrap "failed to get a list of finished dkgs" (airgapped GetBLSKeyrings);
  iterIO show_keyring (range keyrings)).

Definition replayOperationLogCommand : handler := done (
  _ ← print "> Enter the DKGRoundIdentifier: ";
  dkgRoundIdentifier ← wrap "failed to read dkgRoundIdentifier" ReadString;
  wrap "failed to ReplayOperationsLog" (airgapped (ReplayOperationsLog (Trim is_newline dkgRoundIdentifier)))).

Definition dropOperationLogCommand : handler := done (
  _ ← print "> Enter the DKGRoundIdentifier: ";
  dkgRoundIdentifier ← wrap "failed to read dkgRoundIdentifier" ReadString;
  wrap "failed to DropOperationsLog" (airgapped (DropOperationsLog (Trim is_space_newline dkgRoundIdentifier)))).

Definition setSeedCommand : handler := done (
  _ ← print ("> WARNING! this will overwrite your old seed, which might make DKGs you've done with it unusable." +:+ nl);
  _ ← print "> Only do this on a fresh db_path. Type 'ok' to  continue: ";
  ok ← wrap "failed to read confirmation" ReadString;
  if negb (Trim is_space_newline ok =s? "ok") then println "Seed setting canceled!"
  else
    _ ← print "> Enter the BIP39 mnemonic for a random seed: ";
    mnemonic ← wrap "failed to read BIP39 mnemonic" ReadString;
    _ ← wrap "failed to set base seed" (airgapped (SetBaseSeed (Trim is_space_newline mnemonic)));
    wrap "failed to GenerateKeys" (airgapped GenerateKeys)).

Definition verifySignCommand : handler := done (
  _ ← print "> Enter the DKGRoundIdentifier: ";
  dkgRoundIdentifier ← wrap "failed to read dkgRoundIdentifier" ReadString;
  _ ← print "> Enter the BLS signature: ";
  signature ← wrap "failed to read BLS signature (base64)" ReadString;
  signatureDecoded ← wrap "failed to decode BLS signature"
    (json_res "base64" (base64_DecodeString (Trim is_newline signature)));
  _ ← print "> Enter the message which was signed (base64): ";
  message ← wrap "failed to read dkgRoundIdentifier" ReadString;
  messageDecoded ← wrap "failed to decode message"
    (json_res "base64" (base64_DecodeString (Trim is_newline message)));
  r ← try (airgapped (VerifySign messageDecoded signatureDecoded (Trim is_newline dkgRoundIdentifier)));
  match r with
  | inr err => print ("Signature is invalid: " +:+ error_text err +:+ nl)
  | inl _ => println "Signature is correct!"
  end).

Definition generateDKGPubKeyJSON : handler := done (
  dkgPubKeyBz ← pubKey_bytes;
  dkgPubKeyJSON ← json_res "failed to marshal operation"
    (marshal {["dkg_pub_key" := base64_EncodeToString dkgPubKeyBz]});
  folder ← airgapped (field ResultFolder);
  let path := filepath_Join folder "dc4bc_dkg_pub_key.json" in
  _ ← wrap "failed to open file" (airgapped (on_world (os_OpenFile path)));
  _ ← wrap "failed to write file" (airgapped (on_world (os_Write path dkgPubKeyJSON)));
  print ("A JSON file with DKG public key was saved to: " +:+ path +:+ nl)).

(** Up to the message to the goroutine. *)
Definition changeConfigurationCommand : handler :=
  _ ← print "> Enter a new path to save JSON files (leave empty to avoid changes): ";
  newresultfolder ← wrap "failed to read input" ReadLine;
  _ ← (if 0 <? slen newresultfolder then
         _ ← airgapped (SetResultFolder newresultfolder);
         print ("Folder to save JSON files was changed to: " +:+ newresultfolder +:+ nl)
       else mret tt);
  _ ← print "> Enter a password expiration duration (leave empty to avoid changes): ";
  durationInput ← wrap "failed to read input" ReadLine;
  if 0 <? slen durationInput then
    duration ← wrap "failed to parse new duration" (of_res (ParseDuration durationInput));
    mret (Some duration)
  else mret None.

(** The names and descriptions that [NewPrompt] adds. *)
Definition descriptions : gmap string string := list_to_map
  [("read_operation", "reads the json file with an operation, handles a decoded operation and returns the path to the JSON with operation's result");
   ("help", "shows available commands");
   ("show_dkg_pubkey", "shows a dkg pub key");
   ("show_finished_dkg", "shows a list of finished dkg rounds");
   ("replay_operations_log", "replays the operation log for a given dkg round");
   ("drop_operations_log", "drops the operation log for a given dkg round");
   ("exit", "stops the machine");
   ("verify_signature", "verifies a BLS signature of a message");
   ("change_configuration", "changes a configuration variables (frames delay, chunk size, etc...)");
   ("generate_dkg_pubkey_json", "generates and saves a JSON with DKG public key that can be read by the Client node");
   ("set_seed", "resets a global random seed using BIP39 word list. WARNING! Only do that on a fresh database with no operation carried out.")].

Definition helpCommand : handler := done (
  let commandNames := sort_Strings ((range descriptions).*1) in
  _ ← println "Available commands:";
  iterIO (fun commandName =>
    print ("* " +:+ commandName +:+ " - " +:+ default "" (descriptions !! commandName) +:+ nl)) commandNames).

Definition commands : gmap string handler := list_to_map
  [("read_operation", readOperationCommand);
   ("help", helpCommand);
   ("show_dkg_pubkey", showDKGPubKeyCommand);
   ("show_finished_dkg", showFinishedDKGCommand);
   ("replay_operations_log", replayOperationLogCommand);
   ("drop_operations_log", dropOperationLogCommand);
   ("exit", exitCommand);
   ("verify_signature", verifySignCommand);
   ("change_configuration", changeConfigurationCommand);
   ("generate_dkg_pubkey_json", generateDKGPubKeyJSON);
   ("set_seed", setSeedCommand)].

(** The first command with the line as a prefix, in the order of the map. *)
Definition commandAutoCompleteCallback (line : string) (tab : bool) : string * Z * bool :=
  if negb tab then ("", 0, false)
  else match list_find (fun command => HasPrefix command line = true) ((range commands).*1) with
       | Some (_, command) => (command, slen command, true)
       | None => ("", 0, false)
       end.

(** ** Passwords *)

(** Before the loop of [enterEncryptionPasswordIfNeeded]: nothing to do, or
    whether the password is to be confirmed. *)
Definition password_needed : IO prompt (option bool) :=
  removed ← airgapped SensitiveDataRemoved;
  if negb removed then mret None
  else
    r ← try (airgapped LoadKeysFromDB);
    mret (Some match r with inl _ => false | inr err => errors_Is err ErrNotFound end).

(** One turn of the loop; whether it was the last. *)
Definition password_turn (repeatPassword : bool) : IO prompt bool :=
  _ ← print "Enter encryption password: ";
  password ← wrap "failed to read password" (on_console terminal_ReadPassword);
  _ ← println "";
  same ← (if repeatPassword then
            _ ← print "Confirm encryption password: ";
            confirmedPassword ← wrap "failed to read password" (on_console terminal_ReadPassword);
            _ ← println "";
            mret (password =s? confirmedPassword)
          else mret true);
  if negb same then
    _ ← println "Passwords do not match! Try again!"; mret false
  else
    _ ← airgapped (SetEncryptionKey password);
    r ← try (airgapped InitKeys);
    match r with
    | inr err => _ ← print ("Failed to init keys: " +:+ error_text err +:+ nl); mret false
    | inl _ => mret true
    end.

(** ** Threads *)

(** What comes after the password. *)
Inductive Next : Type := Start | Run (command : string).

(** Where the main thread is. The lock is held while a password is entered and
    while the message to the goroutine waits. *)
Inductive Main : Type :=
| Check (k : Next)
| Entering (repeatPassword : bool) (k : Next)
| Waiting
| Ready (command : string)
| Stopping (command : string) (duration : Z)
| Ended (r : option error)
| Crashed (why : string).

(** Where [dropSensitiveDataByTicker] is: at its [select], or in
    [DropSensitiveData] before the lock. *)
Inductive Ticker : Type := Selecting | Dropping.

Record Sys : Type := mk_Sys { sys_main : Main; sys_ticker : Ticker; sys_prompt : prompt }.

Definition holds_lock (m : Main) : bool :=
  match m with Entering _ _ | Stopping _ _ => true | _ => false end.
Definition over (m : Main) : bool := match m with Ended _ | Crashed _ => true | _ => false end.

(** The main thread goes on with the result of a computation, where an error
    ends [run]. *)
Definition proceed {A} (m : IO prompt A) (k : A → Main) (s : Sys) : Sys :=
  match m (sys_prompt s) with
  | Ret (p, inl a) => mk_Sys (k a) (sys_ticker s) p
  | Ret (p, inr err) => mk_Sys (Ended (Some err)) (sys_ticker s) p
  | Panic why => mk_Sys (Crashed why) (sys_ticker s) (sys_prompt s)
  end.

(** After the password: the help, or the command. *)
Definition entered (k : Next) (s : Sys) : Sys :=
  match k with
  | Start => proceed (_ ← helpCommand; println "Waiting for command...") (fun _ => Waiting) s
  | Run command => mk_Sys (Ready command) (sys_ticker s) (sys_prompt s)
  end.

(** A turn of the loop of [run], up to the password. *)
Definition read_command : IO prompt Main :=
  r ← try (on_console terminal_ReadLine);
  match r with
  | inr err =>
      if errors_Is err EOF then _ ← reloadTerminal; mret Waiting
      else throw (Wrap "failed to read command" err)
  | inl command =>
      let clearCommand := Trim is_newline command in
      match commands !! clearCommand with
      | None => _ ← print ("unknown command: " +:+ command +:+ nl); mret Waiting
      | Some _ => mret (Check (Run clearCommand))
      end
  end.

(** [terExe], up to the end of the handler or the message to the goroutine. *)
Definition run_handler (command : string) : IO prompt (option Z) :=
  _ ← modify (set_current command);
  _ ← restoreTerminal;
  catch (default (mret None) (commands !! command))
    (fun err => _ ← print ("failed to execute command " +:+ command +:+ ": " +:+ error_text err +:+ " " +:+ nl);
                mret None).

(** The end of [terExe]. *)
Definition after_handler : IO prompt unit := fun p =>
  match makeTerminal p with
  | Ret (p, r) => Ret (set_current "" p, r)
  | Panic why => Panic why
  end.

(** A step of the main thread, when it is not blocked. *)
Definition main_step (s : Sys) : option Sys :=
  match sys_main s with
  | Check k =>
      Some (match password_needed (sys_prompt s) with
            | Ret (p, inl None) => entered k (mk_Sys (Check k) (sys_ticker s) p)
            | Ret (p, inl (Some repeatPassword)) => mk_Sys (Entering repeatPassword k) (sys_ticker s) p
            | Ret (p, inr err) => mk_Sys (Ended (Some err)) (sys_ticker s) p
            | Panic why => mk_Sys (Crashed why) (sys_ticker s) (sys_prompt s)
            end)
  | Entering repeatPassword k =>
      Some (match password_turn repeatPassword (sys_prompt s) with
            | Ret (p, inl true) => entered k (mk_Sys (Check k) (sys_ticker s) p)
            | Ret (p, inl false) => mk_Sys (Entering repeatPassword k) (sys_ticker s) p
            | Ret (p, inr err) => mk_Sys (Ended (Some err)) (sys_ticker s) p
            | Panic why => mk_Sys (Crashed why) (sys_ticker s) (sys_prompt s)
            end)
  | Waiting =>
      Some (if exit_ (sys_prompt s) then mk_Sys (Ended None) (sys_ticker s) (sys_prompt s)
            else proceed read_command id s)
  | Ready command =>
      Some (match run_handler command (sys_prompt s) with
            | Ret (p, inl (Some duration)) => mk_Sys (Stopping command duration) (sys_ticker s) p
            | Ret (p, inl None) => proceed after_handler (fun _ => Waiting) (mk_Sys Waiting (sys_ticker s) p)
            | Ret (p, inr err) => mk_Sys (Ended (Some err)) (sys_ticker s) p
            | Panic why => mk_Sys (Crashed why) (sys_ticker s) (sys_prompt s)
            end)
  | Stopping command duration =>
      match sys_ticker s with
      | Selecting =>
          (** The goroutine returns and a new one starts; [time.NewTicker] panics
              on a duration that is not positive. *)
          Some (if duration <=? 0 then mk_Sys (Crashed "non-positive interval for NewTicker") Selecting (sys_prompt s)
                else proceed (_ ← print ("Password expiration was changed to: " +:+ Duration_String duration +:+ nl);
                              after_handler) (fun _ => Waiting) s)
      | Dropping => None
      end
  | Ended _ | Crashed _ => None
  end.

(** A step of the goroutine: the ticker fires, or it gets the lock, drops the
    data and releases it. *)
Definition ticker_step (s : Sys) : option Sys :=
  if over (sys_main s) then None
  else
    match sys_ticker s with
    | Selecting => Some (mk_Sys (sys_main s) Dropping (sys_prompt s))
    | Dropping =>
        if holds_lock (sys_main s) then None
        else match airgapped DropSensitiveData (sys_prompt s) with
             | Ret (p, _) => Some (mk_Sys (sys_main s) Selecting p)
             | Panic why => Some (mk_Sys (Crashed why) Selecting (sys_prompt s))
             end
    end.

Definition step (s s' : Sys) : Prop := main_step s = Some s' ∨ ticker_step s = Some s'.

(** [main]: the machine is opened, the prompt made and the two threads started;
    a failure is fatal. *)
Definition NewPrompt (x : M) (c : C) : Go (prompt * (unit + error)) :=
  makeTerminal (mk_prompt c x None "" false).

Definition main (passwordExpiration dbPath resultFolder : string) (c : C) : IO W Sys := fun w =>
  match ParseDuration passwordExpiration with
  | inr err => Ret (w, inr (Wrap "invalid password expiration syntax" err))
  | inl passwordLifeDuration =>
      match wrap "failed to init airgapped machine" (NewMachine dbPath) w with
      | Ret (w, inr err) => Ret (w, inr err)
      | Panic why => Panic why
      | Ret (w, inl air) =>
          match NewPrompt (am_set_folder resultFolder air, w) c with
          | Ret (_, inr err) => Ret (w, inr err)
          | Panic why => Panic why
          | Ret (p, inl _) =>
              if passwordLifeDuration <=? 0 then Panic "non-positive interval for NewTicker"
              else Ret (w, inl (mk_Sys (Check Start) Selecting p))
          end
      end
  end.
End prompt.
