(* ===== verification/PromptSpec.v ===== *)
(** * What the prompt guarantees

    The password and the keys are in memory together whenever a command may
    run; a command is made ready with the keys loaded, but they can be dropped
    before it runs; and the prompt blocks in one way only, when the password
    expires while its duration is being changed. *)

From S2P Require Import Prelude GoFsm Requests LevelState ClientTypes IOLogic Kyber Dkg SigningTasks KeyStore NodeService.
From S2P Require Import MachineStore Airgapped MachineFrame GoText Shell Prompt.

Section spec.
Context {DB W : Type} {ldb : LevelDB DB W} {ltx : LevelDBTx DB W} {lerr : LevelDBErr} {env : Env W}.
Context {kyber : Kyber} {dkg : PedersenDKG} {sorter : PKSort} {ord : MapOrder} {sym : SymmetricCrypto}
  {mc : MachineCrypto W} {files : ResultFiles W} {infiles : InputFiles W} {scrypto : SigningCrypto} {wc : WcRotation}.
Context {json_log : JSON (gomap string (list Operation))} {json_keyring : JSON blsKeyringJSON}
  {json_ops : JSON (list Operation)} {json_op : JSON Operation} {json_bytes : JSON (list bytes)}
  {json_tasks : JSON (list SigningTask)} {json_pubkey : JSON (gmap string string)}
  {jpay : PayloadJSON} {jdeal : DealJSON} {jreq : RequestsJSON} {jresp : ResponsesJSON}.
Context {C : Type} {con : Console C} {dur : Durations}.

Abbreviation M := (Machine DB * W)%type (only parsing).
Abbreviation Prompt := (prompt (DB := DB) (W := W) (C := C)) (only parsing).
Abbreviation System := (Sys (DB := DB) (W := W) (C := C)) (only parsing).

Implicit Types (p : Prompt) (s : System).

(** ** The machine *)

(** Both keys are loaded. *)
Definition usable (x : M) : Prop := is_Some (am_pubKey x.1) ∧ is_Some (am_secKey x.1).
(** There is no password without the keys. *)
Definition keyed (x : M) : Prop := encryptionKey x.1 ≠ "" → usable x.

(** What does not touch password and keys. *)
Definition same_secrets (am am' : Machine DB) : Prop :=
  encryptionKey am' = encryptionKey am ∧ am_pubKey am' = am_pubKey am ∧ am_secKey am' = am_secKey am.

Section secrets.
(** A property of password and keys. *)
Context (J : bytes → option Point → option Scalar → Prop).
Definition about_secrets (x : M) : Prop := J (encryptionKey x.1) (am_pubKey x.1) (am_secKey x.1).

Lemma db_Get_secrets k : keeps about_secrets (db_Get k).
Proof. intros [am w] Hx. unfold db_Get. by destruct (leveldb_Get _ _ w). Qed.
Lemma db_Put_secrets k v : keeps about_secrets (db_Put k v).
Proof. intros [am w] Hx. unfold db_Put. by destruct (leveldb_Put _ _ _ w) as [w' [e|]]. Qed.
Lemma on_world_secrets {A} (m : IO W A) : keeps about_secrets (on_world m).
Proof. intros [am w] Hx. unfold on_world, zoom. cbn. by destruct (m w) as [[w' [a|e]]|]. Qed.
Lemma on_machine_secrets f : (∀ am, same_secrets am (f am)) → keeps about_secrets (on_machine f).
Proof.
  intros Hf [am w] Hx. unfold about_secrets in *. cbn in *. destruct (Hf am) as (He & Hp & Hs). by rewrite He, Hp, Hs.
Qed.
Lemma tx_put_secrets tx msg k v : keeps about_secrets (tx_put tx msg k v).
Proof. intros [am w] Hx. unfold tx_put. by destruct (tx_Put tx k v w) as [w' [e|]]. Qed.
Lemma tx_commit_secrets tx : keeps about_secrets (tx_commit tx).
Proof. intros [am w] Hx. unfold tx_commit. by destruct (tx_Commit tx w) as [w' [e|]]. Qed.
Lemma open_transaction_secrets : keeps about_secrets open_transaction.
Proof. intros [am w] Hx. unfold open_transaction. by destruct (leveldb_OpenTransaction _ w) as [w' [t|e]]. Qed.
Lemma discard_secrets {A} tx (m : IO M A) : keeps about_secrets m → keeps about_secrets (deferring_discard tx m).
Proof.
  intros Hm x Hx. specialize (Hm x Hx). unfold deferring_discard. by destruct (m x) as [[[am w] [a|e]]|].
Qed.
#[local] Hint Resolve db_Get_secrets db_Put_secrets on_world_secrets tx_put_secrets tx_commit_secrets
  open_transaction_secrets : keeps.

Lemma secrets_frame : machine_frame about_secrets.
Proof.
  constructor; intros; eauto with keeps.
  - by apply on_machine_secrets.
  - intros [am w] Hx. unfold on_round. destruct (_ !! id) as [d|]; [|done]. by destruct (m d) as [[d' [a|e]]|].
Qed.

Lemma SaveKeysToDB_secrets : keeps about_secrets SaveKeysToDB.
Proof.
  unfold SaveKeysToDB, field. keeps_tac. apply discard_secrets. keeps_tac.
Qed.
Lemma storeOperation_secrets o : keeps about_secrets (storeOperation o).
Proof. unfold storeOperation, change_log, wrap_other, getRoundOperationLog, putRoundOperationLog. keeps_tac. Qed.
Lemma ProcessOperation_secrets o b : keeps about_secrets (ProcessOperation o b).
Proof. apply ProcessOperation_frame; [apply secrets_frame|]. intros _. apply storeOperation_secrets. Qed.
Lemma DropOperationsLog_secrets id : keeps about_secrets (DropOperationsLog id).
Proof.
  unfold DropOperationsLog, dropRoundOperationLog, change_log, wrap_other, getRoundOperationLog, putRoundOperationLog.
  keeps_tac.
Qed.
Lemma SetBaseSeed_secrets m : keeps about_secrets (SetBaseSeed m).
Proof. unfold SetBaseSeed, storeBaseSeed. keeps_tac. by apply on_machine_secrets. Qed.
Lemma GetBLSKeyrings_secrets : keeps about_secrets GetBLSKeyrings.
Proof.
  unfold GetBLSKeyrings, field. keeps_tac.
Qed.
End secrets.

(** *** Loading and generating keys *)

Definition J_keyed (k : bytes) (pub : option Point) (sec : option Scalar) : Prop :=
  k ≠ "" → is_Some pub ∧ is_Some sec.
Definition J_usable (k : bytes) (pub : option Point) (sec : option Scalar) : Prop := is_Some pub ∧ is_Some sec.

Lemma usable_keyed x : usable x → keyed x.
Proof. by intros H _. Qed.

Lemma post_any {S A} (P : S → Prop) (m : IO S A) : post P m (fun _ _ => True) (fun _ => True).
Proof. intros x _. by destruct (m x) as [[x' [a|e]]|]. Qed.

Lemma GenerateKeys_post P : post P GenerateKeys (fun _ => usable) (fun _ => True).
Proof.
  unfold GenerateKeys. do 2 (eapply post_bind; [apply post_any|intros ?]).
  eapply post_bind with (R := fun _ x => is_Some (am_secKey x.1)); [intros [am w] _; cbn; by eexists|]. intros ?.
  eapply post_bind with (R := fun _ => usable); [intros [am w] Hs; split; [by eexists|exact Hs]|]. intros ?.
  apply post_wrap. eapply post_conseq; [apply (SaveKeysToDB_secrets J_usable)|done..].
Qed.

(** Generating keys loses none. *)
Lemma GenerateKeys_keyed : keeps keyed GenerateKeys.
Proof.
  unfold GenerateKeys, the_suite, field.
  apply keeps_bind; [keeps_tac|]. intros suite.
  apply keeps_bind; [apply (on_world_secrets J_keyed)|]. intros sec.
  apply keeps_bind. { intros [am w] Hx He. destruct (Hx He) as [Hp Hs]. split; [exact Hp|by eexists]. }
  intros ?. apply keeps_bind. { intros [am w] Hx He. destruct (Hx He) as [Hp Hs]. split; [by eexists|exact Hs]. }
  intros ?. apply keeps_wrap, (SaveKeysToDB_secrets J_keyed).
Qed.

Lemma LoadKeysFromDB_post P : post P LoadKeysFromDB (fun _ => usable) (fun _ => True).
Proof.
  unfold LoadKeysFromDB. do 7 (eapply post_bind; [apply post_any|intros ?]).
  destruct (Point_UnmarshalBinary _) as [pub|err].
  2:{ eapply post_bind; [apply post_any|]. intros ?. by apply post_throw. }
  eapply post_bind with (R := fun _ x => is_Some (am_pubKey x.1)); [intros [am w] _; cbn; by eexists|]. intros ?.
  destruct (Scalar_UnmarshalBinary _) as [sec|err].
  2:{ eapply post_bind; [apply post_any|]. intros ?. by apply post_throw. }
  intros [am w] Hp. split; [exact Hp|by eexists].
Qed.

Lemma InitKeys_post P : post P InitKeys (fun _ => usable) (fun _ => True).
Proof.
  unfold InitKeys. eapply post_catch; [apply LoadKeysFromDB_post|]. intros e.
  destruct (errors_Is e ErrNotFound); [apply GenerateKeys_post|by apply post_throw].
Qed.

(** ** The handlers *)

Definition machine_in (P : M → Prop) (p : Prompt) : Prop := P (p_machine p).

Lemma airgapped_keeps {A} (P : M → Prop) (m : IO M A) : keeps P m → keeps (machine_in P) (airgapped m).
Proof. apply keeps_zoom; [done|]. by intros x p _ Hx. Qed.
Lemma airgapped_post {A} (P E : M → Prop) (Q : A → M → Prop) (m : IO M A) :
  post P m Q E → post (machine_in P) (airgapped m) (fun a => machine_in (Q a)) (machine_in E).
Proof.
  intros Hm p Hp. specialize (Hm (p_machine p) Hp). unfold airgapped, zoom.
  by destruct (m (p_machine p)) as [[x [a|e]]|].
Qed.
Lemma console_keeps {A} P (m : IO C A) : keeps (machine_in P) (on_console m).
Proof. intros p Hp. unfold on_console, zoom. by destruct (m (p_console p)) as [[c [a|e]]|]. Qed.
Lemma print_keeps P a : keeps (machine_in P) (print a).
Proof. unfold print. apply keeps_catch; [apply console_keeps|]. intros e. apply keeps_lift. Qed.
#[local] Hint Resolve console_keeps print_keeps : keeps.
Lemma println_keeps P a : keeps (machine_in P) (println a).
Proof. apply print_keeps. Qed.
Lemma makeTerminal_keeps P : keeps (machine_in P) makeTerminal.
Proof. unfold makeTerminal. keeps_tac; by apply post_modify. Qed.
Lemma restoreTerminal_keeps P : keeps (machine_in P) restoreTerminal.
Proof. unfold restoreTerminal. keeps_tac. Qed.
#[local] Hint Resolve println_keeps makeTerminal_keeps restoreTerminal_keeps : keeps.
Lemma after_handler_keeps P : keeps (machine_in P) after_handler.
Proof.
  intros p Hp. pose proof (makeTerminal_keeps P p Hp) as H. unfold after_handler.
  by destruct (makeTerminal p) as [[p' [a|e]]|].
Qed.
#[local] Hint Resolve after_handler_keeps : keeps.

(** Reading and answering, on any property of the secrets. *)
Section reading.
Context (J : bytes → option Point → option Scalar → Prop).
Abbreviation I := (machine_in (about_secrets J)) (only parsing).
#[local] Hint Resolve db_Get_secrets db_Put_secrets on_world_secrets ProcessOperation_secrets
  DropOperationsLog_secrets GetBLSKeyrings_secrets : keeps.
#[local] Hint Extern 1 (keeps I (airgapped _)) => apply airgapped_keeps; unfold field; solve [keeps_tac] : keeps.

Lemma readOperation_keeps : keeps I readOperationCommand.
Proof. unfold readOperationCommand, done, ReadString. keeps_tac. Qed.
Lemma pubKey_bytes_keeps : keeps I pubKey_bytes.
Proof. unfold pubKey_bytes. keeps_tac. Qed.
#[local] Hint Resolve pubKey_bytes_keeps : keeps.
Lemma showDKGPubKey_keeps : keeps I showDKGPubKeyCommand.
Proof. unfold showDKGPubKeyCommand, done. keeps_tac. Qed.
Lemma showFinishedDKG_keeps : keeps I showFinishedDKGCommand.
Proof. unfold showFinishedDKGCommand, done, iterIO, show_keyring. keeps_tac. Qed.
Lemma replay_keeps : keeps I replayOperationLogCommand.
Proof.
  unfold replayOperationLogCommand, done, ReadString. keeps_tac.
Qed.
Lemma dropLog_keeps : keeps I dropOperationLogCommand.
Proof. unfold dropOperationLogCommand, done, ReadString. keeps_tac. Qed.
Lemma verifySign_keeps : keeps I verifySignCommand.
Proof.
  unfold verifySignCommand, done, ReadString. keeps_tac.
Qed.
Lemma generateJSON_keeps : keeps I generateDKGPubKeyJSON.
Proof. unfold generateDKGPubKeyJSON, done. keeps_tac. Qed.
Lemma changeConfiguration_keeps : keeps I changeConfigurationCommand.
Proof.
  unfold changeConfigurationCommand, ReadLine. keeps_tac.
  apply airgapped_keeps. by apply on_machine_secrets.
Qed.
Lemma help_keeps : keeps I helpCommand.
Proof. unfold helpCommand, done, iterIO. keeps_tac. Qed.
Lemma exit_keeps : keeps I exitCommand.
Proof. unfold exitCommand, done. keeps_tac. by apply post_modify. Qed.
End reading.

Lemma setSeed_keeps : keeps (machine_in keyed) setSeedCommand.
Proof.
  unfold setSeedCommand, done, ReadString. keeps_tac.
  - apply airgapped_keeps, (SetBaseSeed_secrets J_keyed).
  - apply airgapped_keeps, GenerateKeys_keyed.
Qed.

(** One goal for each command. *)
Lemma commands_elem c h : commands !! c = Some h → (c, h) ∈
  [("read_operation", readOperationCommand); ("help", helpCommand); ("show_dkg_pubkey", showDKGPubKeyCommand);
   ("show_finished_dkg", showFinishedDKGCommand); ("replay_operations_log", replayOperationLogCommand);
   ("drop_operations_log", dropOperationLogCommand); ("exit", exitCommand);
   ("verify_signature", verifySignCommand); ("change_configuration", changeConfigurationCommand);
   ("generate_dkg_pubkey_json", generateDKGPubKeyJSON); ("set_seed", setSeedCommand)].
Proof. apply elem_of_list_to_map_2. Qed.

Ltac command_cases H :=
  apply commands_elem in H;
  repeat (apply elem_of_cons in H as [H|H]; [injection H as -> ->|]);
  [..|by apply not_elem_of_nil in H].

Lemma handlers_keep c h : commands !! c = Some h → keeps (machine_in keyed) h.
Proof.
  intros H. command_cases H;
    [apply (readOperation_keeps J_keyed)|apply (help_keeps J_keyed)|apply (showDKGPubKey_keeps J_keyed)|
     apply (showFinishedDKG_keeps J_keyed)|apply (replay_keeps J_keyed)|apply (dropLog_keeps J_keyed)|
     apply (exit_keeps J_keyed)|apply (verifySign_keeps J_keyed)|apply (changeConfiguration_keeps J_keyed)|
     apply (generateJSON_keeps J_keyed)|apply setSeed_keeps].
Qed.

Lemma run_handler_keeps c : keeps (machine_in keyed) (run_handler c).
Proof.
  unfold run_handler. apply keeps_bind; [by apply post_modify|]. intros ?.
  apply keeps_bind; [apply restoreTerminal_keeps|]. intros ?. apply keeps_catch.
  - destruct (commands !! c) as [h|] eqn:Hc; cbn; [by eapply handlers_keep|apply keeps_ret].
  - intros e. apply keeps_bind; [apply print_keeps|]. intros ?. apply keeps_ret.
Qed.

(** Only one command asks for the goroutine to be stopped. *)
Lemma stopping_command c p p' d : run_handler c p = Ret (p', inl (Some d)) → c = "change_configuration".
Proof.
  assert (∀ m : IO Prompt unit, post (fun _ => True) (done m) (fun o _ => o = None) (fun _ => True)) as Hdone.
  { intros m. unfold done. eapply post_bind; [apply post_any|]. intros ?. by apply post_ret. }
  intros Hrun. destruct (decide (c = "change_configuration")) as [|Hne]; [done|]. exfalso.
  assert (post (fun _ => True) (run_handler c) (fun o _ => o = None) (fun _ => True)) as Hpost.
  { unfold run_handler. do 2 (eapply post_bind; [apply post_any|intros ?]).
    eapply post_catch with (E' := fun _ => True).
    - destruct (commands !! c) as [h|] eqn:Hc; cbn; [|by apply post_ret].
      command_cases Hc; try done; apply Hdone.
    - intros e. eapply post_bind; [apply post_any|]. intros ?. by apply post_ret. }
  pose proof (post_run _ _ _ _ _ _ _ Hpost I Hrun) as H. discriminate H.
Qed.

Lemma keeps_post {S A} (I : S → Prop) (m : IO S A) : keeps I m → post I m (fun _ => I) (fun _ => True).
Proof. intros Hm. by eapply post_conseq. Qed.

(** ** The threads *)

(** The invariant: outside the entry of a password, no password without keys;
    and the message to the goroutine is the business of one command. *)
Definition sound (s : System) : Prop :=
  match sys_main s with
  | Entering _ _ | Ended _ | Crashed _ => True
  | Stopping c _ => c = "change_configuration" ∧ machine_in keyed (sys_prompt s)
  | _ => machine_in keyed (sys_prompt s)
  end.

Inductive reachable_from (s0 : System) : System → Prop :=
| rf_start : reachable_from s0 s0
| rf_step s s' : reachable_from s0 s → step s s' → reachable_from s0 s'.

Lemma proceed_sound {A} (m : IO Prompt A) (k : A → Main) s (P : Prompt → Prop) :
  P (sys_prompt s) →
  post P m (fun a p => sound (mk_Sys (k a) (sys_ticker s) p)) (fun _ => True) → sound (proceed m k s).
Proof.
  intros Hs Hm. specialize (Hm _ Hs). unfold proceed.
  by destruct (m (sys_prompt s)) as [[p [a|e]]|].
Qed.

Lemma entered_sound k s : machine_in keyed (sys_prompt s) → sound (entered k s).
Proof.
  intros Hs. destruct k as [|c]; [|exact Hs]. apply (proceed_sound _ _ _ (machine_in keyed)); [done|].
  eapply post_bind; [apply keeps_post, (help_keeps J_keyed)|]. intros ?. apply keeps_post, println_keeps.
Qed.

Lemma password_needed_post P :
  post P password_needed
    (fun o p => match o with
                | None => ∃ p0, P p0 ∧ p = p0 ∧ encryptionKey (p_machine p).1 ≠ ""
                | Some _ => True
                end) (fun _ => True).
Proof.
  intros p Hp. unfold password_needed, SensitiveDataRemoved, field, gets, mbind, IO_bind, airgapped, zoom. cbn.
  destruct (negb (slen (encryptionKey (p_machine p).1) =? 0)) eqn:Hk.
  - cbn. exists p. split_and!; [done|by destruct p|]. intros He. rewrite He in Hk. discriminate Hk.
  - unfold try. cbn. by destruct (LoadKeysFromDB (p_machine p)) as [[x [a|e]]|].
Qed.

Lemma password_turn_post r P :
  post P (password_turn r) (fun b p => b = true → machine_in usable p) (fun _ => True).
Proof.
  unfold password_turn. do 3 (eapply post_bind; [apply post_any|intros ?]).
  eapply post_bind; [apply post_any|]. intros same. destruct (negb same).
  { eapply post_bind; [apply post_any|]. intros ?. by apply post_ret. }
  eapply post_bind; [apply post_any|]. intros ?.
  eapply post_bind with (R := fun r p => match r with inl _ => machine_in usable p | inr _ => True end).
  - apply post_try. eapply post_conseq with (P := machine_in (fun _ => True));
      [apply (airgapped_post _ _ _ _ (InitKeys_post _))|done|done|done].
  - intros [[]|e]; [by apply post_ret|]. eapply post_bind; [apply post_any|]. intros ?. by apply post_ret.
Qed.

Lemma read_command_post :
  post (machine_in keyed) read_command
    (fun m p => machine_in keyed p ∧ (m = Waiting ∨ ∃ c, m = Check (Run c))) (fun _ => True).
Proof.
  unfold read_command. eapply post_bind with (R := fun _ => machine_in keyed).
  { apply keeps_post, keeps_try, console_keeps. }
  intros [l|e].
  - destruct (commands !! _); [apply post_ret; eauto|].
    eapply post_bind; [apply keeps_post, print_keeps|]. intros ?. apply post_ret. eauto.
  - destruct (errors_Is e EOF); [|by apply post_throw].
    eapply post_bind with (R := fun _ => machine_in keyed); [|intros ?; apply post_ret; eauto].
    unfold reloadTerminal. eapply post_bind; [apply keeps_post, restoreTerminal_keeps|].
    intros ?. apply keeps_post, keeps_catch; [apply makeTerminal_keeps|intros; apply keeps_lift].
Qed.

Lemma main_step_sound s s' : sound s → main_step s = Some s' → sound s'.
Proof.
  destruct s as [m t p]. unfold main_step. cbn [sys_main sys_ticker sys_prompt].
  destruct m as [k|r k| |c|c d|r|w]; intros Hs Hstep; [..|done|done]; cbn in Hs.
  - injection Hstep as <-. pose proof (password_needed_post (machine_in keyed) p Hs) as H.
    destruct (password_needed p) as [[p' [[r|]|e]]|]; [done| |done..].
    destruct H as (p0 & Hp & -> & _). by apply entered_sound.
  - injection Hstep as <-. pose proof (password_turn_post r (fun _ => True) p I) as H.
    destruct (password_turn r p) as [[p' [[]|e]]|]; [|done..]. apply entered_sound. by apply usable_keyed, H.
  - injection Hstep as <-. destruct (exit_ p); [done|].
    apply (proceed_sound _ _ _ (machine_in keyed)); [done|].
    eapply post_conseq; [apply read_command_post|done| |done].
    intros m p' (Hp & [->|[c ->]]); exact Hp.
  - injection Hstep as <-. pose proof (run_handler_keeps c p Hs) as H.
    destruct (run_handler c p) as [[p' [[d|]|e]]|] eqn:Hrun; [| |done..].
    + split; [by eapply stopping_command|exact H].
    + apply (proceed_sound _ _ _ (machine_in keyed)); [done|]. apply keeps_post, after_handler_keeps.
  - destruct t; [|done]. injection Hstep as <-. destruct (d <=? 0); [done|]. destruct Hs as [_ Hs].
    apply (proceed_sound _ _ _ (machine_in keyed)); [done|].
    eapply post_bind; [apply keeps_post, print_keeps|]. intros ?. apply keeps_post, after_handler_keeps.
Qed.

(** Dropping leaves neither password nor keys. *)
Lemma ticker_drops m p :
  over m = false → holds_lock m = false →
  ticker_step (mk_Sys m Dropping p) =
    Some (mk_Sys m Selecting (set_machine (am_set_key "" (am_set_pubKey None (am_set_secKey None (p_machine p).1)),
      (p_machine p).2) p)).
Proof. intros Ho Hl. unfold ticker_step. cbn. by rewrite Ho, Hl. Qed.

Lemma ticker_step_sound s s' : sound s → ticker_step s = Some s' → sound s'.
Proof.
  destruct s as [m t p]. intros Hs. unfold ticker_step. cbn [sys_main sys_ticker sys_prompt].
  destruct (over m) eqn:Ho; [done|]. destruct t.
  - by intros [= <-].
  - destruct (holds_lock m) eqn:Hl; [done|]. cbn. intros [= <-].
    destruct m; try done; intros He; done.
Qed.

Lemma reachable_sound s0 s : sound s0 → reachable_from s0 s → sound s.
Proof.
  intros H0. induction 1 as [|s s' _ IH [Hstep|Hstep]]; [done|by eapply main_step_sound|by eapply ticker_step_sound].
Qed.

(** The system that [main] starts. *)
Lemma started_sound e db folder c w w' s : main e db folder c w = Ret (w', inl s) → sound s.
Proof.
  unfold main. destruct (ParseDuration e) as [d|]; [|done].
  destruct (wrap _ (NewMachine db) w) as [[w1 [am|]]|] eqn:Hnew; [|done..].
  destruct (NewPrompt _ c) as [[p [[]|]]|] eqn:Hp; [|done..]. destruct (d <=? 0); [done|].
  intros [= <- <-]. cbn. intros He. exfalso. apply He.
  assert (encryptionKey (p_machine p).1 = encryptionKey am) as ->.
  { pose proof (makeTerminal_keeps (fun x => encryptionKey x.1 = encryptionKey am)) as Hk.
    exact (keeps_run _ _ _ _ _ Hk (eq_refl : machine_in _ (mk_prompt c (am_set_folder folder am, w1) None "" false)) Hp). }
  unfold wrap in Hnew. destruct (NewMachine db w) as [[w2 [am'|]]|] eqn:Hm; simplify_eq.
  unfold NewMachine in Hm. destruct (leveldb_OpenFile db w) as [w3 [d'|]]; [|done].
  match type of Hm with context [?m (?a, w3)] =>
    assert (keeps (fun x : M => encryptionKey x.1 = "") m) as Hk; [|pose proof (Hk (a, w3) eq_refl) as Hrun; destruct (m (a, w3)) as [[[am2 w4] [[]|]]|]; simplify_eq; exact Hrun] end.
  set (J := fun (k : bytes) (_ : option Point) (_ : option Scalar) => k = "").
  change (keeps (about_secrets J) (_ ← wrap "failed to loadBaseSeed" loadBaseSeed; init_log)).
  pose proof (db_Get_secrets J). pose proof (db_Put_secrets J).
  pose proof (fun A => on_world_secrets J (A := A)).
  unfold loadBaseSeed, init_log, new_seed, getBaseSeed, storeBaseSeed. keeps_tac. by apply on_machine_secrets.
Qed.

(** A command is made ready with the keys in memory. *)
Lemma ready_usable s s' c :
  sound s → main_step s = Some s' → sys_main s' = Ready c → machine_in usable (sys_prompt s').
Proof.
  assert (∀ A (m : IO Prompt A) (k : A → Main) s, (∀ a, k a ≠ Ready c) → sys_main (proceed m k s) ≠ Ready c) as Hproceed.
  { intros A m k s0 Hk. unfold proceed. by destruct (m (sys_prompt s0)) as [[p [a|e]]|]; cbn; [apply Hk|..]. }
  assert (∀ k s, sys_main (entered k s) = Ready c → machine_in usable (sys_prompt s) →
    machine_in usable (sys_prompt (entered k s))) as Hentered.
  { intros [|c'] s0 Hr Hu; [|exact Hu]. exfalso. by apply (Hproceed _ _ _ s0) in Hr. }
  destruct s as [m t p]. unfold main_step. cbn [sys_main sys_ticker sys_prompt].
  destruct m as [k|r k| |c'|c' d|r|w]; intros Hs Hstep Hr; [..|done|done]; cbn in Hs.
  - injection Hstep as <-. pose proof (password_needed_post (machine_in keyed) p Hs) as H.
    destruct (password_needed p) as [[p' [[r|]|e]]|]; [done| |done..].
    destruct H as (p0 & Hp & -> & He). apply Hentered; [done|]. by apply Hp.
  - injection Hstep as <-. pose proof (password_turn_post r (fun _ => True) p I) as H.
    destruct (password_turn r p) as [[p' [[]|e]]|]; [|done..]. apply Hentered; [done|]. by apply H.
  - injection Hstep as <-. destruct (exit_ p); [done|]. exfalso.
    unfold proceed in Hr. pose proof (read_command_post p Hs) as H. cbn [sys_prompt] in Hr.
    destruct (read_command p) as [[p' [m|e]]|]; cbn in Hr; [|done..].
    destruct H as (_ & [->|[c0 ->]]); done.
  - injection Hstep as <-. destruct (run_handler c' p) as [[p' [[d|]|e]]|]; [done| |done..].
    by apply Hproceed in Hr.
  - destruct t; [|done]. injection Hstep as <-. destruct (d <=? 0); [done|]. by apply Hproceed in Hr.
Qed.

(** Restoring the terminal succeeds or panics. *)
Lemma restoreTerminal_post f : post (machine_in f) restoreTerminal (fun _ => machine_in f) (fun _ => False).
Proof.
  intros q Hq. pose proof (keeps_post _ _ (restoreTerminal_keeps f) q Hq) as H.
  destruct (restoreTerminal q) as [[q' [u|e]]|] eqn:Hr; [exact H| |done].
  unfold restoreTerminal in Hr. unfold mbind, IO_bind, gets, lift in Hr. cbn in Hr.
  destruct (deref (oldTerminalState q)); [|done]. unfold catch in Hr. by case_match; simplify_eq; repeat case_match.
Qed.

(** Showing a key that is not there crashes. *)
Lemma show_without_key s :
  sys_main s = Ready "show_dkg_pubkey" → ¬ machine_in (fun x => is_Some (am_pubKey x.1)) (sys_prompt s) →
  ∃ s' why, main_step s = Some s' ∧ sys_main s' = Crashed why.
Proof.
  destruct s as [m t p]. cbn. intros -> Hp. unfold main_step. cbn.
  assert (post (machine_in (fun x => am_pubKey x.1 = None)) (run_handler "show_dkg_pubkey")
    (fun _ _ => False) (fun _ => False)) as Hpost.
  { unfold run_handler. eapply post_bind with (R := fun _ => machine_in (fun x => am_pubKey x.1 = None)).
    { by apply post_modify. }
    intros ?. eapply post_bind; [apply restoreTerminal_post|]. intros ?.
    assert (commands !! "show_dkg_pubkey" = Some showDKGPubKeyCommand) as -> by reflexivity. cbn.
    eapply post_catch with (E' := fun _ => False); [|by intros e q []].
    unfold showDKGPubKeyCommand, done, pubKey_bytes.
    intros q Hq. unfold mbind, IO_bind, airgapped, field, gets, zoom. cbn.
    unfold machine_in in Hq. by rewrite Hq. }
  specialize (Hpost p). unfold machine_in in *.
  destruct (am_pubKey (p_machine p).1); [exfalso; apply Hp; by eexists|]. specialize (Hpost eq_refl).
  destruct (run_handler "show_dkg_pubkey" p) as [[p' [o|e]]|why]; [done..|]. by eexists _, why.
Qed.

(** C15. From the start of the machine on: whenever the lock is free, a password is
    in memory only together with both keys, and a command is made ready with both
    keys loaded. But the lock is released before the command takes it again: at
    that point the goroutine can drop the keys, so that the command runs without
    them, and the one that shows the public key crashes the machine. *)
Theorem commands_and_keys e db folder c w w' s0 s :
  main e db folder c w = Ret (w', inl s0) → reachable_from s0 s →
  (holds_lock (sys_main s) = false → over (sys_main s) = false → machine_in keyed (sys_prompt s)) ∧
  (∀ s' command, main_step s = Some s' → sys_main s' = Ready command → machine_in usable (sys_prompt s')) ∧
  (∀ command, sys_main s = Ready command →
     ∃ s2, reachable_from s s2 ∧ sys_main s2 = Ready command ∧ ¬ machine_in usable (sys_prompt s2) ∧
       (command = "show_dkg_pubkey" →
          ∃ s3 why, main_step s2 = Some s3 ∧ sys_main s3 = Crashed why)).
Proof.
  intros Hmain Hreach. pose proof (reachable_sound s0 s (started_sound _ _ _ _ _ _ _ Hmain) Hreach) as Hs.
  split; [|split].
  - intros Hl Ho. unfold sound in Hs. by destruct (sys_main s).
  - intros s' command. by apply ready_usable.
  - intros command Hr. destruct s as [m t p]. cbn in Hr. subst m.
    set (p2 := set_machine (am_set_key "" (am_set_pubKey None (am_set_secKey None (p_machine p).1)), (p_machine p).2) p).
    exists (mk_Sys (Ready command) Selecting p2).
    assert (reachable_from (mk_Sys (Ready command) Dropping p) (mk_Sys (Ready command) Selecting p2)) as Hdrop.
    { eapply rf_step; [apply rf_start|]. right. by apply ticker_drops. }
    split; [|split; [done|split; [by intros [[x Hx] _]|]]].
    + destruct t; [|exact Hdrop]. eapply rf_step; [eapply rf_step; [apply rf_start|]|right; by apply ticker_drops].
      by right.
    + intros ->. apply show_without_key; [done|]. by intros [x Hx].
Qed.

(** The system is blocked when neither thread can move. *)
Definition blocked (s : System) : Prop := main_step s = None ∧ ticker_step s = None.

(** C16. From the start on, as long as the machine has neither ended nor crashed:
    it is blocked exactly when the command that changes the configuration has a
    message for the goroutine and the goroutine, whose ticker has fired, waits
    for the lock that the command holds; and whenever that command has its
    message, one firing of the ticker is enough. *)
Theorem prompt_deadlock e db folder c w w' s0 s :
  main e db folder c w = Ret (w', inl s0) → reachable_from s0 s → over (sys_main s) = false →
  (blocked s ↔ (∃ d, sys_main s = Stopping "change_configuration" d) ∧ sys_ticker s = Dropping) ∧
  (∀ command d, sys_main s = Stopping command d → blocked s ∨ ∃ s', ticker_step s = Some s' ∧ blocked s').
Proof.
  intros Hmain Hreach Ho. pose proof (reachable_sound s0 s (started_sound _ _ _ _ _ _ _ Hmain) Hreach) as Hs.
  destruct s as [m t p]. cbn in *. split; [split|].
  - intros [Hm Ht]. unfold main_step in Hm. cbn in Hm. destruct m; try done. destruct t; [done|].
    destruct Hs as [-> _]. eauto.
  - intros [[d ->] ->]. done.
  - intros command d ->. destruct t; [right|left; done]. eexists. split; [done|]. done.
Qed.
End spec.
