(* ===== verification/Provider.v ===== *)
(** * The assembly of a node

    [client/services/provider.go], [client/config/config.go] and the daemon
    [cmd/dc4bc_d]: the storages, stores and services are built from the
    configuration and shared by the node and the API. The settings that flags
    and the configuration file give ([viper]) and the HTTP listener are
    third-party packages. *)

From S2P Require Import Prelude Requests LevelState ClientTypes OperationRepo SignatureRepo FsmService.
From S2P Require Import IOLogic Kyber SigningTasks KeyStore FileStorage KafkaStorage Services NodeService.

(** ** [client/config] *)

Record HttpApiConfig : Type := mk_HttpApiConfig {
  ListenAddr : string;
  Debug : bool;
  EnableLogging : bool
}.

(** The pointer to the configuration of the storage: what [NewKafkaStorage]
    reads and what [parseMessagesToIgnore] reads of it. *)
Record Config : Type := mk_Config {
  cfg_HttpApiConfig : option HttpApiConfig;
  cfg_KafkaStorageConfig : option (KafkaStorageConfig * IgnoreConfig);
  cfg_Username : string;
  cfg_StateDBSN : string;
  cfg_KeyStoreDBDSN : string
}.

Section provider.
Context {DB W : Type} {ldb : LevelDB DB W} {lerr : LevelDBErr}.
Context {K : Type} {kafka : KafkaClient K} {codec : MessageCodec}.
Context {E : Type} {env : Env E}.
Context {json_pairs : JSON KeyPairs} {json_ops : JSON Operations}.

(** What a process finds outside: disk, network, and its environment. *)
Record Outside : Type := mk_Outside { o_disk : W; o_net : K; o_env : E }.
Definition set_disk w (o : Outside) : Outside := mk_Outside w (o_net o) (o_env o).
Definition set_net k (o : Outside) : Outside := mk_Outside (o_disk o) k (o_env o).

(** ** [ServiceProvider] *)

Record ServiceProvider : Type := mk_ServiceProvider {
  GetStorage : KafkaStorage (W := K);
  GetKeyStore : LevelDBKeyStore DB;
  GetLogger : string;
  GetState : LevelDBState DB;
  GetFSMService : FSMService;
  GetOperationService : BaseOperationRepo
}.

Definition SetStorage stg (s : ServiceProvider) : ServiceProvider :=
  mk_ServiceProvider stg (GetKeyStore s) (GetLogger s) (GetState s) (GetFSMService s) (GetOperationService s).
Definition SetKeyStore ks (s : ServiceProvider) : ServiceProvider :=
  mk_ServiceProvider (GetStorage s) ks (GetLogger s) (GetState s) (GetFSMService s) (GetOperationService s).
Definition SetLogger l (s : ServiceProvider) : ServiceProvider :=
  mk_ServiceProvider (GetStorage s) (GetKeyStore s) l (GetState s) (GetFSMService s) (GetOperationService s).
Definition SetState st (s : ServiceProvider) : ServiceProvider :=
  mk_ServiceProvider (GetStorage s) (GetKeyStore s) (GetLogger s) st (GetFSMService s) (GetOperationService s).
Definition SetFSMService fsm (s : ServiceProvider) : ServiceProvider :=
  mk_ServiceProvider (GetStorage s) (GetKeyStore s) (GetLogger s) (GetState s) fsm (GetOperationService s).
Definition SetOperationService ops (s : ServiceProvider) : ServiceProvider :=
  mk_ServiceProvider (GetStorage s) (GetKeyStore s) (GetLogger s) (GetState s) (GetFSMService s) ops.

(** A call of a storage that is being set up; its connections are on the
    network. *)
Definition with_storage (m : IO (KafkaStorage (W := K)) unit) (stg : KafkaStorage (W := K))
  : IO Outside (KafkaStorage (W := K)) := fun o =>
  match m stg with
  | Ret (stg, inl _) => Ret (set_net (ks_world stg) o, inl stg)
  | Ret (stg, inr err) => Ret (set_net (ks_world stg) o, inr err)
  | Panic why => Panic why
  end.

(** A call of the state, which is an object and the disk. *)
Definition with_state {A} (m : IO (LevelDBState DB * W) A) (st : LevelDBState DB)
  : IO Outside (LevelDBState DB * A) := fun o =>
  match m (st, o_disk o) with
  | Ret ((st, w), inl a) => Ret (set_disk w o, inl (st, a))
  | Ret ((st, w), inr err) => Ret (set_disk w o, inr err)
  | Panic why => Panic why
  end.

(** The signature service has no state of its own. *)
Definition CreateServiceProviderWithCfg (cfg : Config) : IO Outside ServiceProvider :=
  stg ← wrap "failed to initialize fafka storgae"
    (zoom o_net set_net (NewKafkaStorage (fst <$> cfg_KafkaStorageConfig cfg)));
  ignoredMsgs ← wrap "failed to ignore messages in storage"
    (of_res (parseMessagesToIgnore (snd <$> cfg_KafkaStorageConfig cfg)));
  kafkaCfg ← lift (deref (cfg_KafkaStorageConfig cfg));
  stg ← wrap "failed to ignore messages in storage"
    (with_storage (kafka_IgnoreMessages ignoredMsgs (UseOffsetInsteadId kafkaCfg.2)) stg);
  ks ← wrap "failed to init key store"
    (zoom o_disk set_disk (NewLevelDBKeyStore (cfg_Username cfg) (cfg_KeyStoreDBDSN cfg)));
  let l := cfg_Username cfg in
  let topic := cfg_Topic kafkaCfg.1 in
  st ← wrap "failed to init state" (zoom o_disk set_disk (NewLevelDBState (cfg_StateDBSN cfg) topic));
  '(st, opRepo) ← wrap "failed to init operation repo" (with_state (NewOperationRepo topic) st);
  mret (mk_ServiceProvider stg ks l st (NewFSMService topic) opRepo).

(** ** What the services share

    The objects behind the pointers of a running node. *)

Record Deps : Type := mk_Deps {
  d_storage : KafkaStorage (W := K);
  d_keys : LevelDBKeyStore DB;
  d_state : LevelDBState DB;
  d_disk : W;
  d_env : E
}.

Definition on_state {A} (m : IO (LevelDBState DB * W) A) : IO Deps A :=
  zoom (fun d => (d_state d, d_disk d))
    (fun x d => mk_Deps (d_storage d) (d_keys d) x.1 x.2 (d_env d)) m.
Definition on_keys {A} (m : IO (LevelDBKeyStore DB * W) A) : IO Deps A :=
  zoom (fun d => (d_keys d, d_disk d))
    (fun x d => mk_Deps (d_storage d) x.1 (d_state d) x.2 (d_env d)) m.
Definition on_storage {A} (m : IO (KafkaStorage (W := K)) A) : IO Deps A :=
  zoom d_storage (fun x d => mk_Deps x (d_keys d) (d_state d) (d_disk d) (d_env d)) m.
Definition on_env {A} (m : IO E A) : IO Deps A :=
  zoom d_env (fun x d => mk_Deps (d_storage d) (d_keys d) (d_state d) (d_disk d) x) m.

#[export] Instance deps_state : NodeState Deps := {
  state_Get k := on_state (state_Get k);
  state_Set k v := on_state (state_Set k v);
  state_Delete k := on_state (state_Delete k);
  state_Reset now path := on_state (state_Reset now path);
  state_SaveOffset o := on_state (state_SaveOffset o);
  state_LoadOffset := on_state state_LoadOffset;
  state_GetOrError k := on_state (state_GetOrError k)
}.
#[export] Instance deps_storage : Storage Deps := {
  storage_Send ms := on_storage (storage_Send ms);
  storage_GetMessages o := on_storage (storage_GetMessages o);
  storage_Close := on_storage storage_Close;
  storage_IgnoreMessages ms useOffset := on_storage (storage_IgnoreMessages ms useOffset);
  storage_UnignoreMessages := on_storage storage_UnignoreMessages;
  storage_SetConsumerGroup := (fun set cg => on_storage (set cg)) <$> storage_SetConsumerGroup
}.
#[export] Instance deps_keys : KeyStore Deps := {
  keystore_PutKeys u k := on_keys (keystore_PutKeys u k);
  keystore_LoadKeys u pw := on_keys (keystore_LoadKeys u pw)
}.
#[export] Instance deps_env : Env Deps := {
  time_Now := on_env time_Now;
  uuid_New := on_env uuid_New;
  rand_Int k := on_env (rand_Int k);
  rand_Bytes n := on_env (rand_Bytes n)
}.

(** ** [cmd/dc4bc_d] *)

(** The settings, from flags and the configuration file: [Unmarshal] into each
    of the three structures, and single values. *)
Class Viper : Type := {
  viper_Unmarshal_Config : (string * string * string) + error;
  viper_Unmarshal_KafkaStorageConfig : (KafkaStorageConfig * IgnoreConfig) + error;
  viper_Unmarshal_HttpApiConfig : HttpApiConfig + error;
  viper_GetString : string → string;
  viper_GetBool : string → bool
}.
Context {viper : Viper} {scrypto : SigningCrypto}.

Definition prepareConfig : Config + error :=
  match viper_Unmarshal_Config with
  | inr err => inr (Wrap "failed to parse cli arguments" err)
  | inl (username, stateDBSN, keyStoreDBDSN) =>
  match viper_Unmarshal_KafkaStorageConfig with
  | inr err => inr (Wrap "failed to parse cli arguments" err)
  | inl kafkaCfg =>
  match viper_Unmarshal_HttpApiConfig with
  | inr err => inr (Wrap "failed to parse cli arguments" err)
  | inl httpCfg => inl (mk_Config (Some httpCfg) (Some kafkaCfg) username stateDBSN keyStoreDBDSN)
  end end end.

Definition flagUserName : string := "username".
Definition flagStoreDBDSN : string := "key_store_dbdsn".
Definition flagSkipCommKeysVerification : string := "skip_comm_keys_verification".

(** [gen_keys]; [seed] is what the key generation reads, and the opened key
    store is used once. *)
Definition genKeyPairCommand (seed : bytes) : IO Outside unit :=
  let username := viper_GetString flagUserName in
  if slen username <? UsernameMinLength then throw (Err "username minimum length")
  else if UsernameMaxLength <? slen username then throw (Err "username maximum length")
  else
    let keyPair := NewKeyPair seed in
    keyStore ← wrap "failed to init key store"
      (zoom o_disk set_disk (NewLevelDBKeyStore username (viper_GetString flagStoreDBDSN)));
    wrap "failed to save keypair" (fun o =>
      match PutKeys username (Some keyPair) (keyStore, o_disk o) with
      | Ret ((_, w), r) => Ret (set_disk w o, r)
      | Panic why => Panic why
      end).

(** The node holds on to everything outside from then on. *)
Definition init_node (cfg : Config) (sp : ServiceProvider) : IO Outside (BaseNodeService Deps) := fun o =>
  match NewNode (cfg_Username cfg) (GetFSMService sp) (GetOperationService sp)
          (mk_Deps (GetStorage sp) (GetKeyStore sp) (GetState sp) (o_disk o) (o_env o)) with
  | Ret (_, r) => Ret (o, r)
  | Panic why => Panic why
  end.

(** [start], up to the poll loop and the API, which share the node; a failure
    here is fatal. *)
Definition startClient : IO Outside (BaseNodeService Deps) :=
  cfg ← wrap "failed to prepare config" (of_res prepareConfig);
  sp ← wrap "failed to init service provider" (CreateServiceProviderWithCfg cfg);
  nodeInstance ← wrap "failed to init node" (init_node cfg sp);
  mret (set_skip (viper_GetBool flagSkipCommKeysVerification) nodeInstance).
End provider.
Arguments Outside W K E : clear implicits.
Arguments Deps DB W K {kafka} E.
