(* ===== verification/ProviderSpec.v ===== *)
(** * The assembled node

    The laws of [NodeSpec], which every theorem about the node rests on, hold of
    the objects that the daemon assembles: a LevelDB state, a LevelDB key store
    and the Kafka storage. A node that [start] brings up satisfies the
    invariants from its first moment on. *)

From S2P Require Import Prelude GoFsm Requests Payload.
From S2P Require Import SignatureProposal DkgProposal SigningProposal StateMachines Protocol.
From S2P Require Import LevelState ClientTypes OperationRepo SignatureRepo FsmService JsonText Representable.
From S2P Require Import IOLogic Kyber Dkg SigningTasks KeyStore FileStorage KafkaStorage Services NodeService NodeSpec.
From S2P Require Import ProcessMessage NodeRounds HttpApi HttpSpec Provider.

#[local] Opaque SignatureProposal.New DkgProposal.New SigningProposal.New.

(** ** What the packages promise *)

(** Two handles of different databases do not disturb each other. *)
Class LevelDBHandles (DB W : Type) `{LevelDBSpec DB W} : Type := {
  Put_handles d k v w w' : live d w → leveldb_Put d k v w = (w', None) → ∀ d2, live d2 w → live d2 w';
  Delete_handles d k w w' : live d w → leveldb_Delete d k w = (w', None) →
    (∀ d2, live d2 w → live d2 w') ∧ ∀ path, path ≠ path_of d → disk path w' = disk path w;
  OpenFile_handles path w w' d : leveldb_OpenFile path w = (w', inl d) → ∀ d2, live d2 w → live d2 w'
}.

(** The values of the topic, in order. Writing appends the messages, or a first
    part of them when it fails; connecting and reading append nothing. *)
Class KafkaClientSpec (K : Type) `{!KafkaClient K} : Type := {
  topic_log : K → list bytes;
  NewReader_log c k k' r : kafka_NewReader c k = (k', r) → topic_log k' = topic_log k;
  NewWriter_log c k k' wr : kafka_NewWriter c k = (k', wr) → topic_log k' = topic_log k;
  WriteMessages_log wr ms k k' err : writer_WriteMessages wr ms k = (k', err) →
    ∃ pre, pre `prefix_of` ms ∧ topic_log k' = topic_log k ++ (km_Value <$> pre) ∧ (err = None → pre = ms);
  ReadMessages_log r t k k' res : reader_ReadMessages r t k = (k', res) → topic_log k' = topic_log k
}.

(** A message that is encoded is decoded to itself, whatever variable it is
    decoded into: all fields are present. *)
Class MessageCodecFaithful `{!MessageCodec} : Prop :=
  msg_faithful m b : msg_marshal m = Some b → ∀ old, msg_unmarshal old b = (m, true).

(** Clock and randomness do not fail. *)
Class EnvSpec (E : Type) `{!Env E} : Prop := {
  time_answers e : ∃ e' t, time_Now e = Ret (e', inl t);
  uuid_answers e : ∃ e' id, uuid_New e = Ret (e', inl id);
  rand_answers n e : ∃ e' r, rand_Int n e = Ret (e', r)
}.

(** ** The interfaces are implemented *)

Section assembled.
Context {DB W : Type} {ldb : LevelDB DB W} {lerr : LevelDBErr} {lspec : LevelDBSpec DB W} {lh : LevelDBHandles DB W}.
Context {K : Type} {kafka : KafkaClient K} {kspec : KafkaClientSpec K} {codec : MessageCodec}
  {faithful : MessageCodecFaithful}.
Context {E : Type} {env : Env E} {espec : EnvSpec E}.
Context {json_pairs : JSON KeyPairs} {jpairs : JSONMap (option KeyPair)}.
Abbreviation D := (Deps DB W K E) (only parsing).
Implicit Types (d : D).

(** The two databases are open and apart, the key store holds a map of keys,
    and the storage is connected. *)
Record assembled (d : D) : Prop := {
  as_state : live (stateDb (d_state d)) (d_disk d);
  as_apart : path_of (stateDb (d_state d)) ≠ path_of (keystoreDb (d_keys d));
  as_keys : ∃ m, holds_keys m (d_keys d, d_disk d);
  as_reader : is_Some (reader (d_storage d));
  as_writer : is_Some (writer (d_storage d))
}.

Definition deps_stored (d : D) : gmap string bytes := disk (path_of (stateDb (d_state d))) (d_disk d).

(** The disk after a write to the state. *)
Lemma assembled_disk d s w' :
  assembled d → stateDb s = stateDb (d_state d) → live (stateDb s) w' →
  (∀ h, live h (d_disk d) → live h w') →
  (∀ path, path ≠ path_of (stateDb s) → disk path w' = disk path (d_disk d)) →
  assembled (mk_Deps (d_storage d) (d_keys d) s w' (d_env d)) ∧
  disk (path_of (keystoreDb (d_keys d))) w' = disk (path_of (keystoreDb (d_keys d))) (d_disk d).
Proof.
  intros [Hst Hne (m & Hl & Hf & b & Hb & Hu) Hr Hwr] Hs Hl' Hlive Hd.
  assert (disk (path_of (keystoreDb (d_keys d))) w' = disk (path_of (keystoreDb (d_keys d))) (d_disk d)) as Hk.
  { apply Hd. rewrite Hs. congruence. }
  split; [|done]. constructor; cbn; rewrite ?Hs; try done; [by rewrite <-Hs|].
  exists m. split_and!; [by apply Hlive|done|]. exists b. cbn in *. by rewrite Hk.
Qed.

Lemma deps_eta d : mk_Deps (d_storage d) (d_keys d) (d_state d) (d_disk d) (d_env d) = d.
Proof. by destruct d. Qed.

Lemma on_state_run {A} (m : IO (LevelDBState DB * W) A) d s w r :
  m (d_state d, d_disk d) = Ret ((s, w), r) →
  on_state m d = Ret (mk_Deps (d_storage d) (d_keys d) s w (d_env d), r).
Proof. intros H. unfold on_state, zoom. by rewrite H. Qed.

Lemma Put_state d k v :
  assembled d →
  ∃ w', leveldb_Put (stateDb (d_state d)) k v (d_disk d) = (w', None) ∧
    disk (path_of (stateDb (d_state d))) w' = <[k := v]> (deps_stored d) ∧
    assembled (mk_Deps (d_storage d) (d_keys d) (d_state d) w' (d_env d)) ∧
    disk (path_of (keystoreDb (d_keys d))) w' = disk (path_of (keystoreDb (d_keys d))) (d_disk d).
Proof.
  intros Ha. destruct (leveldb_Put_live _ k v _ (as_state _ Ha)) as (w' & Hput & Hl & Hd & Hp).
  exists w'. split; [done|]. split; [done|].
  apply assembled_disk; [done|done|done| |done]. by eapply Put_handles; [apply Ha|].
Qed.

Lemma state_is_ready d : assembled d → ready (d_state d, d_disk d).
Proof. intros Ha. exact (as_state _ Ha). Qed.

#[export] Program Instance deps_state_spec : NodeStateSpec D := {
  ready := assembled;
  stored := deps_stored
}.
Next Obligation.
  intros d k Ha. etrans; [exact (on_state_run _ d _ _ _ (state_Get_ready _ k (state_is_ready d Ha)))|].
  by rewrite deps_eta.
Qed.
Next Obligation.
  intros d k Ha. etrans; [exact (on_state_run _ d _ _ _ (state_GetOrError_ready _ k (state_is_ready d Ha)))|].
  by rewrite deps_eta.
Qed.
Next Obligation.
  intros d k v Ha. destruct (Put_state d k v Ha) as (w' & Hput & Hd & Ha' & _).
  eexists. split; [apply on_state_run; cbn; unfold LevelDBState_Set; by rewrite Hput|]. by split.
Qed.
Next Obligation.
  intros d k Ha. destruct (leveldb_Delete_live _ k _ (as_state _ Ha)) as (w' & Hdel & Hl & Hd).
  destruct (Delete_handles _ _ _ _ (as_state _ Ha) Hdel) as [Hlive Hp].
  eexists. split; [apply on_state_run; cbn; unfold LevelDBState_Delete; by rewrite Hdel|].
  split; [|done]. by apply (assembled_disk d (d_state d) w').
Qed.

(** ** The rest of the world *)

Definition message_of (b : bytes) : Message := (msg_unmarshal empty_message b).1.
Definition keys_in (d : D) : gmap string (option KeyPair) :=
  match disk (path_of (keystoreDb (d_keys d))) (d_disk d) !! secretsKey ≫= unmarshal with
  | Some (Some m) => m
  | _ => ∅
  end.
Definition deps_rest (d : D) : Rest :=
  mk_Rest (message_of <$> topic_log (ks_world (d_storage d))) (keys_in d) (offset_key (topic (d_state d))).

Lemma keys_in_holds m d : holds_keys m (d_keys d, d_disk d) → keys_in d = m.
Proof. intros (_ & _ & b & Hb & Hu). unfold keys_in. cbn in Hb. rewrite Hb. cbn. by rewrite Hu. Qed.

(** Encoding for the topic and decoding from it. *)
Lemma storageToKafka_values ms ks :
  storageToKafkaMessages ms = inl ks → message_of <$> (km_Value <$> ks) = ms.
Proof.
  revert ks. induction ms as [|m ms IH]; intros ks; cbn; [by intros [= <-]|].
  unfold kafka_message. destruct (msg_marshal m) as [b|] eqn:Hb; [|done].
  destruct (storageToKafkaMessages ms) as [ks'|]; [|done]. intros [= <-]. cbn.
  unfold message_of. rewrite (msg_faithful m b Hb). cbn. f_equal. by apply IH.
Qed.

Lemma sent_as_refl ms : Forall2 sent_as ms ms.
Proof. induction ms; constructor; [by split_and!|done]. Qed.

(** A storage that is connected sends, and stays connected. *)
Lemma kafka_Send_run ms (ks : KafkaStorage (W := K)) :
  is_Some (writer ks) →
  ∃ w' r pre, kafka_Send ms ks = Ret (ks_set_world w' ks, r) ∧ pre `prefix_of` ms ∧
    message_of <$> topic_log w' = (message_of <$> topic_log (ks_world ks)) ++ pre ∧
    match r with inl out => out = ms ∧ pre = ms | inr _ => True end.
Proof.
  intros [wr Hwr]. unfold kafka_Send, wrap, of_res, mbind, IO_bind.
  destruct (storageToKafkaMessages ms) as [kms|err] eqn:Hk.
  2:{ exists (ks_world ks), (inr (Wrap "failed to storageToKafkaMessages" err)), [].
      split_and!; [by destruct ks|apply prefix_nil|by rewrite app_nil_r|done]. }
  cbn. rewrite Hwr. cbn. unfold client.
  destruct (writer_WriteMessages wr kms (ks_world ks)) as [w' err] eqn:Hw.
  destruct (WriteMessages_log wr kms (ks_world ks) w' err Hw) as (pre & [post Hpre] & Hlog & Hall).
  exists w', (match err with Some e => inr (Wrap "failed to WriteMessages" e) | None => inl ms end),
    (message_of <$> (km_Value <$> pre)).
  pose proof (storageToKafka_values ms kms Hk) as Hms.
  split_and!; [by destruct err| |by rewrite Hlog, fmap_app|].
  - exists (message_of <$> (km_Value <$> post)). by rewrite <-Hms, Hpre, !fmap_app.
  - destruct err; [done|]. split; [done|]. by rewrite Hall.
Qed.

(** A call of the storage changes its network only. *)
Lemma on_storage_run {A} (m : IO (KafkaStorage (W := K)) A) d w' r :
  m (d_storage d) = Ret (ks_set_world w' (d_storage d), r) → assembled d →
  ∃ d', on_storage m d = Ret (d', r) ∧ assembled d' ∧ deps_stored d' = deps_stored d ∧
    keys_in d' = keys_in d ∧ d_state d' = d_state d ∧ ks_world (d_storage d') = w'.
Proof.
  intros Hm [H1 H2 H3 H4 H5]. unfold on_storage, zoom. rewrite Hm. eexists. split; [done|].
  split; [by constructor|done].
Qed.

Lemma on_env_run {A} (m : IO E A) d e' r :
  m (d_env d) = Ret (e', r) → assembled d →
  ∃ d', on_env m d = Ret (d', r) ∧ assembled d' ∧ deps_stored d' = deps_stored d ∧ deps_rest d' = deps_rest d.
Proof.
  intros Hm [H1 H2 H3 H4 H5]. unfold on_env, zoom. rewrite Hm. eexists. split; [done|].
  split; [by constructor|done].
Qed.
#[export] Program Instance assembled_world : WorldSpec D := { rest := deps_rest }.
Next Obligation.
  intros k v d d' Ha Hset. destruct (Put_state d k v Ha) as (w' & Hput & _ & _ & Hk).
  cbn in Hset. unfold on_state, zoom in Hset. cbn in Hset. unfold LevelDBState_Set in Hset.
  rewrite Hput in Hset. cbn in Hset. injection Hset as <-. unfold deps_rest, keys_in. cbn. by rewrite Hk.
Qed.
Next Obligation.
  intros o d Ha. destruct (Put_state d (offset_key (topic (d_state d))) (PutUint64 o) Ha) as (w' & Hput & Hd & Ha' & Hk).
  assert (LevelState.SaveOffset o (d_state d, d_disk d) = Ret ((d_state d, w'), inl tt)) as Hsave.
  { unfold LevelState.SaveOffset. unfold offset_key in Hput. by rewrite Hput. }
  eexists. split; [exact (on_state_run _ d _ _ _ Hsave)|].
  split; [done|]. split; [exact Hd|]. unfold deps_rest, keys_in. cbn. by rewrite Hk.
Qed.
Next Obligation.
  intros o d Ha Ho Hs. pose proof (LoadOffset_ok (d_state d) (d_disk d) o (as_state _ Ha) Hs) as Hl.
  rewrite Z.mod_small in Hl by done. etrans; [exact (on_state_run _ d _ _ _ Hl)|]. by rewrite deps_eta.
Qed.
Next Obligation.
  intros d Ha. cbn. unfold on_state, zoom. cbn. unfold LoadOffset.
  destruct (leveldb_Get _ _ (d_disk d)) as [bz|]; cbn; [destruct (Uint64 bz); cbn; [|done]|]; by rewrite deps_eta.
Qed.
Next Obligation.
  intros ms d Ha. destruct (kafka_Send_run ms (d_storage d) (as_writer _ Ha)) as (w' & r & pre & Hrun & Hpre & Hlog & Hr).
  destruct (on_storage_run _ d w' r Hrun Ha) as (d' & Hd' & Ha' & Hst & Hk & Hs & Hw).
  exists d', r, pre, pre. split; [exact Hd'|]. split_and!; [done..| |done|apply sent_as_refl|].
  - unfold deps_rest, push. cbn. by rewrite Hw, Hlog, Hk, Hs.
  - destruct r; [|done]. destruct Hr as [-> ->]. done.
Qed.
Next Obligation.
  intros o d Ha. destruct (as_reader _ Ha) as [rd Hrd].
  destruct (reader_ReadMessages rd (readDuration (d_storage d)) (ks_world (d_storage d))) as [w' [l e]] eqn:Hread.
  pose proof (ReadMessages_log _ _ _ _ _ Hread) as Hlog.
  assert (∃ r, kafka_GetMessages o (d_storage d) = Ret (ks_set_world w' (d_storage d), r)) as [r Hrun].
  { unfold kafka_GetMessages. rewrite Hrd, Hread. destruct e; by eexists. }
  destruct (on_storage_run _ d w' r Hrun Ha) as (d' & Hd' & Ha' & Hst & Hk & Hs & Hw).
  exists d', r. split; [exact Hd'|]. split_and!; [done..|]. unfold deps_rest. by rewrite Hw, Hlog, Hk, Hs.
Qed.
Next Obligation.
  intros u pw d Ha. destruct (as_keys _ Ha) as (m & Hm). cbn. unfold on_keys, zoom. cbn.
  rewrite (LoadKeys_ok m _ u pw Hm), (keys_in_holds m d Hm). by rewrite deps_eta.
Qed.
Next Obligation.
  intros d Ha. destruct (time_answers (d_env d)) as (e' & t & Ht).
  destruct (on_env_run _ d e' _ Ht Ha) as (d' & Hd' & ? & ? & ?). by exists d', t.
Qed.
Next Obligation.
  intros d Ha. destruct (uuid_answers (d_env d)) as (e' & t & Ht).
  destruct (on_env_run _ d e' _ Ht Ha) as (d' & Hd' & ? & ? & ?). by exists d', t.
Qed.
Next Obligation.
  intros n d Ha. destruct (rand_answers n (d_env d)) as (e' & t & Ht).
  destruct (on_env_run _ d e' _ Ht Ha) as (d' & Hd' & ? & ? & ?). by exists d', t.
Qed.

(** ** The constructors *)

Lemma NewKafkaStorage_connected cfg (k k' : K) ks :
  NewKafkaStorage cfg k = Ret (k', inl ks) → is_Some (reader ks) ∧ is_Some (writer ks).
Proof.
  unfold NewKafkaStorage. intros H. repeat (case_match; simplify_eq; []).
  repeat case_match; simplify_eq; try done.
  match goal with Hr : wrap _ reset _ = _ |- _ => rename Hr into Hreset end.
  unfold wrap, reset, mbind, IO_bind, kafka_Close, gets in Hreset. cbn in Hreset.
  unfold modify, connect in Hreset. cbn in Hreset.
  repeat case_match; simplify_eq; cbn; eauto.
Qed.

Lemma kafka_IgnoreMessages_connected l b r w :
  keeps (fun ks : KafkaStorage (W := K) => reader ks = r ∧ writer ks = w) (kafka_IgnoreMessages l b).
Proof.
  unfold kafka_IgnoreMessages, iterIO. apply keeps_fold. intros msg _. unfold kafka_ignore_message.
  destruct b; [destruct (ParseUint msg); [|apply keeps_throw]|]; apply post_modify; by intros ks.
Qed.

(** What the database of a key store may hold before it is opened. *)
Definition keys_decode (path : string) (w : W) : Prop :=
  ∀ b, disk path w !! secretsKey = Some b → ∃ m, unmarshal b = Some (Some m) ∧ map_Forall entry_fits m.

Lemma NewLevelDBKeyStore_start name path w w' ks :
  NewLevelDBKeyStore name path w = Ret (w', inl ks) → keys_decode path w →
  path_of (keystoreDb ks) = path ∧ (∃ m, holds_keys m (ks, w')) ∧ (∀ h, live h w → live h w') ∧
  ∀ p, p ≠ path → disk p w' = disk p w.
Proof.
  unfold NewLevelDBKeyStore. intros H Hdec.
  destruct (leveldb_OpenFile path w) as [w1 [db|err]] eqn:Ho; [|by simplify_eq].
  destruct (leveldb_OpenFile_live _ _ _ _ Ho) as (Hl & Hp & Hd).
  pose proof (OpenFile_handles _ _ _ _ Ho) as Hh.
  rewrite (leveldb_Get_live _ _ _ Hl), Hp, Hd in H.
  destruct (disk path w !! secretsKey) as [b|] eqn:Hb.
  - simplify_eq. cbn. split_and!; [done| |done|intros; apply Hd].
    destruct (Hdec b Hb) as (m & Hu & Hf). exists m. split_and!; [done..|]. exists b. cbn. by rewrite Hd, Hb.
  - destruct (map_roundtrip (∅ : gmap string (option KeyPair)) (map_Forall_empty _)) as (b & Hm & _ & Hu).
    destruct (leveldb_Put_live db secretsKey b w1 Hl) as (w2 & Hput & Hl2 & Hd2 & Hp2).
    assert (keystore_initJsonKey secretsKey (Some ∅) (mk_LevelDBKeyStore db, w1) =
      Ret ((mk_LevelDBKeyStore db, w2), inl tt)) as Hinit.
    { unfold keystore_initJsonKey, try, mbind, IO_bind, ks_Get, ks_Put, json_res, mret, IO_ret, wrap.
      cbn -[secretsKey]. rewrite (leveldb_Get_live _ _ _ Hl), Hp, Hd, Hb, Hm. cbn -[secretsKey]. by rewrite Hput. }
    unfold wrap in H. rewrite Hinit in H. cbn in H. simplify_eq. cbn.
    split_and!; [done| |by eauto using Put_handles|].
    + exists ∅. split_and!; [done|apply map_Forall_empty|]. exists b. cbn. by rewrite Hd2, lookup_insert_eq.
    + intros p Hne. by rewrite Hp2, Hd by congruence.
Qed.

Lemma NewLevelDBState_start path topic w w' s :
  NewLevelDBState path topic w = Ret (w', inl s) →
  live (stateDb s) w' ∧ path_of (stateDb s) = path ∧ LevelState.topic s = topic ∧
  (∀ h, live h w → live h w') ∧ (∀ p, p ≠ path → disk p w' = disk p w) ∧
  disk path w' = (if disk path w !! offset_key topic is Some _ then disk path w
                  else <[offset_key topic := PutUint64 0]> (disk path w)).
Proof.
  intros H. destruct (leveldb_OpenFile path w) as [w1 [db|err]] eqn:Ho.
  2:{ unfold NewLevelDBState in H. rewrite Ho in H. by simplify_eq. }
  pose proof (OpenFile_handles _ _ _ _ Ho) as Hh.
  assert (∀ h, live h w → live h w') as Hlive.
  { unfold NewLevelDBState in H. rewrite Ho in H. destruct (leveldb_Get _ _ w1); [by simplify_eq; auto|].
    destruct (leveldb_OpenFile_live _ _ _ _ Ho) as (Hl & _).
    destruct (leveldb_Put _ _ _ w1) as [w2 [oe|]] eqn:Hput; simplify_eq. eauto using Put_handles. }
  destruct (NewLevelDBState_ok path topic w w1 db Ho) as (w2 & Hn & Hl & Hp & Hd & Hrest).
  rewrite H in Hn. simplify_eq. by split_and!.
Qed.

(** The pool is set up on the state; the rest of the world is not touched. *)
Lemma NewOperationRepo_deps {json_ops : JSON Operations} topic d :
  NewOperationRepo topic d = on_state (NewOperationRepo topic) d.
Proof.
  unfold NewOperationRepo, initJsonKey, wrap, mbind, IO_bind. cbn. unfold on_state, zoom, LevelDBState_Set. cbn.
  destruct (leveldb_Put (stateDb (d_state d)) _ _ (d_disk d)) as [w1 [e1|]]; cbn; [done|].
  destruct (leveldb_Put (stateDb (d_state d)) _ _ w1) as [w2 [e2|]]; cbn; done.
Qed.
End assembled.

(** ** Starting *)

(** What a successful sequence went through. *)
Lemma IO_bind_inl {S A B} (m : IO S A) (k : A → IO S B) s s' b :
  (m ≫= k) s = Ret (s', inl b) → ∃ s1 a, m s = Ret (s1, inl a) ∧ k a s1 = Ret (s', inl b).
Proof. unfold mbind, IO_bind. intros H. destruct (m s) as [[s1 [a|e]]|]; [eauto|done..]. Qed.
Lemma wrap_inl {S A} msg (m : IO S A) s s' a : wrap msg m s = Ret (s', inl a) → m s = Ret (s', inl a).
Proof. unfold wrap. intros H. by destruct (m s) as [[s1 [x|e]]|]. Qed.
Lemma zoom_inl {S T A} (get : S → T) set (m : IO T A) s s' a :
  zoom get set m s = Ret (s', inl a) → ∃ t, m (get s) = Ret (t, inl a) ∧ s' = set t s.
Proof. unfold zoom. intros H. destruct (m (get s)) as [[t r]|]; simplify_eq. eauto. Qed.

Ltac inl_step H s a Ha :=
  apply IO_bind_inl in H as (s & a & Ha & H); try apply wrap_inl in Ha.

Section start.
Context {DB W : Type} {ldb : LevelDB DB W} {lerr : LevelDBErr} {lspec : LevelDBSpec DB W} {lh : LevelDBHandles DB W}.
Context {K : Type} {kafka : KafkaClient K} {kspec : KafkaClientSpec K} {codec : MessageCodec}
  {faithful : MessageCodecFaithful}.
Context {E : Type} {env : Env E} {espec : EnvSpec E} {viper : Viper}.
Context {json_pairs : JSON KeyPairs} {jpairs : JSONMap (option KeyPair)}.
Context {json_ops : JSON Operations} {jops : JSONMap (option Operation)}.
Abbreviation D := (Deps DB W K E) (only parsing).

(** What the state is on the disk before the start, and where it lies. *)
Record startable (cfg : Config) (w : W) : Prop := {
  sb_paths : cfg_StateDBSN cfg ≠ cfg_KeyStoreDBDSN cfg;
  sb_keys : keys_decode (cfg_KeyStoreDBDSN cfg) w
}.

(** The objects that the service provider holds, on the disk it leaves. *)
Lemma provider_assembled cfg kc ic o o1 sp :
  cfg_KafkaStorageConfig cfg = Some (kc, ic) → startable cfg (o_disk o) →
  CreateServiceProviderWithCfg cfg o = Ret (o1, inl sp) →
  ∃ d0, assembled (E := E) d0 ∧ topic (d_state d0) = cfg_Topic kc ∧
    deps_stored d0 =
      (if disk (cfg_StateDBSN cfg) (o_disk o) !! offset_key (cfg_Topic kc) is Some _
       then disk (cfg_StateDBSN cfg) (o_disk o)
       else <[offset_key (cfg_Topic kc) := PutUint64 0]> (disk (cfg_StateDBSN cfg) (o_disk o))) ∧
    NewOperationRepo (cfg_Topic kc) d0 =
      Ret (mk_Deps (GetStorage sp) (GetKeyStore sp) (GetState sp) (o_disk o1) (o_env o1), inl (GetOperationService sp)) ∧
    GetFSMService sp = NewFSMService (cfg_Topic kc).
Proof.
  intros Hcfg [Hpaths Hkeys] Hrun. unfold CreateServiceProviderWithCfg in Hrun. rewrite Hcfg in Hrun.
  inl_step Hrun oa stg Hstg. apply zoom_inl in Hstg as (k1 & Hnew & ->).
  destruct (NewKafkaStorage_connected _ _ _ _ Hnew) as [[rd Hrd] [wr Hwr]].
  inl_step Hrun ob msgs Hmsgs. unfold of_res in Hmsgs. injection Hmsgs as <- _.
  inl_step Hrun oc kcfg Hk. cbn in Hk. injection Hk as <- <-.
  inl_step Hrun od stg2 Hign. cbn [snd] in Hign. unfold with_storage in Hign.
  destruct (kafka_IgnoreMessages msgs (UseOffsetInsteadId ic) stg) as [[stg' [[]|e]]|] eqn:Hi; [|done..].
  injection Hign as <- <-.
  pose proof (keeps_run _ _ _ _ _ (kafka_IgnoreMessages_connected msgs _ (Some rd) (Some wr)) (conj Hrd Hwr) Hi) as [Hrd' Hwr'].
  inl_step Hrun oe ks Hks. apply zoom_inl in Hks as (w1 & Hks & ->). cbn [o_disk set_net] in Hks.
  destruct (NewLevelDBKeyStore_start _ _ _ _ _ Hks Hkeys) as (Hkp & (m & Hm) & Hlive1 & Hdisk1).
  inl_step Hrun og st Hst. apply zoom_inl in Hst as (w2 & Hst & ->). cbn [o_disk set_net set_disk] in Hst.
  destruct (NewLevelDBState_start _ _ _ _ _ Hst) as (Hl2 & Hp2 & Ht2 & Hlive2 & Hdisk2 & Hs2).
  inl_step Hrun oh x Hops. destruct x as [st' ops]. cbn in Hrun. injection Hrun as <- <-. cbn.
  exists (mk_Deps stg' ks st w2 (o_env o)).
  assert (assembled (mk_Deps stg' ks st w2 (o_env o))) as Ha.
  { constructor; cbn; [done|congruence| |by eexists..]. exists m. destruct Hm as (Hlk & Hf & b & Hb & Hu).
    split_and!; [by apply Hlive2|done|]. exists b. cbn in *. by rewrite Hdisk2 by congruence. }
  split; [done|]. split; [done|]. split; [|split; [|done]].
  - unfold deps_stored. cbn. rewrite Hp2, Hs2. by rewrite Hdisk1 by done.
  - rewrite NewOperationRepo_deps. unfold with_state in Hops. cbn in Hops. unfold on_state, zoom. cbn.
    destruct (NewOperationRepo (cfg_Topic kc) (st, w2)) as [[[st1 w3] [r|e]]|]; [|done..].
    by injection Hops as <- <- <-.
Qed.

Context {crypto : Crypto} {scrypto : SigningCrypto} {kyber : Kyber} {wc : WcRotation}.
Context {ord : MapOrder} {json_tasks : JSON (list SigningTask)} {json_dump : JSON FSMDump}
  {json_spec : JSONSpec FSMDump} {json_dumps : JSON Dumps} {jmap : JSONMap bytes}
  {json_sigs : JSON SignaturesStorage}
  {json_recs : JSON (list ReconstructedSignature)} {json_oplist : JSON (list Operation)}
  {json_redkg : JSON ReDKG} {json_keyring : JSON blsKeyringJSON}
  {jreq : RequestsJSON} {jresp : ResponsesJSON} {json_reinit : JSON ReInitDKGForm}.
Context {Q : Type} {forms : HttpForms Q} {dtos : FormDTOs} {router : EchoRouter}.

(** The keys of the state are apart unless the topic makes the rounds look like
    signatures of a round. *)
Definition topic_apart (t : string) : Prop := HasPrefix (t +:+ "_") "signatures_" = false.

(** What starts with a word and an underscore starts with it up to the first
    underscore. *)
Lemma prefix_to_underscore p x t y :
  no_char "_" p → p +:+ String "_" x = t +:+ String "_" y → String.prefix (p +:+ "_") (t +:+ "_") = true.
Proof.
  induction p as [|a p IH] in t |- *; intros Hp Heq.
  - destruct t as [|c t]; rewrite ?sapp_nil, ?sapp_cons in *; [done|]. injection Heq as <- _. cbn.
    by destruct (t +:+ "_").
  - apply no_char_cons in Hp as [Ha Hp]. destruct t as [|c t]; rewrite ?sapp_nil, ?sapp_cons in *.
    + injection Heq as -> _. done.
    + injection Heq as -> Heq. cbn. destruct (ascii_dec c c); [by apply IH|done].
Qed.

Lemma topic_keys_apart t : topic_apart t → keys_apart (NewFSMService t) (repo_of t) (offset_key t).
Proof.
  intros Ht. split_and!; [|by intros H%MakeCompositeKeyString_inj..].
  intros id Heq. apply (prefix_to_underscore SignaturesKeyPrefix id t FSMStateKey) in Heq.
  - unfold topic_apart, HasPrefix in Ht. change (SignaturesKeyPrefix +:+ "_") with "signatures_" in Heq. congruence.
  - unfold SignaturesKeyPrefix. repeat (apply no_char_cons; split; [done|]). by intros [].
Qed.

(** Setting up the pool leaves what other keys hold, and the rest. *)
Lemma NewOperationRepo_store (k0 t : string) (J : gmap string bytes → Prop) :
  (∀ k v m, k = operationsCompositeKey (repo_of t) ∨ k = deleteOperationsCompositeKey (repo_of t) →
    J m → J (<[k := v]> m)) →
  keeps (S := D) (on_store k0 J) (NewOperationRepo t).
Proof.
  intros HJ. unfold NewOperationRepo, initJsonKey. keeps_tac; apply Set_store; intros m; apply HJ; auto.
Qed.

Lemma NewOperationRepo_rest t R :
  keeps (S := D) (fun d => assembled d ∧ deps_rest d = R) (NewOperationRepo t).
Proof.
  assert (∀ k v, keeps (S := D) (fun d => assembled d ∧ deps_rest d = R) (state_Set k v)) as Hset.
  { intros k v d [Ha Hr]. assert (ready d) as Hrd by exact Ha.
    destruct (state_Set_ready d k v Hrd) as (d' & Hs & Ha' & _). rewrite Hs.
    split; [exact Ha'|]. rewrite <-Hr. exact (Set_rest k v d d' Ha Hs). }
  unfold NewOperationRepo, initJsonKey. keeps_tac.
Qed.

(** C8. A node that [start] brings up, on a disk whose state holds dumps of
    reachable instances or nothing: it has the name of the configuration and the
    keys stored under it, no pending operations, the offset where it was or
    zero, and the flag of the settings; and from then on, whatever requests and
    messages it is given, short of reinitialisations and resets, of messages
    whose rounds or requests JSON does not take (they must be valid UTF-8, with
    times between year 1 and the last day of year 9999, a week earlier where a
    deadline is computed) and of a clock in the last week of year 9999, its
    rounds stay dumps of reachable instances, and these are what the API
    shows. *)
Theorem started_node_is_sound cfg kc ic o o' n :
  prepareConfig = inl cfg → cfg_KafkaStorageConfig cfg = Some (kc, ic) →
  let t := cfg_Topic kc in let before := disk (cfg_StateDBSN cfg) (o_disk o) in
  startable cfg (o_disk o) → topic_apart t → dumps_faithful → clock_dated (S := E) → rounds_in (NewFSMService t) before →
  startClient o = Ret (o', inl n) →
  userName n = cfg_Username cfg ∧
  (∃ k, keystore_LoadKeys (userName n) "" (deps n) = Ret (deps n, inl (Some k)) ∧ pubKey n = Pub k) ∧
  holds (opService n) (mk_Pool ∅ ∅) (deps n) ∧
  stored (deps n) !! offset_key t = Some (default (PutUint64 0) (before !! offset_key t)) ∧
  SkipCommKeysVerification n = viper_GetBool flagSkipCommKeysVerification ∧
  ∀ l n' r, Forall expected l → iterIO happen l n = Ret (n', r) →
    node_rounds (NewFSMService t) (repo_of t) (offset_key t) n' ∧
    ∀ q n2 resp, serve GET "/getFSMDump" q n' = Ret (n2, inl resp) → code resp = StatusOK →
      ∃ i, reachable i ∧ body resp = CSJsonResp (ADump (dump i)).
Proof.
  intros Hprep Hcfg t before Hsb Ht Hjson Hclock Hrounds Hrun. pose proof (topic_keys_apart t Ht) as Hapart.
  unfold startClient in Hrun. rewrite Hprep in Hrun. inl_step Hrun oa c Hc.
  unfold of_res in Hc. injection Hc as <- <-. inl_step Hrun ob sp Hsp.
  destruct (provider_assembled cfg kc ic o ob sp Hcfg Hsb Hsp) as (d0 & Ha0 & Htop & Hst & Hops & Hfsm).
  assert (clock_dated (S := D)) as Hclock'.
  { intros d d' time H. apply zoom_inl in H as (e' & H & _). by eapply Hclock. }
  set (d1 := mk_Deps (GetStorage sp) (GetKeyStore sp) (GetState sp) (o_disk ob) (o_env ob)) in *.
  assert (ready d0) as Hr0 by exact Ha0.
  destruct (NewOperationRepo_ok (S := D) t d0 Hr0) as (d1' & Hops' & Hholds).
  fold t in Hops. rewrite Hops in Hops'. injection Hops' as <- Hrepo.
  assert (rest_key (rest d0) = offset_key t) as Hk0 by (unfold t; rewrite <-Htop; done).
  assert (Hvalue : stored d0 !! offset_key t = Some (default (PutUint64 0) (before !! offset_key t))).
  { change (deps_stored d0 !! offset_key t = Some (default (PutUint64 0) (before !! offset_key t))).
    rewrite Hst. fold t before. destruct (before !! offset_key t) as [v|] eqn:Hv; [by rewrite Hv|].
    by rewrite lookup_insert_eq. }
  assert (on_store (offset_key t) (fun m => rounds_in (NewFSMService t) m ∧
    m !! offset_key t = Some (default (PutUint64 0) (before !! offset_key t))) d1) as (Hr1 & Hk1 & Hin1 & Hv1).
  { refine (keeps_run _ _ _ _ _ (NewOperationRepo_store (offset_key t) t _ _) _ Hops).
    - intros k v m Hk [Hm1 Hm2]. split.
      + apply rounds_in_insert; [|done]. destruct Hk as [->| ->]; apply Hapart.
      + rewrite lookup_insert_ne; [done|]. by destruct Hk as [-> | ->]; intros H%MakeCompositeKeyString_inj.
    - split; [exact Ha0|]. split; [exact Hk0|]. split; [|exact Hvalue].
      change (rounds_in (NewFSMService t) (deps_stored d0)). rewrite Hst. fold t before.
      destruct (before !! offset_key t); [done|]. apply rounds_in_insert; [apply Hapart|done]. }
  inl_step Hrun oc nd Hn. injection Hrun as <- <-. unfold init_node in Hn. fold d1 in Hn.
  destruct (NewNode (cfg_Username cfg) (GetFSMService sp) (GetOperationService sp) d1) as [[d2 [nd'|e]]|] eqn:Hnew; [|done..].
  injection Hn as _ <-. unfold NewNode in Hnew. inl_step Hnew d3 kp Hkp.
  assert (d3 = d1) as ->. { rewrite (LoadKeys_ready _ _ _ Hr1) in Hkp. by injection Hkp as <- _. }
  inl_step Hnew d4 k Hk. destruct kp as [kp|]; [|done]. cbn in Hk. injection Hk as <- <-.
  inl_step Hnew d5 d1' Hd. cbn in Hd. injection Hd as <- <-. cbn in Hnew. injection Hnew as _ <-.
  split; [done|]. split; [by exists kp|]. split; [cbn; by rewrite Hrepo|]. split; [exact Hv1|]. split; [done|].
  intros l n' r Hl Hhap.
  assert (node_rounds (NewFSMService t) (repo_of t) (offset_key t) n') as Hn'.
  { refine (happenings_keep_rounds (world := assembled_world) _ _ _ Hjson Hclock' Hapart _ l n' r _ Hl Hhap).
    split; [exact Hfsm|]. split; [exact Hrepo|]. by split. }
  split; [exact Hn'|]. intros q n2 resp. by apply (shown_dump (world := assembled_world) _ _ _ Hjson Hapart).
Qed.
End start.
