(* ===== verification/Wire.v ===== *)
(** * A wire format

    [encoding/json] is a parameter of the model. To evaluate the node and the
    air-gapped machine on whole runs this file gives it a concrete instance for
    every type that is encoded: values are written one after the other, each in
    a format that says where it ends, so that the text of a value is of the size
    of the value. *)

From S2P Require Import Prelude GoFsm Requests Payload StateMachines LevelState ClientTypes.

Class Wire (A : Type) : Type := {
  put : A → string;
  take_from : string → option (A * string);
  take_put a rest : take_from (put a +:+ rest) = Some (a, rest)
}.

(** ** Base types *)

Fixpoint put_pos (p : positive) : string :=
  match p with
  | xH => "H"
  | xO p => String "0" (put_pos p)
  | xI p => String "1" (put_pos p)
  end.
Fixpoint take_pos (s : string) : option (positive * string) :=
  match s with
  | String "H" s => Some (xH, s)
  | String "0" s => '(p, s) ← take_pos s; Some (xO p, s)
  | String "1" s => '(p, s) ← take_pos s; Some (xI p, s)
  | _ => None
  end.
Lemma take_put_pos p rest : take_pos (put_pos p +:+ rest) = Some (p, rest).
Proof.
  induction p as [p IH|p IH|]; [..|reflexivity].
  - change (put_pos p~1 +:+ rest) with (String "1" (put_pos p +:+ rest)). cbn [take_pos]. by rewrite IH.
  - change (put_pos p~0 +:+ rest) with (String "0" (put_pos p +:+ rest)). cbn [take_pos]. by rewrite IH.
Qed.
#[export] Instance wire_pos : Wire positive := {| take_put := take_put_pos |}.

Fixpoint put_string (s : string) : string :=
  match s with
  | EmptyString => "e"
  | String c s => String "c" (String c (put_string s))
  end.
Fixpoint take_string (s : string) : option (string * string) :=
  match s with
  | String "e" s => Some ("", s)
  | String "c" (String c s) => '(t, s) ← take_string s; Some (String c t, s)
  | _ => None
  end.
Lemma take_put_string t rest : take_string (put_string t +:+ rest) = Some (t, rest).
Proof.
  induction t as [|c t IH]; [reflexivity|].
  change (put_string (String c t) +:+ rest) with (String "c" (String c (put_string t +:+ rest))).
  cbn [take_string]. by rewrite IH.
Qed.
#[export] Instance wire_string : Wire string := {| take_put := take_put_string |}.

Definition put_bool (b : bool) : string := if b then "t" else "f".
Definition take_bool (s : string) : option (bool * string) :=
  match s with String "t" s => Some (true, s) | String "f" s => Some (false, s) | _ => None end.
Lemma take_put_bool b rest : take_bool (put_bool b +:+ rest) = Some (b, rest).
Proof. by destruct b. Qed.
#[export] Instance wire_bool : Wire bool := {| take_put := take_put_bool |}.

Lemma String_length_app (a b : string) :
  String.length (a +:+ b) = (String.length a + String.length b)%nat.
Proof. induction a as [|c a IH]; [reflexivity|exact (f_equal S IH)]. Qed.

(** ** Type constructors *)

Section constructors.
Context {A B : Type} {wa : Wire A} {wb : Wire B}.

(** A type that is written as another one. *)
Definition wire_iso (f : B → A) (g : A → B) (Hgf : ∀ b, g (f b) = b) : Wire B.
Proof.
  refine {| put b := put (f b);
            take_from s := '(a, s) ← take_from s; Some (g a, s) |}.
  intros b rest. rewrite take_put. cbn. by rewrite Hgf.
Defined.

#[export] Instance wire_pair : Wire (A * B).
Proof.
  refine {| put p := put p.1 +:+ put p.2;
            take_from s := '(a, s) ← take_from s; '(b, s) ← take_from s; Some ((a, b), s) |}.
  intros [a b] rest. cbn [fst snd]. rewrite sapp_assoc, take_put. cbn. by rewrite take_put.
Defined.

#[export] Instance wire_option : Wire (option A).
Proof.
  refine {| put o := match o with Some a => String "s" (put a) | None => "n" end;
            take_from s :=
              match s with
              | String "n" s => Some (None, s)
              | String "s" s => '(a, s) ← take_from s; Some (Some a, s)
              | _ => None
              end |}.
  intros [a|] rest; [|reflexivity].
  change (String "s" (put a) +:+ rest) with (String "s" (put a +:+ rest)). cbn beta iota. by rewrite take_put.
Defined.

Fixpoint put_list (l : list A) : string :=
  match l with [] => "e" | a :: l => String "c" (put a +:+ put_list l) end.
(** The length of the text is enough fuel. *)
Fixpoint take_list (fuel : nat) (s : string) : option (list A * string) :=
  match fuel with
  | O => None
  | S fuel =>
      match s with
      | String "e" s => Some ([], s)
      | String "c" s => '(a, s) ← take_from s; '(l, s) ← take_list fuel s; Some (a :: l, s)
      | _ => None
      end
  end.
Lemma put_list_length l : (length l < String.length (put_list l))%nat.
Proof.
  induction l as [|a l IH]; cbn [put_list length String.length]; [lia|]. rewrite String_length_app. lia.
Qed.
Lemma take_put_list l rest fuel :
  (length l < fuel)%nat → take_list fuel (put_list l +:+ rest) = Some (l, rest).
Proof.
  induction l as [|a l IH] in fuel |- *; intros Hf; (destruct fuel as [|fuel]; [lia|]); [reflexivity|].
  change (put_list (a :: l) +:+ rest) with (String "c" ((put a +:+ put_list l) +:+ rest)).
  cbn [take_list]. rewrite sapp_assoc, take_put. cbn. rewrite IH by (cbn in Hf; lia). done.
Qed.
#[export] Instance wire_list : Wire (list A).
Proof.
  refine {| put := put_list; take_from s := take_list (String.length s) s |}.
  intros l rest. apply take_put_list. rewrite String_length_app. pose proof (put_list_length l). lia.
Defined.
End constructors.

#[export] Instance wire_Z : Wire Z :=
  wire_iso (fun z => match z with Z0 => None | Zpos p => Some (true, p) | Zneg p => Some (false, p) end)
    (fun o => match o with None => Z0 | Some (true, p) => Zpos p | Some (false, p) => Zneg p end)
    ltac:(by intros []).

#[export] Instance wire_gmap `{Countable K, !Wire K} {V} `{!Wire V} : Wire (gmap K V) :=
  wire_iso map_to_list list_to_map (list_to_map_to_list (M := gmap K)).

(** Enumerations are written as the position of the constructor in a list of
    all of them. *)
Definition wire_enum {E : Type} `{EqDecision E} (l : list E) (d : E)
    (H : ∀ e, default d (l !! default 0%nat (fst <$> list_find (e =.) l)) = e) : Wire E :=
  wire_iso (fun e => Z.of_nat (default 0%nat (fst <$> list_find (e =.) l)))
    (fun z => default d (l !! Z.to_nat z))
    (fun e => eq_trans (f_equal (fun n => default d (l !! n)) (Nat2Z.id _)) (H e)).

#[export] Instance wire_sig_status : Wire ConfirmationParticipantStatus :=
  wire_enum [SigConfirmationAwaitConfirmation; SigConfirmationConfirmed; SigConfirmationDeclined;
             SigConfirmationError] SigConfirmationError ltac:(by intros []).
#[export] Instance wire_dkg_status : Wire DKGParticipantStatus :=
  wire_enum [CommitAwaitConfirmation; CommitConfirmed; CommitConfirmationError;
             DealAwaitConfirmation; DealConfirmed; DealConfirmationError;
             ResponseAwaitConfirmation; ResponseConfirmed; ResponseConfirmationError;
             MasterKeyAwaitConfirmation; MasterKeyConfirmed; MasterKeyConfirmationError]
    MasterKeyConfirmationError ltac:(by intros []).
#[export] Instance wire_signing_status : Wire SigningParticipantStatus :=
  wire_enum [SigningAwaitPartialSigns; SigningPartialSignsConfirmed; SigningError; SigningProcess]
    SigningProcess ltac:(by intros []).

(** ** The records of the program *)

#[export] Instance wire_FSMError : Wire FSMError :=
  wire_iso ErrorMsg mk_FSMError ltac:(by intros []).
#[export] Instance wire_SignatureProposalParticipantsEntry : Wire SignatureProposalParticipantsEntry :=
  wire_iso (fun x => (pe_Username x, pe_PubKey x, pe_DkgPubKey x)) (fun '(a0, a1, a2) =>
    mk_SignatureProposalParticipantsEntry a0 a1 a2) ltac:(by intros []).
#[export] Instance wire_SignatureProposalParticipantsListRequest : Wire SignatureProposalParticipantsListRequest :=
  wire_iso (fun x => (pl_Participants x, pl_SigningThreshold x, pl_CreatedAt x)) (fun '(a0, a1,
    a2) => mk_SignatureProposalParticipantsListRequest a0 a1 a2) ltac:(by intros []).
#[export] Instance wire_SignatureProposalParticipantRequest : Wire SignatureProposalParticipantRequest :=
  wire_iso (fun x => (pr_ParticipantId x, pr_CreatedAt x)) (fun '(a0, a1) =>
    mk_SignatureProposalParticipantRequest a0 a1) ltac:(by intros []).
#[export] Instance wire_SignatureProposalConfirmationErrorRequest : Wire SignatureProposalConfirmationErrorRequest :=
  wire_iso (fun x => (se_ParticipantId x, se_Error x, se_CreatedAt x)) (fun '(a0, a1, a2) =>
    mk_SignatureProposalConfirmationErrorRequest a0 a1 a2) ltac:(by intros []).
#[export] Instance wire_DKGProposalCommitConfirmationRequest : Wire DKGProposalCommitConfirmationRequest :=
  wire_iso (fun x => (cr_ParticipantId x, cr_Commit x, cr_CreatedAt x)) (fun '(a0, a1, a2) =>
    mk_DKGProposalCommitConfirmationRequest a0 a1 a2) ltac:(by intros []).
#[export] Instance wire_DKGProposalDealConfirmationRequest : Wire DKGProposalDealConfirmationRequest :=
  wire_iso (fun x => (de_ParticipantId x, de_Deal x, de_CreatedAt x)) (fun '(a0, a1, a2) =>
    mk_DKGProposalDealConfirmationRequest a0 a1 a2) ltac:(by intros []).
#[export] Instance wire_DKGProposalResponseConfirmationRequest : Wire DKGProposalResponseConfirmationRequest :=
  wire_iso (fun x => (rr_ParticipantId x, rr_Response x, rr_CreatedAt x)) (fun '(a0, a1, a2) =>
    mk_DKGProposalResponseConfirmationRequest a0 a1 a2) ltac:(by intros []).
#[export] Instance wire_DKGProposalMasterKeyConfirmationRequest : Wire DKGProposalMasterKeyConfirmationRequest :=
  wire_iso (fun x => (mr_ParticipantId x, mr_MasterKey x, mr_CreatedAt x, mr_PubPolyBz x)) (fun
    '(a0, a1, a2, a3) => mk_DKGProposalMasterKeyConfirmationRequest a0 a1 a2 a3) ltac:(by intros
    []).
#[export] Instance wire_DKGProposalConfirmationErrorRequest : Wire DKGProposalConfirmationErrorRequest :=
  wire_iso (fun x => (er_ParticipantId x, er_Error x, er_CreatedAt x)) (fun '(a0, a1, a2) =>
    mk_DKGProposalConfirmationErrorRequest a0 a1 a2) ltac:(by intros []).
#[export] Instance wire_SigningTask : Wire SigningTask :=
  wire_iso (fun x => (st_MessageID x, st_File x, st_Payload x, st_RangeStart x, st_RangeEnd x))
    (fun '(a0, a1, a2, a3, a4) => mk_SigningTask a0 a1 a2 a3 a4) ltac:(by intros []).
#[export] Instance wire_SigningBatchProposalStartRequest : Wire SigningBatchProposalStartRequest :=
  wire_iso (fun x => (bs_BatchID x, bs_ParticipantId x, bs_CreatedAt x, bs_SigningTasks x)) (fun
    '(a0, a1, a2, a3) => mk_SigningBatchProposalStartRequest a0 a1 a2 a3) ltac:(by intros []).
#[export] Instance wire_PartialSign : Wire PartialSign :=
  wire_iso (fun x => (ps_MessageID x, ps_Sign x)) (fun '(a0, a1) => mk_PartialSign a0 a1) ltac:(by
    intros []).
#[export] Instance wire_SigningProposalBatchPartialSignRequests : Wire SigningProposalBatchPartialSignRequests :=
  wire_iso (fun x => (bp_BatchID x, bp_ParticipantId x, bp_PartialSigns x, bp_CreatedAt x)) (fun
    '(a0, a1, a2, a3) => mk_SigningProposalBatchPartialSignRequests a0 a1 a2 a3) ltac:(by intros
    []).
#[export] Instance wire_SignatureProposalParticipantInvitationEntry : Wire SignatureProposalParticipantInvitationEntry :=
  wire_iso (fun x => (ie_ParticipantId x, ie_Username x, ie_Threshold x, ie_DkgPubKey x, ie_PubKey
    x)) (fun '(a0, a1, a2, a3, a4) => mk_SignatureProposalParticipantInvitationEntry a0 a1 a2 a3 a4)
    ltac:(by intros []).
#[export] Instance wire_SignatureProposalParticipantStatusEntry : Wire SignatureProposalParticipantStatusEntry :=
  wire_iso (fun x => (se_id x, se_Username x, se_Status x, se_DkgPubKey x)) (fun '(a0, a1, a2, a3)
    => mk_SignatureProposalParticipantStatusEntry a0 a1 a2 a3) ltac:(by intros []).
#[export] Instance wire_DKGProposalPubKeysParticipantEntry : Wire DKGProposalPubKeysParticipantEntry :=
  wire_iso (fun x => (ke_ParticipantId x, ke_Username x, ke_DkgPubKey x, ke_Threshold x)) (fun
    '(a0, a1, a2, a3) => mk_DKGProposalPubKeysParticipantEntry a0 a1 a2 a3) ltac:(by intros []).
#[export] Instance wire_DKGProposalParticipantEntry : Wire DKGProposalParticipantEntry :=
  wire_iso (fun x => (dk_ParticipantId x, dk_Username x, dk_Data x)) (fun '(a0, a1, a2) =>
    mk_DKGProposalParticipantEntry a0 a1 a2) ltac:(by intros []).
#[export] Instance wire_SigningPartialSignsParticipantInvitationEntry : Wire SigningPartialSignsParticipantInvitationEntry :=
  wire_iso (fun x => (si_ParticipantId x, si_Username x, si_Status x)) (fun '(a0, a1, a2) =>
    mk_SigningPartialSignsParticipantInvitationEntry a0 a1 a2) ltac:(by intros []).
#[export] Instance wire_SigningPartialSignsParticipantInvitationsResponse : Wire SigningPartialSignsParticipantInvitationsResponse :=
  wire_iso (fun x => (sr_BatchID x, sr_InitiatorId x, sr_Participants x, sr_SrcPayload x)) (fun
    '(a0, a1, a2, a3) => mk_SigningPartialSignsParticipantInvitationsResponse a0 a1 a2 a3) ltac:(by
    intros []).
#[export] Instance wire_SigningProcessParticipantEntry : Wire SigningProcessParticipantEntry :=
  wire_iso (fun x => (sp_ParticipantId x, sp_Username x, sp_PartialSigns x)) (fun '(a0, a1, a2) =>
    mk_SigningProcessParticipantEntry a0 a1 a2) ltac:(by intros []).
#[export] Instance wire_SigningProcessParticipantResponse : Wire SigningProcessParticipantResponse :=
  wire_iso (fun x => (sq_BatchID x, sq_SrcPayload x, sq_Participants x)) (fun '(a0, a1, a2) =>
    mk_SigningProcessParticipantResponse a0 a1 a2) ltac:(by intros []).
#[export] Instance wire_SignatureProposalParticipant : Wire SignatureProposalParticipant :=
  wire_iso (fun x => (sgp_ParticipantID x, sgp_Username x, sgp_PubKey x, sgp_DkgPubKey x,
    sgp_InvitationSecret x, sgp_Status x, sgp_Threshold x, sgp_UpdatedAt x)) (fun '(a0, a1, a2, a3,
    a4, a5, a6, a7) => mk_SignatureProposalParticipant a0 a1 a2 a3 a4 a5 a6 a7) ltac:(by intros []).
#[export] Instance wire_SignatureConfirmation : Wire SignatureConfirmation :=
  wire_iso (fun x => (sc_Quorum x, sc_CreatedAt x, sc_UpdatedAt x, sc_ExpiresAt x)) (fun '(a0, a1,
    a2, a3) => mk_SignatureConfirmation a0 a1 a2 a3) ltac:(by intros []).
#[export] Instance wire_DKGProposalParticipant : Wire DKGProposalParticipant :=
  wire_iso (fun x => (dp_ParticipantID x, dp_Username x, dp_DkgPubKey x, dp_DkgCommit x,
    dp_DkgDeal x, dp_DkgResponse x, dp_DkgMasterKey x, dp_Status x, dp_Error x, dp_UpdatedAt x))
    (fun '(a0, a1, a2, a3, a4, a5, a6, a7, a8, a9) => mk_DKGProposalParticipant a0 a1 a2 a3 a4 a5 a6
    a7 a8 a9) ltac:(by intros []).
#[export] Instance wire_DKGConfirmation : Wire DKGConfirmation :=
  wire_iso (fun x => (dc_Quorum x, dc_CreatedAt x, dc_UpdatedAt x, dc_ExpiresAt x, dc_PubPolyBz
    x)) (fun '(a0, a1, a2, a3, a4) => mk_DKGConfirmation a0 a1 a2 a3 a4) ltac:(by intros []).
#[export] Instance wire_SigningProposalParticipant : Wire SigningProposalParticipant :=
  wire_iso (fun x => (np_ParticipantID x, np_Username x, np_Status x, np_PartialSigns x, np_Error
    x, np_UpdatedAt x)) (fun '(a0, a1, a2, a3, a4, a5) => mk_SigningProposalParticipant a0 a1 a2 a3
    a4 a5) ltac:(by intros []).
#[export] Instance wire_SigningConfirmation : Wire SigningConfirmation :=
  wire_iso (fun x => (nc_BatchID x, nc_InitiatorId x, nc_Quorum x, nc_RecoveredKey x,
    nc_SrcPayload x, nc_EncryptedPayload x, nc_CreatedAt x, nc_UpdatedAt x, nc_ExpiresAt x)) (fun
    '(a0, a1, a2, a3, a4, a5, a6, a7, a8) => mk_SigningConfirmation a0 a1 a2 a3 a4 a5 a6 a7 a8)
    ltac:(by intros []).
#[export] Instance wire_DumpedMachineStatePayload : Wire DumpedMachineStatePayload :=
  wire_iso (fun x => (pay_DkgId x, pay_Threshold x, pay_SignatureProposalPayload x,
    pay_DKGProposalPayload x, pay_SigningProposalPayload x, pay_PubKeys x, pay_IDs x)) (fun '(a0,
    a1, a2, a3, a4, a5, a6) => mk_DumpedMachineStatePayload a0 a1 a2 a3 a4 a5 a6) ltac:(by intros
    []).
#[export] Instance wire_FSMDump : Wire FSMDump :=
  wire_iso (fun x => (TransactionId x, dump_State x, dump_Payload x)) (fun '(a0, a1, a2) =>
    mk_FSMDump a0 a1 a2) ltac:(by intros []).
#[export] Instance wire_Message : Wire Message :=
  wire_iso (fun x => (msg_ID x, msg_DkgRoundID x, msg_Offset x, msg_Event x, msg_Data x,
    msg_Signature x, msg_SenderAddr x, msg_RecipientAddr x)) (fun '(a0, a1, a2, a3, a4, a5, a6, a7)
    => mk_Message a0 a1 a2 a3 a4 a5 a6 a7) ltac:(by intros []).
#[export] Instance wire_ReconstructedSignature : Wire ReconstructedSignature :=
  wire_iso (fun x => (rec_File x, rec_BatchID x, rec_MessageID x, rec_SrcPayload x, rec_Signature
    x, rec_Username x, rec_DKGRoundID x, rec_ValIdx x)) (fun '(a0, a1, a2, a3, a4, a5, a6, a7) =>
    mk_ReconstructedSignature a0 a1 a2 a3 a4 a5 a6 a7) ltac:(by intros []).
#[export] Instance wire_Operation : Wire Operation :=
  wire_iso (fun x => (op_ID x, op_Type x, op_Payload x, op_ResultMsgs x, op_CreatedAt x,
    op_DKGIdentifier x, op_To x, op_Event x, op_ExtraData x)) (fun '(a0, a1, a2, a3, a4, a5, a6, a7,
    a8) => mk_Operation a0 a1 a2 a3 a4 a5 a6 a7 a8) ltac:(by intros []).
#[export] Instance wire_Participant : Wire Participant :=
  wire_iso (fun x => (pt_DKGPubKey x, pt_OldCommPubKey x, pt_NewCommPubKey x, pt_Name x)) (fun
    '(a0, a1, a2, a3) => mk_Participant a0 a1 a2 a3) ltac:(by intros []).
#[export] Instance wire_ReDKG : Wire ReDKG :=
  wire_iso (fun x => (re_DKGID x, re_Threshold x, re_Participants x, re_Messages x)) (fun '(a0,
    a1, a2, a3) => mk_ReDKG a0 a1 a2 a3) ltac:(by intros []).

(** ** The instance of [encoding/json] *)

Section json.
Context {A : Type} {w : Wire A}.

Definition wire_json : JSON A := {|
  marshal a := Some (String "[" (put a +:+ "]"));
  unmarshal b :=
    match b with
    | String "[" s => match take_from s with Some (a, "]") => Some a | _ => None end
    | _ => None
    end
|}.

Lemma wire_roundtrip a :
  ∃ b, @marshal _ wire_json a = Some b ∧ 2 ≤ slen b ∧ @unmarshal _ wire_json b = Some a.
Proof.
  eexists. split; [reflexivity|]. split.
  - unfold slen. cbn [String.length]. rewrite String_length_app. cbn [String.length]. lia.
  - cbn. by rewrite take_put.
Qed.

Definition wire_json_spec : @JSONSpec A wire_json :=
  @Build_JSONSpec A wire_json (fun _ => True) (fun a _ => wire_roundtrip a).
End json.

(** Maps, and the empty object that new stores are written with. *)
Section json_map.
Context {V : Type} {w : Wire V}.

Definition wire_map : JSON (gomap string V) := {|
  marshal := @marshal _ wire_json;
  unmarshal b := if b =s? "{}" then Some (Some ∅) else @unmarshal _ wire_json b
|}.

Lemma wire_map_roundtrip (m : gmap string V) :
  map_Forall (fun _ _ => True) m →
  ∃ b, @marshal _ wire_map (Some m) = Some b ∧ 2 ≤ slen b ∧ @unmarshal _ wire_map b = Some (Some m).
Proof. intros _. destruct (wire_roundtrip (Some m)) as (b & Hb & Hl & Hu). exists b. injection Hb as <-. done. Qed.

Definition wire_map_spec : @JSONMap V wire_map :=
  @Build_JSONMap V wire_map (fun _ _ => True) wire_map_roundtrip eq_refl.
End json_map.
