(* ===== verification/World.v ===== *)
(** * A world in memory

    A LevelDB state, a board that is a list, key pairs and a counter for clocks
    and identifiers: a concrete instance of what the node relies on, with the
    laws of [NodeSpec], to evaluate the node on. *)

From stdpp Require Import pretty.
From S2P Require Import Prelude GoFsm Requests Payload.
From S2P Require Import SignatureProposal DkgProposal SigningProposal StateMachines.
From S2P Require Import LevelState ClientTypes OperationRepo SignatureRepo FsmService.
From S2P Require Import IOLogic Kyber Dkg SigningTasks KeyStore Services NodeService NodeSpec Wire.
Import MemDB.

Record World : Type := mk_World {
  w_store : LevelDBState string * Disk;
  w_board : list Message;
  w_keys : gmap string (option KeyPair);
  w_tick : Z
}.

Definition set_store x (w : World) : World := mk_World x (w_board w) (w_keys w) (w_tick w).
Definition set_board x (w : World) : World := mk_World (w_store w) x (w_keys w) (w_tick w).
Definition set_keys x (w : World) : World := mk_World (w_store w) (w_board w) x (w_tick w).

Definition on_state {A} (m : IO (LevelDBState string * Disk) A) : IO World A := zoom w_store set_store m.

#[export] Instance world_state : NodeState World := {
  state_Get k := on_state (state_Get k);
  state_Set k v := on_state (state_Set k v);
  state_Delete k := on_state (state_Delete k);
  state_Reset now path := on_state (state_Reset now path);
  state_SaveOffset o := on_state (state_SaveOffset o);
  state_LoadOffset := on_state state_LoadOffset;
  state_GetOrError k := on_state (state_GetOrError k)
}.

(** The board numbers the messages from its length on. *)
Fixpoint numbered (o : Z) (ms : list Message) : list Message :=
  match ms with
  | [] => []
  | m :: ms =>
      mk_Message ("message-" +:+ pretty o) (msg_DkgRoundID m) o (msg_Event m) (msg_Data m) (msg_Signature m)
        (msg_SenderAddr m) (msg_RecipientAddr m) :: numbered (o + 1) ms
  end.

#[export] Instance world_storage : Storage World := {
  storage_Send ms w :=
    let sent := numbered (Z.of_nat (length (w_board w))) ms in
    Ret (set_board (w_board w ++ sent) w, inl sent);
  storage_GetMessages o w := Ret (w, inl (drop (Z.to_nat o) (w_board w)));
  storage_Close := mret tt;
  storage_IgnoreMessages _ _ := mret tt;
  storage_UnignoreMessages := mret tt;
  storage_SetConsumerGroup := None
}.

#[export] Instance world_keys : KeyStore World := {
  keystore_PutKeys u k := modify (fun w => set_keys (<[u := k]> (w_keys w)) w);
  keystore_LoadKeys u _ w :=
    Ret (w, match w_keys w !! u with
            | Some k => inl k
            | None => inr (Err "no key pair found for user")
            end)
}.

(** Every call advances the counter. *)
Definition fresh {A} (f : Z → A) : IO World A := fun w =>
  Ret (mk_World (w_store w) (w_board w) (w_keys w) (w_tick w + 1), inl (f (w_tick w))).

#[export] Instance world_env : Env World := {
  time_Now := fresh (fun n => n mod 1000000);
  uuid_New := fresh (fun n => "uuid-" +:+ pretty n);
  rand_Int k := fresh (fun n => n mod k);
  rand_Bytes _ := fresh (fun n => pretty n)
}.

Lemma on_state_ret {A} (m : IO _ A) w x r : m (w_store w) = Ret (x, r) → on_state m w = Ret (set_store x w, r).
Proof. intros H. unfold on_state, zoom. by rewrite H. Qed.

Lemma mem_live (d : string) (w : Disk) : live d w.
Proof. exact I. Qed.

Lemma store_ready w : ready (w_store w).
Proof. exact I. Qed.

#[export] Program Instance world_spec : NodeStateSpec World := {
  ready w := True;
  stored w := level_stored (w_store w)
}.
Next Obligation.
  intros w k _. etrans; [exact (on_state_ret _ _ _ _ (state_Get_ready (w_store w) k (store_ready w)))|].
  by destruct w.
Qed.
Next Obligation.
  intros w k _. etrans; [exact (on_state_ret _ _ _ _ (state_GetOrError_ready (w_store w) k (store_ready w)))|].
  by destruct w.
Qed.
Next Obligation.
  intros w k v _. destruct (state_Set_ready (w_store w) k v (store_ready w)) as (x & Hx & _ & Hs).
  exists (set_store x w). split; [exact (on_state_ret _ _ _ _ Hx)|done].
Qed.
Next Obligation.
  intros w k _. destruct (state_Delete_ready (w_store w) k (store_ready w)) as (x & Hx & _ & Hs).
  exists (set_store x w). split; [exact (on_state_ret _ _ _ _ Hx)|done].
Qed.

Lemma numbered_sent_as o ms : Forall2 sent_as ms (numbered o ms).
Proof. induction ms as [|m ms IH] in o |- *; constructor; [by unfold sent_as|done]. Qed.

#[export] Program Instance world_laws : WorldSpec World := {
  rest w := mk_Rest (w_board w) (w_keys w) (LevelState.offset_key (topic (w_store w).1))
}.
Next Obligation. intros k v [[s d] b ks t] w' _ [= <-]. reflexivity. Qed.
Next Obligation.
  intros o [[s d] b ks t] _. destruct (SaveOffset_ok s d o (mem_live _ _)) as (d' & Hd & _ & Hs).
  exists (mk_World (s, d') b ks t). split_and!; [|done|exact Hs|done].
  exact (on_state_ret (state_SaveOffset o) (mk_World (s, d) b ks t) _ _ Hd).
Qed.
Next Obligation.
  intros o [[s d] b ks t] _ Ho Hs. pose proof (LoadOffset_ok s d o (mem_live _ _) Hs) as Hl. rewrite Z.mod_small in Hl by done.
  exact (on_state_ret state_LoadOffset (mk_World (s, d) b ks t) _ _ Hl).
Qed.
Next Obligation.
  intros [[s d] b ks t] _. cbn. unfold on_state, zoom, LoadOffset. cbn.
  repeat case_match; simplify_eq; try done. by destruct (Uint64 s1); cbn in *; simplify_eq.
Qed.
Next Obligation.
  intros ms w _. do 4 eexists. split; [reflexivity|]. repeat split; [reflexivity|apply numbered_sent_as].
Qed.
Next Obligation. intros o w _. do 2 eexists. split; [reflexivity|]. done. Qed.
Next Obligation. intros u pw w _. reflexivity. Qed.
Next Obligation. intros w _. do 2 eexists. split; [reflexivity|]. done. Qed.
Next Obligation. intros w _. do 2 eexists. split; [reflexivity|]. done. Qed.
Next Obligation. intros k w _. do 2 eexists. split; [reflexivity|]. done. Qed.
