(* ===== verification/Toy.v ===== *)
(** * Instances to evaluate the model with

    Concrete functions for everything that is a parameter: a signature scheme, a
    group, a key generation and an encryption that compute on strings, and the
    wire format for every type that is encoded. None of it is the code's; it
    shows that what is assumed of the parameters can hold, and it lets whole
    runs of the node and of the air-gapped machine be computed. *)

From stdpp Require Import pretty.
From S2P Require Import Prelude GoFsm Requests Payload.
From S2P Require Import SignatureProposal DkgProposal SigningProposal StateMachines.
From S2P Require Import LevelState ClientTypes OperationRepo SignatureRepo FsmService.
From S2P Require Import IOLogic Kyber Dkg SigningTasks KeyStore Services NodeService.
From S2P Require Import MachineStore Airgapped Wire.

Module Toy.

(** ** Signatures: a private key is the public one twice, a signature names the
    key and the message. *)
#[export] Instance toy_crypto : Crypto := {
  md5_Sum b := b;
  sha1_Sum b := b;
  ed25519_Verify pub msg sig := sig =s? pub +:+ "/" +:+ msg
}.
#[export] Instance toy_signing : SigningCrypto := {
  ed25519_Sign priv msg := String.substring 0 32 priv +:+ "/" +:+ msg;
  sha256_Sum256 b := b;
  ed25519_GenerateKey seed := (seed, seed +:+ seed)
}.

(** ** The group: points, scalars and shares are strings *)
#[export] Instance toy_kyber : Kyber := {
  Point := string; Scalar := string; PriShare := string; PubPoly := list string; Suite := option bytes;
  NewBLS12381Suite seed := seed;
  Point_Equal := seqb;
  Point_MarshalBinary := inl;
  Point_UnmarshalBinary := inl;
  Scalar_MarshalBinary := inl;
  Scalar_UnmarshalBinary := inl;
  Point_Mul k := "g^" +:+ k;
  NewPubPoly l := l;
  PubPoly_Info l := l;
  PubPoly_Commit l := default "" (head l);
  gob_encode_share := Some;
  gob_decode_share := Some;
  tbls_Sign _ share msg := inl (share +:+ ":" +:+ msg);
  tbls_Recover _ _ msg shares t n :=
    if Z.of_nat (length shares) <? t then inr (Err "not enough shares") else inl ("full:" +:+ msg);
  bls_Verify _ _ msg sig := if sig =s? "full:" +:+ msg then None else Some (Err "bls: invalid signature")
}.

(** ** The key generation: it counts the deals and the responses *)
#[export] Instance toy_dkg : PedersenDKG := {
  DistKeyGenerator := Z * (Z * list string);
  Deal := Z * string;
  EncryptedDeal := string;
  DkgResponse := Z * Z;
  VssResponse := Z;
  VssDeal := list string;
  Verifier := unit;
  DistKeyShare := list string;
  deal_Index := fst;
  deal_Deal := snd;
  cmp_Equal := seqb;
  resp_Response r := Some r.2;
  vss_Index r := r;
  vss_Status _ := true;
  vss_Commitments l := l;
  NewDistKeyGenerator _ _ pks t _ := Ret (inl (0, (t, pks)));
  Dealer_Commits g := ["c"];
  gen_Deals g := (g, inl (list_to_map (imap (fun i _ => (Z.of_nat i, (Z.of_nat i, "d"))) g.2.2)));
  gen_ProcessDeal d g := ((g.1 + 1, g.2), inl (d.1, d.1));
  gen_Verifiers g := list_to_map (imap (fun i _ => (Z.of_nat i, tt)) g.2.2);
  DecryptDeal _ _ := inl ["c"];
  gen_ProcessResponse _ g := ((g.1 + 1, g.2), None);
  Certified _ := true;
  gen_DistKeyShare g := inl ["master"];
  share_Public _ := "master";
  share_Commitments l := l;
  share_PriShare _ := "share"
}.

#[export] Instance PKStore_Less_dec : RelDecision PKStore_Less.
Proof. unfold PKStore_Less. intros a b. solve_decision. Defined.
Lemma PKStore_Less_total : Total PKStore_Less.
Proof. intros a b. unfold PKStore_Less. lia. Qed.
#[export] Program Instance toy_sort : PKSort := {| sort_Sort := merge_sort PKStore_Less |}.
Next Obligation. intros l. apply merge_sort_Permutation. Qed.
Next Obligation. intros l. apply Sorted_merge_sort, PKStore_Less_total. Qed.

(** ** The validators to rotate, and the SSZ hasher *)
#[export] Instance toy_rotation : WcRotation := {
  ValidatorsIndexes := "393395" +:+ String newline ("393401" +:+ String newline "none");
  ssz_root l := inl (foldr (fun f acc =>
    match f with SszUint64 v => pretty v +:+ "," +:+ acc | SszBytes b => acc end) "" l)
}.

#[export] Instance toy_order : MapOrder := source_order.

(** ** Symmetric encryption: the key and the nonce in front *)
#[export] Instance toy_symmetric : SymmetricCrypto := {
  scrypt_Key password salt := inl (password +:+ "#" +:+ salt);
  NonceSize := 3;
  gcm_Seal key nonce data := key +:+ data;
  gcm_Open key nonce data :=
    if HasPrefix data key then inl (sdrop (String.length key) data)
    else inr (Err "cipher: message authentication failed")
}.

(** ** JSON *)
#[export] Instance wire_BLSKeyringJSON : Wire blsKeyringJSON :=
  wire_iso (fun x => (kj_Commitments x, kj_Share x)) (fun '(a, b) => mk_blsKeyringJSON a b) ltac:(by intros []).

#[export] Instance json_tasks : JSON (list SigningTask) := wire_json.
#[export] Instance json_dump : JSON FSMDump := wire_json.
#[export] Instance json_dumps : JSON (gomap string bytes) := wire_map.
#[export] Instance json_operations : JSON (gomap string (option Operation)) := wire_map.
#[export] Instance json_sigs : JSON SignaturesStorage := wire_json.
#[export] Instance json_recs : JSON (list ReconstructedSignature) := wire_json.
#[export] Instance json_redkg : JSON ReDKG := wire_json.
#[export] Instance json_keyring : JSON blsKeyringJSON := wire_json.
#[export] Instance json_log : JSON (gomap string (list Operation)) := wire_map.
#[export] Instance json_op : JSON Operation := wire_json.
#[export] Instance json_bytes : JSON (list bytes) := wire_json.

(** A text is not the encoding of operations that are longer than the text. *)
#[export] Instance json_oplist : JSON (list Operation) := {|
  marshal := @marshal _ wire_json;
  unmarshal b :=
    match @unmarshal _ wire_json b with
    | Some l => if forallb (fun o => String.length (op_Payload o) <? String.length b)%nat l then Some l else None
    | None => None
    end
|}.

#[export] Instance toy_requests : RequestsJSON := {
  json_participant := wire_json;
  json_participants_list := wire_json;
  json_commit := wire_json;
  json_deal := wire_json;
  json_response := wire_json;
  json_masterkey := wire_json;
  json_partial_signs := wire_json;
  json_signing_start := wire_json;
  json_dkg_error := wire_json;
  json_signature_error := wire_json
}.
#[export] Instance toy_responses : ResponsesJSON := {
  json_invitations := wire_json;
  json_statuses := wire_json;
  json_pubkeys := wire_json;
  json_commits := wire_json;
  json_deals := wire_json;
  json_responses := wire_json;
  json_signing_invitations := wire_json;
  json_signing_process := wire_json
}.

(** The entries of a payload as pointers. *)
Definition pointers {A} (o : option (list A)) : option (list (option A)) :=
  match o with Some l => Some (map Some l) | None => None end.

#[export] Instance toy_payloads : PayloadJSON := {
  unmarshal_pubkeys b := pointers (@unmarshal (list DKGProposalPubKeysParticipantEntry) wire_json b);
  unmarshal_commits b := pointers (@unmarshal (list DKGProposalParticipantEntry) wire_json b);
  unmarshal_deals b := pointers (@unmarshal (list DKGProposalParticipantEntry) wire_json b);
  unmarshal_responses b := pointers (@unmarshal (list DKGProposalParticipantEntry) wire_json b)
}.
#[export] Instance toy_deals : DealJSON := {
  json_dkg_deal := (wire_json : JSON (Z * string));
  json_dkg_responses := (wire_json : JSON (list (option (Z * Z))))
}.

(** ** The laws *)
#[export] Program Instance toy_kyber_spec : KyberSpec.
Next Obligation. intros p. by exists p. Qed.
Next Obligation. intros p. by exists p. Qed.
Next Obligation. intros p. by exists p. Qed.
Next Obligation. done. Qed.
Next Obligation. done. Qed.
Next Obligation. intros p q. apply bool_decide_eq_true. Qed.

#[export] Program Instance toy_symmetric_spec : SymmetricSpec.
Next Obligation. cbn. lia. Qed.
Next Obligation. intros password salt. by eexists. Qed.
Next Obligation.
  intros k nonce data. cbn. unfold HasPrefix.
  assert (String.prefix k (k +:+ data) = true) as ->.
  { induction k as [|c k IH]; [by destruct data|]. change (String c k +:+ data) with (String c (k +:+ data)).
    cbn. by destruct (Ascii.ascii_dec c c). }
  f_equal. induction k as [|c k IH]; [by destruct data|exact IH].
Qed.

Lemma wire_decodes {A} {w : Wire A} (a : A) b :
  @marshal _ wire_json a = Some b → @unmarshal _ wire_json b = Some a.
Proof. destruct (wire_roundtrip a) as (b' & Hb & _ & Hu). intros H. congruence. Qed.

#[export] Instance toy_keyring_spec : JSONSpec blsKeyringJSON := wire_json_spec.
#[export] Instance toy_log_spec : @JSONMap (list Operation) json_log := wire_map_spec.

(** ** What a run ends in; [d] and [a] where it panics or fails *)
Definition final {S A} (d : S) (r : Go (S * (A + error))) : S :=
  match r with Ret (s, _) => s | Panic _ => d end.
Definition value {S A} (d : A) (r : Go (S * (A + error))) : A :=
  match r with Ret (_, inl a) => a | _ => d end.

Definition is_value {S A} (r : Go (S * (A + error))) : bool :=
  match r with Ret (_, inl _) => true | _ => false end.
Lemma run_value {S A} (r : Go (S * (A + error))) d a :
  is_value r = true → r = Ret (final d r, inl (value a r)).
Proof. by destruct r as [[s [x|e]]|]. Qed.

Lemma run_unit {S} (r : Go (S * (unit + error))) d :
  is_value r = true → r = Ret (final d r, inl tt).
Proof. by destruct r as [[s [[]|e]]|]. Qed.
End Toy.
