(* ===== verification/MachineWorld.v ===== *)
(** * An air-gapped machine in memory

    A world of databases, files, a transaction and a counter, with the laws of
    [MachineSpec]; and the theorems about the machine applied to it. *)

From stdpp Require Import pretty.
From S2P Require Import Prelude GoFsm Requests Payload.
From S2P Require Import SignatureProposal DkgProposal SigningProposal StateMachines.
From S2P Require Import LevelState ClientTypes IOLogic Kyber Dkg SigningTasks KeyStore NodeService.
From S2P Require Import DkgSpec MachineStore Airgapped AirgappedSpec MachineRecursion MachineSpec Wire Toy.
Import MemDB Toy.

#[local] Opaque SignatureProposal.New DkgProposal.New SigningProposal.New.

Record World : Type := mk_World {
  mw_disk : Disk;
  mw_tx : gmap string bytes;
  mw_files : gmap string bytes;
  mw_tick : Z
}.
Definition set_disk d w := mk_World d (mw_tx w) (mw_files w) (mw_tick w).
Definition set_tx t w := mk_World (mw_disk w) t (mw_files w) (mw_tick w).
Definition set_files f w := mk_World (mw_disk w) (mw_tx w) f (mw_tick w).
Definition advance w := mk_World (mw_disk w) (mw_tx w) (mw_files w) (mw_tick w + 1).

#[export] Instance world_db : LevelDB string World := {
  leveldb_OpenFile path w := (w, inl path);
  leveldb_Get d k w := match db_at d (mw_disk w) !! k with Some v => inl v | None => inr ErrNotFound end;
  leveldb_Put d k v w := (set_disk (<[d := <[k := v]> (db_at d (mw_disk w))]> (mw_disk w)) w, None);
  leveldb_Delete d k w := (set_disk (<[d := delete k (db_at d (mw_disk w))]> (mw_disk w)) w, None)
}.
#[export] Program Instance world_db_spec : LevelDBSpec string World := {
  live := fun _ _ => True;
  path_of := fun d => d;
  disk := fun p w => db_at p (mw_disk w)
}.
Next Obligation. done. Qed.
Next Obligation.
  intros d k v w _. eexists. split; [done|]. split; [done|]. cbn. rewrite db_at_insert.
  split; [done|]. intros p Hp. by rewrite db_at_insert_ne.
Qed.
Next Obligation. intros d k w _. eexists. split; [done|]. cbn. by rewrite db_at_insert. Qed.
Next Obligation. intros path w w' d [= <- <-]. done. Qed.

(** A transaction names its database and collects what it will hold. *)
#[export] Instance world_tx : LevelDBTx string World := {
  Tx := string;
  leveldb_OpenTransaction d w := (set_tx (db_at d (mw_disk w)) w, inl d);
  tx_Put d k v w := (set_tx (<[k := v]> (mw_tx w)) w, None);
  tx_Commit d w := (set_disk (<[d := mw_tx w]> (mw_disk w)) w, None);
  tx_Discard d w := w;
  leveldb_Iterate d prefix w :=
    (map_to_list (filter (fun kv => HasPrefix kv.1 prefix = true) (db_at d (mw_disk w))), None)
}.

(** So many digits of a counter. *)
Definition digits (n : Z) (c : Z) : string :=
  Nat.iter (Z.to_nat n) (String (ascii_of_nat (48 + Z.to_nat (c mod 10)))) EmptyString.
Lemma length_iter (k : nat) (c : ascii) : String.length (Nat.iter k (String c) EmptyString) = k.
Proof. induction k; cbn; auto. Qed.
Lemma slen_digits n c : slen (digits n c) = Z.max 0 n.
Proof. unfold digits, slen. rewrite length_iter. lia. Qed.

#[export] Instance world_env : Env World := {
  time_Now w := Ret (advance w, inl (mw_tick w));
  uuid_New w := Ret (advance w, inl (pretty (mw_tick w)));
  rand_Int k w := Ret (advance w, inl (mw_tick w mod k));
  rand_Bytes n w := Ret (advance w, inl (digits n (mw_tick w)))
}.

#[export] Instance world_crypto : MachineCrypto World := {
  bip39_NewEntropy n w := Ret (advance w, inl (digits (n / 8) (mw_tick w)));
  bip39_NewMnemonic e := inl ("words of " +:+ e);
  bip39_EntropyFromMnemonic m := if HasPrefix m "words of " then inl (sdrop 9 m) else inr (Err "invalid mnemonic");
  pbkdf2_Key password salt := password +:+ salt;
  Scalar_Pick s w := Ret (advance w, inl (default "" s +:+ "-secret"));
  ecies_Encrypt _ p b w := Ret (advance w, inl (p +:+ "!" +:+ b));
  ecies_Decrypt _ sk c :=
    match sk with
    | None => Panic "invalid memory address or nil pointer dereference"
    | Some sk =>
        let k := Point_Mul sk +:+ "!" in
        Ret (if HasPrefix c k then inl (sdrop (String.length k) c) else inr (Err "ecies: invalid"))
    end;
  Point_leftover b := b;
  Scalar_leftover b := b
}.

(** A file that exists is overwritten from its start and not truncated. *)
#[export] Instance world_files : ResultFiles World := {
  os_OpenFile path w :=
    Ret (set_files (<[path := default "" (mw_files w !! path)]> (mw_files w)) w, inl tt);
  os_Write path b w :=
    Ret (set_files (<[path := b +:+ sdrop (String.length b) (default "" (mw_files w !! path))]> (mw_files w)) w,
         inl tt)
}.

#[export] Program Instance world_spec : MachineWorldSpec string World := {
  tx_live _ _ := True;
  tx_db d := d;
  tx_view _ w := mw_tx w
}.
Next Obligation. intros d w _. do 2 eexists. by split_and!. Qed.
Next Obligation. intros tx k v w _. eexists. by split_and!. Qed.
Next Obligation. intros tx w _. eexists. split_and!; try done. cbn. by rewrite db_at_insert. Qed.
Next Obligation. intros n w. do 2 eexists. split_and!; try done. apply slen_digits. Qed.
Next Obligation. intros s p b w. do 2 eexists. by split. Qed.
Next Obligation. intros path w. do 2 eexists. by split. Qed.
Next Obligation. intros path b w. do 2 eexists. by split. Qed.

(** ** A machine with keys, and an operation for it *)

Definition empty_world : World := mk_World ∅ ∅ ∅ 0.
Definition no_machine : Machine string := am_set_key "" (mk_Machine "" ∅ "" None None None "" "am").
Definition new_machine : Machine string * World :=
  match NewMachine "am" empty_world with
  | Ret (w, inl am) => (am, w)
  | _ => (no_machine, empty_world)
  end.
Definition machine1 : Machine string * World :=
  final new_machine ((_ ← SetEncryptionKey "pw"; InitKeys) new_machine).

Definition own_key : Point := default "" (am_pubKey machine1.1).
Definition round_id : string := "0123456789".
Definition op_commits : Operation :=
  mk_Operation "op-123456" StateDkgCommitsAwaitConfirmations
    (default "" (marshal [mk_DKGProposalPubKeysParticipantEntry 0 "alice" own_key 2;
                          mk_DKGProposalPubKeysParticipantEntry 1 "bob" "bob-key" 2]))
    [] 1700000000 round_id "" "" "".

Lemma toy_answers : AnswersJSON.
Proof.
  split; try (intros r b; apply wire_decodes).
  - intros [batch pid signs t] b Hb. exists batch, signs. by apply wire_decodes.
  - intros [pid e' t] e b [= ->] Hb. exists e. by apply wire_decodes.
  - intros r e b He Hb. exists e. destruct (wire_roundtrip (mk_SignatureProposalConfirmationErrorRequest
      (er_ParticipantId r) (er_Error r) (er_CreatedAt r))) as (b' & Hb' & _ & Hu).
    rewrite <-He, <-Hu. f_equal. cbn in *. congruence.
Qed.

Lemma machine_answers_with_requests_witness :
  ∃ s' o', GetOperationResult op_commits machine1 = Ret (s', inl o') ∧
    Operation_Equal op_commits o' = None ∧ IsEmpty (op_Event o') = false ∧
    ∃ msgs m pid, op_ResultMsgs o' = [] ++ msgs ++ [m] ∧ msg_Event m = op_Event o' ∧
      round_pid round_id s' = Some pid ∧ Forall (answers op_commits pid) (msgs ++ [m]).
Proof.
  set (r := GetOperationResult op_commits machine1).
  assert (Hr : r = Ret (final machine1 r, inl (value op_commits r)))
    by (apply run_value; vm_compute; reflexivity).
  exists (final machine1 r), (value op_commits r). split; [exact Hr|].
  destruct (machine_answers_with_requests (janswers := toy_answers) op_commits machine1 _ _
    ltac:(unfold answered_types; left) Hr) as (H1 & _ & H2 & H3).
  split_and!; [exact H1|exact H2|exact H3].
Defined.

(** ** Nested reinitialisations *)

Lemma toy_nested : NestedJSON (json := json_oplist).
Proof.
  split. intros b l o Hu Ho. apply list_elem_of_In in Ho. cbn in Hu. repeat case_match; simplify_eq.
  pose proof (proj1 (forallb_forall _ _) ltac:(eassumption) o Ho) as Hl. cbn in Hl |- *. apply Nat.leb_le in Hl. lia.
Qed.

(** A reinitialisation whose payload holds a reinitialisation, whose payload
    holds the first operation of a round. *)
Definition nest (o : Operation) : Operation :=
  mk_Operation "reinit" ReinitDKG (default "" (marshal [o])) [] 1700000001 round_id "" "" "".

Lemma operation_result_terminates_witness :
  GetOperationResult_fuel 10000 (nest (nest op_commits)) machine1 =
    GetOperationResult (nest (nest op_commits)) machine1 ∧
  round_pid round_id (final machine1 (GetOperationResult (nest (nest op_commits)) machine1)) = Some 0.
Proof.
  split; [|vm_compute; reflexivity].
  destruct (operation_result_terminates (nested := toy_nested) (DB := string) (W := World)) as [H _].
  apply H. apply Nat.ltb_lt. vm_compute. reflexivity.
Defined.

(** ** Keys, keyrings and the log *)

Definition content (x : Machine string * World) : gmap string bytes := db_at (am_db x.1) (mw_disk x.2).
Lemma holds_content x : holds (content x) x.
Proof. by split. Qed.

Definition am1 : Machine string := machine1.1.
Definition w1 : World := machine1.2.

Lemma keys_survive_witness :
  ∃ w' m', SaveKeysToDB (am1, w1) = Ret ((am1, w'), inl tt) ∧ holds m' (am1, w') ∧
    (_ ← DropSensitiveData; b ← SensitiveDataRemoved; none ← field am_secKey;
     _ ← SetEncryptionKey (encryptionKey am1); _ ← InitKeys; mret (b, none)) (am1, w') =
      Ret ((am1, w'), inl (true, None)).
Proof.
  destruct (keys_survive am1 w1 (content (am1, w1)) (default None (baseSuite am1)) own_key
    (default "" (am_secKey am1))) as (w' & m' & H1 & H2 & _ & H3 & _);
    [apply holds_content|vm_compute; reflexivity..|].
  exists w', m'. split; [exact H1|]. split; [exact H2|exact H3].
Defined.

Lemma keyring_roundtrip_witness :
  ∃ w', saveBLSKeyring round_id (mk_BLSKeyring ["a"; "b"] (Some "share")) (am1, w1) = Ret ((am1, w'), inl tt) ∧
    loadBLSKeyring round_id (am1, w') = Ret ((am1, w'), inl (mk_BLSKeyring ["a"; "b"] (Some "share"))).
Proof.
  destruct (keyring_roundtrip (jkspec := toy_keyring_spec) (fun _ => I) am1 w1 (content (am1, w1))
    (default "" (content (am1, w1) !! saltDBKey)) round_id ["a"; "b"] "share")
    as (w' & c & H1 & _ & H2 & _); [apply holds_content|vm_compute; reflexivity|].
  exists w'. split; [exact H1|exact H2].
Defined.

Lemma logged_new : logged ∅ machine1.
Proof.
  exists (content machine1). split; [apply holds_content|]. split; [apply map_Forall_empty|].
  exists (default "" (content machine1 !! operationsLogDBKey)). split; vm_compute; reflexivity.
Qed.

Lemma operations_log_spec_witness :
  let r := ProcessOperation op_commits true machine1 in
  logged (<[round_id := [op_commits]]> ∅) (final machine1 r) ∧
  value "" r = "dkg_id_01234_step_1_send_commits_for_the_DKG_round_op-12_result.json".
Proof.
  intros r. assert (Hr : r = Ret (final machine1 r, inl (value "" r)))
    by (apply run_value; vm_compute; reflexivity).
  split; [|vm_compute; reflexivity].
  destruct (operations_log_spec (jlspec := toy_log_spec) ∅ machine1 logged_new) as [H _].
  exact (H op_commits true _ _ I Hr).
Defined.

(** ** A round with two participants and the deal of the second *)

Definition round_of_two : DKG :=
  mk_DKG (Some (0, (2, ["a"; "b"]))) {["bobby" := (1, "d")]} {["bobby" := ["c"]]} None
    [mk_PK2Participant 0 "alice" "a"; mk_PK2Participant 1 "bobby" "b"] "a" (Some "secret") None 0 2 2.

Lemma accepted_deals_match_commitments_witness :
  ∃ d', ProcessDeals round_of_two = Ret (d', inl [(1, 1)]) ∧ deal_agrees round_of_two (1, "d").
Proof.
  assert (ProcessDeals round_of_two = Ret (set_instance (Some (1, (2, ["a"; "b"]))) round_of_two, inl [(1, 1)])) as Hrun
    by (vm_compute; reflexivity).
  destruct (accepted_deals_match_commitments round_of_two _ _ Hrun) as (_ & H & _).
  eexists. split; [exact Hrun|]. apply (H "bobby"); [vm_compute; reflexivity|vm_compute; discriminate].
Defined.
