(* ===== verification/PromptWorld.v ===== *)
(** * A session at the prompt

    A console that reads from lists and keeps what is written, the machine of
    [MachineWorld], and a session that changes the configuration: the theorems
    of [PromptSpec] applied to it. *)

From stdpp Require Import pretty.
From S2P Require Import Prelude GoFsm Requests Payload.
From S2P Require Import SignatureProposal DkgProposal SigningProposal StateMachines.
From S2P Require Import LevelState ClientTypes IOLogic Kyber Dkg SigningTasks KeyStore NodeService.
From S2P Require Import MachineStore Airgapped Wire Toy MachineWorld GoText Shell Prompt PromptSpec.
Import MemDB Toy.

#[local] Opaque SignatureProposal.New DkgProposal.New SigningProposal.New.

(** What is typed: lines at the prompt, lines inside commands, passwords; and
    what is shown. *)
Record Typed : Type := mk_Typed {
  ty_lines : list string;
  ty_answers : list string;
  ty_passwords : list bytes;
  ty_shown : list string
}.

Definition next_answer : IO Typed string := fun c =>
  match ty_answers c with
  | [] => Ret (c, inr EOF)
  | a :: l => Ret (mk_Typed (ty_lines c) l (ty_passwords c) (ty_shown c), inl a)
  end.

#[export] Instance typed_console : Console Typed := {
  TermState := unit;
  terminal_MakeRaw := mret tt;
  terminal_Restore _ := mret tt;
  terminal_ReadPassword c :=
    match ty_passwords c with
    | [] => Ret (c, inr EOF)
    | a :: l => Ret (mk_Typed (ty_lines c) (ty_answers c) l (ty_shown c), inl a)
    end;
  terminal_ReadLine c :=
    match ty_lines c with
    | [] => Ret (c, inr EOF)
    | a :: l => Ret (mk_Typed l (ty_answers c) (ty_passwords c) (ty_shown c), inl a)
    end;
  terminal_Write a c := Ret (mk_Typed (ty_lines c) (ty_answers c) (ty_passwords c) (ty_shown c ++ [a]), inl tt);
  reader_ReadString := next_answer;
  reader_ReadLine := next_answer
}.

#[export] Instance seconds : Durations := {
  ParseDuration s := match ParseUint s with Some n => inl n | None => inr (Err "time: invalid duration") end;
  Duration_String n := Itoa n
}.
#[export] Instance world_infiles : InputFiles World := fun path w =>
  Ret (w, match mw_files w !! path with Some b => inl b | None => inr (Err "no such file or directory") end).
#[export] Instance toy_pubkey_json : JSON (gmap string string) := {| marshal _ := Some "{}"; unmarshal _ := None |}.

Definition typed : Typed := mk_Typed ["change_configuration"] [""; "300"] ["pw"; "pw"] [].

Abbreviation System := (Sys (DB := string) (W := World) (C := Typed)) (only parsing).

(** The main thread alone. *)
Definition go (s : System) : System := default s (main_step s).

Lemma reachable_go n s0 s : reachable_from s0 s → reachable_from s0 (Nat.iter n go s).
Proof.
  intros Hs. induction n as [|n IH]; [exact Hs|].
  change (reachable_from s0 (go (Nat.iter n go s))). generalize dependent (Nat.iter n go s). intros s1 IH.
  unfold go. destruct (main_step s1) eqn:Hm; [|exact IH]. eapply rf_step; [exact IH|by left].
Qed.

Definition no_system : System := mk_Sys (Ended None) Selecting (mk_prompt typed machine1 None "" false).
Definition session : Go (World * (System + error)) := main "600" "am" "/tmp/" typed empty_world.
Definition opened : System := value no_system session.
Lemma session_runs : session = Ret (final empty_world session, inl opened).
Proof. apply run_value. vm_compute. reflexivity. Qed.

(** After five steps the command has its message for the goroutine. *)
Definition asked : System := Nat.iter 5 go opened.

Lemma prompt_deadlock_witness :
  reachable_from opened asked ∧ sys_main asked = Stopping "change_configuration" 300 ∧
  ∃ s', ticker_step asked = Some s' ∧ blocked s'.
Proof.
  assert (reachable_from opened asked) as Hr by (apply reachable_go, rf_start).
  assert (sys_main asked = Stopping "change_configuration" 300) as Hm by (vm_compute; reflexivity).
  split; [exact Hr|]. split; [exact Hm|].
  destruct (prompt_deadlock "600" "am" "/tmp/" typed empty_world (final empty_world session) opened asked
    session_runs Hr) as [_ H]; [rewrite Hm; reflexivity|].
  destruct (H _ _ Hm) as [[Hb _]|H']; [|exact H'].
  assert (match main_step asked with None => false | Some _ => true end = true) as Hs by (vm_compute; reflexivity).
  rewrite Hb in Hs. discriminate Hs.
Defined.

(** A step earlier the command is ready. *)
Definition at_command : System := Nat.iter 4 go opened.

Lemma commands_and_keys_witness :
  sys_main at_command = Ready "change_configuration" ∧ machine_in keyed (sys_prompt at_command) ∧
  ∃ s2, reachable_from at_command s2 ∧ sys_main s2 = Ready "change_configuration" ∧
    ¬ machine_in usable (sys_prompt s2).
Proof.
  assert (reachable_from opened at_command) as Hr by (apply reachable_go, rf_start).
  assert (sys_main at_command = Ready "change_configuration") as Hm by (vm_compute; reflexivity).
  destruct (commands_and_keys "600" "am" "/tmp/" typed empty_world (final empty_world session) opened at_command
    session_runs Hr) as (H1 & _ & H3).
  clear Hr. revert Hm H1 H3. generalize at_command as s. intros s Hm H1 H3. rewrite Hm in H1.
  destruct (H3 _ Hm) as (s2 & H4 & H5 & H6 & _). split; [exact Hm|]. split; [exact (H1 eq_refl eq_refl)|].
  exists s2. split; [exact H4|]. split; [exact H5|exact H6].
Defined.
