(* ===== verification/NodeWorld.v ===== *)
(** * A node in memory

    The node of [alice] over the world of [World]: a state with an offset, a
    pool and no rounds, a board with a proposal and a message that nobody
    signed; and the theorems about the node applied to it. *)

From stdpp Require Import pretty.
From S2P Require Import Prelude GoFsm Requests Payload.
From S2P Require Import SignatureProposal DkgProposal SigningProposal StateMachines Protocol.
From S2P Require Import LevelState ClientTypes OperationRepo SignatureRepo FsmService JsonText Representable.
From S2P Require Import IOLogic Kyber Dkg SigningTasks KeyStore Services NodeService ProcessMessage.
From S2P Require Import MachineStore Airgapped.
From S2P Require Import NodeSpec NodeRounds NodeFrame NodePoll NodeOperations Wire World Toy.
Import MemDB Toy.

#[local] Opaque SignatureProposal.New DkgProposal.New SigningProposal.New.

#[export] Instance toy_dumps_spec : @JSONMap bytes json_dumps := wire_map_spec.
#[export] Instance toy_dump_spec : JSONSpec FSMDump := wire_json_spec.
#[export] Instance toy_operations_spec : @JSONMap (option Operation) json_operations := wire_map_spec.

(** ** The node *)

Definition alice_pub : bytes := "alice-key-of-thirty-two-bytes---".
Definition alice_keys : KeyPair := NewKeyPair alice_pub.
Lemma alice_keys_ok : key_pair_ok alice_keys.
Proof. split_and!; [reflexivity..|]. intros msg. apply bool_decide_eq_true. reflexivity. Qed.

Definition svc : FSMService := NewFSMService "topic".
Definition pool : BaseOperationRepo := repo_of "topic".

Definition task : Operation :=
  mk_Operation "op-1" StateAwaitParticipantsConfirmations "[]" [] 1000 "round" "" "" "".
Definition pool0 : Pool := mk_Pool {["op-1" := Some task]} ∅.

Definition proposal : SignatureProposalParticipantsListRequest :=
  mk_SignatureProposalParticipantsListRequest
    [Some (mk_SignatureProposalParticipantsEntry "alice" alice_pub "alice-dkg-key");
     Some (mk_SignatureProposalParticipantsEntry "bobby" "bobby-key-of-thirty-two-bytes---" "bobby-dkg-key")] 2 1000.
Definition board0 : list Message :=
  [mk_Message "m0" "round" 0 EventInitProposal (default "" (marshal proposal)) "" "bobby" "";
   mk_Message "m1" "round" 1 EventConfirmSignatureProposal "{}" "forged" "bobby" ""].

Definition world0 : World :=
  mk_World
    (mk_LevelDBState "db" "topic" "db",
     {["db" := {[offset_key "topic" := PutUint64 0;
                 operationsCompositeKey pool := default "" (marshal (A := Operations) (Some (live_ops pool0)));
                 deleteOperationsCompositeKey pool := "{}"]}]})
    board0 {["alice" := Some alice_keys]} 1000.

Definition node0 : BaseNodeService World := mk_Node "alice" alice_pub svc pool false world0.

Lemma node0_key : has_key alice_keys node0.
Proof. split_and!; [exact I|reflexivity|reflexivity]. Qed.

Lemma node0_ready : ready (deps node0).
Proof. exact I. Qed.

Lemma node0_pool : holds pool pool0 world0.
Proof.
  split; [exact I|discriminate| | | |].
  - eexists. split; [reflexivity|]. vm_compute. reflexivity.
  - eexists. split; [reflexivity|]. vm_compute. reflexivity.
  - apply map_Forall_singleton. exact I.
  - apply map_Forall_empty.
Qed.

Lemma node0_rounds : has_rounds svc ∅ world0.
Proof. split_and!; [exact I|apply map_Forall_empty|reflexivity]. Qed.

Lemma dumps_ok : dumps_faithful.
Proof. by split. Qed.

Lemma world_clock : clock_dated (S := World).
Proof. intros w w' t [= _ <-]. apply early_dated, Z.mod_pos_bound. lia. Qed.

(** The request of a message on the board, decoded. *)
Ltac representable_tac :=
  split; [reflexivity|]; let r := fresh "r" in let Hr := fresh "Hr" in
  intros r Hr; vm_compute in Hr; injection Hr as <-; cbn; repeat constructor.

Lemma node0_apart : keys_apart svc pool (offset_key "topic").
Proof. split_and!; [intros id|..]; discriminate. Qed.

Lemma node0_offset_apart : offset_apart svc pool (offset_key "topic").
Proof. intros k [->|[->|[->|[id ->]]]]; discriminate. Qed.

(** ** The theorems applied to the node *)

Lemma built_message_verifies_witness :
  ∃ s' m, buildMessage "round" EventConfirmSignatureProposal "data" node0 = Ret (set_deps s' node0, inl m) ∧
    msg_SenderAddr m = "alice" ∧ rest s' = rest world0.
Proof.
  destruct (built_message_verifies (world := world_laws) alice_keys node0 "round" EventConfirmSignatureProposal "data"
    node0_key alice_keys_ok) as (s' & m & H & _ & Hrest & _ & _ & _ & Hs & _).
  exists s', m. split; [exact H|]. split; [exact Hs|exact Hrest].
Defined.

(** The result of the task: one message. *)
Definition result0 : Operation :=
  with_result EventConfirmSignatureProposal
    [mk_Message "" "round" 0 EventConfirmSignatureProposal "reply" "" "" ""] task.

Lemma result_is_sent_once_witness :
  ∃ s' res sent pre, executeOperation result0 node0 = Ret (set_deps s' node0, res) ∧
    board (rest s') = board0 ++ sent ∧ Forall2 sent_as pre sent.
Proof.
  destruct (result_is_sent_once (world := world_laws) alice_keys pool0 node0 result0 task) as (s' & res & sent & pre & H1 & H2 & H3 & _).
  - exact node0_key.
  - exact node0_pool.
  - reflexivity.
  - reflexivity.
  - discriminate.
  - discriminate.
  - intros s1 out _. exact I.
  - exists s', res, sent, pre. split; [exact H1|]. split; [exact H2|exact H3].
Defined.

Definition proposed : Message := default (mk_Message "" "" 0 "" "" "" "" "") (head board0).


Definition node1 : BaseNodeService World := final node0 (ProcessMessage proposed node0).
Lemma node1_run : ProcessMessage proposed node0 = Ret (node1, inl tt).
Proof. apply run_unit. vm_compute. reflexivity. Qed.

Lemma verification_stays_on_witness :
  ProcessMessage proposed node0 = Ret (node1, inl tt) ∧ SkipCommKeysVerification node1 = false ∧
  stored (deps node1) !! offset_key "topic" = Some (PutUint64 0).
Proof.
  destruct (verification_stays_on (world := world_laws) svc pool (offset_key "topic") node0_offset_apart node0 proposed node1
    (inl tt) node0_ready eq_refl eq_refl eq_refl node1_run) as (H1 & _ & _ & _ & _ & H2).
  split; [exact node1_run|]. split; [exact H1|]. rewrite H2. reflexivity.
Defined.

Lemma node0_invariant : node_rounds svc pool (offset_key "topic") node0.
Proof.
  split; [reflexivity|]. split; [reflexivity|]. split; [exact I|]. split; [reflexivity|].
  exists ∅. split_and!; [apply map_Forall_empty|done|reflexivity].
Qed.

Lemma polled_rounds_are_reachable_witness :
  ∃ n', iterIO poll_message board0 node0 = Ret (n', inl tt) ∧
    ∀ id create s' o, (create = true → text id) → GetFSMInstance svc id create (deps n') = Ret (s', inl o) → ∃ i, o = Some i ∧ reachable i.
Proof.
  assert (iterIO poll_message board0 node0 = Ret (final node0 (iterIO poll_message board0 node0), inl tt)) as Hrun
    by (apply run_unit; vm_compute; reflexivity).
  destruct (polled_rounds_are_reachable (world := world_laws) svc pool (offset_key "topic") dumps_ok world_clock node0_apart
    node0 board0 (final node0 (iterIO poll_message board0 node0)) (inl tt) node0_invariant) as [_ H].
  - repeat apply Forall_cons_2; [split; [discriminate|representable_tac]..|by apply Forall_nil].
  - exact Hrun.
  - eexists. split; [exact Hrun|exact H].
Defined.

(** A reply in the name of [alice] that she did not sign. *)
Definition forged : Message :=
  mk_Message "m2" "round" 2 EventConfirmSignatureProposal "reply" "forged" "alice" "".
Definition fetch : Go (World * (option FSMInstance + error)) :=
  GetFSMInstance svc "round" true (deps node1).
Definition round1 : FSMInstance := default (mk_FSMInstance None None) (value None fetch).

Lemma fetch_round : fetch = Ret (final world0 fetch, inl (Some round1)).
Proof.
  assert (fetch = Ret (final world0 fetch, inl (value None fetch))) as -> by (apply run_value; vm_compute; reflexivity).
  assert (match value None fetch with Some _ => true | None => false end = true) as H by (vm_compute; reflexivity).
  unfold round1, final. by destruct (value None fetch).
Qed.

Lemma node1_rounds : node_rounds svc pool (offset_key "topic") node1.
Proof.
  refine (keeps_run _ _ _ _ _ (ProcessMessage_keeps svc pool (offset_key "topic") dumps_ok world_clock node0_apart proposed _ _)
    node0_invariant node1_run); [discriminate|]. representable_tac.
Qed.

Lemma round1_reachable : reachable round1.
Proof.
  destruct node1_rounds as (_ & _ & Hs).
  destruct (post_run _ (GetFSMInstance svc "round" true) _ _ (deps node1) (final world0 fetch) (inl (Some round1))
    (GetFSMInstance_post (offset_key "topic") svc "round" true dumps_ok (fun _ => eq_refl)) Hs fetch_round) as [(i & Hi & Hre & _) _].
  apply Some_inj in Hi. rewrite Hi. exact Hre.
Qed.

Lemma fetch_forged :
  GetFSMInstance (fsmService node1) (msg_DkgRoundID forged) true (deps node1) =
    Ret (final world0 fetch, inl (Some round1)).
Proof. rewrite (proj1 node1_rounds). exact fetch_round. Qed.

Lemma round1_key : FSMInstance_GetPubKeyByUsername round1 (msg_SenderAddr forged) = Ret (inl alice_pub).
Proof. vm_compute. reflexivity. Qed.

Lemma unverified_message_is_refused_witness :
  ∃ n' e, ProcessMessage forged node1 = Ret (n', inr e) ∧ n' = set_deps (final world0 fetch) node1.
Proof.
  assert (¬ authentic round1 forged) as Hno.
  { intros (pub & Hpub & _ & Hv). rewrite round1_key in Hpub. injection Hpub as <-. discriminate Hv. }
  pose proof (unverified_message_is_refused (spec := world_spec) node1 forged (final world0 fetch) round1) as H.
  destruct (ProcessMessage forged node1) as [[n' r]|why].
  - destruct H as (Hn & [e ->] & _); [vm_compute; reflexivity|discriminate|discriminate|exact fetch_forged
      |exact round1_reachable|exact Hno|]. exists n', e. split; [reflexivity|exact Hn].
  - destruct H as (pub & Hpub & Hlen); [vm_compute; reflexivity|discriminate|discriminate|exact fetch_forged
      |exact round1_reachable|exact Hno|]. rewrite round1_key in Hpub. injection Hpub as <-. by destruct Hlen.
Defined.
