(* ===== verification/HttpWorld.v ===== *)
(** * Requests to a node in memory

    Forms read from a small request record, and the theorems of [HttpSpec]
    applied to the node of [NodeWorld]. *)

From S2P Require Import Prelude GoFsm Requests Payload.
From S2P Require Import SignatureProposal DkgProposal SigningProposal StateMachines Protocol.
From S2P Require Import LevelState ClientTypes OperationRepo SignatureRepo FsmService.
From S2P Require Import IOLogic Kyber Dkg SigningTasks KeyStore Services NodeService ProcessMessage.
From S2P Require Import MachineStore Airgapped.
From S2P Require Import NodeSpec NodeRounds NodeFrame NodePoll NodeOperations Wire World Toy NodeWorld HttpApi HttpSpec.
Import MemDB Toy.

#[local] Opaque SignatureProposal.New DkgProposal.New SigningProposal.New.

(** What the requests carry. *)
Record ToyRequest : Type := mk_ToyRequest { t_dkg : string; t_event : Event; t_data : bytes }.

Definition form {F} (f : ToyRequest → F) : Form ToyRequest F := {| Bind q := inl (f q); Validate _ := None |}.

#[export] Instance toy_forms : HttpForms ToyRequest := {
  form_message := form (fun q => mk_MessageForm "" (t_dkg q) 0 (t_event q) (t_data q) "" "" "");
  form_operation_id := form (fun q => mk_OperationIdForm (t_dkg q));
  form_dkg_id := form (fun q => mk_DkgIdForm (t_dkg q));
  form_signature_by_id := form (fun q => mk_SignatureByIDForm (t_data q) (t_dkg q));
  form_operation := form (fun q => mk_OperationForm "" "" (t_data q) [] 0 (t_dkg q) "" (t_event q) "");
  form_start_dkg := form (fun q => mk_StartDKGForm (t_data q));
  form_propose := form (fun q => mk_ProposeSignMessageForm (t_dkg q) (Some (t_data q)));
  form_propose_batch := form (fun q => mk_ProposeSignBatchMessagesForm (t_dkg q) (Some ∅));
  form_propose_baked := form (fun q => mk_ProposeSignBakedMessagesForm (t_dkg q) 0 1);
  form_reinit := form (fun q => mk_ReInitDKGForm (t_dkg q) 2 [] []);
  form_offset := form (fun q => mk_StateOffsetForm 0);
  form_reset := form (fun q => mk_ResetStateForm "" false "" []);
  raw_body := fun q => inl (t_data q)
}.

#[export] Instance toy_dtos : FormDTOs := {
  dto_message f := inl (mk_MessageDTO (mf_ID f) (mf_DkgRoundID f) (mf_Offset f) (mf_Event f) (mf_Data f)
    (mf_Signature f) (mf_SenderAddr f) (mf_RecipientAddr f));
  dto_operation_id f := inl (mk_OperationIdDTO (of_OperationID f));
  dto_dkg_id f := inl (mk_DkgIdDTO (df_DkgID f));
  dto_signature_by_id f := inl (mk_SignatureByIdDTO (sf_ID f) (sf_DkgID f));
  dto_operation f := inl (mk_OperationDTO (opf_ID f) (opf_Type f) (opf_Payload f) (opf_ResultMsgs f)
    (opf_CreatedAt f) (opf_DkgID f) (opf_To f) (opf_Event f) (opf_ExtraData f));
  dto_start_dkg f := inl (mk_StartDkgDTO (stf_Payload f));
  dto_propose f := inl (mk_ProposeSignMessageDTO (pf_DkgID f) (pf_Data f));
  dto_propose_batch f := inl (mk_ProposeSignBatchMessagesDTO (pbf_DkgID f) (pbf_Data f) None);
  dto_propose_baked f := inl (mk_ProposeSignBakedMessagesDTO (pkf_DkgID f) (pkf_RangeStart f) (pkf_RangeEnd f));
  dto_offset f := inl (mk_StateOffsetDTO (sof_Offset f));
  dto_reset f := inl (mk_ResetStateDTO (rsf_NewStateDBDSN f) (rsf_UseOffset f) (rsf_KafkaConsumerGroup f)
    (rsf_Messages f))
}.

#[export] Instance toy_router : EchoRouter := fun _ _ => "Not Found".
#[export] Instance toy_reinit_form : JSON ReInitDKGForm := {| marshal _ := Some "{}"; unmarshal _ := None |}.

Definition ask (dkg : string) : ToyRequest := mk_ToyRequest dkg "" "".


Lemma ask_ordinary path q :
  path ≠ "/resetState" → t_event q ≠ OperationProcessed → ordinary path q.
Proof. intros Hp He. split; [done|]. intros _ d Hd. unfold BindToDTO, BindToRequest in Hd. cbn in Hd. by simplify_eq. Qed.

(** A proposal on the board, a request for its dump, another proposal of the
    operator, and a route that does not exist. *)
Definition day : list Happening :=
  [Board (mk_Message "m0" "round" 0 EventInitProposal (default "" (marshal proposal)) "" "bobby" "");
   Request GET "/getFSMDump" (ask "round");
   Request POST "/startDKG" (mk_ToyRequest "" "" "payload");
   Request GET "/nowhere" (ask "")].

Lemma driven_rounds_are_reachable_witness :
  ∃ n', iterIO happen day node0 = Ret (n', inl tt) ∧
    ∀ q n2 resp, serve GET "/getFSMDump" q n' = Ret (n2, inl resp) → code resp = StatusOK →
      ∃ i, reachable i ∧ body resp = CSJsonResp (ADump (dump i)).
Proof.
  assert (iterIO happen day node0 = Ret (final node0 (iterIO happen day node0), inl tt)) as Hrun
    by (apply run_unit; vm_compute; reflexivity).
  destruct (driven_rounds_are_reachable (world := world_laws) svc pool (offset_key "topic") dumps_ok world_clock node0_apart
    node0 day (final node0 (iterIO happen day node0)) (inl tt) node0_invariant) as [_ H].
  - unfold day. repeat apply Forall_cons_2; [split; [discriminate|representable_tac]|by apply ask_ordinary..|by apply Forall_nil].
  - exact Hrun.
  - eexists. split; [exact Hrun|exact H].
Defined.
