(* ===== verification/ProviderWorld.v ===== *)
(** * A daemon on a disk and a topic in memory

    The key pair is generated and the node is started on it, with the concrete
    functions of [Toy]; the theorem of [ProviderSpec] applies to the run. *)

From stdpp Require Import pretty.
From S2P Require Import Prelude GoFsm Requests Payload.
From S2P Require Import SignatureProposal DkgProposal SigningProposal StateMachines Protocol.
From S2P Require Import LevelState ClientTypes Codec OperationRepo SignatureRepo FsmService JsonText Representable.
From S2P Require Import IOLogic Kyber Dkg SigningTasks KeyStore FileStorage KafkaStorage Services NodeService.
From S2P Require Import NodeSpec ProcessMessage NodeRounds MachineStore Airgapped.
From S2P Require Import HttpApi HttpSpec Provider ProviderSpec Wire World Toy NodeWorld HttpWorld.
Import MemDB Toy MemFile.

#[local] Opaque SignatureProposal.New DkgProposal.New SigningProposal.New.

#[export] Program Instance mem_handles : LevelDBHandles string Disk.
Next Obligation. done. Qed.
Next Obligation.
  intros d k w w' _ [= <-]. split; [done|]. intros path Hp. cbn. by rewrite db_at_insert_ne.
Qed.
Next Obligation. done. Qed.

(** The topic as the list of its values. *)
#[export] Instance list_kafka : KafkaClient (list bytes) := {
  Reader := unit;
  Writer := unit;
  kafka_NewReader _ w := (w, tt);
  kafka_NewWriter _ w := (w, tt);
  reader_Close _ w := (w, None);
  writer_Close _ w := (w, None);
  writer_WriteMessages _ ms w := (w ++ (km_Value <$> ms), None);
  reader_ReadMessages _ _ w := (w, ((fun b => mk_KafkaMessage "" b 0) <$> w, DeadlineOrCanceled));
  ReadFile _ _ := inr (Err "no such file or directory")
}.
#[export] Program Instance list_kafka_spec : KafkaClientSpec (list bytes) := { topic_log := id }.
Next Obligation. by intros c k k' r [= <-]. Qed.
Next Obligation. by intros c k k' r [= <-]. Qed.
Next Obligation. intros wr ms k k' err [= <- <-]. by exists ms. Qed.
Next Obligation. by intros r t k k' res [= <- _]. Qed.

#[export] Instance bits_faithful : MessageCodecFaithful.
Proof. intros m b [= <-] old. cbn. rewrite unbits_bits. cbn. by rewrite decode_encode. Qed.

(** A counter for clock and randomness; the clock starts again after a while. *)
#[export] Instance counter : Env Z := {
  time_Now n := Ret (n + 1, inl (n mod 1000000));
  uuid_New n := Ret (n + 1, inl ("uuid-" +:+ pretty n));
  rand_Int k n := Ret (n + 1, inl (n mod k));
  rand_Bytes _ n := Ret (n + 1, inl (pretty n))
}.
Lemma counter_dated : clock_dated (S := Z).
Proof. intros n n' t [= _ <-]. apply early_dated, Z.mod_pos_bound. lia. Qed.
#[export] Instance counter_spec : EnvSpec Z.
Proof. split; intros; repeat eexists. Qed.

#[export] Instance toy_pairs : JSON KeyPairs := map_json.
#[export] Instance toy_pairs_spec : @JSONMap (option KeyPair) toy_pairs := map_json_map.

Definition kafka_cfg : KafkaStorageConfig :=
  mk_KafkaStorageConfig "localhost:9093" "topic" "" "" "producer:p" "consumer:c" (inl 10) (inl 60).
Definition http_cfg : HttpApiConfig := mk_HttpApiConfig "localhost:8080" false false.

#[export] Instance settings : Viper := {
  viper_Unmarshal_Config := inl ("alice", "state", "keys");
  viper_Unmarshal_KafkaStorageConfig := inl (kafka_cfg, mk_IgnoreConfig "" false);
  viper_Unmarshal_HttpApiConfig := inl http_cfg;
  viper_GetString s := if s =s? flagUserName then "alice" else "keys";
  viper_GetBool _ := false
}.

Definition daemon_cfg : Config :=
  mk_Config (Some http_cfg) (Some (kafka_cfg, mk_IgnoreConfig "" false)) "alice" "state" "keys".

(** [gen_keys], then [start]. *)
Definition outside0 : Outside Disk (list bytes) Z := mk_Outside ∅ [] 1000.
Definition outside1 : Outside Disk (list bytes) Z := final outside0 (genKeyPairCommand alice_pub outside0).
Definition started : Go (Outside Disk (list bytes) Z * (BaseNodeService (Deps string Disk (list bytes) Z) + error)) :=
  startClient outside1.

(** The result of a run that is known to have one. *)
Definition result {S A} (r : Go (S * (A + error))) : is_value r = true → A :=
  match r as r return is_value r = true → A with
  | Ret (_, inl a) => fun _ => a
  | Ret (_, inr e) => fun H => False_rect A (Bool.diff_false_true H)
  | Panic w => fun H => False_rect A (Bool.diff_false_true H)
  end.
Lemma run_result {S A} (r : Go (S * (A + error))) d (H : is_value r = true) : r = Ret (final d r, inl (result r H)).
Proof. by destruct r as [[s [x|e]]|]. Qed.

Lemma started_ok : is_value started = true.
Proof. vm_compute. reflexivity. Qed.

Lemma started_node_is_sound_witness :
  ∃ o n, started = Ret (o, inl n) ∧ userName n = "alice" ∧ holds (opService n) (mk_Pool ∅ ∅) (deps n) ∧
    stored (deps n) !! offset_key "topic" = Some (PutUint64 0) ∧
    ∀ n' r, iterIO happen [Request POST "/startDKG" (mk_ToyRequest "" "" "payload")] n = Ret (n', r) →
      node_rounds (NewFSMService "topic") (repo_of "topic") (offset_key "topic") n'.
Proof.
  destruct (started_node_is_sound daemon_cfg kafka_cfg (mk_IgnoreConfig "" false) outside1
    (final outside1 started) (result started started_ok)) as (H1 & H2 & H3 & H4 & H5 & H6).
  - reflexivity.
  - reflexivity.
  - split; [discriminate|]. intros b Hb. exists {["alice" := Some (NewKeyPair alice_pub)]}.
    split; [|by apply map_Forall_singleton]. vm_compute in Hb. injection Hb as <-. vm_compute. reflexivity.
  - reflexivity.
  - by split.
  - exact counter_dated.
  - exists ∅. split_and!; [apply map_Forall_empty|by intros ? ? ?%lookup_empty_Some|vm_compute; reflexivity].
  - apply run_result.
  - exists (final outside1 started), (result started started_ok). split; [apply run_result|].
    split; [exact H1|]. split; [exact H3|]. split; [exact H4|]. intros n' r. apply H6.
    repeat apply Forall_cons_2; [by apply ask_ordinary|by apply Forall_nil].
Defined.
