(* ===== verification/CliWorld.v ===== *)
(** * The command-line client on a sample round

    A client whose requests get fixed answers, and the theorems of [CliSpec]
    applied to the round of [Samples]. *)

From S2P Require Import Prelude GoFsm Requests Payload.
From S2P Require Import SignatureProposal DkgProposal SigningProposal StateMachines Protocol Samples Rounds.
From S2P Require Import LevelState ClientTypes OperationRepo SignatureRepo FsmService.
From S2P Require Import IOLogic Kyber Dkg SigningTasks KeyStore Services NodeService.
From S2P Require Import MachineStore Airgapped HttpApi GoText CliArgs Shell Statuses Utils Cli CliSpec.
From S2P Require Import Wire Toy.

(** ** Fixed answers *)

(** A decoder that gives the same value for everything. *)
Definition fixed {A} (a : A) : JSON A := {| marshal _ := Some "{}"; unmarshal _ := Some a |}.

Definition answer {R} (r : R) : JSON (Response R) := fixed (mk_Response "" r).

Definition fixed_answers (v : Value) (d : option FSMDump)
    (signatures : gomap string (gomap string (list ReconstructedSignature))) (exported : JSON ExportedSignatures)
    : ClientJSON := {|
  json_base := answer v;
  json_operations_response := answer None;
  json_operation_response := answer None;
  json_batches_response := answer None;
  json_signatures_response := answer signatures;
  json_signature_response := answer [];
  json_dump_response := answer d;
  json_operation_file := fixed None;
  json_exported := exported;
  json_request := wire_json;
  json_string_map := fixed ∅;
  json_offset_map := fixed ∅;
  json_bytes_map := fixed ∅;
  json_batch_form := fixed (mk_ProposeSignBatchMessagesForm "" None);
  json_baked_form := fixed (mk_ProposeSignBakedMessagesForm "" 0 0);
  json_reset_form := fixed (mk_ResetStateForm "" false "" [])
|}.

(** A network that answers every request with its address. *)
Definition mirror {W} : HttpClient W := {|
  http_Get address w := Ret (w, inl (inl address));
  http_Post address _ _ w := Ret (w, inl (inl address))
|}.

Definition terminal {W} (w : W) : Term W := mk_Term "" [] w.

(** ** A round in which deals are sent *)

Lemma fsm_status_spec_witness :
  ∃ i p tail r, let d := mk_FSMDump "dkg" StateDkgDealsAwaitConfirmations (Some p) in
    let q := ADKGProposalParticipant <$> default ∅ (pay_DKGProposalPayload p ≫= dc_Quorum) in
    reachable i ∧ dump i = Some d ∧
    @Execute unit (@getFSMStatusCommand unit mirror source_order Toy.toy_kyber
        (fixed_answers (VString "alice") (Some d) None (fixed ∅)) Toy.json_keyring) cli_flags ["dkg"] (terminal tt) =
      Ret (say ("FSM current status is " +:+ StateDkgDealsAwaitConfirmations +:+ nl +:+ status_text "alice" (range q).*2 +:+ tail)
             (terminal tt), r).
Proof.
  destruct (reach_dkg (take 3 dkg_script) StateDkgDealsAwaitConfirmations ltac:(vm_compute; reflexivity))
    as (i & p & Hre & _ & (m & _ & _ & Hd) & _).
  pose proof (@fsm_status_spec unit mirror source_order Toy.toy_kyber
    (fixed_answers (VString "alice") (Some (mk_FSMDump "dkg" StateDkgDealsAwaitConfirmations (Some p))) None (fixed ∅))
    Toy.json_keyring _ _ _ i _ p cli_flags "localhost:8080" "dkg" "alice" (terminal tt) Hre Hd eq_refl eq_refl) as H.
  destruct H as (tail & r & Hrun).
  - split; by eexists.
  - exists i, p, tail, r. split; [exact Hre|]. split; [exact Hd|exact Hrun].
Defined.

(** ** A file with the participants in another order *)

Definition swapped : SignatureProposalParticipantsListRequest :=
  mk_SignatureProposalParticipantsListRequest [Some bobby; Some alice] 2 0.

Lemma sample_proposal_ok : proposal_ok sample_proposal [alice; bobby].
Proof.
  split; [reflexivity|cbn; lia|cbn; lia| | |discriminate].
  - apply (bool_decide_eq_true_1 (NoDup _)). vm_compute. reflexivity.
  - repeat apply Forall_cons_2; [..|by apply Forall_nil]; by vm_compute.
Qed.

#[local] Instance invitations_json : JSON (list (option SignatureProposalParticipantInvitationEntry)) := wire_json.

Lemma proposal_hashes_agree_witness :
  ∃ i i' resp b l hash, Create "dkg" = Ret (inl i) ∧
    FSMInstance_Do i EventInitProposal [RqParticipantsList sample_proposal] = Ret (i', (Some resp, b, None)) ∧
    rs_Data resp = Some (RdInvitations l) ∧
    @proposal_hash merge_KeySort Toy.toy_crypto swapped = Ret hash ∧
    ∀ payload, unmarshal payload = Some (Some <$> l) →
      @calcStartDKGMessageHash merge_KeySort Toy.toy_crypto invitations_json payload = Ret (inl hash).
Proof.
  destruct (Create_ok "dkg" ltac:(vm_compute; discriminate)) as (m & _ & Hc).
  destruct (@proposal_hashes_agree merge_KeySort Toy.toy_crypto invitations_json source_order _ _ "dkg" _
    sample_proposal [alice; bobby] swapped [bobby; alice] Hc sample_proposal_ok) as (i' & resp & b & l & hash & H1 & H2 & _ & H3 & H4);
    [vm_compute; discriminate|reflexivity|apply Permutation_swap|reflexivity|].
  exists (mk_FSMInstance (Some m) (Some (mk_FSMDump (TrimSpace "dkg") StateGlobalIdle (Some (fresh_payload (TrimSpace "dkg")))))),
    i', resp, b, l, hash. split_and!; [exact Hc|exact H1|exact H2|exact H3|exact H4].
Defined.
