(* ===== verification/DeskWorld.v ===== *)
(** * A computer in memory

    Files as a map, with the laws of [DiskSpec], and the theorems of [ToolSpec]
    applied to them. *)

From S2P Require Import Prelude GoFsm Requests Payload.
From S2P Require Import SignatureProposal DkgProposal SigningProposal StateMachines.
From S2P Require Import LevelState ClientTypes OperationRepo SignatureRepo FsmService.
From S2P Require Import IOLogic Kyber Dkg SigningTasks KeyStore Services NodeService ProcessMessage AdaptSpec.
From S2P Require Import MachineStore Airgapped HttpApi GoText CliArgs Shell Statuses Utils Cli CliSpec ReinitTool PrysmCheck ToolSpec.
From S2P Require Import Wire Toy CliWorld.

(** ** Files *)

Abbreviation Desk := (gmap string bytes) (only parsing).

Definition read (path : string) (w : Desk) : bytes + error :=
  match w !! path with Some b => inl b | None => inr (Err "no such file") end.

#[export] Instance desk_infiles : InputFiles Desk := fun path w => Ret (w, read path w).
#[export] Instance desk_opened : OpenedFiles Desk := fun path w =>
  Ret (w, match read path w with inl b => inl (inl b) | inr e => inr e end).
#[export] Instance desk_files : ResultFiles Desk := {
  os_OpenFile path w := Ret (<[path := default "" (w !! path)]> w, inl tt);
  os_Write path b w := Ret (<[path := b +:+ sdrop (String.length b) (default "" (w !! path))]> w, inl tt)
}.
#[export] Instance desk_out : OutputFiles Desk := fun path b w => Ret (<[path := b]> w, inl tt).
#[export] Instance desk_dirs : Directories Desk := fun path w => Ret (w, inr (Err "no such directory")).

#[export] Program Instance desk_spec : DiskSpec Desk := { content w := w }.
Next Obligation. done. Qed.
Next Obligation. intros path w. unfold os_Open, desk_opened, read. by destruct (w !! path). Qed.
Next Obligation. intros path w. by eexists. Qed.
Next Obligation. intros path b w old Hold. eexists. split; [reflexivity|]. by rewrite Hold. Qed.
Next Obligation. intros path b w. by eexists. Qed.

(** ** Signatures of a batch, exported and verified *)

#[local] Instance toy_prysm : PrysmBLS := {
  PrysmPublicKey := bytes;
  PrysmSignature := bytes;
  PublicKeyFromBytes := inl;
  SignatureFromBytes := inl;
  prysm_Verify sig pk msg := sig =s? pk +:+ "/" +:+ msg
}.

Definition signature_of (user sig : string) : ReconstructedSignature :=
  mk_ReconstructedSignature "file" "batch" "message" "payload" sig user "round-1" 0.

Definition known : gomap string (gomap string (list ReconstructedSignature)) :=
  Some {["batch" := Some {["message" := [signature_of "alice" "key/text"; signature_of "bobby" "key/other"]]}]}.

Definition dump0 : ExportedSignatures := {["message" := mk_ExportedSignatureEntity "payload" "key/text" "file"]}.

Definition desk0 : Desk := {["data/file" := "text"; "/tmp/dkg_signatures_dump_round.json" := "old"]}.

Definition exporting : ClientJSON := fixed_answers (VString "") None known (known_json "{ dump }" dump0).

Lemma exported_signatures_verify_witness :
  ∃ t1 t2,
    @Execute Desk (@exportSignaturesCommand Desk mirror desk_files source_order exporting) cli_flags ["round-1"] (terminal desk0) =
      Ret (t1, inl tt) ∧
    Execute (@verifyBatch Desk desk_infiles toy_prysm source_order (known_json "{ dump }" dump0)) cli_flags
      ["/tmp/dkg_signatures_dump_round.json"; base64_EncodeToString "key"; "data"] t1 = Ret (t2, inl tt).
Proof.
  assert (export_path "/tmp" "round-1" = "/tmp/dkg_signatures_dump_round.json") as Hpath by (vm_compute; reflexivity).
  assert (merge_batches (ord := source_order) (default ∅ known) =
    {["message" := [signature_of "alice" "key/text"; signature_of "bobby" "key/other"]]}) as Hm by (vm_compute; reflexivity).
  destruct (@exported_signatures_verify Desk mirror _ _ _ _ desk_spec source_order exporting toy_prysm
    cli_flags "localhost:8080" "/tmp" "round-1" (terminal desk0) "http://localhost:8080/getSignatures?dkgID=round-1"
    (default ∅ known) "{ dump }" (base64_EncodeToString "key") "key" "key" "data") as (t1 & t2 & r & H1 & Hc & H2 & _ & Hiff).
  - reflexivity.
  - reflexivity.
  - reflexivity.
  - reflexivity.
  - reflexivity.
  - rewrite Hm. apply (bool_decide_eq_false_1 (_ = ∅)). vm_compute. reflexivity.
  - rewrite Hm. apply map_Forall_singleton. discriminate.
  - vm_compute. discriminate.
  - reflexivity.
  - rewrite Hm. vm_compute. reflexivity.
  - intros old Hold. rewrite Hpath in Hold. vm_compute in Hold. injection Hold as <-. vm_compute. discriminate.
  - vm_compute. reflexivity.
  - reflexivity.
  - rewrite Hpath in H2, Hc. exists t1, t2. split; [exact H1|].
    assert (r = inl tt) as Hr; [|rewrite Hr in H2; exact H2].
    apply Hiff. intros id e es. rewrite Hm. intros [_ [= <- _]]%lookup_singleton_Some.
    exists "key/text", "text". split_and!; [reflexivity| |vm_compute; reflexivity].
    rewrite Hc. cbn [content desk_spec outer terminal]. vm_compute. reflexivity.
Defined.

(** ** A board of three messages, reinitialised *)

Definition logged : list Message :=
  [log_message EventInitProposal "proposal"; log_message EventDKGDealConfirmationReceived "deal";
   log_message EventSigningStart "start"].

#[local] Instance toy_csv : CSV := fun separator data => inl (split_on separator <$> split_on newline data).
(** A text is the position of its message in the log. *)
#[local] Instance toy_into : JSONInto Message := fun _ text => logged !! Z.to_nat (Atoi text).1.
#[local] Instance toy_reinit : ReinitJSON := {
  MarshalIndent r := @marshal ReDKG Toy.json_redkg r;
  decode_keys _ := Some (Some {["alice" := "new-key"]})
}.

Definition board_file : bytes := "id;text" +:+ nl +:+ "a;0" +:+ nl +:+ "b;1" +:+ nl +:+ "c;2".
Definition desk1 : Desk := {["board.csv" := board_file; "./keys.json" := "keys"]}.
Definition tool_flags : gmap string FlagValue :=
  <[flagInputFile := FString "board.csv"]> (<[flagColumnIndex := FInt 1]> (<[flagSkipHeader := FBool true]> reinit_flags)).

Lemma board_dumped : dumped tool_flags (content (outer (terminal desk1))) logged.
Proof.
  split. exists ";"%char, "", "board.csv", board_file, [["a"; "0"]; ["b"; "1"]; ["c"; "2"]], 1, true, ["id"; "text"].
  do 6 (split; [vm_compute; reflexivity|]). split; [done|].
  repeat apply Forall2_cons_2; [..|by apply Forall2_nil_2];
    (eexists; split; [reflexivity|]); intros before; vm_compute; reflexivity.
Qed.

Lemma reinit_file_spec_witness :
  ∃ t1 r bz l,
    Execute (@reinit Desk desk_opened desk_out toy_csv toy_into toy_reinit log_json (fun n => "uuid")) tool_flags []
      (terminal desk1) = Ret (t1, inl tt) ∧
    outer t1 !! "./reinit.json" = Some bz ∧ MarshalIndent r = Some bz ∧
    re_Messages r = renumber 0 l ∧ adapted (jreq := log_json) [] (take 2 logged) l.
Proof.
  assert (Forall (proposal_present (jreq := log_json)) (before_signing logged)) as Hprop.
  { repeat (apply Forall_cons; split); [|discriminate|done]. intros _. exists log_proposal. eexists [_]. split; reflexivity. }
  destruct (@reinit_file_spec Desk desk_infiles desk_files desk_opened desk_out desk_spec toy_csv toy_into toy_reinit
    log_json Toy.toy_crypto Toy.json_redkg (fun n => "uuid") tool_flags (terminal desk1) logged "./keys.json" "keys"
    (Some {["alice" := "new-key"]}) "./reinit.json" board_dumped Hprop) as (t1 & res & Hrun & Hres);
    [vm_compute; reflexivity..|discriminate|].
  destruct res as [[]|err].
  - destruct Hres as (r & bz & l & Hc & Hbz & _ & _ & _ & Hl & Had & _). exists t1, r, bz, l.
    split_and!; [exact Hrun| |exact Hbz|exact Hl|exact Had].
    change (outer t1) with (content (outer t1)). rewrite Hc. apply lookup_insert_eq.
  - exfalso. vm_compute in Hrun. discriminate Hrun.
Defined.
