(* ===== verification/OperatorWorld.v ===== *)
(** * An operator at a node in memory

    The node of [NodeWorld] behind the network, the computer of [DeskWorld], and
    the theorem of [Operator] applied to a session of theirs. *)

From S2P Require Import Prelude GoFsm Requests Payload.
From S2P Require Import SignatureProposal DkgProposal SigningProposal StateMachines Protocol.
From S2P Require Import LevelState ClientTypes OperationRepo SignatureRepo FsmService.
From S2P Require Import IOLogic Kyber Dkg SigningTasks KeyStore Services NodeService ProcessMessage.
From S2P Require Import MachineStore Airgapped HttpApi HttpSpec GoText CliArgs Shell Statuses Utils Cli CliSpec Operator.
From S2P Require Import NodeSpec NodeRounds NodeFrame NodePoll NodeOperations Wire World Toy NodeWorld HttpWorld CliWorld DeskWorld.
Import MemDB Toy.

#[local] Opaque SignatureProposal.New DkgProposal.New SigningProposal.New.

(** The round and the payload of every request. *)
#[local] Instance toy_network : Network ToyRequest := {
  connects _ := None;
  request_of address data := mk_ToyRequest "round" "" data;
  body_of _ := inl "{}"
}.
#[local] Instance toy_keysort : KeySort := merge_KeySort.
#[local] Instance toy_floats : FloatConversion := fun m e => 0.
#[local] Instance toy_client : ClientJSON := fixed_answers (VString "alice") None None (fixed ∅).
#[local] Instance desk_clock : Env Desk := {
  time_Now := mret 2000;
  uuid_New := mret "uuid";
  rand_Int _ := mret 0;
  rand_Bytes _ := mret ""
}.

Definition site0 : Term (BaseNodeService World * Desk) := terminal (node0, ∅).

Definition morning : list (SessionStep (S := World) (F := Desk)) :=
  [Polled (mk_Message "m0" "round" 0 EventInitProposal (default "" (marshal proposal)) "" "bobby" "");
   Operated getUsernameCommand [];
   Carried (fun _ => {["proposal.json" := default "" (marshal proposal)]});
   Operated startDKGCommand ["proposal.json"];
   Operated saveOffsetCommand ["1"]].

Lemma morning_common : Forall common morning.
Proof.
  unfold morning. repeat apply Forall_cons_2; [..|by apply Forall_nil]; cbn [common];
    first [ split; [discriminate|representable_tac] | exact I
          | split_and!; [apply (list_elem_of_lookup_2 _ 7%nat); reflexivity|discriminate..]
          | split_and!; [apply (list_elem_of_lookup_2 _ 4%nat); reflexivity|discriminate..]
          | split_and!; [apply (list_elem_of_lookup_2 _ 14%nat); reflexivity|discriminate..] ].
Qed.

Lemma operator_session_witness :
  ∃ t, iterIO (session_step cli_flags) morning site0 = Ret (t, inl tt) ∧
    node_rounds svc pool (offset_key "topic") (outer t).1 ∧
    ∀ c args t2 r2, c ∈ query_commands → operate cli_flags c args t = Ret (t2, r2) → (outer t2).1 = (outer t).1.
Proof.
  assert (iterIO (session_step cli_flags) morning site0 =
    Ret (final site0 (iterIO (session_step cli_flags) morning site0), inl tt)) as Hrun
    by (apply run_unit; vm_compute; reflexivity).
  destruct (operator_session (world := world_laws) svc pool (offset_key "topic") dumps_ok world_clock node0_apart cli_flags
    "localhost:8080" eq_refl eq_refl site0 (final site0 (iterIO (session_step cli_flags) morning site0)) morning (inl tt)
    node0_invariant morning_common Hrun) as [Hn Hq].
  eexists. split; [exact Hrun|]. split; [exact Hn|exact Hq].
Defined.
